(* ===== verification/_CoqProject ===== *)
-Q . S2P
Prelude.v
GoStrings.v
Routes.v
Json.v
Marshal.v
Prefixes.v
Wire.v
Password.v
Gate.v
FileSystem.v
Tables.v
Sha256.v
Store.v
Guarantee.v
Files.v
Trees.v
AuthSecurity.v
Bootstrap.v
FileSeal.v
UserConfig.v
ConfigStore.v
Sessions.v
Rotation.v
Lockout.v
Retention.v
Issue.v
Users.v
Accounts.v
Administration.v
Resets.v
Middleware.v
Router.v
Handlers.v
Boundary.v
Urls.v
UrlRefs.v
Codegen.v
BusTypes.v
Cors.v
Processlock.v
Separation.v
Databases.v
Gateway.v
BusClient.v
ServiceBus.v
CustomConf.v
BusServer.v
Commands.v
Provisioning.v
Daemon.v
Utilities.v
Events.v
UserApi.v
VulnPolicy.v
Dependencies.v
Sources.v
Migration.v
