(* ===== verification/Prelude.v ===== *)
(** * ReCasaOS user service: verification development

    The program is the user service of a home server: it keeps accounts and
    sessions in an SQLite database, answers the v1 and v2 HTTP APIs, stores each
    user's configuration files, and is set up and repaired by commands that an
    operator runs as root. This library models it file by file as executable
    functions and proves what makes it correct. Every definition keeps the name
    the source gives it where Rocq allows that.

    ** The parts and where they are modelled

    Foundations:
    - Prelude: Go's errors and results, the sentinel errors, the hint databases
      and the tactic for boolean guards.
    - GoStrings: what is used of strings, strconv, encoding/hex and
      encoding/base64. Sha256: crypto/sha256. Urls and UrlRefs: net/url,
      net.SplitHostPort, net.ParseIP as of Go 1.26, with the resolution of
      references. Json, Marshal and Prefixes: UTF-8 and encoding/json, as a
      parser that is proved to consume its input, a printer that is proved to be
      read back, and that an object cut short is no JSON. Wire: how values of Go
      are written and decoded, as a class with the law that they come back. Routes: what is relied on of echo's router.
    - Tables and Store: SQL statements on finite maps; the row types of
      src/service/model and src/model/event.go; the database, the world
      (database, files, clock, entropy, key derivations) and the monad all
      operations run in. Between two statements the rest of the system may act,
      a statement may fail and time passes, as a schedule says.
    - Guarantee: rely-guarantee rules for operations under such interference.
    - FileSystem, Files and Trees: a table of inodes with names, modes, owners,
      symbolic links and flock locks, the system calls on it, and the
      equivalences and invariants of such tables.

    Components:
    - Password: src/pkg/password/password.go, Argon2id verifiers. Gate: the
      channel that lets one goroutine derive a key at a time.
    - AuthSecurity: src/pkg/authsecurity, session tokens and the public key set.
    - Bootstrap: src/pkg/userbootstrap/bootstrap.go, the state machine that lets
      an appliance be set up once. It relies on a seal through the class
      SealSpec; FileSeal (src/pkg/userbootstrap/file_seal.go) implements it.
    - UserConfig and ConfigStore: src/pkg/userconfig/store.go and its refinement
      to a map. CustomConf: the endpoints on it (src/route/v1/user.go).
    - Sessions, Rotation, Lockout and Retention: src/service/session.go, the
      operations in the first file and the theorems on rotation of refresh
      sessions, the login budget, logout and pruning in the others.
    - Issue: src/service/session_issue.go, login and refresh.
    - Users, Accounts, Administration and Resets: src/service/user.go, the
      operations in the first file and the theorems on authentication, account
      changes and the local bootstrap and resets in the others.
    - Middleware: src/route/auth.go and the authentication of src/route/v2.go.
      Router: the routes of src/route/v1.go and the chain of src/route/v2.go.
      Handlers and Boundary: the handlers of src/route/v1/user.go and what they
      guarantee to their callers, the bound on sequential guesses included.
    - Cors: src/route/cors.go.
    - Processlock: src/pkg/processlock/lock.go. Databases: src/pkg/sqlite/db.go
      and the configuration of src/pkg/config/init.go. Separation: the check of
      src/main.go that seal and database are apart. Gateway:
      src/pkg/gatewayclient/gatewayclient.go and the registration of routes.
      Commands: the flags, the credential files, the resets and the daemon's
      preparation in src/main.go. Provisioning: the bootstrap command as a whole,
      with the administrator's data directory. Daemon: the rest of src/main.go
      and src/service/service.go, from the arguments to the end of serving.
    - Codegen: what the two generated servers of src/codegen have in common.
      BusTypes, BusClient and BusServer: src/codegen/message_bus/api.go, its
      messages and their JSON, the client and the server. ServiceBus: the client
      src/service/service.go hands out and its uses in src/main.go and
      src/route/v1/user.go.
    - Events: src/service/event.go, src/route/v2/api_route_event.go and the
      listener of src/route/event_listen.go. UserApi:
      src/codegen/user_service/user_service_api.go, src/route/v2/route.go and the
      whole chain of src/route/v2.go, down to the rows.
    - Utilities: the request log of src/route/logging.go, the documentation pages
      of src/route/v2.go, src/pkg/utils/random/random.go and the upload of
      src/service/user.go.

    Tools beside the service:
    - Migration: src/cmd/migration-tool.
    - VulnPolicy: src/scripts/govuln-policy.go. Dependencies and Sources:
      src/scripts/check-go-dependency-boundary.go, the package graph in the first
      file, the walk over the sources and the command in the second.

    State is passed explicitly: an operation is a function from the world to its
    result and the world it leaves. Errors are values ([res]); a Go panic is
    [None]. Machine integers are Z or N with their bounds written out. Shared
    arguments of a group of operations are Section variables.

    ** What the theorems show

    - Exactness: what an operation returns and leaves behind on every branch, on
      every schedule of faults unless its condition says otherwise (hash_verify_roundtrip, rotate_exact,
      authenticate_exact, change_password_exact, logout_complete, login_endpoint,
      file_seal_publication, reset_commands, event_store, cors_allowlist,
      vulnerability_policy, migration_order).
    - The program as a whole: bootstrap_command composes the gates of the command,
      the policy of the service, the state machine and the seal on disk;
      daemon_lifecycle composes the lock, the preparation, the gateway and the
      address file, and follows the lock to the end; user_api follows a v2 request
      from its path through router, middleware, validation and wrapper to the rows.
    - Interfaces: bus_agreement shows that each request the generated client builds
      is routed by the generated server to its operation with its parameters, and
      bus_traffic what the service sends over it, and that without an address it
      sends nothing.
    - Safety under interference: replays are contained and digests used once, no
      login grants anything, no route but five is reached with a retired token, the
      last administrator survives, users act on and see their own data only, the
      process lock excludes, the gateway credential stays on the machine
      (rotate_replay_contained, rotate_single_use, login_never_grants,
      router_guards, last_admin_survives, own_account_only,
      audit_scoped, process_lock, gateway_calls). The class Stable (Processlock)
      gathers what all file operations of the program keep, a lock that is held
      among it, so that the commands and the daemon hold theirs throughout.
    - Invariants and state machines: the session store stays consistent over
      every sequence of operations; setup, once sealed, is never reopened by
      starts, bootstrap attempts or rewrites of the database
      (session_store_invariant, sealed_forever, bootstrap_success,
      bootstrap_atomic); however goroutines interleave, one key is derived at a
      time and every call returns its own (gate_serialises).
    - Refinement: reconciliation, the login budget, the middleware and the
      configuration store implement abstract machines (reconcile_repairs,
      record_failure_refines, middleware_exact, config_store_refines); the seal's
      separation check equals a test on physical paths (seal_outside_database).
    - Termination: how the event listener ends, and that the dependency gate ends
      with a verdict and with which (listener_end, boundary_command).
    - Round trips, bounds and liveness: parse_canonical, save_setup_roundtrip, jwks_faithful,
      mint_validate_roundtrip,
      verify_bounded_work, guesses_bounded, config_roundtrip.
    - Failures: what is left behind when an operation fails is part of the exact
      theorems; listener_end shows that a failed read stops the event listener.

    ** Bounds

    Path walks follow at most 40 symbolic links, as Linux does; a walk that needs
    more fails with ELOOP, so no fuel runs out silently. Temporary names are tried
    as often as the code tries them, and the gateway's address is awaited for ten
    attempts. An IPv6 address has at most eight groups. Trimming white space
    removes at most as many spaces as there are bytes. The listener makes its 1000
    attempts; what it does after connecting is stated for every number of turns.
    The JSON parser has fuel of twice the length of the text and one, a stream of
    values the length of the text and one, which parse_total and decodeNext_spec
    show to be enough. The walk over the sources has fuel for the depth of the
    tree, which boundary_command assumes to be bounded and shallow_bounded decides.
    Every other recursion is structural.

    ** Parameters

    Code that is not in the repository is an argument with named laws, and a
    witness shows that these can hold: Argon2 ([IDKey]), the JWT library ([JWT],
    [JWTSpec]), gorm's opening and migration ([Gorm], [GormSpec]), the ini parser,
    the text of a time, the HTTP exchange, echo's choice of a route
    ([RouterSpec]), listening and serving ([Outside], [OutsideSpec]), systemctl and the migration interface, the import literals the
    Go parser finds,
    SQLite's choice of row identifiers and its coercion of text to numbers, the
    status codes and constants of CasaOS-Common. oapi-codegen's runtime package
    writes and binds parameters ([StylesPath], [BindsPath], [ParameterSpec],
    [EventParameters]).

    ** Not modelled

    The bytes on the network: listening, serving, websockets and systemd's
    notification are parameters. The rate limiters' clocks: only their verdicts
    matter and these are arguments. Erasing secrets from memory. The API documents embedded
    in src/codegen, which are deflate-compressed and handed to kin-openapi: the base
    path and the security requirement they state are arguments. The interfaces
    ClientInterface and ClientWithResponsesInterface, which only list the methods.
    The middleware for CORS, compression and logging in front of the v1 routes, and
    what echo runs when no route fits. That neither HTTP client of the gateway follows
    a redirect (CheckRedirect) is part of what the HTTP exchange is taken to do.

    Two simplifications of paths: a path is the list of its elements, so that a slash
    at its end does not follow a symbolic link there, which makes the checks of
    credential files and of the database directory stricter than the code for such
    spellings; and filepath.EvalSymlinks, too, gives up after 40 links where Go
    follows 255.

    Requests at the same time: the properties of single operations that speak of
    interference cover it; guesses_bounded and the faultless parts of login_endpoint
    are about requests one after the other (the check of the lock and the record of a
    failure are separate statements). *)

From stdpp Require Import prelude strings gmap sorting.
From Stdlib Require Import ZArith Lia.

#[global] Arguments String.append !s1 s2 /.

(** ** Go errors and results *)

(** The sentinel errors of the packages that are modelled, one constructor per
    [errors.New] bound to a package variable, and the sentinels of the
    libraries the code compares against with [errors.Is]. *)
Inductive sentinel :=
| ErrInvalidCredentials | ErrPasswordChanged | ErrLastAdmin
| ErrNotAdministrator | ErrUserNotFound | ErrInvalidUsername
| ErrInvalidResetTarget | ErrResetTargetIsAdministrator | ErrWeakPassword
| ErrRefreshSessionReused | ErrRateLimitLocked | ErrInvalidRefreshSession
| ErrRefreshSigning
| ErrInvalidHash | ErrPassword
| ErrAlreadyInitialized | ErrRecoveryRequired | ErrInconsistentState
| ErrInvalidSessionToken | ErrSessionTokenID
| ErrInvalidAccessToken | ErrInvalidRefreshToken
| ErrRecordNotFound | ErrNoRows | ErrMissingWhereClause
| ErrNotExist | ErrExist | EWOULDBLOCK | ErrAlreadyLocked
| ErrInvalidKey | ErrInvalidUserID | ErrUnsafeStorage | ErrConfigTooLarge | ErrTemporaryCreate
| ErrServerClosed.

#[export] Instance sentinel_eq_dec : EqDecision sentinel.
Proof. solve_decision. Defined.

(** What a failing SQL statement reports. The two "missing" cases are the ones
    [ignoreMissingAuthTable] recognises by their text. *)
Inductive dberr :=
| NoSuchTable | NoSuchColumn | ConstraintFailed | StoreFailure.

#[export] Instance dberr_eq_dec : EqDecision dberr.
Proof. solve_decision. Defined.

(** A Go [error] value: a sentinel, an anonymous [errors.New], an error of the
    store, [fmt.Errorf("...: %w", e)] or [errors.Join]. *)
Inductive goerr :=
| Sentinel (s : sentinel)
| NewError (msg : string)
| StoreError (d : dberr)
| Wrap (msg : string) (e : goerr)
| Join (e1 e2 : goerr).

#[export] Instance goerr_eq_dec : EqDecision goerr.
Proof. solve_decision. Defined.

Coercion Sentinel : sentinel >-> goerr.

(** [errors.Is]: the chain of [%w] and the branches of [Join] are searched. *)
Fixpoint errors_Is (e : goerr) (target : sentinel) : bool :=
  match e with
  | Sentinel s => bool_decide (s = target)
  | NewError _ | StoreError _ => false
  | Wrap _ e' => errors_Is e' target
  | Join e1 e2 => errors_Is e1 target || errors_Is e2 target
  end.

(** [errors.Join] of two possibly nil errors. *)
Definition errors_Join (e1 e2 : option goerr) : option goerr :=
  match e1, e2 with
  | None, None => None
  | Some e, None | None, Some e => Some e
  | Some a, Some b => Some (Join a b)
  end.

(** A Go function returning [(T, error)] whose value is the zero value on every
    error path. *)
Inductive res (A : Type) :=
| Ok (a : A)
| Err (e : goerr).
Arguments Ok {A} a.
Arguments Err {A} e.

Definition res_bind {A B} (r : res A) (k : A → res B) : res B :=
  match r with Ok a => k a | Err e => Err e end.

Definition is_Ok {A} (r : res A) : bool :=
  match r with Ok _ => true | Err _ => false end.

(** The error of a result, [None] for nil. *)
Definition error_of {A} (r : res A) : option goerr :=
  match r with Ok _ => None | Err e => Some e end.

Declare Scope go_scope.
Delimit Scope go_scope with go.

Notation "'let?' x ':=' r 'in' k" := (res_bind r (λ x, k))
  (at level 10, x name, r at level 100, k at level 200) : go_scope.

(** ** Automation *)

(** Follow-up states of a run in a quiet world; runs that only touch files;
    guarantees under interference; the invariant of the session store; what a
    request may do to its caller's account. *)
Create HintDb store.
Create HintDb files.
Create HintDb within.
Create HintDb store_ok.
Create HintDb own.
Create HintDb locks.

(** Turns the boolean guards of the context into propositions. *)
Ltac bool_split :=
  repeat match goal with
  | H : _ || _ = false |- _ => apply orb_false_elim in H as [? ?]
  | H : _ && _ = true |- _ => apply andb_prop in H as [? ?]
  | H : negb _ = false |- _ => apply negb_false_iff in H
  | H : negb _ = true |- _ => apply negb_true_iff in H
  | H : bool_decide _ = true |- _ => apply bool_decide_eq_true in H
  | H : bool_decide _ = false |- _ => apply bool_decide_eq_false in H
  | H : (_ <? _)%Z = false |- _ => apply Z.ltb_ge in H
  | H : (_ <? _)%Z = true |- _ => apply Z.ltb_lt in H
  | H : (_ <=? _)%Z = true |- _ => apply Z.leb_le in H
  | H : (_ <=? _)%Z = false |- _ => apply Z.leb_gt in H
  end.
