(* ===== verification/GoStrings.v ===== *)
(** * The parts of Go's [strings], [strconv], [encoding/hex] and
    [encoding/base64] the service uses, and [sort.Strings].

    A Go [string] or [[]byte] is a [string] of the Standard Library: a sequence
    of 8-bit [ascii] values. Byte-level codecs regroup the bits of the bytes, so
    a sextet or a nibble is a tuple of booleans, most significant bit first. *)

From stdpp Require Import prelude strings gmap sorting.
From Stdlib Require Import ZArith Lia Ascii DecimalString DecimalN DecimalFacts.
From S2P Require Import Prelude.

Local Open Scope string_scope.

(** ** Searching and splitting *)

(** [strings.IndexByte(s, c) >= 0]. *)
Fixpoint contains_byte (c : ascii) (s : string) : bool :=
  match s with
  | EmptyString => false
  | String a s' => bool_decide (a = c) || contains_byte c s'
  end.

(** [strings.ContainsAny(s, chars)] for ASCII [chars]. *)
Fixpoint contains_any (chars s : string) : bool :=
  match s with
  | EmptyString => false
  | String a s' => contains_byte a chars || contains_any chars s'
  end.

(** [strings.HasPrefix(s, p)]. *)
Fixpoint has_prefix (p s : string) : bool :=
  match p, s with
  | EmptyString, _ => true
  | String a p', String b s' => bool_decide (a = b) && has_prefix p' s'
  | String _ _, EmptyString => false
  end.

(** [strings.Contains(s, sub)]. *)
Fixpoint contains (sub s : string) : bool :=
  has_prefix sub s ||
  match s with
  | EmptyString => false
  | String _ s' => contains sub s'
  end.

(** Every byte satisfies [p]. *)
Fixpoint all_bytes (p : ascii → bool) (s : string) : bool :=
  match s with
  | EmptyString => true
  | String a s' => p a && all_bytes p s'
  end.

(** [strings.Split(s, sep)] for a one-byte separator. *)
Fixpoint split_on (c : ascii) (s : string) : list string :=
  match s with
  | EmptyString => [""]
  | String a s' =>
     if bool_decide (a = c) then "" :: split_on c s'
     else match split_on c s' with
          | [] => [String a ""]
          | h :: t => String a h :: t
          end
  end.

(** [strings.Join(parts, sep)] for a one-byte separator. *)
Fixpoint join_with (c : ascii) (parts : list string) : string :=
  match parts with
  | [] => ""
  | [p] => p
  | p :: ps => p +:+ String c (join_with c ps)
  end.

(** [s[n:]] *)
Fixpoint drop_bytes (n : nat) (s : string) : string :=
  match n, s with
  | O, _ => s
  | S n', String _ s' => drop_bytes n' s'
  | S _, EmptyString => ""
  end.

(** [s[:n]] *)
Fixpoint take_bytes (n : nat) (s : string) : string :=
  match n, s with
  | O, _ => ""
  | S n', String a s' => String a (take_bytes n' s')
  | S _, EmptyString => ""
  end.

(** [s[i:j]] *)
Definition slice (i j : nat) (s : string) : string :=
  take_bytes (j - i)%nat (drop_bytes i s).

(** [strings.HasSuffix(s, suf)]. *)
Definition has_suffix (suf s : string) : bool :=
  bool_decide (String.length suf ≤ String.length s)%nat &&
  bool_decide (drop_bytes (String.length s - String.length suf)%nat s = suf).

Definition trim_prefix (p s : string) : string :=
  if has_prefix p s then drop_bytes (String.length p) s else s.

Definition trim_suffix (suf s : string) : string :=
  if has_suffix suf s
  then take_bytes (String.length s - String.length suf)%nat s else s.

(** [strings.Cut(s, c)] for a one-byte separator; [None] when it is not found. *)
Fixpoint cut (c : ascii) (s : string) : option (string * string) :=
  match s with
  | EmptyString => None
  | String a s' =>
     if bool_decide (a = c) then Some ("", s')
     else match cut c s' with
          | Some (before, after) => Some (String a before, after)
          | None => None
          end
  end.

(** The same at the last occurrence, what [strings.LastIndex] is used for. *)
Fixpoint cut_last (c : ascii) (s : string) : option (string * string) :=
  match s with
  | EmptyString => None
  | String a s' =>
     match cut_last c s' with
     | Some (before, after) => Some (String a before, after)
     | None => if bool_decide (a = c) then Some ("", s') else None
     end
  end.

(** [strings.Count(s, c)] for a one-byte [c]. *)
Fixpoint count_byte (c : ascii) (s : string) : nat :=
  match s with
  | EmptyString => 0
  | String a s' => (if bool_decide (a = c) then 1 else 0) + count_byte c s'
  end.

(** ** White space and case *)

(** The encodings of the code points [unicode.IsSpace] accepts. *)
Definition spaces : list string :=
  [String "009" ""; String "010" ""; String "011" ""; String "012" ""; String "013" ""; " ";
   String "194" (String "133" ""); String "194" (String "160" "");
   String "225" (String "154" (String "128" ""))] ++
  ((λ b, String "226" (String "128" (String (ascii_of_N b) ""))) <$>
     [128; 129; 130; 131; 132; 133; 134; 135; 136; 137; 138; 168; 169; 175]%N) ++
  [String "226" (String "129" (String "159" "")); String "227" (String "128" (String "128" ""))].

(** Removes [trim sp] of a space [sp] that [at_end] finds, at most [n] times. *)
Fixpoint strip (at_end : string → string → bool) (trim : string → string → string) (n : nat) (s : string) : string :=
  match n with
  | O => s
  | S n' => match List.find (λ sp, at_end sp s) spaces with
            | Some sp => strip at_end trim n' (trim sp s)
            | None => s
            end
  end.

(** [strings.TrimSpace(s)]: at most [len s] spaces at either end. *)
Definition TrimSpace (s : string) : string :=
  let left := strip has_prefix trim_prefix (String.length s) s in
  strip has_suffix trim_suffix (String.length left) left.

(** Byte classes the validators share. *)
Definition byte_val (a : ascii) : N := N_of_ascii a.

Definition in_range (lo hi a : ascii) : bool :=
  ((byte_val lo <=? byte_val a) && (byte_val a <=? byte_val hi))%N.

Definition is_letter (a : ascii) : bool := in_range "a" "z" a || in_range "A" "Z" a.
Definition is_digit (a : ascii) : bool := in_range "0" "9" a.

Definition to_lower (a : ascii) : ascii :=
  if in_range "A" "Z" a then ascii_of_N (byte_val a + 32) else a.

(** [f] on every byte. *)
Fixpoint map_bytes (f : ascii → ascii) (s : string) : string :=
  match s with EmptyString => "" | String a s' => String (f a) (map_bytes f s') end.

Definition byte_LF : ascii := "010".
Definition byte_CR : ascii := "013".
Definition byte_NUL : ascii := "000".

(** ** Lemmas on splitting and joining *)

Lemma split_on_ne_nil c s : split_on c s ≠ [].
Proof. destruct s; simpl; [done|]. case_bool_decide; [done|]. by destruct split_on. Qed.

Lemma join_split c s : join_with c (split_on c s) = s.
Proof.
  induction s as [|a s IH]; simpl; [done|]. case_bool_decide as Ha.
  - subst. pose proof (split_on_ne_nil c s). destruct (split_on c s); [done|].
    change (String c (join_with c (s0 :: l)) = String c s). by rewrite IH.
  - pose proof (split_on_ne_nil c s). destruct (split_on c s) as [|h [|h2 t]]; [done|..];
      simpl in *; by rewrite <- IH.
Qed.

Lemma split_on_no_sep c s : contains_byte c s = false → split_on c s = [s].
Proof.
  induction s as [|a s IH]; simpl; [done|]. intros [Ha Hs]%orb_false_iff.
  rewrite Ha. by rewrite IH.
Qed.

Lemma split_on_app c p s :
  contains_byte c p = false → split_on c (p +:+ String c s) = p :: split_on c s.
Proof.
  induction p as [|a p IH]; simpl.
  - by rewrite bool_decide_eq_true_2.
  - intros [Ha Hp]%orb_false_iff. rewrite Ha, IH; done.
Qed.

Lemma split_join c parts :
  parts ≠ [] → Forall (λ p, contains_byte c p = false) parts →
  split_on c (join_with c parts) = parts.
Proof.
  intros Hne Hall. induction Hall as [|p ps Hp Hps IH]; [done|].
  destruct ps as [|p2 ps]; [by apply split_on_no_sep|].
  cbn [join_with]. rewrite split_on_app by done. f_equal. by apply IH.
Qed.

Lemma split_on_parts c s : Forall (λ p, contains_byte c p = false) (split_on c s).
Proof.
  induction s as [|a s IH]; simpl; [by repeat constructor|].
  case_bool_decide as Ha; [by constructor|].
  destruct (split_on c s) as [|h t]; inversion IH; subst; constructor; simpl; try done.
  - by rewrite bool_decide_eq_false_2.
  - rewrite bool_decide_eq_false_2 by done. done.
Qed.

Lemma contains_byte_app c s1 s2 :
  contains_byte c (s1 +:+ s2) = contains_byte c s1 || contains_byte c s2.
Proof. induction s1; simpl; [done|]. by rewrite IHs1, orb_assoc. Qed.

Lemma string_app_assoc (a b c : string) : (a +:+ b) +:+ c = a +:+ b +:+ c.
Proof. induction a; simpl; congruence. Qed.

(** Joining with another byte keeps [c] out. *)
Lemma join_plain c d parts : c ≠ d → Forall (λ p, contains_byte d p = false) parts →
  contains_byte d (join_with c parts) = false.
Proof.
  intros Hcd Hall. induction Hall as [|p ps Hp Hps IH]; [done|].
  destruct ps as [|p2 ps]; [done|]. cbn [join_with]. rewrite contains_byte_app, Hp.
  cbn [contains_byte orb]. by rewrite bool_decide_eq_false_2.
Qed.

(** Right-nests concatenations and pushes literals into them. *)
Ltac str_norm := repeat first [rewrite string_app_assoc | progress cbn [String.append join_with]].

Lemma string_app_nil_r (a : string) : a +:+ "" = a.
Proof. induction a; simpl; congruence. Qed.

Lemma string_length_app (a b : string) :
  String.length (a +:+ b) = (String.length a + String.length b)%nat.
Proof. induction a; simpl; congruence. Qed.

Lemma has_prefix_spec p s : has_prefix p s = true ↔ ∃ t, s = p +:+ t.
Proof.
  revert s. induction p as [|a p IH]; intros s; simpl; [split; eauto|].
  destruct s as [|b s]; [split; [done|by intros [??]]|].
  rewrite andb_true_iff, bool_decide_eq_true, IH. split.
  - intros [-> [t ->]]. eauto.
  - intros [t [= -> ->]]. eauto.
Qed.

Lemma drop_bytes_app p s : drop_bytes (String.length p) (p +:+ s) = s.
Proof. by induction p. Qed.

Lemma take_bytes_app p s : take_bytes (String.length p) (p +:+ s) = p.
Proof. induction p; simpl; congruence. Qed.

Lemma take_bytes_length n s :
  (n ≤ String.length s)%nat → String.length (take_bytes n s) = n.
Proof. revert s. induction n; intros [|a s]; simpl; try lia. intros. by rewrite IHn by lia. Qed.

Lemma take_drop_bytes n s : take_bytes n s +:+ drop_bytes n s = s.
Proof. revert s. induction n; intros [|a s]; simpl; congruence. Qed.

Lemma all_bytes_app p s1 s2 : all_bytes p (s1 +:+ s2) = all_bytes p s1 && all_bytes p s2.
Proof. induction s1; simpl; [done|]. by rewrite IHs1, andb_assoc. Qed.

Lemma take_bytes_all n s : (String.length s ≤ n)%nat → take_bytes n s = s.
Proof. revert s. induction n; intros [|a s]; simpl; try lia; [done..|]. intros. f_equal. apply IHn. lia. Qed.

Lemma take_bytes_short n s : (String.length (take_bytes n s) < n)%nat → take_bytes n s = s.
Proof.
  intros H. apply take_bytes_all. destruct (Nat.le_gt_cases (String.length s) n); [done|].
  rewrite take_bytes_length in H by lia. lia.
Qed.

Lemma contains_any_bytes chars s : contains_any chars s = false ↔ ∀ c, contains_byte c chars = true → contains_byte c s = false.
Proof.
  induction s as [|a s IH]; simpl; [done|]. rewrite orb_false_iff, IH. split.
  - intros [Ha Hs] c Hc. rewrite Hs by done. case_bool_decide; [congruence|done].
  - intros H. split.
    + destruct (contains_byte a chars) eqn:E; [|done]. apply H in E. by rewrite bool_decide_eq_true_2 in E.
    + intros c Hc. by apply H, orb_false_iff in Hc as [_ ?].
Qed.

Lemma has_prefix_app p s : has_prefix p (p +:+ s) = true.
Proof. apply has_prefix_spec. eauto. Qed.

Lemma trim_prefix_app p s : trim_prefix p (p +:+ s) = s.
Proof. unfold trim_prefix. by rewrite has_prefix_app, drop_bytes_app. Qed.

Lemma trim_suffix_app s suf : trim_suffix suf (s +:+ suf) = s.
Proof.
  unfold trim_suffix, has_suffix. rewrite string_length_app, Nat.add_sub, drop_bytes_app, take_bytes_app.
  by rewrite !bool_decide_eq_true_2 by lia || done.
Qed.

Lemma trim_suffix_or suf s : trim_suffix suf s = s ∨ s = trim_suffix suf s +:+ suf.
Proof.
  unfold trim_suffix, has_suffix. destruct (_ && _) eqn:E; [right|by left].
  apply andb_prop in E as [_ E%bool_decide_eq_true]. rewrite <- E at 2. by rewrite take_drop_bytes.
Qed.

Lemma has_suffix_spec suf s : has_suffix suf s = true ↔ ∃ t, s = t +:+ suf.
Proof.
  unfold has_suffix. rewrite andb_true_iff, !bool_decide_eq_true. split.
  - intros [_ H]. exists (take_bytes (String.length s - String.length suf) s). rewrite <- H at 2.
    by rewrite take_drop_bytes.
  - intros [t ->]. rewrite string_length_app, Nat.add_sub, drop_bytes_app. split; [lia|done].
Qed.

Lemma string_rev_case s : s = "" ∨ ∃ t c, s = t +:+ String c "".
Proof.
  induction s as [|a s [->|(t & c & ->)]]; [by left|right; by exists "", a|right; by exists (String a t), c].
Qed.

Lemma string_app_last s c t d : s +:+ String c "" = t +:+ String d "" → s = t ∧ c = d.
Proof.
  revert t. induction s as [|a s IH]; intros [|b t]; simpl; intros E.
  - by injection E as ->.
  - injection E as -> E. by destruct t.
  - injection E as -> E. by destruct s.
  - injection E as -> E. by apply IH in E as [-> ->].
Qed.

Lemma cut_Some c s x y : cut c s = Some (x, y) → s = x +:+ String c y ∧ contains_byte c x = false.
Proof.
  revert x. induction s as [|a s IH]; intros x; simpl; [done|].
  case_bool_decide as Ha; [by intros [= <- <-]; subst|].
  destruct (cut c s) as [[x' y']|]; [|done]. intros [= <- <-]. destruct (IH x') as [-> Hx]; [done|].
  simpl. by rewrite bool_decide_eq_false_2.
Qed.

Lemma cut_app c x y : contains_byte c x = false → cut c (x +:+ String c y) = Some (x, y).
Proof.
  induction x as [|a x IH]; simpl; [by rewrite bool_decide_eq_true_2|].
  intros [Ha Hx]%orb_false_iff. by rewrite Ha, IH.
Qed.

Lemma cut_None c s : cut c s = None ↔ contains_byte c s = false.
Proof.
  induction s as [|a s IH]; simpl; [done|]. case_bool_decide; [done|]. rewrite orb_false_l, <- IH.
  by destruct (cut c s) as [[]|].
Qed.

Lemma cut_last_None c s : cut_last c s = None ↔ contains_byte c s = false.
Proof.
  induction s as [|a s IH]; simpl; [done|]. rewrite orb_false_iff, <- IH, bool_decide_eq_false.
  destruct (cut_last c s) as [[]|]; [naive_solver|]. case_bool_decide; naive_solver.
Qed.

Lemma cut_last_Some c s x y : cut_last c s = Some (x, y) → s = x +:+ String c y ∧ contains_byte c y = false.
Proof.
  revert x. induction s as [|a s IH]; intros x; simpl; [done|].
  destruct (cut_last c s) as [[x' y']|] eqn:E.
  - intros [= <- <-]. destruct (IH x') as [-> ?]; done.
  - case_bool_decide; [|done]. intros [= <- <-]. subst. split; [done|]. by apply cut_last_None.
Qed.

Lemma cut_last_app c x y : contains_byte c y = false → cut_last c (x +:+ String c y) = Some (x, y).
Proof.
  intros Hy. induction x as [|a x IH]; simpl; [|by rewrite IH].
  rewrite (proj2 (cut_last_None c y) Hy). by rewrite bool_decide_eq_true_2.
Qed.

(** A first byte that opens no space survives [TrimSpace]. *)
Lemma strip_head at_end trim n a s :
  (∀ sp t, sp ∈ spaces → at_end sp (String a t) = true → ∃ t', trim sp (String a t) = String a t') →
  ∃ t, strip at_end trim n (String a s) = String a t.
Proof.
  intros Hk. revert s. induction n as [|n IH]; intros s; cbn [strip]; [eauto|].
  destruct (List.find _ _) as [sp|] eqn:E; [|eauto]. apply find_some in E as [Hin Hat].
  destruct (Hk sp s) as [t' ->]; [by apply list_elem_of_In|done|]. apply IH.
Qed.

Lemma TrimSpace_head a s : Forall (λ sp, has_prefix (String a "") sp = false) spaces →
  ∃ t, TrimSpace (String a s) = String a t.
Proof.
  intros Ha. rewrite Forall_forall in Ha. unfold TrimSpace.
  destruct (strip_head has_prefix trim_prefix (String.length (String a s)) a s) as [t ->].
  - intros sp t Hsp [x Hx]%has_prefix_spec. specialize (Ha sp Hsp). destruct sp as [|b sp].
    + assert (Forall (λ sp, sp ≠ "") spaces) as Hne by (by repeat constructor).
      rewrite Forall_forall in Hne. by destruct (Hne _ Hsp).
    + injection Hx as -> _. simpl in Ha. by rewrite bool_decide_eq_true_2 in Ha.
  - apply strip_head. intros sp u Hsp _. destruct (trim_suffix_or sp (String a u)) as [->|E]; [eauto|].
    specialize (Ha sp Hsp). destruct (trim_suffix sp (String a u)) as [|b v].
    + simpl in E. subst sp. simpl in Ha. by rewrite bool_decide_eq_true_2 in Ha.
    + injection E as -> _. eauto.
Qed.

Lemma strip_bytes at_end trim n s c :
  (∀ sp t, contains_byte c t = false → contains_byte c (trim sp t) = false) →
  contains_byte c s = false → contains_byte c (strip at_end trim n s) = false.
Proof.
  intros Hk. revert s. induction n as [|n IH]; intros s Hs; cbn [strip]; [done|].
  destruct (List.find _ _); [|done]. apply IH, Hk, Hs.
Qed.

(** [TrimSpace] only removes bytes. *)
Lemma TrimSpace_bytes c s : contains_byte c s = false → contains_byte c (TrimSpace s) = false.
Proof.
  intros Hs. unfold TrimSpace. apply strip_bytes; [|apply strip_bytes; [|done]]; intros sp t Ht.
  - destruct (trim_suffix_or sp t) as [->|E]; [done|]. rewrite E, contains_byte_app in Ht.
    by apply orb_false_iff in Ht as [? _].
  - unfold trim_prefix. destruct (has_prefix sp t) eqn:E; [|done]. apply has_prefix_spec in E as [u ->].
    rewrite drop_bytes_app. rewrite contains_byte_app in Ht. by apply orb_false_iff in Ht as [_ ?].
Qed.

Lemma strip_length at_end trim n s :
  (∀ sp t, (String.length (trim sp t) ≤ String.length t)%nat) →
  (String.length (strip at_end trim n s) ≤ String.length s)%nat.
Proof.
  intros Hk. revert s. induction n as [|n IH]; intros s; cbn [strip]; [done|].
  destruct (List.find _ _) as [sp|]; [|done]. etrans; [apply IH|apply Hk].
Qed.

Lemma TrimSpace_length s : (String.length (TrimSpace s) ≤ String.length s)%nat.
Proof.
  unfold TrimSpace. etrans; apply strip_length; intros sp t.
  - destruct (trim_suffix_or sp t) as [->|E]; [done|]. rewrite E at 2. rewrite string_length_app. lia.
  - unfold trim_prefix. destruct (has_prefix sp t) eqn:E; [|done]. apply has_prefix_spec in E as [u ->].
    rewrite drop_bytes_app, string_length_app. lia.
Qed.

Lemma all_bytes_mono p q s : (∀ a, p a = true → q a = true) → all_bytes p s = true → all_bytes q s = true.
Proof. intros Hpq. induction s as [|a s IH]; [done|]. cbn [all_bytes]. intros [Ha%Hpq Hs%IH]%andb_prop. by rewrite Ha. Qed.

(** Printable ASCII, the space excluded. *)
Definition printable (a : ascii) : bool := in_range "!" "~" a.

Lemma strip_printable at_end trim n s :
  (∀ sp, sp ∈ spaces → at_end sp s = true → all_bytes printable sp = true) → strip at_end trim n s = s.
Proof.
  intros Hk. destruct n; cbn [strip]; [done|]. destruct (List.find _ _) as [sp|] eqn:E; [|done].
  apply find_some in E as [Hin%list_elem_of_In Hat]. specialize (Hk sp Hin Hat).
  assert (Forall (λ sp, all_bytes printable sp = false) spaces) as H by (by repeat constructor).
  rewrite Forall_forall in H. specialize (H sp Hin). congruence.
Qed.

Lemma TrimSpace_printable s : all_bytes printable s = true → TrimSpace s = s.
Proof.
  intros Hs. unfold TrimSpace. assert (strip has_prefix trim_prefix (String.length s) s = s) as ->.
  - apply strip_printable. intros sp _ [t ->]%has_prefix_spec. rewrite all_bytes_app in Hs. by apply andb_prop in Hs as [? _].
  - apply strip_printable. intros sp _ [t ->]%has_suffix_spec. rewrite all_bytes_app in Hs. by apply andb_prop in Hs as [_ ?].
Qed.

Lemma contains_single c s : contains (String c "") s = contains_byte c s.
Proof.
  induction s as [|a s IH]; simpl; [done|]. rewrite andb_true_r, IH. f_equal. by apply bool_decide_ext.
Qed.

(** A class that excludes [c] keeps [c] out of the string. *)
Lemma all_bytes_no_byte p c s :
  p c = false → all_bytes p s = true → contains_byte c s = false.
Proof.
  intros Hc. induction s as [|a s IH]; simpl; [done|].
  intros [Ha Hs]%andb_true_iff. rewrite IH by done.
  case_bool_decide; [congruence|done].
Qed.

(** ** [strconv] *)

(** [strconv.FormatUint(n, 10)], also [%d] of an unsigned value. *)
Definition format_uint (n : N) : string := NilZero.string_of_uint (N.to_uint n).

(** [strconv.ParseUint(s, 10, bits)]: decimal digits only, no sign, and a value
    that fits [bits] bits; leading zeros are accepted here. *)
Definition ParseUint (s : string) (bits : N) : option N :=
  if bool_decide (s = "") then None
  else match NilEmpty.uint_of_string s with
       | Some d => let n := N.of_uint d in
                   if (n <? 2 ^ bits)%N then Some n else None
       | None => None
       end.

(** [strconv.Itoa]. *)
Definition Itoa (z : Z) : string :=
  if (z <? 0)%Z then String "-" (format_uint (Z.to_N (- z))) else format_uint (Z.to_N z).

(** [strconv.Atoi] on a 64-bit platform: an optional sign, decimal digits, the
    range of [int64]. *)
Definition Atoi (s : string) : option Z :=
  let digits t := match t with
                  | EmptyString => None
                  | _ => NilEmpty.uint_of_string t ≫= λ d, Some (Z.of_N (N.of_uint d))
                  end in
  let signed neg t := digits t ≫= λ n,
    let z := if neg : bool then (- n)%Z else n in
    if ((- 2 ^ 63 <=? z) && (z <? 2 ^ 63))%Z then Some z else None in
  match s with
  | String "-" t => signed true t
  | String "+" t => signed false t
  | _ => signed false s
  end.

Lemma string_of_uint_digits d : all_bytes is_digit (NilEmpty.string_of_uint d) = true.
Proof. induction d; simpl; try done; rewrite IHd; reflexivity. Qed.

Lemma string_of_uint_nilzero d :
  d ≠ Decimal.Nil → NilZero.string_of_uint d = NilEmpty.string_of_uint d.
Proof. by destruct d. Qed.

Lemma N_to_uint_ne_nil n : N.to_uint n ≠ Decimal.Nil.
Proof. destruct n; [done|]. apply DecimalPos.Unsigned.to_uint_nonnil. Qed.

Lemma format_uint_digits n : all_bytes is_digit (format_uint n) = true.
Proof.
  unfold format_uint. rewrite string_of_uint_nilzero by apply N_to_uint_ne_nil.
  apply string_of_uint_digits.
Qed.

Lemma format_uint_ne_nil n : format_uint n ≠ "".
Proof.
  unfold format_uint. rewrite string_of_uint_nilzero by apply N_to_uint_ne_nil.
  pose proof (N_to_uint_ne_nil n). by destruct (N.to_uint n).
Qed.

(** The guard of [password.parseUint]: a decimal without leading zeros. *)
Definition leading_zero (s : string) : bool :=
  match s with String "0" (String _ _) => true | _ => false end.

Lemma unorm_no_zero d :
  leading_zero (NilEmpty.string_of_uint d) = false → d ≠ Decimal.Nil → Decimal.unorm d = d.
Proof. destruct d as [|d|?|?|?|?|?|?|?|?|?]; try done. by destruct d. Qed.

Lemma unorm_leading_zero d : leading_zero (NilEmpty.string_of_uint (Decimal.unorm d)) = false.
Proof.
  unfold Decimal.unorm. destruct (Decimal.nzhead d) eqn:E; try done.
  by apply nzhead_nonzero in E.
Qed.

Lemma format_uint_no_leading_zero n : leading_zero (format_uint n) = false.
Proof.
  unfold format_uint. rewrite string_of_uint_nilzero by apply N_to_uint_ne_nil.
  rewrite <- (Unsigned.of_to n), Unsigned.to_of. apply unorm_leading_zero.
Qed.

Lemma ParseUint_format n bits : (n < 2 ^ bits)%N → ParseUint (format_uint n) bits = Some n.
Proof.
  intros Hn. unfold ParseUint. rewrite bool_decide_eq_false_2 by apply format_uint_ne_nil.
  unfold format_uint. rewrite string_of_uint_nilzero by apply N_to_uint_ne_nil.
  rewrite NilEmpty.usu, Unsigned.of_to. by destruct (N.ltb_spec n (2 ^ bits)); [|lia].
Qed.

Lemma ParseUint_bound s bits n : ParseUint s bits = Some n → (n < 2 ^ bits)%N.
Proof.
  unfold ParseUint. case_bool_decide; [done|]. destruct NilEmpty.uint_of_string; [|done].
  destruct (N.ltb_spec (N.of_uint u) (2 ^ bits)); naive_solver.
Qed.

Lemma format_ParseUint s bits n :
  ParseUint s bits = Some n → leading_zero s = false → format_uint n = s.
Proof.
  unfold ParseUint. case_bool_decide as Hne; [done|].
  destruct (NilEmpty.uint_of_string s) as [d|] eqn:Hd; [|done].
  case_match; [|done]. intros [= <-] Hz. apply NilEmpty.sus in Hd. subst s.
  assert (d ≠ Decimal.Nil) by (by intros ->).
  unfold format_uint. rewrite Unsigned.to_of, unorm_no_zero by done.
  by apply string_of_uint_nilzero.
Qed.

Lemma Itoa_nonneg z : (0 ≤ z)%Z → Itoa z = format_uint (Z.to_N z).
Proof. intros. unfold Itoa. by destruct (Z.ltb_spec z 0); [lia|]. Qed.

Lemma digit_head_not_sign s :
  all_bytes is_digit s = true →
  match s with String "-" _ | String "+" _ => False | _ => True end.
Proof. destruct s as [|[[] [] [] [] [] [] [] []] s]; simpl; try done. Qed.

(** [Atoi] inverts [Itoa] on the identifiers of database rows. *)
Lemma Atoi_Itoa z : (0 ≤ z < 2 ^ 63)%Z → Atoi (Itoa z) = Some z.
Proof.
  intros [Hlo Hhi]. rewrite Itoa_nonneg by done.
  pose proof (format_uint_digits (Z.to_N z)) as Hdig.
  pose proof (format_uint_ne_nil (Z.to_N z)) as Hne.
  assert (NilEmpty.uint_of_string (format_uint (Z.to_N z)) = Some (N.to_uint (Z.to_N z))) as Hp.
  { unfold format_uint. rewrite string_of_uint_nilzero by apply N_to_uint_ne_nil. apply NilEmpty.usu. }
  apply digit_head_not_sign in Hdig. unfold Atoi.
  destruct (format_uint (Z.to_N z)) as [|a s] eqn:E; [done|].
  rewrite Hp. simpl. rewrite Unsigned.of_to, Z2N.id by done.
  assert (((- 2 ^ 63 <=? z) && (z <? 2 ^ 63))%Z = true) as Hr.
  { apply andb_true_iff. rewrite Z.leb_le, Z.ltb_lt. lia. }
  destruct a as [[] [] [] [] [] [] [] []]; simpl in *; try done; by rewrite Hr.
Qed.

Lemma Itoa_inj z1 z2 :
  (0 ≤ z1 < 2 ^ 63)%Z → (0 ≤ z2 < 2 ^ 63)%Z → Itoa z1 = Itoa z2 → z1 = z2.
Proof. intros H1 H2 E. apply (f_equal Atoi) in E. rewrite !Atoi_Itoa in E by done. congruence. Qed.

(** ** [encoding/hex] *)

Definition nibble : Type := bool * bool * bool * bool.

Definition bits_to_N (bits : list bool) : N :=
  foldl (λ acc (b : bool), (2 * acc + (if b then 1 else 0))%N) 0%N bits.

Definition hex_alphabet : string := "0123456789abcdef".

Definition hex_digit (n : nibble) : ascii :=
  let '(b3, b2, b1, b0) := n in
  default "0"%char (String.get (N.to_nat (bits_to_N [b3; b2; b1; b0])) hex_alphabet).

(** [hex.EncodeToString]: lower-case digits. *)
Fixpoint hex_encode (s : string) : string :=
  match s with
  | EmptyString => ""
  | String (Ascii b0 b1 b2 b3 b4 b5 b6 b7) s' =>
     String (hex_digit (b7, b6, b5, b4)) (String (hex_digit (b3, b2, b1, b0)) (hex_encode s'))
  end.

Definition nibble_of (n : N) : nibble :=
  (N.testbit n 3, N.testbit n 2, N.testbit n 1, N.testbit n 0).

(** Digits of either case, as [hex.DecodeString] reads them. *)
Definition unhex (a : ascii) : option nibble :=
  let v := byte_val a in
  if in_range "0" "9" a then Some (nibble_of (v - 48)%N)
  else if in_range "a" "f" a then Some (nibble_of (v - 87)%N)
  else if in_range "A" "F" a then Some (nibble_of (v - 55)%N)
  else None.

(** [hex.DecodeString]: [None] for an odd length or a byte that is no digit. *)
Fixpoint hex_decode (s : string) : option string :=
  match s with
  | EmptyString => Some ""
  | String _ EmptyString => None
  | String h (String l s') =>
     match unhex h, unhex l, hex_decode s' with
     | Some (b7, b6, b5, b4), Some (b3, b2, b1, b0), Some r =>
        Some (String (Ascii b0 b1 b2 b3 b4 b5 b6 b7) r)
     | _, _, _ => None
     end
  end.

Lemma unhex_hex_digit n : unhex (hex_digit n) = Some n.
Proof. destruct n as [[[[] []] []] []]; reflexivity. Qed.

Lemma hex_decode_encode s : hex_decode (hex_encode s) = Some s.
Proof.
  induction s as [|[b0 b1 b2 b3 b4 b5 b6 b7] s IH]; [done|].
  cbn [hex_encode hex_decode]. by rewrite !unhex_hex_digit, IH.
Qed.

Definition is_hex (a : ascii) : bool := bool_decide (is_Some (unhex a)).

Lemma hex_decode_class s d : hex_decode s = Some d → all_bytes is_hex s = true.
Proof.
  assert (∀ n s d, (String.length s ≤ n)%nat → hex_decode s = Some d → all_bytes is_hex s = true) as H.
  { clear. induction n as [|n IH]; intros [|h [|l s]] d; simpl; try lia; try done.
    intros Hn. unfold is_hex at 1 2. destruct (unhex h) as [[[[]]]|]; [|done].
    destruct (unhex l) as [[[[]]]|]; [|done]. destruct (hex_decode s) eqn:E; [|done]. intros _.
    rewrite !bool_decide_eq_true_2 by eauto. simpl. apply (IH s s0); [lia|done]. }
  by apply (H (String.length s)).
Qed.

Lemma hex_encode_length s : String.length (hex_encode s) = (2 * String.length s)%nat.
Proof. induction s as [|[] s IH]; simpl; [done|]. rewrite IH. lia. Qed.

Lemma hex_encode_inj s1 s2 : hex_encode s1 = hex_encode s2 → s1 = s2.
Proof. intros E. apply (f_equal hex_decode) in E. rewrite !hex_decode_encode in E. congruence. Qed.

(** ** [encoding/base64]: the raw (unpadded) standard alphabet *)

Definition sextet : Type := bool * bool * bool * bool * bool * bool.

Definition base64_alphabet : string :=
  "ABCDEFGHIJKLMNOPQRSTUVWXYZabcdefghijklmnopqrstuvwxyz0123456789+/".

Definition base64_digit (x : sextet) : ascii :=
  let '(b5, b4, b3, b2, b1, b0) := x in
  default "A"%char (String.get (N.to_nat (bits_to_N [b5; b4; b3; b2; b1; b0])) base64_alphabet).

Definition sextet_of (n : N) : sextet :=
  (N.testbit n 5, N.testbit n 4, N.testbit n 3, N.testbit n 2, N.testbit n 1, N.testbit n 0).

Definition base64_value (a : ascii) : option sextet :=
  let v := byte_val a in
  if in_range "A" "Z" a then Some (sextet_of (v - 65)%N)
  else if in_range "a" "z" a then Some (sextet_of (v - 71)%N)
  else if in_range "0" "9" a then Some (sextet_of (v + 4)%N)
  else if bool_decide (a = "+"%char) then Some (sextet_of 62%N)
  else if bool_decide (a = "/"%char) then Some (sextet_of 63%N)
  else None.

(** The bits of one, two or three bytes as sextets, zero bits appended. *)
Definition sextets1 (x : ascii) : list sextet :=
  let '(Ascii x0 x1 x2 x3 x4 x5 x6 x7) := x in
  [(x7, x6, x5, x4, x3, x2); (x1, x0, false, false, false, false)].

Definition sextets2 (x y : ascii) : list sextet :=
  let '(Ascii x0 x1 x2 x3 x4 x5 x6 x7) := x in
  let '(Ascii y0 y1 y2 y3 y4 y5 y6 y7) := y in
  [(x7, x6, x5, x4, x3, x2); (x1, x0, y7, y6, y5, y4); (y3, y2, y1, y0, false, false)].

Definition sextets3 (x y z : ascii) : list sextet :=
  let '(Ascii x0 x1 x2 x3 x4 x5 x6 x7) := x in
  let '(Ascii y0 y1 y2 y3 y4 y5 y6 y7) := y in
  let '(Ascii z0 z1 z2 z3 z4 z5 z6 z7) := z in
  [(x7, x6, x5, x4, x3, x2); (x1, x0, y7, y6, y5, y4);
   (y3, y2, y1, y0, z7, z6); (z5, z4, z3, z2, z1, z0)].

Fixpoint sextets (s : string) : list sextet :=
  match s with
  | EmptyString => []
  | String x EmptyString => sextets1 x
  | String x (String y EmptyString) => sextets2 x y
  | String x (String y (String z s')) => sextets3 x y z ++ sextets s'
  end.

Fixpoint string_of_sextets (l : list sextet) : string :=
  match l with
  | [] => ""
  | x :: l' => String (base64_digit x) (string_of_sextets l')
  end.

(** [base64.RawStdEncoding.EncodeToString]. *)
Definition base64_encode (s : string) : string := string_of_sextets (sextets s).

(** The decoder skips carriage returns and line feeds wherever they stand. *)
Fixpoint strip_newlines (s : string) : string :=
  match s with
  | EmptyString => ""
  | String a s' =>
     if bool_decide (a = byte_LF) || bool_decide (a = byte_CR) then strip_newlines s'
     else String a (strip_newlines s')
  end.

Fixpoint sextets_of_string (s : string) : option (list sextet) :=
  match s with
  | EmptyString => Some []
  | String a s' =>
     match base64_value a, sextets_of_string s' with
     | Some x, Some l => Some (x :: l)
     | _, _ => None
     end
  end.

(** Quanta of four sextets; a final quantum of two or three sextets must have
    zero trailing bits ([Strict]); one left-over sextet is corrupt input. *)
Fixpoint bytes_of_sextets (l : list sextet) : option string :=
  match l with
  | [] => Some ""
  | (x7, x6, x5, x4, x3, x2) :: (x1, x0, y7, y6, y5, y4) :: l' =>
     match l' with
     | [] =>
        if y7 || y6 || y5 || y4 then None
        else Some (String (Ascii x0 x1 x2 x3 x4 x5 x6 x7) "")
     | (y3, y2, y1, y0, z7, z6) :: l'' =>
        match l'' with
        | [] =>
           if z7 || z6 then None
           else Some (String (Ascii x0 x1 x2 x3 x4 x5 x6 x7)
                        (String (Ascii y0 y1 y2 y3 y4 y5 y6 y7) ""))
        | (z5, z4, z3, z2, z1, z0) :: rest =>
           match bytes_of_sextets rest with
           | Some r =>
              Some (String (Ascii x0 x1 x2 x3 x4 x5 x6 x7)
                     (String (Ascii y0 y1 y2 y3 y4 y5 y6 y7)
                       (String (Ascii z0 z1 z2 z3 z4 z5 z6 z7) r)))
           | None => None
           end
        end
     end
  | _ => None
  end.

(** [base64.RawStdEncoding.Strict().DecodeString]. *)
Definition base64_decode (s : string) : option string :=
  sextets_of_string (strip_newlines s) ≫= bytes_of_sextets.

Lemma base64_value_digit x : base64_value (base64_digit x) = Some x.
Proof. destruct x as [[[[[[] []] []] []] []] []]; reflexivity. Qed.

Lemma base64_digit_value a x : base64_value a = Some x → base64_digit x = a.
Proof.
  destruct a as [[] [] [] [] [] [] [] []]; vm_compute; intros; simplify_eq; reflexivity.
Qed.

Definition is_base64 (a : ascii) : bool := bool_decide (is_Some (base64_value a)).

Lemma string_of_sextets_class l : all_bytes is_base64 (string_of_sextets l) = true.
Proof.
  induction l as [|x l IH]; simpl; [done|]. rewrite IH, andb_true_r.
  unfold is_base64. rewrite base64_value_digit. by apply bool_decide_eq_true_2.
Qed.

Lemma sextets_of_string_of_sextets l : sextets_of_string (string_of_sextets l) = Some l.
Proof. induction l as [|x l IH]; simpl; [done|]. by rewrite base64_value_digit, IH. Qed.

Lemma string_of_sextets_of_string s l :
  sextets_of_string s = Some l → string_of_sextets l = s.
Proof.
  revert l. induction s as [|a s IH]; intros l; simpl; [by intros [= <-]|].
  destruct (base64_value a) as [x|] eqn:Hx; [|done].
  destruct (sextets_of_string s) as [l'|]; [|done].
  intros [= <-]. simpl. by rewrite (base64_digit_value _ _ Hx), (IH l').
Qed.

Lemma string_ind3 (P : string → Prop) :
  P "" → (∀ x, P (String x "")) → (∀ x y, P (String x (String y ""))) →
  (∀ x y z s, P s → P (String x (String y (String z s)))) → ∀ s, P s.
Proof.
  intros H0 H1 H2 H3. fix IH 1.
  intros [|x [|y [|z s]]]; [done|apply H1|apply H2|apply H3, IH].
Qed.

Lemma list_ind4 {A} (P : list A → Prop) :
  P [] → (∀ a, P [a]) → (∀ a b, P [a; b]) → (∀ a b c, P [a; b; c]) →
  (∀ a b c d l, P l → P (a :: b :: c :: d :: l)) → ∀ l, P l.
Proof.
  intros H0 H1 H2 H3 H4. fix IH 1.
  intros [|a [|b [|c [|d l]]]]; [done|apply H1|apply H2|apply H3|apply H4, IH].
Qed.

Lemma bytes_of_sextets_sextets s : bytes_of_sextets (sextets s) = Some s.
Proof.
  induction s as [|[] |[] []|[] [] [] s IH] using string_ind3; try reflexivity.
  cbn [sextets sextets3 app bytes_of_sextets]. by rewrite IH.
Qed.

Lemma sextets_bytes_of_sextets l s : bytes_of_sextets l = Some s → sextets s = l.
Proof.
  revert s. induction l as [|a|a b|a b c|a b c d l IH] using list_ind4; intros s;
    repeat match goal with x : sextet |- _ => destruct x as [[[[[? ?] ?] ?] ?] ?] end;
    cbn [bytes_of_sextets]; try (by intros [= <-]); try done.
  1,2: case_match eqn:Hz; [done|]; repeat (apply orb_false_elim in Hz as [Hz ?]); subst;
    by intros [= <-].
  destruct (bytes_of_sextets l) as [r|]; [|done]. intros [= <-].
  cbn [sextets sextets3 app]. by rewrite (IH r).
Qed.

Lemma strip_newlines_id s :
  contains_byte byte_LF s = false → contains_byte byte_CR s = false → strip_newlines s = s.
Proof.
  induction s as [|a s IH]; simpl; [done|].
  intros [Ha ?]%orb_false_iff [Hb ?]%orb_false_iff. rewrite Ha, Hb. simpl. by rewrite IH.
Qed.

Lemma base64_encode_no_byte c s :
  is_base64 c = false → contains_byte c (base64_encode s) = false.
Proof. intros. by eapply all_bytes_no_byte, string_of_sextets_class. Qed.

(** Decoding inverts encoding. *)
Lemma base64_decode_encode s : base64_decode (base64_encode s) = Some s.
Proof.
  unfold base64_decode. rewrite strip_newlines_id by (by apply base64_encode_no_byte).
  unfold base64_encode. rewrite sextets_of_string_of_sextets. simpl.
  apply bytes_of_sextets_sextets.
Qed.

(** The strict decoder accepts one text per byte string, up to the line breaks
    it skips. *)
Lemma base64_encode_decode s b : base64_decode s = Some b → base64_encode b = strip_newlines s.
Proof.
  unfold base64_decode. rewrite bind_Some. intros (l & Hl & Hb).
  unfold base64_encode. rewrite (sextets_bytes_of_sextets _ _ Hb).
  by apply string_of_sextets_of_string.
Qed.

Lemma strip_newlines_app s1 s2 :
  strip_newlines (s1 +:+ s2) = strip_newlines s1 +:+ strip_newlines s2.
Proof. induction s1 as [|a s1 IH]; simpl; [done|]. rewrite IH. by case_match. Qed.

Lemma strip_newlines_digits s : all_bytes is_digit s = true → strip_newlines s = s.
Proof. intros. apply strip_newlines_id; by apply (all_bytes_no_byte is_digit). Qed.

(** ** Sorting *)

(** [sort.Strings]. *)
Definition string_le (s t : string) : Prop := String.leb s t = true.
#[export] Instance string_le_dec : RelDecision string_le.
Proof. intros s t. unfold string_le. apply _. Defined.

Definition sorted (ids : gset string) : list string := merge_sort string_le (elements ids).

#[export] Instance string_le_total : Total string_le.
Proof. intros s t. unfold string_le. destruct (String.leb_total s t); auto. Qed.

Lemma sorted_spec ids : Sorted string_le (sorted ids) ∧ NoDup (sorted ids) ∧ ∀ id, id ∈ sorted ids ↔ id ∈ ids.
Proof.
  unfold sorted. split_and!.
  - apply Sorted_merge_sort, _.
  - rewrite merge_sort_Permutation. apply NoDup_elements.
  - intros id. by rewrite merge_sort_Permutation, elem_of_elements.
Qed.
