(* ===== verification/Routes.v ===== *)
(** * Routes of echo (github.com/labstack/echo)

    What the program relies on of echo's router: a registered route is a method, a
    pattern of path segments, some of them parameters, and a target. The choice among
    the routes that fit is a parameter, [Find], with the one law that it finds a route
    that fits when there is one. *)

From stdpp Require Import prelude strings.
From Stdlib Require Import Ascii.
From S2P Require Import Prelude GoStrings.

Local Open Scope string_scope.
Local Open Scope list_scope.

Record Route (T : Type) := mkRoute {
  rt_Method : string;
  rt_Path : string;
  rt_Target : T;
}.
Arguments mkRoute {T}. Arguments rt_Method {T}. Arguments rt_Path {T}. Arguments rt_Target {T}.

(** A path that fits a pattern: a segment that starts with a colon fits any. *)
Fixpoint fits (pattern path : list string) : bool :=
  match pattern, path with
  | [], [] => true
  | p :: pattern', s :: path' => (has_prefix ":" p || bool_decide (p = s)) && fits pattern' path'
  | _, _ => false
  end.

(** The values of the parameters. *)
Fixpoint bindings (pattern path : list string) : list (string * string) :=
  match pattern, path with
  | p :: pattern', s :: path' =>
     (if has_prefix ":" p then [(drop_bytes 1 p, s)] else []) ++ bindings pattern' path'
  | _, _ => []
  end.

Definition matches {T} (r : Route T) (method path : string) : bool :=
  bool_decide (rt_Method r = method) && fits (split_on "/" (rt_Path r)) (split_on "/" path).

(** [ctx.Param(name)] for a request with this path that was routed to [r]. *)
Definition paramOf {T} (r : Route T) (path name : string) : string :=
  from_option snd "" (List.find (λ b, bool_decide (b.1 = name)) (bindings (split_on "/" (rt_Path r)) (split_on "/" path))).

(** echo's router finds a registered route that fits, when there is one. *)
Class RouterSpec {T} (Find : list (Route T) → string → string → option (Route T)) : Prop := {
  find_fits : ∀ rs m p r, Find rs m p = Some r → r ∈ rs ∧ matches r m p = true;
  find_none : ∀ rs m p r, Find rs m p = None → r ∈ rs → matches r m p = false;
}.

(** When only one route fits, it is the one that is found. *)
Lemma find_only {T} (Find : list (Route T) → string → string → option (Route T)) `{!RouterSpec Find} rs m p r :
  r ∈ rs → matches r m p = true → Forall (λ r', matches r' m p = true → r' = r) rs → Find rs m p = Some r.
Proof.
  intros Hr Hm Honly. rewrite Forall_forall in Honly. destruct (Find rs m p) as [r'|] eqn:E.
  - apply find_fits in E as [Hin Hfit]. by rewrite (Honly r' Hin Hfit).
  - by rewrite (find_none _ _ _ _ E Hr) in Hm.
Qed.

(** The first route that fits. *)
Definition firstFit {T} (rs : list (Route T)) (method path : string) : option (Route T) :=
  List.find (λ r, matches r method path) rs.

#[export] Instance firstFit_spec {T} : RouterSpec (@firstFit T).
Proof.
  split; unfold firstFit.
  - intros rs m p r [? ?]%find_some. by rewrite list_elem_of_In.
  - intros rs m p r H Hr%list_elem_of_In. by apply (List.find_none _ _ H).
Qed.

Lemma fits_length pattern path : fits pattern path = true → length pattern = length path.
Proof.
  revert path. induction pattern as [|p pattern IH]; intros [|s path]; cbn [fits]; try done.
  intros [_ H]%andb_prop. cbn [length]. by rewrite (IH path).
Qed.

(** A common prefix of pattern and path decides nothing. *)
Lemma fits_app pre pattern path : fits (pre ++ pattern) (pre ++ path) = fits pattern path.
Proof.
  induction pre as [|s pre IH]; [done|]. cbn [app fits]. by rewrite (bool_decide_eq_true_2 (s = s)), orb_true_r, IH.
Qed.

Lemma bindings_app pre pattern path : Forall (λ s, has_prefix ":" s = false) pre →
  bindings (pre ++ pattern) (pre ++ path) = bindings pattern path.
Proof. induction 1 as [|s pre Hs _ IH]; [done|]. cbn [app bindings]. by rewrite Hs, IH. Qed.
