(* ===== verification/Json.v ===== *)
(** * JSON texts (encoding/json and unicode/utf8 of the Go library)

    The decoder the scripts and the published key set rely on: UTF-8, string
    literals with their escapes, the grammar of values with the nesting limit of
    the library, and streams of values as [json.Decoder] reads them. A value is kept
    with the text it was read from, which is what [json.RawMessage] holds. *)

From stdpp Require Import prelude strings gmap.
From Stdlib Require Import ZArith Lia Ascii.
From S2P Require Import Prelude GoStrings.

Local Open Scope string_scope.
Local Open Scope list_scope.
Local Open Scope N_scope.

(** ** UTF-8 *)

Definition between (lo hi : N) (a : ascii) : bool := (lo <=? byte_val a) && (byte_val a <=? hi).

(** The number of bytes of the rune a text begins with; [None] when it begins with
    none. *)
Definition utf8_size (s : string) : option nat :=
  match s with
  | EmptyString => None
  | String a r =>
     if between 0 127 a then Some 1%nat
     else if between 194 223 a then
       match r with String b _ => if between 128 191 b then Some 2%nat else None | _ => None end
     else if between 224 239 a then
       let lo := if byte_val a =? 224 then 160 else 128 in
       let hi := if byte_val a =? 237 then 159 else 191 in
       match r with
       | String b (String c _) => if between lo hi b && between 128 191 c then Some 3%nat else None
       | _ => None
       end
     else if between 240 244 a then
       let lo := if byte_val a =? 240 then 144 else 128 in
       let hi := if byte_val a =? 244 then 143 else 191 in
       match r with
       | String b (String c (String d _)) =>
          if between lo hi b && between 128 191 c && between 128 191 d then Some 4%nat else None
       | _ => None
       end
     else None
  end.

(** [utf8.Valid]; [skip] bytes of a rune are still to be passed over. *)
Fixpoint utf8_from (skip : nat) (s : string) : bool :=
  match s, skip with
  | EmptyString, _ => true
  | String _ r, S skip' => utf8_from skip' r
  | String _ r, O => match utf8_size s with Some n => utf8_from (n - 1) r | None => false end
  end.

Definition utf8_Valid (s : string) : bool := utf8_from 0 s.

(** Printable ASCII is valid. *)
Lemma ascii_valid s : all_bytes (between 32 126) s = true → utf8_Valid s = true.
Proof.
  unfold utf8_Valid. induction s as [|a s IH]; [done|]. cbn [all_bytes utf8_from]. intros [Ha Hs]%andb_true_iff.
  unfold utf8_size. assert (between 0 127 a = true) as -> by (unfold between in *; rewrite andb_true_iff, !N.leb_le in *; lia).
  by apply IH.
Qed.

(** U+FFFD. *)
Definition replacement : string := String "239" (String "191" (String "189" "")).

(** Every byte that is part of no rune is replaced. *)
Fixpoint coerce (skip : nat) (s : string) : string :=
  match s, skip with
  | EmptyString, _ => ""
  | String a r, S skip' => String a (coerce skip' r)
  | String a r, O =>
     match utf8_size s with
     | Some n => String a (coerce (n - 1) r)
     | None => replacement +:+ coerce 0 r
     end
  end.

Definition byte (n : N) : ascii := ascii_of_N n.

(** [utf8.AppendRune] of a code point that is no surrogate. *)
Definition encode_rune (n : N) : string :=
  let low k := byte (128 + n / k mod 64) in
  if n <? 128 then String (byte n) ""
  else if n <? 2048 then String (byte (192 + n / 64)) (String (low 1) "")
  else if n <? 65536 then String (byte (224 + n / 4096)) (String (low 64) (String (low 1) ""))
  else String (byte (240 + n / 262144)) (String (low 4096) (String (low 64) (String (low 1) ""))).

(** ** String literals *)

(** A byte of the literal, or the code unit of a [\u] escape. *)
Inductive unit16 := Lit (a : ascii) | Code (n : N).

Definition escape (a : ascii) : option ascii :=
  if bool_decide (a = "034"%char) then Some "034"%char
  else if bool_decide (a = "\"%char) then Some "\"%char
  else if bool_decide (a = "/"%char) then Some "/"%char
  else if bool_decide (a = "b"%char) then Some "008"%char
  else if bool_decide (a = "f"%char) then Some "012"%char
  else if bool_decide (a = "n"%char) then Some "010"%char
  else if bool_decide (a = "r"%char) then Some "013"%char
  else if bool_decide (a = "t"%char) then Some "009"%char
  else None.

Definition hexval (a : ascii) : option N :=
  if in_range "0" "9" a then Some (byte_val a - 48)
  else if in_range "a" "f" a then Some (byte_val a - 87)
  else if in_range "A" "F" a then Some (byte_val a - 55)
  else None.

Definition hex4 (a b c d : ascii) : option N :=
  x ← hexval a; y ← hexval b; z ← hexval c; t ← hexval d; Some (4096 * x + 256 * y + 16 * z + t).

(** The literal behind its opening quote, and what follows its closing one. *)
Fixpoint lexString (s : string) : option (list unit16 * string) :=
  match s with
  | EmptyString => None
  | String a r =>
     if bool_decide (a = "034"%char) then Some ([], r)
     else if bool_decide (a = "\"%char) then
       match r with
       | EmptyString => None
       | String e r' =>
          if bool_decide (e = "u"%char) then
            match r' with
            | String h1 (String h2 (String h3 (String h4 r''))) =>
               match hex4 h1 h2 h3 h4, lexString r'' with
               | Some n, Some (us, rest) => Some (Code n :: us, rest)
               | _, _ => None
               end
            | _ => None
            end
          else
            match escape e, lexString r' with
            | Some b, Some (us, rest) => Some (Lit b :: us, rest)
            | _, _ => None
            end
       end
     else if byte_val a <? 32 then None
     else match lexString r with Some (us, rest) => Some (Lit a :: us, rest) | None => None end
  end.

Definition high_surrogate (n : N) : bool := (55296 <=? n) && (n <? 56320).
Definition low_surrogate (n : N) : bool := (56320 <=? n) && (n <? 57344).

(** Pairs of surrogates are combined, single ones replaced. *)
Fixpoint decodeUnits (us : list unit16) : string :=
  match us with
  | [] => ""
  | Lit a :: us' => String a (decodeUnits us')
  | Code n :: us' =>
     if high_surrogate n || low_surrogate n then
       match us' with
       | Code m :: us'' =>
          if high_surrogate n && low_surrogate m
          then encode_rune (65536 + (n - 55296) * 1024 + (m - 56320)) +:+ decodeUnits us''
          else replacement +:+ decodeUnits us'
       | _ => replacement +:+ decodeUnits us'
       end
     else encode_rune n +:+ decodeUnits us'
  end.

Definition stringValue (us : list unit16) : string := coerce 0 (decodeUnits us).

(** ** Values *)

(** The components of arrays and objects come with their text. *)
Inductive json :=
| JNull
| JBool (b : bool)
| JNumber (text : string)
| JString (s : string)
| JArray (elements : list (string * json))
| JObject (members : list (string * (string * json))).

(** What a parser of a part of a text ends with: a result and what follows it, a
    syntax error, or too little fuel. *)
Inductive parsed (A : Type) := Parsed (a : A) (rest : string) | Bad | Out.
Arguments Parsed {A}. Arguments Bad {A}. Arguments Out {A}.

Definition is_space (a : ascii) : bool :=
  bool_decide (a = " "%char) || bool_decide (a = "009"%char) || bool_decide (a = "010"%char) || bool_decide (a = "013"%char).

Fixpoint skip_space (s : string) : string :=
  match s with
  | String a r => if is_space a then skip_space r else s
  | EmptyString => ""
  end.

Definition starts (c : ascii) (s : string) : option string :=
  match s with String a r => if bool_decide (a = c) then Some r else None | EmptyString => None end.

(** The text between two positions. *)
Definition text_until (s rest : string) : string := take_bytes (String.length s - String.length rest) s.

Fixpoint skip_digits (s : string) : string :=
  match s with
  | String a r => if is_digit a then skip_digits r else s
  | EmptyString => ""
  end.

(** At least one digit. *)
Definition digits (s : string) : option string :=
  match s with String a r => if is_digit a then Some (skip_digits r) else None | EmptyString => None end.

Definition fraction (s : string) : option string :=
  match starts "." s with Some r => digits r | None => Some s end.

Definition exponent (s : string) : option string :=
  match s with
  | String a r =>
     if bool_decide (a = "e"%char) || bool_decide (a = "E"%char) then
       match r with
       | String b r' => if bool_decide (b = "+"%char) || bool_decide (b = "-"%char) then digits r' else digits r
       | EmptyString => None
       end
     else Some s
  | EmptyString => Some s
  end.

(** What follows a number. *)
Definition number (s : string) : option string :=
  let unsigned := default s (starts "-" s) in
  integer ← match starts "0" unsigned with Some r => Some r | None => digits unsigned end;
  rest ← fraction integer;
  exponent rest.

Definition maxNestingDepth : N := 10000.

Definition literal (word : string) (v : json) (s : string) : parsed json :=
  if has_prefix word s then Parsed v (drop_bytes (String.length word) s) else Bad.

(** A value, the elements of an array behind its bracket, and the members of an
    object, all at the first byte that is no space. *)
Fixpoint parseValue (fuel : nat) (depth : N) (s : string) {struct fuel} : parsed json :=
  match fuel, s with
  | O, _ => Out
  | S fuel', EmptyString => Bad
  | S fuel', String a r =>
     if bool_decide (a = "{"%char) then
       if maxNestingDepth <? depth + 1 then Bad
       else match starts "}" (skip_space r) with
            | Some rest => Parsed (JObject []) rest
            | None =>
               match parseMembers fuel' (depth + 1) (skip_space r) with
               | Parsed members rest => Parsed (JObject members) rest
               | Bad => Bad
               | Out => Out
               end
            end
     else if bool_decide (a = "["%char) then
       if maxNestingDepth <? depth + 1 then Bad
       else match starts "]" (skip_space r) with
            | Some rest => Parsed (JArray []) rest
            | None =>
               match parseElements fuel' (depth + 1) (skip_space r) with
               | Parsed elements rest => Parsed (JArray elements) rest
               | Bad => Bad
               | Out => Out
               end
            end
     else if bool_decide (a = "034"%char) then
       match lexString r with Some (us, rest) => Parsed (JString (stringValue us)) rest | None => Bad end
     else if bool_decide (a = "t"%char) then literal "true" (JBool true) s
     else if bool_decide (a = "f"%char) then literal "false" (JBool false) s
     else if bool_decide (a = "n"%char) then literal "null" JNull s
     else match number s with Some rest => Parsed (JNumber (text_until s rest)) rest | None => Bad end
  end
with parseElements (fuel : nat) (depth : N) (s : string) {struct fuel} : parsed (list (string * json)) :=
  match fuel with
  | O => Out
  | S fuel' =>
     match parseValue fuel' depth s with
     | Bad => Bad
     | Out => Out
     | Parsed v after =>
        let element := (text_until s after, v) in
        let next := skip_space after in
        match starts "," next, starts "]" next with
        | Some more, _ =>
           match parseElements fuel' depth (skip_space more) with
           | Parsed elements rest => Parsed (element :: elements) rest
           | Bad => Bad
           | Out => Out
           end
        | None, Some rest => Parsed [element] rest
        | None, None => Bad
        end
     end
  end
with parseMembers (fuel : nat) (depth : N) (s : string) {struct fuel} : parsed (list (string * (string * json))) :=
  match fuel with
  | O => Out
  | S fuel' =>
     match starts "034" s with
     | None => Bad
     | Some body =>
        match lexString body with
        | None => Bad
        | Some (us, after) =>
           match starts ":" (skip_space after) with
           | None => Bad
           | Some colon =>
              let at_value := skip_space colon in
              match parseValue fuel' depth at_value with
              | Bad => Bad
              | Out => Out
              | Parsed v after =>
                 let member := (stringValue us, (text_until at_value after, v)) in
                 let next := skip_space after in
                 match starts "," next, starts "}" next with
                 | Some more, _ =>
                    match parseMembers fuel' depth (skip_space more) with
                    | Parsed members rest => Parsed (member :: members) rest
                    | Bad => Bad
                    | Out => Out
                    end
                 | None, Some rest => Parsed [member] rest
                 | None, None => Bad
                 end
              end
           end
        end
     end
  end.

(** One [Decode] of a [json.Decoder]: the end of the stream, a syntax error, or the
    next value with its text and the rest of the stream. *)
Inductive next := EOF | SyntaxError | Next (raw : string) (v : json) (rest : string).

Definition decodeNext (stream : string) : next :=
  let s := skip_space stream in
  if bool_decide (s = "") then EOF
  else match parseValue (S (2 * String.length s)) 0 s with
       | Parsed v rest => Next (text_until s rest) v rest
       | _ => SyntaxError
       end.

(** [json.Unmarshal]: a single value. *)
Definition unmarshal (text : string) : option json :=
  match decodeNext text with
  | Next _ v rest => if bool_decide (skip_space rest = "") then Some v else None
  | _ => None
  end.

(** ** Texts and what follows them *)

(** [rest] is what follows a text that is not empty. *)
Definition behind (s rest : string) : Prop := ∃ p, p ≠ "" ∧ s = p +:+ rest.

Lemma behind_trans s r t : behind s r → behind r t → behind s t.
Proof.
  intros (p & Hp & ->) (q & Hq & ->). exists (p +:+ q). split; [by destruct p|]. by rewrite string_app_assoc.
Qed.

Lemma behind_length s r : behind s r → (String.length r < String.length s)%nat.
Proof. intros (p & Hp & ->). rewrite string_length_app. destruct p; [done|]. simpl. lia. Qed.

Lemma behind_cons a r : behind (String a r) r.
Proof. by exists (String a ""). Qed.

Lemma text_until_behind s r : behind s r → s = text_until s r +:+ r ∧ text_until s r ≠ "".
Proof.
  intros (p & Hp & ->). unfold text_until. rewrite string_length_app.
  replace (String.length p + String.length r - String.length r)%nat with (String.length p) by lia.
  by rewrite take_bytes_app.
Qed.

(** Parts of a text that may be empty. *)
Definition upto (s rest : string) : Prop := s = rest ∨ behind s rest.

Lemma upto_length s r : upto s r → (String.length r ≤ String.length s)%nat.
Proof. intros [->|H%behind_length]; lia. Qed.

Lemma upto_behind s r t : upto s r → behind r t → behind s t.
Proof. intros [->|H]; [done|by apply behind_trans]. Qed.

Lemma behind_upto s r t : behind s r → upto r t → behind s t.
Proof. intros H [->|H']; [done|by eapply behind_trans]. Qed.

Lemma upto_trans s r t : upto s r → upto r t → upto s t.
Proof. intros H [->|H']; [done|right; by eapply upto_behind]. Qed.

Lemma upto_cons a s r : upto s r → upto (String a s) r.
Proof. intros H. right. eapply behind_upto; [apply behind_cons|done]. Qed.

Lemma skip_space_upto s : upto s (skip_space s).
Proof. induction s as [|a s IH]; simpl; [by left|]. destruct (is_space a); [by apply upto_cons|by left]. Qed.

Lemma starts_behind c s r : starts c s = Some r → behind s r.
Proof. destruct s as [|a s]; [done|]. simpl. case_bool_decide; [|done]. intros [= ->]. apply behind_cons. Qed.

Lemma skip_digits_upto s : upto s (skip_digits s).
Proof. induction s as [|a s IH]; simpl; [by left|]. destruct (is_digit a); [by apply upto_cons|by left]. Qed.

Lemma digits_behind s r : digits s = Some r → behind s r.
Proof.
  destruct s as [|a s]; [done|]. simpl. destruct (is_digit a); [|done]. intros [= <-].
  eapply behind_upto; [apply behind_cons|apply skip_digits_upto].
Qed.

Lemma fraction_upto s r : fraction s = Some r → upto s r.
Proof.
  unfold fraction. destruct (starts "." s) as [t|] eqn:Hs; [|intros [= ->]; by left].
  intros Hd. right. eapply behind_trans; [by eapply starts_behind|by apply digits_behind].
Qed.

Lemma exponent_upto s r : exponent s = Some r → upto s r.
Proof.
  unfold exponent. destruct s as [|a s]; [intros [= <-]; by left|]. destruct (_ || _); [|intros [= <-]; by left].
  destruct s as [|b s]; [done|]. intros H. apply upto_cons. right. destruct (_ || _); apply digits_behind in H; [|done].
  eapply behind_trans; [apply behind_cons|done].
Qed.

Lemma number_behind s r : number s = Some r → behind s r.
Proof.
  unfold number. intros (i & H & (f & Hf & He)%bind_Some)%bind_Some.
  assert (upto s (default s (starts "-" s))) as Hu.
  { destruct (starts "-" s) eqn:E; [right; by eapply starts_behind|by left]. }
  eapply upto_behind; [exact Hu|]. apply fraction_upto in Hf. apply exponent_upto in He.
  eapply behind_upto; [|exact (upto_trans _ _ _ Hf He)].
  destruct (starts "0" _) eqn:E; [|by apply digits_behind]. injection H as <-. by eapply starts_behind.
Qed.

Lemma lexString_behind s us r : lexString s = Some (us, r) → behind s r.
Proof.
  revert us r. induction s as [s IH] using (induction_ltof1 _ String.length). unfold ltof in IH. intros us r.
  destruct s as [|a s]; [done|]. cbn [lexString]. case_bool_decide; [intros [= _ <-]; apply behind_cons|].
  case_bool_decide.
  - destruct s as [|e s]; [done|]. case_bool_decide.
    + destruct s as [|h1 [|h2 [|h3 [|h4 s]]]]; try done. destruct (hex4 _ _ _ _); [|done].
      destruct (lexString s) as [[us' t]|] eqn:Hl; [|done]. intros [= _ <-].
      apply IH in Hl; [|simpl; lia]. repeat (eapply behind_trans; [apply behind_cons|]). done.
    + destruct (escape e); [|done]. destruct (lexString s) as [[us' t]|] eqn:Hl; [|done]. intros [= _ <-].
      apply IH in Hl; [|simpl; lia]. repeat (eapply behind_trans; [apply behind_cons|]). done.
  - destruct (_ <? _); [done|]. destruct (lexString s) as [[us' t]|] eqn:Hl; [|done]. intros [= _ <-].
    apply IH in Hl; [|simpl; lia]. eapply behind_trans; [apply behind_cons|done].
Qed.

Lemma literal_behind word v s v' r : word ≠ "" → literal word v s = Parsed v' r → behind s r.
Proof.
  unfold literal. intros Hw. destruct (has_prefix word s) eqn:Hp; [|done]. intros [= _ <-].
  apply has_prefix_spec in Hp as [t ->]. exists word. by rewrite drop_bytes_app.
Qed.

(** Every parser consumes something, and enough fuel for its text is enough. *)
Definition parses {A} (parser : nat → N → string → parsed A) (cost : nat → nat) (fuel : nat) : Prop := ∀ depth s,
  (∀ a r, parser fuel depth s = Parsed a r → behind s r) ∧
  ((cost (String.length s) < fuel)%nat → parser fuel depth s ≠ Out).

Abbreviation valueCost n := (2 * n)%nat.
Abbreviation listCost n := (2 * n + 1)%nat.

Section ParseStep.
Context (fuel : nat) (IHv : parses parseValue (λ n, valueCost n) fuel)
        (IHe : parses parseElements (λ n, listCost n) fuel) (IHm : parses parseMembers (λ n, listCost n) fuel).

Lemma parseValue_step : parses parseValue (λ n, valueCost n) (S fuel).
Proof using IHe IHm.
  intros depth s.
  destruct s as [|a r]; cbn [parseValue]; [done|]. pose proof (upto_length _ _ (skip_space_upto r)) as Hlen.
  assert (∀ t, behind (skip_space r) t → behind (String a r) t) as Hin.
  { intros t H. eapply behind_trans; [apply behind_cons|]. eapply upto_behind; [apply skip_space_upto|done]. }
  cbn [String.length]. case_bool_decide.
  { destruct (_ <? _); [done|]. destruct (starts "}" (skip_space r)) as [t|] eqn:Hs.
    { split; [|done]. intros v r' [= _ <-]. by apply Hin, (starts_behind "}"). }
    destruct (IHm (depth + 1) (skip_space r)) as [Hb Hf]. split.
    - intros v r'. destruct (parseMembers _ _ _) as [ms t| |]; [|done..]. intros [= _ <-]. by eapply Hin, Hb.
    - intros Hc. destruct (parseMembers _ _ _) as [ms t| |]; [done..|]. intros _. apply Hf; [lia|done]. }
  case_bool_decide.
  { destruct (_ <? _); [done|]. destruct (starts "]" (skip_space r)) as [t|] eqn:Hs.
    { split; [|done]. intros v r' [= _ <-]. by apply Hin, (starts_behind "]"). }
    destruct (IHe (depth + 1) (skip_space r)) as [Hb Hf]. split.
    - intros v r'. destruct (parseElements _ _ _) as [ms t| |]; [|done..]. intros [= _ <-]. by eapply Hin, Hb.
    - intros Hc. destruct (parseElements _ _ _) as [ms t| |]; [done..|]. intros _. apply Hf; [lia|done]. }
  case_bool_decide.
  { destruct (lexString r) as [[us t]|] eqn:Hl; [|done]. split; [|done]. intros v r' [= _ <-].
    eapply behind_trans; [apply behind_cons|by eapply lexString_behind]. }
  assert (∀ word v, literal word v (String a r) ≠ Out) as Hlit by (intros; unfold literal; by destruct (has_prefix _ _)).
  do 3 (case_bool_decide; [split; [intros v r'; by apply literal_behind|intros _; apply Hlit]|]).
  destruct (number _) as [t|] eqn:Hn; [|done]. split; [|done]. intros v r' [= _ <-]. by apply number_behind.
Qed.

Lemma parseElements_step : parses parseElements (λ n, listCost n) (S fuel).
Proof using IHv IHe.
  intros depth s.
  cbn [parseElements]. destruct (IHv depth s) as [Hb Hf].
  destruct (parseValue fuel depth s) as [v t| |]; [|done|split; [done|intros Hc _; apply Hf; [lia|done]]].
  specialize (Hb v t eq_refl). pose proof (skip_space_upto t) as Ht. cbv zeta.
  destruct (starts "," (skip_space t)) as [more|] eqn:Hmore.
  + apply starts_behind in Hmore. pose proof (skip_space_upto more) as Hsm.
    assert (behind s (skip_space more)) as Hs.
    { eapply behind_trans; [done|]. eapply upto_behind; [done|]. by eapply behind_upto. }
    destruct (IHe depth (skip_space more)) as [Hb' Hf']. apply behind_length in Hs as Hl. split.
    * intros es r. destruct (parseElements _ _ _) as [es' t'| |]; [|done..]. intros [= _ <-].
      eapply behind_trans; [done|by eapply Hb'].
    * intros Hc. destruct (parseElements _ _ _); [done..|]. intros _. apply Hf'; [lia|done].
  + destruct (starts "]" (skip_space t)) as [r0|] eqn:Hend; [|done]. split; [|done]. intros es r [= _ <-].
    eapply behind_trans; [done|]. eapply upto_behind; [done|by eapply starts_behind].
Qed.

Lemma parseMembers_step : parses parseMembers (λ n, listCost n) (S fuel).
Proof using IHv IHm.
  intros depth s.
  cbn [parseMembers]. destruct (starts "034" s) as [body|] eqn:Hq; [|done]. apply starts_behind in Hq.
  destruct (lexString body) as [[us after]|] eqn:Hl; [|done]. apply lexString_behind in Hl.
  destruct (starts ":" (skip_space after)) as [colon|] eqn:Hcol; [|done]. apply starts_behind in Hcol. cbv zeta.
  assert (behind s (skip_space colon)) as Hval.
  { eapply behind_trans; [exact Hq|]. eapply behind_trans; [exact Hl|]. eapply upto_behind; [apply skip_space_upto|].
    eapply behind_upto; [exact Hcol|apply skip_space_upto]. }
  apply behind_length in Hval as Hvl. destruct (IHv depth (skip_space colon)) as [Hb Hf].
  destruct (parseValue fuel depth (skip_space colon)) as [v t| |]; [|done|split; [done|intros Hc _; apply Hf; [lia|done]]].
  specialize (Hb v t eq_refl). pose proof (skip_space_upto t) as Ht.
  destruct (starts "," (skip_space t)) as [more|] eqn:Hmore.
  + apply starts_behind in Hmore. pose proof (skip_space_upto more) as Hsm.
    assert (behind s (skip_space more)) as Hs.
    { eapply behind_trans; [exact Hval|]. eapply behind_trans; [exact Hb|]. eapply upto_behind; [done|]. by eapply behind_upto. }
    destruct (IHm depth (skip_space more)) as [Hb' Hf']. apply behind_length in Hs as Hsl. split.
    * intros es r. destruct (parseMembers _ _ _) as [es' t'| |]; [|done..]. intros [= _ <-].
      eapply behind_trans; [done|by eapply Hb'].
    * intros Hc. destruct (parseMembers _ _ _); [done..|]. intros _. apply Hf'; [lia|done].
  + destruct (starts "}" (skip_space t)) as [r0|] eqn:Hend; [|done]. split; [|done]. intros es r [= _ <-].
    eapply behind_trans; [exact Hval|]. eapply behind_trans; [done|]. eapply upto_behind; [done|by eapply starts_behind].
Qed.
End ParseStep.

Lemma parse_total fuel :
  parses parseValue (λ n, valueCost n) fuel ∧ parses parseElements (λ n, listCost n) fuel ∧
  parses parseMembers (λ n, listCost n) fuel.
Proof.
  induction fuel as [|fuel (IHv & IHe & IHm)]; [split_and!; intros depth s; (split; [done|lia])|].
  split_and!; [by apply parseValue_step|by apply parseElements_step|by apply parseMembers_step].
Qed.

(** A stream is read to its end: [Decode] reports a value, and then the stream has
    become shorter by its text and the space before it, a syntax error, or the end,
    and the end only when nothing but space is left. *)
Lemma decodeNext_spec stream :
  match decodeNext stream with
  | EOF => skip_space stream = ""
  | SyntaxError => parseValue (S (2 * String.length (skip_space stream))) 0 (skip_space stream) = Bad
  | Next raw v rest => behind stream rest ∧ raw ≠ "" ∧ skip_space stream = raw +:+ rest
  end.
Proof.
  unfold decodeNext. cbv zeta. case_bool_decide as E; [done|].
  destruct (parse_total (S (2 * String.length (skip_space stream)))) as [Hv _].
  destruct (Hv 0 (skip_space stream)) as [Hb Hf].
  destruct (parseValue _ 0 (skip_space stream)) as [v rest| |]; [|done|destruct (Hf ltac:(lia)); done].
  specialize (Hb v rest eq_refl). destruct (text_until_behind _ _ Hb) as [Ht Hne]. split_and!; [|done|done].
  eapply upto_behind; [apply skip_space_upto|done].
Qed.

(** ** Decoding into Go values *)

(** How the library compares the name of a field with a key: case is folded, which
    takes the long s and the Kelvin sign to s and k. *)
Fixpoint fold_name (s : string) : string :=
  match s with
  | EmptyString => ""
  | String a r =>
     match r with
     | String b r' =>
        if bool_decide (a = "197"%char) && bool_decide (b = "191"%char) then String "s" (fold_name r')
        else match r' with
             | String c r'' =>
                if bool_decide (a = "226"%char) && bool_decide (b = "132"%char) && bool_decide (c = "170"%char)
                then String "k" (fold_name r'')
                else String (to_lower a) (fold_name r)
             | EmptyString => String (to_lower a) (fold_name r)
             end
     | EmptyString => String (to_lower a) ""
     end
  end.

(** A destination after decoding, and whether some value had the wrong type. *)
Definition decodeText (v : json) (current : string) : string * bool :=
  match v with
  | JString s => (s, false)
  | JNull => (current, false)
  | _ => (current, true)
  end.

(** A struct: [set] stores the value of a key, folded and with its text, in its
    field, if any. *)
Definition decodeMembers {A} (set : string → string * json → A → A * bool) (v : json) (current : A) : A * bool :=
  match v with
  | JObject members =>
     foldl (λ acc member, let '(a, e) := set (fold_name member.1) member.2 acc.1 in (a, acc.2 || e)) (current, false) members
  | JNull => (current, false)
  | _ => (current, true)
  end.

Definition decodeStruct {A} (set : string → json → A → A * bool) : json → A → A * bool :=
  decodeMembers (λ key tv, set key tv.2).

(** A slice: its length, and what its array holds, beyond the length too: decoding
    an element starts from what is there. *)
Record slice_of (A : Type) := mkSlice { sl_mem : list A; sl_len : nat }.
Arguments mkSlice {A}. Arguments sl_mem {A}. Arguments sl_len {A}.

Definition items {A} (s : slice_of A) : list A := take (sl_len s) (sl_mem s).
Definition no_items {A} : slice_of A := mkSlice [] 0.

Definition decodeSlice {A} (element : json → A → A * bool) (zero : A) (v : json) (current : slice_of A)
    : slice_of A * bool :=
  match v with
  | JArray [] | JNull => (no_items, false)
  | JArray elements =>
     let decoded := imap (λ i e, element e.2 (default zero (sl_mem current !! i))) elements in
     (mkSlice (decoded.*1 ++ drop (length elements) (sl_mem current)) (length elements), existsb snd decoded)
  | _ => (current, true)
  end.

(** [json.Unmarshal] into such a destination: [None] for an error. *)
Definition unmarshalInto {A} (decode : json → A → A * bool) (zero : A) (text : string) : option A :=
  match unmarshal text with
  | None => None
  | Some v => let '(a, wrong) := decode v zero in if wrong then None else Some a
  end.
