(* ===== verification/Marshal.v ===== *)
(** * Writing JSON (encoding/json of the Go library)

    [json.Marshal] of texts, arrays and objects, with the escapes of the library, and
    that the decoder of Json.v reads back what was written: what follows the text is
    left alone, so that the encodings of the parts compose. *)

From stdpp Require Import prelude strings gmap.
From Stdlib Require Import ZArith Lia Ascii.
From S2P Require Import Prelude GoStrings Json.

Local Open Scope string_scope.
Local Open Scope list_scope.
Local Open Scope N_scope.

(** ** String literals *)

(** The four hexadecimal digits behind [\u]. *)
Definition hex_low (n : N) : ascii := default "0"%char (String.get (N.to_nat n) hex_alphabet).

Definition escape_code (n : N) : string :=
  "\u" +:+ String (hex_low (n / 4096 mod 16)) (String (hex_low (n / 256 mod 16))
    (String (hex_low (n / 16 mod 16)) (String (hex_low (n mod 16)) ""))).

(** A byte below 128; the three HTML characters are escaped too. *)
Definition encodeByte (a : ascii) : string :=
  if bool_decide (a = "034"%char) || bool_decide (a = "\"%char) then String "\" (String a "")
  else if bool_decide (a = "008"%char) then "\b"
  else if bool_decide (a = "012"%char) then "\f"
  else if bool_decide (a = "010"%char) then "\n"
  else if bool_decide (a = "013"%char) then "\r"
  else if bool_decide (a = "009"%char) then "\t"
  else if (byte_val a <? 32) || contains_byte a "<>&" then escape_code (byte_val a)
  else String a "".

(** U+2028 and U+2029, which JavaScript takes for line ends. *)
Definition separator (b c : ascii) : bool :=
  bool_decide (b = "128"%char) && (bool_decide (c = "168"%char) || bool_decide (c = "169"%char)).

(** A byte that is part of no rune is written as the replacement character. [skip]
    bytes of a rune are still to be copied. *)
Fixpoint encodeFrom (skip : nat) (s : string) : string :=
  match s, skip with
  | EmptyString, _ => ""
  | String a r, S skip' => String a (encodeFrom skip' r)
  | String a r, O =>
     match utf8_size s with
     | None => escape_code 65533 +:+ encodeFrom 0 r
     | Some 1%nat => encodeByte a +:+ encodeFrom 0 r
     | Some n =>
        match r with
        | String b (String c r') =>
           if bool_decide (a = "226"%char) && separator b c
           then escape_code (8192 + byte_val c - 128) +:+ encodeFrom 0 r'
           else String a (encodeFrom (n - 1) r)
        | _ => String a (encodeFrom (n - 1) r)
        end
     end
  end.

Definition encodeText (s : string) : string := encodeFrom 0 s.

Definition quotation : ascii := "034".
Definition in_quotes (s : string) : string := String quotation (s +:+ String quotation "").

(** ** Values *)

(** What the program encodes, with the members of an object in the order they are
    written. *)
Inductive doc :=
| DNull
| DText (s : string)
| DArray (elements : list doc)
| DObject (members : list (string * doc)).

Fixpoint print (d : doc) : string :=
  match d with
  | DNull => "null"
  | DText s => in_quotes (encodeText s)
  | DArray l => "[" +:+ join_with "," (List.map print l) +:+ "]"
  | DObject l =>
     "{" +:+ join_with "," (List.map (λ m, in_quotes (encodeText m.1) +:+ ":" +:+ print m.2) l) +:+ "}"
  end.

(** What the decoder makes of it. *)
Fixpoint valueOf (d : doc) : json :=
  match d with
  | DNull => JNull
  | DText s => JString (coerce 0 s)
  | DArray l => JArray (List.map (λ d, (print d, valueOf d)) l)
  | DObject l => JObject (List.map (λ m, (coerce 0 m.1, (print m.2, valueOf m.2))) l)
  end.

(** How deep its brackets are nested. *)
Fixpoint nesting (d : doc) : N :=
  match d with
  | DNull | DText _ => 0
  | DArray l => 1 + foldr N.max 0 (List.map nesting l)
  | DObject l => 1 + foldr N.max 0 (List.map (λ m, nesting m.2) l)
  end.

Section DocInd.
Context (P : doc → Prop) (P_null : P DNull) (P_text : ∀ s, P (DText s))
        (P_array : ∀ l, Forall P l → P (DArray l)) (P_object : ∀ l, Forall (λ m, P m.2) l → P (DObject l)).

Fixpoint doc_nested_ind (d : doc) : P d :=
  match d with
  | DNull => P_null
  | DText s => P_text s
  | DArray l => P_array l ((fix go l : Forall P l :=
      match l with [] => Forall_nil_2 _ | d :: l' => Forall_cons_2 _ _ _ (doc_nested_ind d) (go l') end) l)
  | DObject l => P_object l ((fix go l : Forall (λ m, P m.2) l :=
      match l with [] => Forall_nil_2 _ | m :: l' => Forall_cons_2 _ _ _ (doc_nested_ind m.2) (go l') end) l)
  end.
End DocInd.

(** ** Runes *)

Definition beyond_ascii (a : ascii) : bool := negb (byte_val a <? 128).

(** A text begins with a rune [p]: its bytes decide, and those of a rune of several
    bytes are no ASCII. *)
Definition rune (p : string) : Prop :=
  p ≠ "" ∧ (∀ t, utf8_size (p +:+ t) = Some (String.length p)) ∧
  ((1 < String.length p)%nat → all_bytes beyond_ascii p = true).

Lemma between_beyond lo hi a : between lo hi a = true → 128 ≤ lo → beyond_ascii a = true.
Proof. unfold between, beyond_ascii. intros [H _]%andb_prop Hlo. apply N.leb_le in H. apply negb_true_iff, N.ltb_ge. lia. Qed.

#[local] Hint Extern 1 (beyond_ascii _ = true) => (eapply between_beyond; [eassumption|repeat case_match; lia]) : core.

Lemma utf8_size_rune s n : utf8_size s = Some n → ∃ p r, s = p +:+ r ∧ String.length p = n ∧ rune p.
Proof.
  destruct s as [|a s]; [done|]. cbn [utf8_size].
  destruct (between 0 127 a) eqn:Ha; [|destruct (between 194 223 a) eqn:H2; [|destruct (between 224 239 a) eqn:H3; [|destruct (between 240 244 a) eqn:H4; [|done]]]].
  - intros [= <-]. exists (String a ""), s. split_and!; [done|done|]. split_and!; [done| |simpl; lia].
    intros t. cbn [String.append utf8_size]. by rewrite Ha.
  - destruct s as [|b s]; [done|]. destruct (between 128 191 b) eqn:Hb; [|done]. intros [= <-].
    exists (String a (String b "")), s. split_and!; [done|done|]. split_and!; [done| |].
    + intros t. cbn [String.append utf8_size]. by rewrite Ha, H2, Hb.
    + intros _. cbn [all_bytes]. by rewrite !(between_beyond _ _ _ H2), (between_beyond _ _ _ Hb) by lia.
  - destruct s as [|b [|c s]]; [done..|]. destruct (_ && _) eqn:Hbc; [|done]. intros [= <-].
    exists (String a (String b (String c ""))), s. split_and!; [done|done|]. split_and!; [done| |].
    + intros t. cbn [String.append utf8_size]. by rewrite Ha, H2, H3, Hbc.
    + intros _. apply andb_prop in Hbc as [Hb Hc]. cbn [all_bytes]. rewrite !andb_true_iff. split_and!; auto.
  - destruct s as [|b [|c [|d s]]]; [done..|]. destruct (_ && _) eqn:Hbc; [|done]. intros [= <-].
    exists (String a (String b (String c (String d "")))), s. split_and!; [done|done|]. split_and!; [done| |].
    + intros t. cbn [String.append utf8_size]. by rewrite Ha, H2, H3, H4, Hbc.
    + intros _. apply andb_prop in Hbc as [[Hb Hc]%andb_prop Hd]. cbn [all_bytes]. rewrite !andb_true_iff. split_and!; auto.
Qed.

Lemma coerce_copy p s : coerce (String.length p) (p +:+ s) = p +:+ coerce 0 s.
Proof. induction p as [|a p IH]; [by destruct s|]. cbn [String.length String.append coerce]. by rewrite IH. Qed.

Lemma utf8_copy p s : utf8_from (String.length p) (p +:+ s) = utf8_from 0 s.
Proof. induction p as [|a p IH]; [by destruct s|]. cbn [String.length String.append utf8_from]. by rewrite IH. Qed.

Lemma coerce_rune p s : rune p → coerce 0 (p +:+ s) = p +:+ coerce 0 s.
Proof.
  intros (Hne & Hsize & _). specialize (Hsize s). destruct p as [|a p]; [done|].
  cbn [String.append coerce] in *. rewrite Hsize. cbn [String.length]. by rewrite Nat.sub_succ, Nat.sub_0_r, coerce_copy.
Qed.

Lemma utf8_rune p s : rune p → utf8_from 0 (p +:+ s) = utf8_from 0 s.
Proof.
  intros (Hne & Hsize & _). specialize (Hsize s). destruct p as [|a p]; [done|].
  cbn [String.append utf8_from] in *. rewrite Hsize. cbn [String.length]. by rewrite Nat.sub_succ, Nat.sub_0_r, utf8_copy.
Qed.

(** A text is read rune by rune, and byte by byte where there is none. *)
Lemma rune_ind (P : string → Prop) : P "" → (∀ p s, rune p → P s → P (p +:+ s)) →
  (∀ a s, utf8_size (String a s) = None → P s → P (String a s)) → ∀ s, P s.
Proof.
  intros H0 Hr Hb s. induction s as [s IH] using (induction_ltof1 _ String.length). unfold ltof in IH.
  destruct s as [|a s]; [done|]. destruct (utf8_size (String a s)) as [n|] eqn:E.
  - apply utf8_size_rune in E as (p & r & Hs & _ & Hp). rewrite Hs. apply Hr; [done|]. apply IH.
    rewrite Hs, string_length_app. destruct Hp as [Hne _]. destruct p; [done|]. simpl. lia.
  - apply Hb; [done|]. apply IH. simpl. lia.
Qed.

Lemma replacement_rune : rune replacement.
Proof. split_and!; [done|done|by intros]. Qed.

(** The replacement of what is no rune makes a text valid, and leaves a valid one
    as it is. *)
Lemma coerce_valid s : utf8_Valid (coerce 0 s) = true.
Proof.
  unfold utf8_Valid. induction s as [|p s Hp IH|a s Hs IH] using rune_ind; [done|..].
  - by rewrite coerce_rune, utf8_rune.
  - cbn [coerce]. rewrite Hs. rewrite utf8_rune; [done|apply replacement_rune].
Qed.

Lemma coerce_id s : utf8_Valid s = true → coerce 0 s = s.
Proof.
  unfold utf8_Valid. induction s as [|p s Hp IH|a s Hs IH] using rune_ind; [done|..].
  - rewrite coerce_rune, utf8_rune by done. intros H. by rewrite IH.
  - cbn [utf8_from]. by rewrite Hs.
Qed.

(** ** A literal is read back *)

(** A byte that stands for itself in a literal. *)
Definition verbatim (a : ascii) : bool := negb (contains_byte a (String quotation "\")) && negb (byte_val a <? 32).

Lemma lex_literal p rest us r : all_bytes verbatim p = true →
  lexString rest = Some (us, r) → lexString (p +:+ rest) = Some (List.map Lit (String.list_ascii_of_string p) ++ us, r).
Proof.
  induction p as [|a p IH]; [done|]. cbn [all_bytes]. intros [[Ha Hc]%andb_prop Hp]%andb_prop Hl.
  cbn [String.append lexString String.list_ascii_of_string List.map app]. apply negb_true_iff in Ha, Hc. simpl in Ha.
  apply orb_false_iff in Ha as [Hq [Hb _]%orb_false_iff]. apply bool_decide_eq_false in Hq, Hb.
  rewrite !bool_decide_eq_false_2 by (intros ->; by eauto). rewrite Hc. by rewrite (IH Hp Hl).
Qed.

Lemma decode_literal p us : decodeUnits (List.map Lit (String.list_ascii_of_string p) ++ us) = p +:+ decodeUnits us.
Proof. induction p as [|a p IH]; [done|]. cbn [String.list_ascii_of_string List.map app decodeUnits String.append]. by rewrite IH. Qed.

(** One unit [u] that is read from [text] and stands for the text [t]. *)
Definition written (text : string) (u : unit16) (t : string) : Prop :=
  (∀ rest us r, lexString rest = Some (us, r) → lexString (text +:+ rest) = Some (u :: us, r)) ∧
  (∀ us, decodeUnits (u :: us) = t +:+ decodeUnits us).

Lemma encodeByte_written a : byte_val a < 128 → ∃ u, written (encodeByte a) u (String a "").
Proof.
  intros H. exists (if has_prefix "\u" (encodeByte a) && negb (bool_decide (a = "u"%char)) then Code (byte_val a) else Lit a).
  destruct a as [[] [] [] [] [] [] [] []]; try (by vm_compute in H); (split; [|reflexivity]); intros rest us r Hl;
    lazymatch goal with |- context [encodeByte ?a] =>
      let text := eval vm_compute in (encodeByte a) in change (encodeByte a) with text end;
    cbn; by rewrite Hl.
Qed.

Lemma replacement_written : written (escape_code 65533) (Code 65533) replacement.
Proof. split; [|done]. intros rest us r Hl. cbn. by rewrite Hl. Qed.

Lemma separator_written b c : separator b c = true →
  written (escape_code (8192 + byte_val c - 128)) (Code (8192 + byte_val c - 128)) (String "226" (String b (String c ""))).
Proof.
  unfold separator. intros [->%bool_decide_eq_true H]%andb_prop.
  apply orb_prop in H as [->%bool_decide_eq_true| ->%bool_decide_eq_true]; (split; [|done]); intros rest us r Hl; cbn; by rewrite Hl.
Qed.

Lemma encode_copy p s : encodeFrom (String.length p) (p +:+ s) = p +:+ encodeFrom 0 s.
Proof. induction p as [|a p IH]; [by destruct s|]. cbn [String.length String.append encodeFrom]. by rewrite IH. Qed.

Lemma utf8_size_one a s : utf8_size (String a s) = Some 1%nat → byte_val a < 128.
Proof.
  cbn [utf8_size]. destruct (between 0 127 a) eqn:E.
  - intros _. apply andb_prop in E as [_ E%N.leb_le]. lia.
  - repeat case_match; intros; simplify_eq.
Qed.

(** A rune is written as one unit or copied. *)
Lemma encode_rune_cases p s : rune p →
  (∃ text u, encodeFrom 0 (p +:+ s) = text +:+ encodeFrom 0 s ∧ written text u p) ∨
  encodeFrom 0 (p +:+ s) = p +:+ encodeFrom 0 s ∧ all_bytes beyond_ascii p = true.
Proof.
  intros (Hne & Hsize & Hbig). pose proof (Hsize s) as Hs. destruct p as [|a p]; [done|].
  cbn [String.append encodeFrom] in *. rewrite Hs. clear Hne. destruct p as [|b p].
  { left. cbn [String.length]. destruct (encodeByte_written a) as [u Hu]; [by eapply utf8_size_one|].
    exists (encodeByte a), u. done. }
  specialize (Hbig ltac:(simpl; lia)). cbn [String.length] in *. rewrite Nat.sub_succ, Nat.sub_0_r.
  assert (String a (encodeFrom (S (String.length p)) (String b p +:+ s)) = String a (String b p) +:+ encodeFrom 0 s) as Hcopy.
  { exact (f_equal (String a) (encode_copy (String b p) s)). }
  destruct p as [|c p].
  { destruct s as [|c s]; [by right|]. cbn [String.append] in *. destruct (_ && _) eqn:E; [|by right].
    apply andb_prop in E as [->%bool_decide_eq_true _]. by specialize (Hsize ""). }
  cbn [String.append] in *. destruct (_ && _) eqn:E; [|by right].
  apply andb_prop in E as [->%bool_decide_eq_true E]. left.
  assert (p = "") as ->.
  { specialize (Hsize ""). revert Hsize. apply andb_prop in E as [->%bool_decide_eq_true E].
    apply orb_prop in E as [->%bool_decide_eq_true| ->%bool_decide_eq_true]; destruct p; vm_compute; congruence. }
  eexists _, _. split; [reflexivity|]. by apply separator_written.
Qed.

Lemma beyond_literal p : all_bytes beyond_ascii p = true →
  all_bytes verbatim p = true.
Proof. apply all_bytes_mono. by intros [[] [] [] [] [] [] [] []]. Qed.

(** The text of a literal is read up to its closing quote, with what is no rune
    replaced. *)
Lemma lex_encode s rest : ∃ us, lexString (encodeText s +:+ String quotation rest) = Some (us, rest) ∧
  stringValue us = coerce 0 s.
Proof.
  assert (∃ us, lexString (encodeText s +:+ String quotation rest) = Some (us, rest) ∧ decodeUnits us = coerce 0 s) as (us & Hl & Hd).
  { unfold encodeText. induction s as [|p s Hp (us & IH & Hus)|a s Ha (us & IH & Hus)] using rune_ind.
    - by exists [].
    - rewrite coerce_rune by done. destruct (encode_rune_cases p s Hp) as [(text & u & -> & Hl & Hd)|[-> Hb]]; rewrite string_app_assoc.
      + exists (u :: us). split; [by apply Hl|]. by rewrite Hd, Hus.
      + eexists. split; [apply lex_literal; [by apply beyond_literal|done]|]. by rewrite decode_literal, Hus.
    - cbn [encodeFrom coerce]. rewrite Ha, string_app_assoc. destruct replacement_written as [Hl Hd].
      exists (Code 65533 :: us). split; [by apply Hl|]. by rewrite Hd, Hus. }
  exists us. split; [done|]. unfold stringValue. rewrite Hd. apply coerce_id, coerce_valid.
Qed.

(** ** A value is read back *)

Lemma text_until_app p r : text_until (p +:+ r) r = p.
Proof.
  unfold text_until. rewrite string_length_app.
  replace (String.length p + String.length r - String.length r)%nat with (String.length p) by lia. apply take_bytes_app.
Qed.

Lemma starts_self c x : starts c (String c x) = Some x.
Proof. cbn [starts]. by rewrite bool_decide_eq_true_2. Qed.

Lemma starts_skip c x : is_space c = false → starts c (skip_space (String c x)) = Some x.
Proof. intros H. cbn [skip_space]. by rewrite H, starts_self. Qed.

Lemma skip_space_print d rest : skip_space (print d +:+ rest) = print d +:+ rest.
Proof. by destruct d. Qed.

(** [d] is read back, whatever follows and with enough fuel for its own text. *)
Definition read_back (d : doc) : Prop := ∀ fuel depth rest,
  (2 * String.length (print d) < fuel)%nat → depth + nesting d ≤ maxNestingDepth →
  parseValue fuel depth (print d +:+ rest) = Parsed (valueOf d) rest.

Definition member_text (m : string * doc) : string := in_quotes (encodeText m.1) +:+ ":" +:+ print m.2.
Definition member_value (m : string * doc) : string * (string * json) := (coerce 0 m.1, (print m.2, valueOf m.2)).

Lemma in_quotes_app s t : in_quotes s +:+ t = String quotation (s +:+ String quotation t).
Proof. unfold in_quotes. by str_norm. Qed.

Lemma parseElements_print l d fuel depth rest :
  Forall read_back (d :: l) → Forall (λ d, depth + nesting d ≤ maxNestingDepth) (d :: l) →
  (2 * String.length (join_with "," (List.map print (d :: l))) + 1 < fuel)%nat →
  parseElements fuel depth (join_with "," (List.map print (d :: l)) +:+ String "]" rest) =
  Parsed (List.map (λ d, (print d, valueOf d)) (d :: l)) rest.
Proof.
  revert d fuel. induction l as [|d' l IH]; intros d fuel [Hd Hl]%Forall_cons [Hn Hnl]%Forall_cons Hf;
    (destruct fuel as [|fuel]; [lia|]); cbn [parseElements].
  - cbn [List.map join_with] in *. by rewrite Hd, text_until_app by (done || lia).
  - assert (∀ x, join_with "," (List.map print (d :: d' :: l)) +:+ x =
      print d +:+ String "," (join_with "," (List.map print (d' :: l)) +:+ x)) as Hjoin by (intros; cbn [List.map join_with]; by str_norm).
    rewrite <- (string_app_nil_r (join_with _ _)), Hjoin, string_length_app in Hf. cbn [String.length] in Hf.
    rewrite string_length_app in Hf. cbn [String.length] in Hf.
    rewrite Hjoin, Hd, text_until_app by (done || lia). cbv zeta.
    rewrite starts_skip by done.
    assert (∀ x, skip_space (join_with "," (List.map print (d' :: l)) +:+ x) = join_with "," (List.map print (d' :: l)) +:+ x) as Hskip.
    { intros x. destruct l; cbn [List.map join_with]; rewrite ?string_app_assoc; apply skip_space_print. }
    by rewrite Hskip, IH by (done || lia).
Qed.

Lemma parseMembers_print l m fuel depth rest :
  Forall (λ m, read_back m.2) (m :: l) → Forall (λ m, depth + nesting m.2 ≤ maxNestingDepth) (m :: l) →
  (2 * String.length (join_with "," (List.map member_text (m :: l))) + 1 < fuel)%nat →
  parseMembers fuel depth (join_with "," (List.map member_text (m :: l)) +:+ String "}" rest) =
  Parsed (List.map member_value (m :: l)) rest.
Proof.
  revert m fuel. induction l as [|m' l IH]; intros m fuel [Hd Hl]%Forall_cons [Hn Hnl]%Forall_cons Hf;
    (destruct fuel as [|fuel]; [lia|]); cbn [parseMembers].
  all: assert (∀ x, member_text m +:+ x = String quotation (encodeText m.1 +:+ String quotation (String ":" (print m.2 +:+ x)))) as Htext
    by (intros; unfold member_text; rewrite string_app_assoc, in_quotes_app; by str_norm).
  all: assert (String.length (print m.2) < String.length (member_text m))%nat as Hlen
    by (rewrite <- (string_app_nil_r (member_text m)), Htext; cbn [String.length];
        rewrite string_length_app; cbn [String.length]; rewrite string_app_nil_r; lia).
  - cbn [List.map join_with] in *. rewrite Htext.
    rewrite (starts_self quotation). destruct (lex_encode m.1 (String ":" (print m.2 +:+ String "}" rest))) as (us & -> & Hus).
    rewrite starts_skip by done. cbv zeta.
    rewrite skip_space_print, Hd, text_until_app by (done || lia). unfold member_value. by rewrite Hus.
  - assert (∀ x, join_with "," (List.map member_text (m :: m' :: l)) +:+ x =
      member_text m +:+ String "," (join_with "," (List.map member_text (m' :: l)) +:+ x)) as Hjoin by (intros; cbn [List.map join_with]; by str_norm).
    rewrite <- (string_app_nil_r (join_with _ _)), Hjoin, string_length_app in Hf. cbn [String.length] in Hf.
    rewrite string_length_app in Hf. cbn [String.length] in Hf. rewrite Hjoin, Htext.
    rewrite (starts_self quotation).
    edestruct (lex_encode m.1) as (us & -> & Hus).
    rewrite starts_skip by done. cbv zeta.
    rewrite skip_space_print, Hd, text_until_app by (done || lia).
    rewrite starts_skip by done.
    assert (∀ x, skip_space (join_with "," (List.map member_text (m' :: l)) +:+ x) = join_with "," (List.map member_text (m' :: l)) +:+ x) as Hskip.
    { intros x. by destruct l. }
    rewrite Hskip, IH by (done || lia). unfold member_value at 2. by rewrite Hus.
Qed.

Lemma max_nesting {A} (f : A → N) l (bound : N) : foldr N.max 0 (List.map f l) ≤ bound → Forall (λ x, f x ≤ bound) l.
Proof. induction l as [|x l IH]; cbn [List.map foldr]; [constructor|]. intros H. constructor; [lia|]. apply IH. lia. Qed.

Lemma print_read_back d : read_back d.
Proof.
  induction d as [|s|l IH|l IH] using doc_nested_ind; intros fuel depth rest Hf Hn; (destruct fuel as [|fuel]; [lia|]).
  - done.
  - cbn [print valueOf] in *. rewrite in_quotes_app. cbn [parseValue].
    rewrite !bool_decide_eq_false_2 by done. rewrite bool_decide_eq_true_2 by done.
    destruct (lex_encode s rest) as (us & -> & ->). done.
  - cbn [nesting] in Hn. change (print (DArray l)) with (String "[" (join_with "," (List.map print l) +:+ "]")) in *.
    cbn [String.append parseValue]. rewrite bool_decide_eq_false_2, bool_decide_eq_true_2 by done.
    rewrite (proj2 (N.ltb_ge _ _)) by lia. destruct l as [|d l]; [done|]. rewrite string_app_assoc. cbn [String.append].
    assert (∀ x, skip_space (join_with "," (List.map print (d :: l)) +:+ x) = join_with "," (List.map print (d :: l)) +:+ x ∧
              starts "]" (join_with "," (List.map print (d :: l)) +:+ x) = None) as Hskip.
    { intros x. destruct l; cbn [List.map join_with]; rewrite ?string_app_assoc, skip_space_print; by destruct d. }
    destruct (Hskip (String "]" rest)) as [-> ->]. cbn [String.length] in Hf. rewrite string_length_app in Hf. cbn [String.length] in Hf.
    rewrite parseElements_print; [done|done| |lia].
    eapply Forall_impl; [apply (max_nesting nesting _ (maxNestingDepth - depth - 1)); lia|]. simpl. lia.
  - cbn [nesting] in Hn. change (print (DObject l)) with (String "{" (join_with "," (List.map member_text l) +:+ "}")) in *.
    cbn [String.append parseValue]. rewrite bool_decide_eq_true_2 by done.
    rewrite (proj2 (N.ltb_ge _ _)) by lia. destruct l as [|m l]; [done|]. rewrite string_app_assoc. cbn [String.append].
    assert (∀ x, skip_space (join_with "," (List.map member_text (m :: l)) +:+ x) = join_with "," (List.map member_text (m :: l)) +:+ x ∧
              starts "}" (join_with "," (List.map member_text (m :: l)) +:+ x) = None) as Hskip by (intros x; by destruct l).
    destruct (Hskip (String "}" rest)) as [-> ->]. cbn [String.length] in Hf. rewrite string_length_app in Hf. cbn [String.length] in Hf.
    rewrite parseMembers_print; [done|done| |lia].
    eapply Forall_impl; [apply (max_nesting (λ m : string * doc, nesting m.2) _ (maxNestingDepth - depth - 1)); lia|]. simpl. lia.
Qed.

(** [json.Unmarshal] of what [json.Marshal] wrote. *)
Lemma unmarshal_print d : nesting d ≤ maxNestingDepth → unmarshal (print d) = Some (valueOf d).
Proof.
  intros Hn. unfold unmarshal, decodeNext. cbv zeta.
  pose proof (skip_space_print d "") as Hs. rewrite string_app_nil_r in Hs. rewrite Hs.
  rewrite bool_decide_eq_false_2 by (by destruct d).
  pose proof (print_read_back d (S (2 * String.length (print d))) 0 "" ltac:(lia) ltac:(lia)) as Hp.
  rewrite string_app_nil_r in Hp. by rewrite Hp.
Qed.
