(* ===== verification/Prefixes.v ===== *)
(** * Texts of JSON cut short

    A parser that found a value finds the same in a longer text, with what was added
    behind the rest; only a number at the very end may go on. So a text that holds an
    object is no JSON once a part of it is missing. *)

From stdpp Require Import prelude strings.
From Stdlib Require Import ZArith Lia Ascii.
From S2P Require Import Prelude GoStrings Json.

Local Open Scope string_scope.
Local Open Scope N_scope.

(** ** Parts *)

Lemma string_app_ne s t : s ≠ "" → s +:+ t ≠ "".
Proof. by destruct s. Qed.

Lemma skip_space_app s t : skip_space s ≠ "" → skip_space (s +:+ t) = skip_space s +:+ t.
Proof. induction s as [|a s IH]; [done|]. cbn [String.append skip_space]. by destruct (is_space a). Qed.

Lemma skip_space_over s t : skip_space s = "" → skip_space (s +:+ t) = skip_space t.
Proof. induction s as [|a s IH]; [done|]. cbn [String.append skip_space]. by destruct (is_space a). Qed.

Lemma starts_app c s r t : starts c s = Some r → starts c (s +:+ t) = Some (r +:+ t).
Proof. destruct s as [|a s]; [done|]. cbn [starts String.append]. case_bool_decide; [|done]. by intros [= ->]. Qed.

Lemma starts_app_None c s t : s ≠ "" → starts c s = None → starts c (s +:+ t) = None.
Proof. destruct s as [|a s]; [done|]. cbn [starts String.append]. by case_bool_decide. Qed.

Lemma starts_ne c s r : starts c s = Some r → s ≠ "".
Proof. by destruct s. Qed.

Lemma text_until_more s rest t : upto s rest → text_until (s +:+ t) (rest +:+ t) = text_until s rest.
Proof.
  intros H. unfold text_until. rewrite !string_length_app.
  replace (_ + _ - (_ + _))%nat with (String.length s - String.length rest)%nat by lia.
  assert (∃ p, s = p +:+ rest) as [p ->] by (destruct H as [->|(p & _ & ->)]; [by exists ""|by exists p]).
  rewrite string_length_app. replace (String.length p + String.length rest - String.length rest)%nat with (String.length p) by lia.
  by rewrite string_app_assoc, !take_bytes_app.
Qed.

Lemma lexString_app s us rest t : lexString s = Some (us, rest) → lexString (s +:+ t) = Some (us, rest +:+ t).
Proof.
  revert us rest. induction s as [s IH] using (induction_ltof1 _ String.length). unfold ltof in IH. intros us rest.
  destruct s as [|a s]; [done|]. cbn [String.append lexString]. case_bool_decide; [by intros [= <- <-]|].
  assert (∀ s' us' (u : unit16), (String.length s' < S (String.length s))%nat →
    (match lexString s' with Some (us, r) => Some (u :: us, r) | None => None end) = Some (us', rest) →
    (match lexString (s' +:+ t) with Some (us, r) => Some (u :: us, r) | None => None end) = Some (us', rest +:+ t)) as Hgo.
  { intros s' us' u Hl. destruct (lexString s') as [[us1 r1]|] eqn:E; [|done]. intros [= <- <-]. by rewrite (IH s' Hl us1 r1 E). }
  case_bool_decide.
  - destruct s as [|e s]; [done|]. cbn [String.append]. case_bool_decide.
    + destruct s as [|h1 [|h2 [|h3 [|h4 s]]]]; try done. cbn [String.append]. destruct (hex4 _ _ _ _); [|done]. apply Hgo. simpl. lia.
    + destruct (escape e); [|done]. apply Hgo. simpl. lia.
  - destruct (_ <? _); [done|]. apply Hgo. lia.
Qed.

(** ** Numbers *)

Lemma skip_digits_app s t : skip_digits s ≠ "" → skip_digits (s +:+ t) = skip_digits s +:+ t.
Proof. induction s as [|a s IH]; [done|]. cbn [String.append skip_digits]. by destruct (is_digit a). Qed.

Lemma digits_app s r t : digits s = Some r → r ≠ "" → digits (s +:+ t) = Some (r +:+ t).
Proof.
  destruct s as [|a s]; [done|]. cbn [String.append digits]. destruct (is_digit a); [|done]. intros [= <-] Hr.
  by rewrite skip_digits_app.
Qed.

Lemma digits_None s t : s ≠ "" → digits s = None → digits (s +:+ t) = None.
Proof. destruct s as [|a s]; [done|]. cbn [String.append digits]. by destruct (is_digit a). Qed.

Lemma fraction_app s r t : fraction s = Some r → r ≠ "" → fraction (s +:+ t) = Some (r +:+ t).
Proof.
  unfold fraction. intros H Hr. destruct (starts "." s) as [d|] eqn:E.
  - rewrite (starts_app _ _ _ _ E). by apply digits_app.
  - injection H as ->. by rewrite starts_app_None.
Qed.

Lemma exponent_app s r t : exponent s = Some r → r ≠ "" → exponent (s +:+ t) = Some (r +:+ t).
Proof.
  destruct s as [|a s]; [by intros [= <-]|]. cbn [String.append exponent]. intros H Hr.
  destruct (_ || _); [|by injection H as <-]. destruct s as [|b s]; [done|]. cbn [String.append].
  destruct (_ || _); [by apply digits_app|]. by apply (digits_app (String b s)).
Qed.

Lemma upto_ne s r : upto s r → r ≠ "" → s ≠ "".
Proof. intros H%upto_length Hr ->. destruct r; [done|]. simpl in H. lia. Qed.

Lemma number_app s r t : number s = Some r → r ≠ "" → number (s +:+ t) = Some (r +:+ t).
Proof.
  unfold number. intros (i & Hi & (f & Hf & He)%bind_Some)%bind_Some Hr.
  pose proof (upto_ne _ _ (exponent_upto _ _ He) Hr) as Hfne. pose proof (upto_ne _ _ (fraction_upto _ _ Hf) Hfne) as Hine.
  assert (s ≠ "") as Hs by (intros ->; done).
  assert (default (s +:+ t) (starts "-" (s +:+ t)) = default s (starts "-" s) +:+ t) as ->.
  { destruct (starts "-" s) as [u|] eqn:E; [by rewrite (starts_app _ _ _ _ E)|by rewrite starts_app_None]. }
  set (u := default s (starts "-" s)) in *.
  assert (match starts "0" (u +:+ t) with Some r => Some r | None => digits (u +:+ t) end = Some (i +:+ t)) as ->.
  { destruct (starts "0" u) as [z|] eqn:E; [injection Hi as ->; by rewrite (starts_app _ _ _ _ E)|].
    rewrite starts_app_None; [by apply digits_app|by intros ->|done]. }
  cbn [mbind option_bind]. rewrite (fraction_app _ _ _ Hf Hfne). cbn [mbind option_bind]. by apply exponent_app.
Qed.

(** ** Values *)

Lemma literal_app word v s w rest t : literal word v s = Parsed w rest → literal word v (s +:+ t) = Parsed w (rest +:+ t).
Proof.
  unfold literal. destruct (has_prefix word s) eqn:E; [|done]. intros [= <- <-]. apply has_prefix_spec in E as [u ->].
  by rewrite string_app_assoc, has_prefix_app, !drop_bytes_app.
Qed.

(** What a parser found it finds with more fuel in a longer text too. *)
Definition extends {A} (parse : nat → N → string → parsed A) (ends : A → string → Prop) (fuel : nat) : Prop :=
  ∀ fuel' depth s a rest t, (fuel ≤ fuel')%nat → parse fuel depth s = Parsed a rest → ends a rest →
    parse fuel' depth (s +:+ t) = Parsed a (rest +:+ t).

(** A number that ends the text may go on. *)
Definition closed (v : json) (rest : string) : Prop := match v with JNumber _ => rest ≠ "" | _ => True end.
Definition always {A} (_ : A) (_ : string) : Prop := True.

(** A value that something follows. *)
Lemma followed c after r v : starts c (skip_space after) = Some r → closed v after.
Proof. intros H%starts_ne. destruct v; try done. by intros ->. Qed.

Lemma next_app c after r t : starts c (skip_space after) = Some r →
  skip_space (after +:+ t) = skip_space after +:+ t ∧ starts c (skip_space (after +:+ t)) = Some (r +:+ t).
Proof. intros H. pose proof (starts_ne _ _ _ H) as Hne. rewrite skip_space_app by done. split; [done|by apply starts_app]. Qed.

Section Extend.
Context (fuel : nat) (IHv : extends parseValue closed fuel) (IHe : extends parseElements always fuel)
        (IHm : extends parseMembers always fuel).

(** What is in the brackets, behind space. *)
Lemma bracket_app {A B} (parse : nat → N → string → parsed A) (wrap : A → B) (none : B) c fuel' depth r v rest t :
  extends parse always fuel → (fuel ≤ fuel')%nat →
  match starts c (skip_space r) with
  | Some rest => Parsed none rest
  | None => match parse fuel depth (skip_space r) with Parsed a rest => Parsed (wrap a) rest | Bad => Bad | Out => Out end
  end = Parsed v rest →
  (skip_space r = "" → parse fuel depth "" = Bad ∨ parse fuel depth "" = Out) →
  match starts c (skip_space (r +:+ t)) with
  | Some rest => Parsed none rest
  | None => match parse fuel' depth (skip_space (r +:+ t)) with Parsed a rest => Parsed (wrap a) rest | Bad => Bad | Out => Out end
  end = Parsed v (rest +:+ t).
Proof.
  intros HP Hf. destruct (starts c (skip_space r)) as [r0|] eqn:E.
  - intros [= <- <-] _. by destruct (next_app _ _ _ t E) as [_ ->].
  - intros H Hemp. destruct (decide (skip_space r = "")) as [E0|E0]; [rewrite E0 in H; destruct (Hemp E0) as [Hb|Hb]; by rewrite Hb in H|].
    rewrite skip_space_app, starts_app_None by done. destruct (parse fuel depth (skip_space r)) as [a r1| |] eqn:Ep; [|done..].
    injection H as <- <-. by rewrite (HP fuel' depth _ a r1 t Hf Ep I).
Qed.

Lemma parseValue_extends : extends parseValue closed (S fuel).
Proof using IHv IHe IHm.
  intros [|fuel'] depth s v rest t Hf; [lia|]. destruct s as [|a r]; [done|]. cbn [String.append parseValue].
  case_bool_decide.
  { destruct (_ <? _); [done|]. intros Hv _. eapply (bracket_app parseMembers JObject); [done|lia|exact Hv|]. intros _. destruct fuel; [by right|by left]. }
  case_bool_decide.
  { destruct (_ <? _); [done|]. intros Hv _. eapply (bracket_app parseElements JArray); [done|lia|exact Hv|]. intros _.
    destruct fuel as [|[|]]; [by right|by right|by left]. }
  case_bool_decide.
  { destruct (lexString r) as [[us r1]|] eqn:E; [|done]. intros [= <- <-] _. by rewrite (lexString_app _ _ _ _ E). }
  do 3 (case_bool_decide; [intros H' _; by apply (literal_app _ _ (String a r))|]).
  destruct (number (String a r)) as [r1|] eqn:E; [|done]. intros [= <- <-] Hr. cbn [closed] in Hr.
  change (String a (r +:+ t)) with (String a r +:+ t). rewrite (number_app _ _ _ E Hr).
  by rewrite text_until_more by (right; by apply number_behind).
Qed.

Lemma parseElements_extends : extends parseElements always (S fuel).
Proof using IHv IHe IHm.
  intros [|fuel'] depth s es rest t Hf; [lia|]. cbn [parseElements].
  destruct (parseValue fuel depth s) as [v after| |] eqn:Ev; [|done..]. intros H _. cbv zeta in *.
  assert (closed v after) as Hc.
  { destruct (starts "," (skip_space after)) eqn:E1; [by eapply followed|]. destruct (starts "]" (skip_space after)) eqn:E2; [by eapply followed|done]. }
  rewrite (IHv fuel' depth s v after t ltac:(lia) Ev Hc).
  assert (upto s after) as Hu by (right; by eapply (proj1 (parse_total fuel))).
  rewrite text_until_more by done. destruct (starts "," (skip_space after)) as [more|] eqn:E1.
  - destruct (next_app _ _ _ t E1) as [_ ->].
    destruct (parseElements fuel depth (skip_space more)) as [es' r1| |] eqn:Ee; [|done..]. injection H as <- <-.
    destruct (decide (skip_space more = "")) as [E0|E0].
    { exfalso. rewrite E0 in Ee. destruct fuel as [|[|]]; done. }
    rewrite skip_space_app by done. by rewrite (IHe fuel' depth _ es' r1 t ltac:(lia) Ee I).
  - destruct (starts "]" (skip_space after)) as [r1|] eqn:E2; [|done]. injection H as <- <-.
    destruct (next_app _ _ _ t E2) as [Hsp ->]. rewrite Hsp, starts_app_None; [done|by eapply starts_ne|done].
Qed.

Lemma parseMembers_extends : extends parseMembers always (S fuel).
Proof using IHv IHe IHm.
  intros [|fuel'] depth s ms rest t Hf; [lia|]. cbn [parseMembers].
  destruct (starts "034" s) as [body|] eqn:Eq; [|done]. rewrite (starts_app _ _ _ _ Eq).
  destruct (lexString body) as [[us after0]|] eqn:El; [|done]. rewrite (lexString_app _ _ _ _ El).
  destruct (starts ":" (skip_space after0)) as [colon|] eqn:Ec; [|done]. destruct (next_app _ _ _ t Ec) as [_ ->]. cbv zeta.
  destruct (parseValue fuel depth (skip_space colon)) as [v after| |] eqn:Ev; [|done..]. intros H _.
  destruct (decide (skip_space colon = "")) as [E0|E0]; [exfalso; rewrite E0 in Ev; by destruct fuel|].
  rewrite skip_space_app by done.
  assert (closed v after) as Hc.
  { destruct (starts "," (skip_space after)) eqn:E1; [by eapply followed|]. destruct (starts "}" (skip_space after)) eqn:E2; [by eapply followed|done]. }
  rewrite (IHv fuel' depth _ v after t ltac:(lia) Ev Hc).
  assert (upto (skip_space colon) after) as Hu by (right; by eapply (proj1 (parse_total fuel))).
  rewrite text_until_more by done. destruct (starts "," (skip_space after)) as [more|] eqn:E1.
  - destruct (next_app _ _ _ t E1) as [_ ->].
    destruct (parseMembers fuel depth (skip_space more)) as [ms' r1| |] eqn:Ee; [|done..]. injection H as <- <-.
    destruct (decide (skip_space more = "")) as [E2|E2]; [exfalso; rewrite E2 in Ee; by destruct fuel|].
    rewrite skip_space_app by done. by rewrite (IHm fuel' depth _ ms' r1 t ltac:(lia) Ee I).
  - destruct (starts "}" (skip_space after)) as [r1|] eqn:E2; [|done]. injection H as <- <-.
    destruct (next_app _ _ _ t E2) as [Hsp ->]. rewrite Hsp, starts_app_None; [done|by eapply starts_ne|done].
Qed.
End Extend.

Lemma parse_extends fuel : extends parseValue closed fuel ∧ extends parseElements always fuel ∧ extends parseMembers always fuel.
Proof.
  induction fuel as [|fuel (IHv & IHe & IHm)]; [split_and!; intros fuel' depth s a rest t _ [=]|].
  split_and!; [by apply parseValue_extends|by apply parseElements_extends|by apply parseMembers_extends].
Qed.

(** ** Cut short *)

(** A text of JSON that is an object and is cut before its end is no JSON. *)
Theorem object_cut p t : is_Some (unmarshal (p +:+ t)) → has_prefix "{" p = true → skip_space t ≠ "" → unmarshal p = None.
Proof.
  intros [v Hv] [q ->]%has_prefix_spec Ht. set (p := "{" +:+ q) in *.
  assert (skip_space p = p) as Hp by done. unfold unmarshal, decodeNext in *.
  rewrite skip_space_app, Hp in * by (by rewrite Hp). rewrite bool_decide_eq_false_2 in Hv by done.
  rewrite bool_decide_eq_false_2 by done. destruct (parseValue (S (2 * String.length p)) 0 p) as [v' rest| |] eqn:E; [|done..].
  case_bool_decide as Hr; [|done]. exfalso.
  rewrite (proj1 (parse_extends (S (2 * String.length p))) (S (2 * String.length (p +:+ t))) 0 p v' rest t) in Hv; [|rewrite string_length_app; lia|done|].
  - cbv zeta in Hv. by rewrite skip_space_over, bool_decide_eq_false_2 in Hv.
  - destruct v'; try done. exfalso. revert E. unfold p. cbn. by repeat case_match.
Qed.
