(* ===== verification/Wire.v ===== *)
(** * What goes over the wire as JSON

    How Go's values (texts, numbers, pointers, maps, slices and structs) are written
    by [json.Marshal] and what [json.Unmarshal] makes of a text: fields by folded name,
    nil pointers, maps and slices, and the errors of a wrong type, after which decoding
    goes on. A class [Wire] collects what is written and read of a type with its law,
    that a value of valid UTF-8 comes back as it was. *)

From stdpp Require Import prelude strings gmap sorting.
From Stdlib Require Import ZArith Lia Ascii.
From S2P Require Import Prelude GoStrings Json Marshal.

Local Open Scope string_scope.
Local Open Scope list_scope.

(** ** Go values *)

(** A map from texts to texts; [None] is the nil map. *)
Abbreviation stringMap := (option (gmap string string)).
(** A slice; [None] is the nil slice. *)
Abbreviation goslice A := (option (slice_of A)).

Definition slice_from {A} (l : list A) : goslice A := Some (mkSlice l (length l)).
Definition elements_of {A} (s : goslice A) : list A := from_option items [] s.

(** A pointer: a value of the wrong type leaves a pointer to what was there, or to a
    zero value. *)
Definition decodeRef {A} (decode : json → A → A * bool) (zero : A) (tv : string * json) (current : option A) : option A * bool :=
  match tv.2 with
  | JNull => (None, false)
  | v => let '(a, e) := decode v (default zero current) in (Some a, e)
  end.

Definition decodePointer : string * json → option string → option string * bool := decodeRef decodeText "".

(** An [int]. *)
Definition decodeInt (tv : string * json) (current : Z) : Z * bool :=
  match tv.2 with
  | JNull => (current, false)
  | JNumber text => match Atoi text with Some z => (z, false) | None => (current, true) end
  | _ => (current, true)
  end.

(** The entry of a member that is no text is empty. *)
Definition decodeEntry (acc : gmap string string * bool) (member : string * (string * json)) : gmap string string * bool :=
  let '(s, e) := decodeText member.2.2 "" in (<[member.1 := s]> acc.1, acc.2 || e).

Definition decodeMap (tv : string * json) (current : stringMap) : stringMap * bool :=
  match tv.2 with
  | JNull => (None, false)
  | JObject members =>
     let '(m, e) := foldl decodeEntry (default ∅ current, false) members in (Some m, e)
  | _ => (current, true)
  end.

Definition decodeGoslice {A} (element : json → A → A * bool) (zero : A) (tv : string * json) (current : goslice A)
    : goslice A * bool :=
  match tv.2 with
  | JNull => (None, false)
  | JArray l => let '(s, e) := decodeSlice element zero (JArray l) (default no_items current) in (Some s, e)
  | _ => (current, true)
  end.

(** The field of a struct that a key, folded, names. *)
Definition field {A B} (decode : string * json → B → B * bool) (get : A → B) (put : B → A → A) (tv : string * json) (a : A)
    : A * bool :=
  let '(b, e) := decode tv (get a) in (put b a, e).

Definition text_field {A} := @field A string (λ tv, decodeText tv.2).

Definition decodeFields {A} (fields : list (string * (string * json → A → A * bool))) : json → A → A * bool :=
  decodeMembers (λ key tv a,
    match List.find (λ f, bool_decide (f.1 = key)) fields with Some f => f.2 tv a | None => (a, false) end).

(** [json.Marshal] of a map writes its keys in order. *)
Definition mapDoc (m : stringMap) : doc :=
  match m with
  | None => DNull
  | Some m => DObject (List.map (λ k, (k, DText (default "" (m !! k)))) (sorted (dom m)))
  end.

Definition sliceDoc {A} (element : A → doc) (s : goslice A) : doc :=
  match s with None => DNull | Some s => DArray (List.map element (items s)) end.

(** A pointer with the option omitempty. *)
Definition omitempty (name : string) (p : option string) : list (string * doc) :=
  match p with None => [] | Some s => [(name, DText s)] end.

(** ** What is written is read back *)

(** Every text of a value that is valid UTF-8 is read back as it was. *)
Abbreviation utf8 s := (utf8_Valid s = true).

Class Wire (A : Type) := {
  toDoc : A → doc;
  fromJson : json → A → A * bool;
  zeroOf : A;
  clean : A → Prop;
  depthOf : N;
  wire_read a : clean a → fromJson (valueOf (toDoc a)) zeroOf = (a, false);
  wire_depth a : (nesting (toDoc a) ≤ depthOf)%N;
}.

(** [json.Marshal], and [json.Unmarshal] into a new variable. *)
Definition marshal `{Wire A} (a : A) : string := print (toDoc a).
Definition unmarshalNew `{Wire A} (text : string) : option A := unmarshalInto fromJson zeroOf text.

Lemma marshal_read `{Wire A} (a : A) : clean a → (depthOf ≤ maxNestingDepth)%N → unmarshalNew (marshal a) = Some a.
Proof.
  intros Ha Hd. unfold unmarshalNew, marshal, unmarshalInto.
  rewrite unmarshal_print by (pose proof (wire_depth a); lia). by rewrite wire_read.
Qed.

Lemma decodeText_clean s t : utf8 s → decodeText (valueOf (DText s)) t = (s, false).
Proof. intros H. cbn [valueOf decodeText]. by rewrite coerce_id. Qed.

Definition clean_map (m : stringMap) : Prop := match m with None => True | Some m => map_Forall (λ k v, utf8 k ∧ utf8 v) m end.

Lemma decodeMap_entries (m : gmap string string) keys (acc : gmap string string) : map_Forall (λ k v, utf8 k ∧ utf8 v) m → (∀ k, k ∈ keys → is_Some (m !! k)) →
  foldl decodeEntry (acc, false)
    (List.map (λ x : string * doc, (coerce 0 x.1, (print x.2, valueOf x.2))) (List.map (λ k, (k, DText (default "" (m !! k)))) keys)) =
  (list_to_map (reverse ((λ k, (k, default "" (m !! k))) <$> keys)) ∪ acc, false).
Proof.
  intros Hm. revert acc. induction keys as [|k keys IH]; intros acc Hk; cbn [List.map foldl fmap list_fmap].
  { by rewrite reverse_nil, list_to_map_nil, (left_id_L ∅ (∪)). }
  destruct (Hk k) as [v Hv]; [by left|]. destruct (Hm k v Hv) as [H1 H2]. cbn [fst snd]. rewrite Hv. cbn [default].
  unfold decodeEntry at 2. cbn [fst snd]. rewrite decodeText_clean, coerce_id by done. cbn [fst snd orb]. rewrite IH by (intros; apply Hk; by right).
  rewrite reverse_cons, list_to_map_app. cbn [list_to_map foldr fst snd].
  by rewrite <- (assoc_L (∪)), insert_empty, <- insert_union_singleton_l.
Qed.

Lemma sorted_entries (m : gmap string string) : list_to_map (reverse ((λ k, (k, default "" (m !! k))) <$> sorted (dom m))) = m.
Proof.
  destruct (sorted_spec (dom m)) as (_ & Hnd & Hin). apply map_eq. intros k.
  destruct (m !! k) as [v|] eqn:Hk.
  - apply elem_of_list_to_map.
    + rewrite fmap_reverse, <- list_fmap_compose. unfold compose. cbn [fst]. by rewrite list_fmap_id, reverse_Permutation.
    + rewrite elem_of_reverse, list_elem_of_fmap. exists k. rewrite Hk. split; [done|]. apply Hin. by apply elem_of_dom_2 in Hk.
  - apply not_elem_of_list_to_map. rewrite fmap_reverse, <- list_fmap_compose. unfold compose. cbn [fst].
    rewrite list_fmap_id, elem_of_reverse, Hin. by apply not_elem_of_dom.
Qed.

Lemma map_depth (m : stringMap) : (nesting (mapDoc m) ≤ 1)%N.
Proof.
  destruct m as [m|]; [|done]. cbn [mapDoc nesting]. rewrite List.map_map.
  induction (sorted (dom m)) as [|k l IH]; cbn [List.map foldr nesting snd] in *; lia.
Qed.

#[export] Program Instance Wire_map : Wire stringMap := {
  toDoc := mapDoc; fromJson v := decodeMap ("", v); zeroOf := None; clean := clean_map; depthOf := 1;
  wire_depth := map_depth }.
Next Obligation.
  intros [m|] Hm; [|done]. cbn [mapDoc valueOf decodeMap snd default]. rewrite decodeMap_entries; [|done|].
  - by rewrite (right_id_L ∅ (∪)), sorted_entries.
  - intros k. by rewrite (proj2 (proj2 (sorted_spec (dom m)))), elem_of_dom.
Qed.

(** ** Slices *)

Section Slices.
Context `{Wire A}.

Definition clean_slice (s : goslice A) : Prop := match s with None => True | Some s => s = mkSlice (items s) (length (items s)) ∧ Forall clean (items s) end.

Lemma decode_elements (l : list A) : Forall clean l →
  imap (λ i e, fromJson e.2 (default zeroOf (([] : list A) !! i))) (List.map (λ d, (print d, valueOf d)) (List.map toDoc l)) =
  (λ a, (a, false)) <$> l.
Proof.
  induction 1 as [|a l Ha Hl IH]; [done|]. cbn [List.map imap fmap list_fmap]. unfold compose. cbn [lookup list_lookup snd default].
  rewrite wire_read by done. f_equal. exact IH.
Qed.

Lemma decodeSlice_docs (l : list A) : Forall clean l →
  decodeSlice fromJson zeroOf (JArray (List.map (λ d, (print d, valueOf d)) (List.map toDoc l))) no_items = (mkSlice l (length l), false).
Proof.
  intros Hl. unfold decodeSlice. destruct l as [|a l]; [done|].
  set (docs := List.map (λ d, (print d, valueOf d)) (List.map toDoc (a :: l))).
  change (match docs with [] => (no_items, false) | _ => ?x end) with x.
  change (sl_mem no_items) with ([] : list A). unfold docs. rewrite decode_elements by done.
  rewrite drop_nil, app_nil_r, !List.length_map, <- list_fmap_compose. unfold compose. cbn [fst]. rewrite list_fmap_id. f_equal.
  clear. induction (a :: l) as [|x l' IH]; [done|]. exact IH.
Qed.

#[export] Program Instance Wire_slice : Wire (goslice A) := {
  toDoc := sliceDoc toDoc; fromJson v := decodeGoslice fromJson zeroOf ("", v); zeroOf := None; clean := clean_slice;
  depthOf := 1 + depthOf }.
Next Obligation.
  intros [s|] Hs; [|done]. destruct Hs as [Hs Hl]. cbn [sliceDoc valueOf decodeGoslice snd default].
  by rewrite decodeSlice_docs, <- Hs.
Qed.
Next Obligation.
  intros [s|]; cbn [sliceDoc nesting]; [|lia]. apply N.add_le_mono_l. rewrite List.map_map.
  induction (items s) as [|a l IH]; cbn [List.map foldr]; [lia|]. pose proof (wire_depth a). lia.
Qed.
End Slices.

(** ** Fields of a struct *)

Definition clean_pointer (p : option string) : Prop := match p with None => True | Some s => utf8 s end.

Lemma decodePointer_clean text s current : utf8 s → decodePointer (text, valueOf (DText s)) current = (Some s, false).
Proof. intros H. unfold decodePointer. cbn [valueOf decodeRef snd decodeText]. by rewrite coerce_id. Qed.

Lemma omitempty_depth name p : (foldr N.max 0 (List.map (λ m : string * doc, nesting m.2) (omitempty name p)) ≤ 0)%N.
Proof. by destruct p. Qed.

(** A member without an error is stored and decoding goes on. *)
Lemma decodeFields_member {A} (fields : list (string * (string * json → A → A * bool))) k text v rest (a a' : A) f :
  List.find (λ f, bool_decide (f.1 = fold_name k)) fields = Some f → f.2 (text, v) a = (a', false) →
  decodeFields fields (JObject ((k, (text, v)) :: rest)) a = decodeFields fields (JObject rest) a'.
Proof. intros Hf Ha. unfold decodeFields. cbn [decodeMembers foldl fst snd]. by rewrite Hf, Ha. Qed.

Lemma text_field_clean {A} (get : A → string) put text s a : utf8 s → text_field get put (text, valueOf (DText s)) a = (put s a, false).
Proof. intros H. unfold text_field, field. cbn [snd]. by rewrite decodeText_clean. Qed.

