(* ===== verification/Password.v ===== *)
(** * Password verifiers (src/pkg/password/password.go)

    New passwords are encoded as bounded Argon2id PHC strings; [parse] accepts
    only those, and [Verify] evaluates nothing else. [argon2.IDKey]
    (golang.org/x/crypto) is the parameter [IDKey]. Key derivation is the
    observable work of the package, so the functions that derive return the list
    of derivations they performed beside their result. *)

From stdpp Require Import prelude strings.
From Stdlib Require Import ZArith Lia Ascii.
From S2P Require Import Prelude GoStrings.

Local Open Scope string_scope.
Local Open Scope go_scope.

Definition Version : N := 19.

Definition DefaultMemory : N := 64 * 1024.
Definition DefaultIterations : N := 3.
Definition DefaultParallelism : N := 4.
Definition DefaultSaltLength : N := 16.
Definition DefaultKeyLength : N := 32.

Definition MinMemory : N := 19 * 1024.
Definition MaxMemory : N := 128 * 1024.
Definition MinIterations : N := 1.
Definition MaxIterations : N := 5.
Definition MinParallelism : N := 1.
Definition MaxParallelism : N := 8.
Definition MinSaltLength : N := 16.
Definition MaxSaltLength : N := 64.
Definition MinKeyLength : N := 16.
Definition MaxKeyLength : N := 64.

Record Parameters := mkParameters {
  Memory : N;
  Iterations : N;
  Parallelism : N;
  SaltLength : N;
  KeyLength : N;
}.

#[export] Instance Parameters_eq_dec : EqDecision Parameters.
Proof. solve_decision. Defined.

Definition defaultParameters : Parameters :=
  mkParameters DefaultMemory DefaultIterations DefaultParallelism
    DefaultSaltLength DefaultKeyLength.

Record parsedHash := mkParsedHash {
  parameters : Parameters;
  salt : string;
  digest : string;
}.

(** [deriveKeyFunction]: plaintext, salt, parameters, key length. *)
Definition deriveKeyFunction : Type := string → string → Parameters → N → string.

(** One call of a [deriveKeyFunction]. *)
Record DeriveCall := mkDeriveCall {
  dc_plaintext : string;
  dc_salt : string;
  dc_parameters : Parameters;
  dc_keyLength : N;
}.

Definition len (s : string) : N := N.of_nat (String.length s).

Definition validateParameters (p : Parameters) : option goerr :=
  if ((Memory p <? MinMemory) || (MaxMemory <? Memory p) ||
      (Iterations p <? MinIterations) || (MaxIterations <? Iterations p) ||
      (Parallelism p <? MinParallelism) || (MaxParallelism <? Parallelism p) ||
      (SaltLength p <? MinSaltLength) || (MaxSaltLength <? SaltLength p) ||
      (KeyLength p <? MinKeyLength) || (MaxKeyLength <? KeyLength p))%N
  then Some (Sentinel ErrInvalidHash) else None.

Definition parseUint (value : string) (bits : N) : res N :=
  if bool_decide (value = "") || leading_zero value then Err ErrInvalidHash
  else match ParseUint value bits with
       | Some n => Ok n
       | None => Err (NewError "strconv.ParseUint")
       end.

(** [parse]: every failure, of whatever inner kind, is [ErrInvalidHash]. *)
Definition parse (encoded : string) : res parsedHash :=
  match split_on "$" encoded with
  | [p0; p1; p2; p3; p4; p5] =>
     if negb (bool_decide (p0 = "")) || negb (bool_decide (p1 = "argon2id")) ||
        negb (bool_decide (p2 = "v=19"))
     then Err ErrInvalidHash
     else match split_on "," p3 with
          | [q0; q1; q2] =>
             if negb (has_prefix "m=" q0) || negb (has_prefix "t=" q1) ||
                negb (has_prefix "p=" q2)
             then Err ErrInvalidHash
             else match parseUint (drop_bytes 2 q0) 32, parseUint (drop_bytes 2 q1) 32,
                        parseUint (drop_bytes 2 q2) 8, base64_decode p4, base64_decode p5 with
                  | Ok memory, Ok iterations, Ok parallelism, Some s, Some d =>
                     let ps := mkParameters (memory mod 2 ^ 32) (iterations mod 2 ^ 32)
                                 (parallelism mod 2 ^ 8) (len s) (len d) in
                     match validateParameters ps with
                     | Some _ => Err ErrInvalidHash
                     | None => Ok (mkParsedHash ps s d)
                     end
                  | _, _, _, _, _ => Err ErrInvalidHash
                  end
          | _ => Err ErrInvalidHash
          end
  | _ => Err ErrInvalidHash
  end.

Definition NeedsRehash (encoded : string) : bool :=
  match parse encoded with
  | Err _ => true
  | Ok h => negb (bool_decide (parameters h = defaultParameters))
  end.

Definition IsArgon2id (encoded : string) : bool := is_Ok (parse encoded).

(** The [fmt.Sprintf] of [hashWithReader]. *)
Definition formatHash (p : Parameters) (s d : string) : string :=
  "$argon2id$v=" +:+ format_uint Version +:+ "$m=" +:+ format_uint (Memory p) +:+
  ",t=" +:+ format_uint (Iterations p) +:+ ",p=" +:+ format_uint (Parallelism p) +:+
  "$" +:+ base64_encode s +:+ "$" +:+ base64_encode d.

Definition dummySalt : string := "ReCasaOS-dummy-v1".

(** [consumeUnknownUserWithDeriver]: the result of the derivation is dropped. *)
Definition consumeUnknownUserWithDeriver (plaintext : string) : list DeriveCall :=
  [mkDeriveCall plaintext dummySalt defaultParameters (KeyLength defaultParameters)].

Definition verifyWithDeriver (encoded plaintext : string) (derive : deriveKeyFunction)
    : option goerr * list DeriveCall :=
  match parse encoded with
  | Err e =>
     (Some e, [mkDeriveCall plaintext dummySalt defaultParameters (KeyLength defaultParameters)])
  | Ok h =>
     let calls := [mkDeriveCall plaintext (salt h) (parameters h) (len (digest h))] in
     if bool_decide (derive plaintext (salt h) (parameters h) (len (digest h)) = digest h)
     then (None, calls) else (Some (Sentinel ErrPassword), calls)
  end.

Section WithArgon2.
(** [argon2.IDKey(password, salt, time, memory, threads, keyLen)]. *)
Context (IDKey : string → string → N → N → N → N → string).

(** [deriveKey] of one goroutine; Gate.v has the [argon2Gate] around the call.
    [uint32(keyLength)] wraps. *)
Definition deriveKey : deriveKeyFunction := λ plaintext s p keyLength,
  IDKey plaintext s (Iterations p) (Memory p) (Parallelism p) (keyLength mod 2 ^ 32)%N.

(** [hashWithReader]: [random n] is [io.ReadFull] of [n] bytes. *)
Definition hashWithReader (plaintext : string) (p : Parameters)
    (random : N → option string) : res string * list DeriveCall :=
  match validateParameters p with
  | Some e => (Err e, [])
  | None =>
     match random (SaltLength p) with
     | None => (Err (Wrap "generate password salt" (NewError "read")), [])
     | Some s =>
        let d := deriveKey plaintext s p (KeyLength p) in
        (Ok (formatHash p s d), [mkDeriveCall plaintext s p (KeyLength p)])
     end
  end.

Definition Hash (plaintext : string) (random : N → option string)
    : res string * list DeriveCall :=
  hashWithReader plaintext defaultParameters random.

Definition Verify (encoded plaintext : string) : option goerr * list DeriveCall :=
  verifyWithDeriver encoded plaintext deriveKey.

Definition ConsumeUnknownUser (plaintext : string) : list DeriveCall :=
  consumeUnknownUserWithDeriver plaintext.
End WithArgon2.

(** ** Bounds *)

Record bounded (p : Parameters) : Prop := {
  bounded_memory : (MinMemory ≤ Memory p ≤ MaxMemory)%N;
  bounded_iterations : (MinIterations ≤ Iterations p ≤ MaxIterations)%N;
  bounded_parallelism : (MinParallelism ≤ Parallelism p ≤ MaxParallelism)%N;
  bounded_salt : (MinSaltLength ≤ SaltLength p ≤ MaxSaltLength)%N;
  bounded_key : (MinKeyLength ≤ KeyLength p ≤ MaxKeyLength)%N;
}.

Lemma validateParameters_spec p : validateParameters p = None ↔ bounded p.
Proof.
  unfold validateParameters. case_match eqn:E; split; try done.
  - intros [????? ]. repeat rewrite orb_true_iff, ?N.ltb_lt in E. rewrite ?N.ltb_lt in E. lia.
  - intros _. repeat (apply orb_false_elim in E as [E ?]).
    rewrite ?N.ltb_ge in *. constructor; lia.
Qed.

Lemma bounded_widths p :
  bounded p → (Memory p < 2 ^ 32 ∧ Iterations p < 2 ^ 32 ∧ Parallelism p < 2 ^ 8)%N.
Proof. intros [[_ ?] [_ ?] [_ ?] _ _]. split_and!; by eapply N.le_lt_trans. Qed.

Lemma bounded_default : bounded defaultParameters.
Proof. by apply validateParameters_spec. Qed.

Lemma validateParameters_error p e : validateParameters p = Some e → e = Sentinel ErrInvalidHash.
Proof. unfold validateParameters. case_match; naive_solver. Qed.

(** ** Inversion of [parse] *)

Lemma parseUint_Ok v bits n :
  parseUint v bits = Ok n → format_uint n = v ∧ (n < 2 ^ bits)%N.
Proof.
  unfold parseUint. case_bool_decide; [done|]. simpl.
  destruct (leading_zero v) eqn:Hz; [done|].
  destruct (ParseUint v bits) as [m|] eqn:Hp; [|done]. intros [= <-].
  eauto using format_ParseUint, ParseUint_bound.
Qed.

Lemma parseUint_format n bits : (n < 2 ^ bits)%N → parseUint (format_uint n) bits = Ok n.
Proof.
  intros. unfold parseUint. rewrite bool_decide_eq_false_2 by apply format_uint_ne_nil.
  by rewrite format_uint_no_leading_zero, ParseUint_format.
Qed.

(** What an accepted verifier is made of. *)
Lemma parse_Ok encoded h :
  parse encoded = Ok h →
  ∃ p4 p5,
    encoded = "$argon2id$v=19$m=" +:+ format_uint (Memory (parameters h)) +:+
      ",t=" +:+ format_uint (Iterations (parameters h)) +:+
      ",p=" +:+ format_uint (Parallelism (parameters h)) +:+ "$" +:+ p4 +:+ "$" +:+ p5 ∧
    base64_decode p4 = Some (salt h) ∧ base64_decode p5 = Some (digest h) ∧
    SaltLength (parameters h) = len (salt h) ∧ KeyLength (parameters h) = len (digest h) ∧
    bounded (parameters h).
Proof.
  unfold parse. pose proof (join_split "$" encoded) as Henc.
  destruct (split_on "$" encoded) as [|p0 [|p1 [|p2 [|p3 [|p4 [|p5 [|]]]]]]] eqn:Hs; try done.
  case_bool_decide; [subst p0|done]. case_bool_decide; [subst p1|done].
  case_bool_decide; [subst p2|done]. cbn [negb orb].
  pose proof (join_split "," p3) as Hp3.
  destruct (split_on "," p3) as [|q0 [|q1 [|q2 [|]]]]; try done.
  destruct (has_prefix "m=" q0) eqn:Hm; [|done].
  destruct (has_prefix "t=" q1) eqn:Ht; [|done].
  destruct (has_prefix "p=" q2) eqn:Hp; [|done]. cbn [negb orb].
  apply has_prefix_spec in Hm as [m' ->], Ht as [t' ->], Hp as [p' ->].
  cbn [String.append drop_bytes].
  destruct (parseUint m' 32) as [m|] eqn:Em; [|done].
  destruct (parseUint t' 32) as [t|] eqn:Et; [|done].
  destruct (parseUint p' 8) as [p|] eqn:Ep; [|done].
  destruct (base64_decode p4) as [s|] eqn:E4; [|done].
  destruct (base64_decode p5) as [d|] eqn:E5; [|done].
  apply parseUint_Ok in Em as [<- Bm], Et as [<- Bt], Ep as [<- Bp].
  rewrite !N.mod_small by done.
  destruct (validateParameters _) eqn:Hv; [done|]. intros [= <-].
  apply validateParameters_spec in Hv. exists p4, p5.
  split; [|by split_and!]. rewrite <- Henc, <- Hp3. str_norm. done.
Qed.

Lemma formatHash_join p s d :
  formatHash p s d =
  join_with "$" [""; "argon2id"; "v=19";
    join_with "," ["m=" +:+ format_uint (Memory p); "t=" +:+ format_uint (Iterations p);
                   "p=" +:+ format_uint (Parallelism p)];
    base64_encode s; base64_encode d].
Proof. unfold formatHash. change (format_uint Version) with "19". by str_norm. Qed.

Lemma format_uint_no_byte c n : is_digit c = false → contains_byte c (format_uint n) = false.
Proof. intros. by eapply all_bytes_no_byte, format_uint_digits. Qed.

Lemma strip_newlines_format n : strip_newlines (format_uint n) = format_uint n.
Proof. apply strip_newlines_digits, format_uint_digits. Qed.

(** Printing then parsing gives back the verifier. *)
Lemma parse_format p s d :
  bounded p → len s = SaltLength p → len d = KeyLength p →
  parse (formatHash p s d) = Ok (mkParsedHash p s d).
Proof.
  intros Hb Hs Hd. unfold parse. rewrite formatHash_join, split_join; [|done|].
  2:{ repeat constructor; rewrite ?base64_encode_no_byte by done; try done.
      simpl. rewrite ?contains_byte_app. simpl. rewrite ?contains_byte_app. simpl.
      by rewrite !format_uint_no_byte. }
  rewrite split_join; [|done|].
  2:{ repeat constructor; simpl; by rewrite format_uint_no_byte. }
  destruct (bounded_widths p Hb) as (Hm & Ht & Hp).
  cbn -[parseUint N.modulo N.pow].
  rewrite !parseUint_format, !base64_decode_encode, !N.mod_small by done.
  rewrite Hs, Hd. destruct p as [m t q sl kl]. simpl.
  by rewrite (proj2 (validateParameters_spec _) Hb).
Qed.

Section Verify.
Context (IDKey : string → string → N → N → N → N → string).

Lemma Verify_Ok encoded plaintext :
  fst (Verify IDKey encoded plaintext) = None ↔
  ∃ h, parse encoded = Ok h ∧
    deriveKey IDKey plaintext (salt h) (parameters h) (len (digest h)) = digest h.
Proof.
  unfold Verify, verifyWithDeriver. destruct (parse encoded) as [h|e].
  - case_bool_decide; simpl; split; [eauto|done|done|]. by intros (? & [= <-] & ?).
  - simpl. split; [done|by intros (? & ? & _)].
Qed.

Lemma Verify_errors encoded plaintext e :
  fst (Verify IDKey encoded plaintext) = Some e →
  e = Sentinel ErrInvalidHash ∨ e = Sentinel ErrPassword.
Proof.
  unfold Verify, verifyWithDeriver, parse. repeat case_match; simpl; naive_solver.
Qed.

(** Exactly one derivation, whatever the verifier; the salt and the length of the
    derived key obey the bounds of the parameters too. *)
Lemma Verify_calls encoded plaintext :
  ∃ s p k, snd (Verify IDKey encoded plaintext) = [mkDeriveCall plaintext s p k] ∧ bounded p ∧
    (MinSaltLength ≤ len s ≤ MaxSaltLength)%N ∧ (MinKeyLength ≤ k ≤ MaxKeyLength)%N ∧
    (p = defaultParameters ∨ ∃ h, parse encoded = Ok h ∧ p = parameters h).
Proof.
  unfold Verify, verifyWithDeriver. destruct (parse encoded) as [h|e] eqn:Hp.
  - apply parse_Ok in Hp as (p4 & p5 & _ & _ & _ & Hsl & Hkl & Hb).
    exists (salt h), (parameters h), (len (digest h)). rewrite <- Hsl, <- Hkl.
    pose proof (bounded_salt _ Hb). pose proof (bounded_key _ Hb). case_bool_decide; naive_solver.
  - exists dummySalt, defaultParameters, (KeyLength defaultParameters).
    split_and!; auto using bounded_default; by vm_compute.
Qed.
End Verify.

(** ** Properties *)

(** A key derivation for concrete runs: [k] bytes of password and salt, padded
    with NUL bytes. *)
Fixpoint fill (k : nat) (s : string) : string :=
  match k, s with
  | O, _ => ""
  | S k', EmptyString => String byte_NUL (fill k' "")
  | S k', String a s' => String a (fill k' s')
  end.

Definition toyIDKey (pw s : string) (_ _ _ k : N) : string := fill (N.to_nat k) (pw +:+ s).

Lemma toyIDKey_length pw s t m p k : len (toyIDKey pw s t m p k) = k.
Proof.
  unfold len, toyIDKey. rewrite <- (N2Nat.id k) at 2. f_equal.
  generalize (pw +:+ s). induction (N.to_nat k); intros [|]; simpl; auto.
Qed.

(** C1. Hashing then verifying: for every admissible parameter set and every
    salt the reader delivers, [hashWithReader] succeeds with one derivation; the
    encoded verifier parses back to exactly those parameters, salt and digest;
    [Verify] accepts the hashed plaintext, accepts another plaintext only when
    the derivation collides, and asks for a rehash only when the parameters are
    not the defaults. *)
Theorem hash_verify_roundtrip
    (IDKey : string → string → N → N → N → N → string)
    (IDKey_length : ∀ pw s t m p k, len (IDKey pw s t m p k) = k)
    (plaintext : string) (p : Parameters) (random : N → option string) (s : string) :
  validateParameters p = None →
  random (SaltLength p) = Some s →
  len s = SaltLength p →
  ∃ encoded,
    hashWithReader IDKey plaintext p random
      = (Ok encoded, [mkDeriveCall plaintext s p (KeyLength p)]) ∧
    parse encoded = Ok (mkParsedHash p s (deriveKey IDKey plaintext s p (KeyLength p))) ∧
    (∀ other, fst (Verify IDKey encoded other) = None ↔
       deriveKey IDKey other s p (KeyLength p) = deriveKey IDKey plaintext s p (KeyLength p)) ∧
    (NeedsRehash encoded = false ↔ p = defaultParameters).
Proof.
  intros Hv%validateParameters_spec Hr Hs. unfold hashWithReader.
  rewrite (proj2 (validateParameters_spec p) Hv), Hr.
  assert (∀ q, len (deriveKey IDKey q s p (KeyLength p)) = KeyLength p) as Hlen.
  { intros q. unfold deriveKey. rewrite IDKey_length, N.mod_small; [done|].
    eapply N.le_lt_trans; [apply Hv|done]. }
  pose proof (parse_format p s _ Hv Hs (Hlen plaintext)) as Hp.
  eexists. split_and!; [done|done| |].
  - intros other. rewrite Verify_Ok, Hp. split.
    + intros (h & [= <-] & Hd). simpl in Hd. by rewrite Hlen in Hd.
    + intros Hd. eexists. split; [done|]. simpl. by rewrite Hlen.
  - unfold NeedsRehash. rewrite Hp. simpl. rewrite negb_false_iff. by rewrite bool_decide_eq_true.
Qed.

Lemma hash_verify_roundtrip_witness :
  ∃ encoded,
    hashWithReader toyIDKey "correct horse battery" defaultParameters
        (λ _, Some "0123456789abcdef")
      = (Ok encoded, [mkDeriveCall "correct horse battery" "0123456789abcdef"
                        defaultParameters 32]) ∧
    fst (Verify toyIDKey encoded "correct horse battery") = None ∧
    fst (Verify toyIDKey encoded "wrong horse battery") = Some (Sentinel ErrPassword).
Proof.
  destruct (hash_verify_roundtrip toyIDKey toyIDKey_length "correct horse battery"
    defaultParameters (λ _, Some "0123456789abcdef") "0123456789abcdef")
    as (encoded & Hh & _ & Hv & _); [reflexivity|reflexivity|reflexivity|].
  exists encoded. split; [exact Hh|]. split; [by apply Hv|].
  vm_compute in Hh. injection Hh as <-. vm_compute. reflexivity.
Defined.

(** The accepted texts are canonical: whatever [parse] accepts is, up to the
    carriage returns and line feeds the base64 decoder skips, the text that
    [hashWithReader] prints for the parsed parameters, salt and digest; and those
    parameters are within the configured bounds. *)
Theorem parse_canonical (encoded : string) (h : parsedHash) :
  parse encoded = Ok h →
  strip_newlines encoded = formatHash (parameters h) (salt h) (digest h) ∧
  bounded (parameters h) ∧
  SaltLength (parameters h) = len (salt h) ∧ KeyLength (parameters h) = len (digest h).
Proof.
  intros (p4 & p5 & -> & H4 & H5 & Hs & Hd & Hb)%parse_Ok. split; [|done].
  rewrite formatHash_join, (base64_encode_decode _ _ H4), (base64_encode_decode _ _ H5).
  rewrite !strip_newlines_app, !strip_newlines_format. str_norm. reflexivity.
Qed.

Definition sampleVerifier : string :=
  "$argon2id$v=19$m=65536,t=3,p=4$MDEyMzQ1Njc4OWFiY2RlZg$" +:+
  String byte_LF "Y29ycmVjdCBob3JzZSBiYXR0ZXJ5MDEyMzQ1Njc4OWE".

Lemma parse_canonical_witness :
  ∃ h, parse sampleVerifier = Ok h ∧
    strip_newlines sampleVerifier = formatHash (parameters h) (salt h) (digest h).
Proof.
  destruct (parse sampleVerifier) as [h|e] eqn:E; [|vm_compute in E; discriminate].
  exists h. split; [reflexivity|]. apply (parse_canonical sampleVerifier h E).
Defined.

(** C2. Bounded, uniform work: verifying any stored text whatsoever performs
    exactly one key derivation, of the plaintext, with parameters inside the
    package's bounds from both sides (19 to 128 MiB of memory, one to five
    iterations, one to eight lanes), a salt of 16 to 64 bytes and a derived key of 16
    to 64 bytes; a text that does not parse costs the same derivation as an unknown
    user. *)
Theorem verify_bounded_work
    (IDKey : string → string → N → N → N → N → string) (encoded plaintext : string) :
  ∃ s p k,
    snd (Verify IDKey encoded plaintext) = [mkDeriveCall plaintext s p k] ∧
    (19 * 1024 ≤ Memory p ≤ 128 * 1024)%N ∧ (1 ≤ Iterations p ≤ 5)%N ∧
    (1 ≤ Parallelism p ≤ 8)%N ∧
    (16 ≤ N.of_nat (String.length s) ≤ 64)%N ∧ (16 ≤ k ≤ 64)%N ∧
    (is_Ok (parse encoded) = false →
       snd (Verify IDKey encoded plaintext) = ConsumeUnknownUser plaintext).
Proof.
  destruct (Verify_calls IDKey encoded plaintext) as (s & p & k & Hc & [Hm Ht Hp _ _] & Hs & Hk & _).
  exists s, p, k. split_and!; try exact Hc; try apply Hm; try apply Ht; try apply Hp;
    try apply Hs; try apply Hk.
  unfold Verify, verifyWithDeriver. by destruct (parse encoded).
Qed.
