(* ===== verification/Gate.v ===== *)
(** * Concurrent key derivations (src/pkg/password/password.go)

    [deriveKey] passes a gate, a channel with room for one token: a goroutine puts a
    token in before it derives a key and takes one out, deferred, when it returns. Here
    any number of goroutines run [deriveKey] and interleave in any way. *)

From stdpp Require Import prelude strings list relations.
From Stdlib Require Import ZArith Lia.
From S2P Require Import Prelude GoStrings Password.

(** [cap(argon2Gate)]. *)
Definition argon2Gate : nat := 1.

Section Gate.
Context (IDKey : string → string → N → N → N → N → string).

(** Where a goroutine stands: before the send, inside, with the key about to return,
    and returned. *)
Inductive phase :=
| Entering (c : DeriveCall)
| Deriving (c : DeriveCall)
| Leaving (key : string)
| Returned (key : string).

(** The key of a call. *)
Definition keyOf (c : DeriveCall) : string := deriveKey IDKey (dc_plaintext c) (dc_salt c) (dc_parameters c) (dc_keyLength c).

(** The tokens in the channel, and the goroutines. *)
Record gate := mkGate { tokens : nat; goroutines : list phase }.

(** A send waits for room, a receive for a token. *)
Inductive gate_step : gate → gate → Prop :=
| gate_send n l i c : l !! i = Some (Entering c) → n < argon2Gate →
    gate_step (mkGate n l) (mkGate (S n) (<[i := Deriving c]> l))
| gate_derive n l i c : l !! i = Some (Deriving c) →
    gate_step (mkGate n l) (mkGate n (<[i := Leaving (keyOf c)]> l))
| gate_receive n l i key : l !! i = Some (Leaving key) →
    gate_step (mkGate (S n) l) (mkGate n (<[i := Returned key]> l)).

(** The calls at the start. *)
Definition started (calls : list DeriveCall) : gate := mkGate 0 (Entering <$> calls).
End Gate.

Arguments Entering c. Arguments Deriving c. Arguments Leaving key. Arguments Returned key.

(** ** Counting *)

Definition inside (p : phase) : nat := match p with Deriving _ | Leaving _ => 1 | _ => 0 end.
(** The steps a goroutine has still to make. *)
Definition ahead (p : phase) : nat := match p with Entering _ => 3 | Deriving _ => 2 | Leaving _ => 1 | Returned _ => 0 end.

Lemma sum_insert {A} (f : A → nat) l i x y : l !! i = Some x →
  sum_list_with f (<[i := y]> l) + f x = sum_list_with f l + f y.
Proof.
  revert i. induction l as [|a l IH]; intros [|i] Hi; simplify_eq/=; [lia|]. specialize (IH i Hi). lia.
Qed.

Lemma sum_at {A} (f : A → nat) l i x : l !! i = Some x → f x ≤ sum_list_with f l.
Proof.
  revert i. induction l as [|a l IH]; intros [|i] Hi; simplify_eq/=; [lia|].
  specialize (IH i Hi). lia.
Qed.

Lemma sum_two {A} (f : A → nat) l i j x y : i ≠ j → l !! i = Some x → l !! j = Some y → f x + f y ≤ sum_list_with f l.
Proof.
  revert i j. induction l as [|a l IH]; intros [|i] [|j] Hne Hi Hj; simplify_eq/=.
  - pose proof (sum_at f l j y Hj). lia.
  - pose proof (sum_at f l i x Hi). lia.
  - assert (i ≠ j) as Hne' by congruence. specialize (IH i j Hne' Hi Hj). lia.
Qed.

(** ** The invariant *)

Section Runs.
Context (IDKey : string → string → N → N → N → N → string).
Abbreviation step := (gate_step IDKey).

(** A goroutine is about its call. *)
Definition about (c : DeriveCall) (p : phase) : Prop :=
  match p with Entering c' | Deriving c' => c' = c | Leaving key | Returned key => key = keyOf IDKey c end.

(** The tokens are those of the goroutines inside, and there is room for no more. *)
Record gate_ok (calls : list DeriveCall) (g : gate) : Prop := {
  go_tokens : tokens g = sum_list_with inside (goroutines g);
  go_room : tokens g ≤ argon2Gate;
  go_about : Forall2 about calls (goroutines g);
}.

Lemma started_ok calls : gate_ok calls (started calls).
Proof.
  split; cbn [tokens goroutines started]; [|unfold argon2Gate; lia|by apply Forall2_fmap_r, Forall_Forall2_diag, Forall_true].
  by induction calls as [|c calls IH].
Qed.

Lemma about_insert calls l i p p' : Forall2 about calls l → l !! i = Some p → (∀ c, about c p → about c p') →
  Forall2 about calls (<[i := p']> l).
Proof.
  intros H Hi Hp. destruct (Forall2_lookup_r _ _ _ _ _ H Hi) as (c & Hc & Ha).
  rewrite <- (list_insert_id calls i c Hc). apply Forall2_insert; [done|by apply Hp].
Qed.

Lemma step_ok calls g g' : step g g' → gate_ok calls g → gate_ok calls g' ∧
  sum_list_with ahead (goroutines g) = S (sum_list_with ahead (goroutines g')).
Proof.
  intros [n l i c Hi Hn|n l i c Hi|n l i key Hi] [H1 H2 H3]; cbn [tokens goroutines] in *;
    (split; [split|]); cbn [tokens goroutines]; try (unfold argon2Gate in *; lia);
    lazymatch goal with
    | |- Forall2 _ _ (<[_ := ?p]> _) => eapply about_insert; [done|exact Hi|intros c'; cbn [about]; congruence]
    | |- context [sum_list_with ?f (<[_ := ?p]> _)] => pose proof (sum_insert f l i _ p Hi) as E; cbn [inside ahead] in E; lia
    end.
Qed.

(** Someone can always go on until all have returned. *)
Lemma gate_progress calls g : gate_ok calls g →
  (∃ g', step g g') ∨ g = mkGate 0 (Returned <$> (keyOf IDKey <$> calls)).
Proof.
  destruct g as [n l]. intros [H1 H2 H3]. cbn [tokens goroutines] in *.
  destruct (decide (Exists (λ p, inside p = 1) l)) as [Hin|Hout].
  { left. apply Exists_exists in Hin as (p & Hp & Hi). apply list_elem_of_lookup in Hp as [i Hl].
    pose proof (sum_at inside l i p Hl). destruct p as [c|c|key|key]; try done; [eexists; by eapply gate_derive|].
    cbn [inside] in *. destruct n as [|n]; [lia|]. eexists. by eapply gate_receive. }
  assert (sum_list_with inside l = 0) as H0.
  { clear -Hout. induction l as [|p l IH]; [done|]. rewrite Exists_cons in Hout. cbn [sum_list_with].
    rewrite IH by tauto. destruct p; cbn [inside] in *; tauto || lia. }
  destruct (decide (Exists (λ p, ahead p = 3) l)) as [Hen|Hno].
  { left. apply Exists_exists in Hen as (p & Hp & Hi). apply list_elem_of_lookup in Hp as [i Hl].
    destruct p as [c|c|key|key]; try done. eexists. eapply gate_send; [done|]. unfold argon2Gate. lia. }
  right. f_equal; [lia|]. clear H1 H2 H0. induction H3 as [|c p calls l Hp _ IH]; [done|].
  rewrite Exists_cons in Hout, Hno. cbn [fmap list_fmap]. f_equal; [|by apply IH; tauto].
  destruct p; cbn [inside ahead about] in *; [tauto|tauto|tauto|by subst].
Qed.
End Runs.

(** The gate serialises the key derivations. However the goroutines that call
    [deriveKey] interleave: as many tokens are in the channel as goroutines are behind
    the gate, at most one; two goroutines that derive are the same one; as long as one
    has not returned, some goroutine can go on; and after at most three steps for each
    of them every call has returned its own key. *)
Theorem gate_serialises (IDKey : string → string → N → N → N → N → string) (calls : list DeriveCall) (g : gate) (n : nat) :
  nsteps (gate_step IDKey) n (started calls) g →
  tokens g = sum_list_with inside (goroutines g) ∧ tokens g ≤ 1 ∧
  (∀ i j c c', goroutines g !! i = Some (Deriving c) → goroutines g !! j = Some (Deriving c') → i = j) ∧
  n ≤ 3 * length calls ∧
  ((∃ g', gate_step IDKey g g') ∨ g = mkGate 0 (Returned <$> (keyOf IDKey <$> calls))).
Proof.
  intros Hn. assert (gate_ok IDKey calls g ∧ n + sum_list_with ahead (goroutines g) = 3 * length calls) as [Hok Hm].
  { assert (sum_list_with ahead (goroutines (started calls)) = 3 * length calls) as H0
      by (clear; cbn [goroutines started]; induction calls as [|c calls IH]; [done|]; cbn in *; lia).
    rewrite <- H0. pose proof (started_ok IDKey calls) as Hs. clear H0. induction Hn as [g|n g g1 g2 Hg _ IH]; [done|].
    destruct (step_ok IDKey calls g g1 Hg Hs) as [H1 H2]. destruct (IH H1) as [H3 H4]. split; [done|]. lia. }
  destruct Hok as [H1 H2 H3]. split_and!; [done|done| |lia|by apply gate_progress].
  intros i j c c' Hi Hj. destruct (decide (i = j)) as [|Hne]; [done|].
  pose proof (sum_two inside _ i j _ _ Hne Hi Hj) as H. unfold argon2Gate in H2. cbn [inside] in H. lia.
Qed.

(** Two calls, one of them waiting for the other. *)
Definition twoCalls : list DeriveCall := [mkDeriveCall "a" "s" defaultParameters 32; mkDeriveCall "b" "s" defaultParameters 32].

Lemma gate_serialises_witness : ∀ g, nsteps (gate_step toyIDKey) 6 (started twoCalls) g →
  g = mkGate 0 (Returned <$> (keyOf toyIDKey <$> twoCalls)).
Proof.
  intros g Hg. destruct (gate_serialises toyIDKey twoCalls g 6 Hg) as (_ & _ & _ & _ & [[g' Hstep]|H]); [|exact H].
  destruct (gate_serialises toyIDKey twoCalls g' 7) as (_ & _ & _ & Hle & _); [by eapply nsteps_r|]. exfalso. cbn in Hle. lia.
Defined.
