(* ===== verification/FileSystem.v ===== *)
(** * The file system the service's storage code runs on

    What the code uses of Go's [os], [io] and [path/filepath] packages, and of the
    system calls under them, on a table of inodes. A directory is an inode whose
    entries map names to inodes, so a descriptor is an inode number, two names of
    one inode are hard links, and replacing a name does not disturb who holds the
    old inode open. Paths are resolved component by component, following at most 40
    symbolic links as Linux does. *)

From stdpp Require Import prelude strings gmap.
From Stdlib Require Import ZArith Lia Ascii.
From S2P Require Import Prelude GoStrings.

Inductive kind :=
| KDir (entries : gmap string Z)
| KFile (content : string)
| KSymlink (target : string)
| KOther.

#[export] Instance kind_eq_dec : EqDecision kind.
Proof. solve_decision. Defined.

Record Inode := mkInode {
  i_kind : kind;
  i_perm : Z;
  i_uid : Z;
}.

(** Beside the inodes, which of them are locked with [flock], and by which open file
    description. *)
Record FileSystem := mkFS {
  fs_inodes : gmap Z Inode;
  fs_locks : gmap Z Z;
}.

(** The root directory. *)
Definition rootIno : Z := 1.

Definition emptyFS : FileSystem := mkFS ∅ ∅.

(** [os.FileInfo] as the code inspects it: the inode number stands for the device
    and inode pair that [os.SameFile] compares. *)
Record FileInfo := mkFileInfo {
  fi_ino : Z;
  fi_kind : kind;
  fi_perm : Z;
  fi_uid : Z;
  fi_nlink : Z;
}.

Definition is_symlink (i : FileInfo) : bool :=
  match fi_kind i with KSymlink _ => true | _ => false end.
Definition is_regular (i : FileInfo) : bool :=
  match fi_kind i with KFile _ => true | _ => false end.
Definition is_dir (i : FileInfo) : bool :=
  match fi_kind i with KDir _ => true | _ => false end.
Definition SameFile (a b : FileInfo) : bool := (fi_ino a =? fi_ino b)%Z.

(** [EEXIST] also stands for a directory that is not empty, which Go's
    [fs.ErrExist] covers as well; [EESCAPE] is the refusal of an [os.Root] to leave
    its directory. *)
Inductive ioerr := ENOENT | EEXIST | ENOTDIR | ELOOP | EISDIR | EESCAPE | EAGAIN | EIO.

#[export] Instance ioerr_eq_dec : EqDecision ioerr.
Proof. solve_decision. Defined.

(** The names of an inode in one directory, and in all of them. *)
Definition names_in (ino : Z) (k : kind) : nat :=
  match k with
  | KDir es => size (filter (λ kv : string * Z, kv.2 = ino) es)
  | _ => 0
  end.

Definition link_count (fs : FileSystem) (ino : Z) : Z :=
  Z.of_nat (map_fold (λ _ n acc, names_in ino (i_kind n) + acc)%nat 0%nat (fs_inodes fs)).

(** [fstat]. *)
Definition inode_info (fs : FileSystem) (ino : Z) : option FileInfo :=
  n ← fs_inodes fs !! ino;
  Some (mkFileInfo ino (i_kind n) (i_perm n) (i_uid n) (link_count fs ino)).

Definition entries (fs : FileSystem) (ino : Z) : option (gmap string Z) :=
  n ← fs_inodes fs !! ino;
  match i_kind n with KDir es => Some es | _ => None end.

(** ** Paths *)

Abbreviation path := (list string).

(** Components of a path string; empty components and "." vanish. *)
Definition components (s : string) : path :=
  filter (λ c, c ≠ "" ∧ c ≠ ".") (split_on "/" s).

(** [filepath.IsAbs]. *)
Definition IsAbs (s : string) : bool := has_prefix "/" s.

(** [filepath.Clean] of an absolute path, as its components. *)
Definition clean_step (acc : path) (c : string) : path :=
  if bool_decide (c = "..") then take (length acc - 1) acc else acc ++ [c].
Definition Clean (p : path) : path := foldl clean_step [] p.

(** [filepath.Dir] of an absolute path. *)
Definition Dir (s : string) : path :=
  Clean (filter (λ c, c ≠ "" ∧ c ≠ ".") (removelast (split_on "/" s))).

(** The result of a path walk: where it arrived, as the stack of names and inodes
    on the way from the root, or the directory and name where the last component is
    missing. *)
Inductive found :=
| At (stack : list (string * Z))
| Missing (stack : list (string * Z)) (name : string).

(** The inode at the top of the walk. *)
Definition top (stack : list (string * Z)) : Z :=
  match stack with (_, ino) :: _ => ino | [] => rootIno end.

(** The last component is followed when it is a symbolic link only with
    [follow]. *)
Fixpoint resolve (links : nat) (fs : FileSystem) (follow : bool) (stack : list (string * Z)) (todo : path)
    {struct links} : found + ioerr :=
  (fix walk (stack : list (string * Z)) (todo : path) {struct todo} : found + ioerr :=
     match todo with
     | [] => inl (At stack)
     | c :: rest =>
        if bool_decide (c = "..") then walk (tail stack) rest
        else
          match entries fs (top stack) with
          | None => inr ENOTDIR
          | Some es =>
             match es !! c with
             | None => if bool_decide (rest = []) then inl (Missing stack c) else inr ENOENT
             | Some ino =>
                match i_kind <$> fs_inodes fs !! ino with
                | None => inr EIO
                | Some (KDir _) => walk ((c, ino) :: stack) rest
                | Some (KSymlink target) =>
                   if bool_decide (rest = []) && negb follow then inl (At ((c, ino) :: stack))
                   else match links with
                        | O => inr ELOOP
                        | S links' =>
                           resolve links' fs follow (if IsAbs target then [] else stack)
                             (components target ++ rest)
                        end
                | Some _ => if bool_decide (rest = []) then inl (At ((c, ino) :: stack)) else inr ENOTDIR
                end
             end
          end
     end) stack todo.

Definition maxLinks : nat := 40.

(** [lstat] and [stat] of an absolute path. *)
Definition path_info (follow : bool) (fs : FileSystem) (p : path) : FileInfo + ioerr :=
  match resolve maxLinks fs follow [] p with
  | inr e => inr e
  | inl (Missing _ _) => inr ENOENT
  | inl (At stack) => match inode_info fs (top stack) with Some i => inl i | None => inr EIO end
  end.

(** [filepath.EvalSymlinks]: the physical path. *)
Definition EvalSymlinks (fs : FileSystem) (p : path) : path + ioerr :=
  match resolve maxLinks fs true [] p with
  | inr e => inr e
  | inl (Missing _ _) => inr ENOENT
  | inl (At stack) => inl (rev (map fst stack))
  end.

(** ** Changing the table *)

Definition set_inode (ino : Z) (n : Inode) (fs : FileSystem) : FileSystem :=
  mkFS (<[ino := n]> (fs_inodes fs)) (fs_locks fs).

(** An inode number not in use. *)
Definition new_ino (fs : FileSystem) : Z :=
  (map_fold (λ k _ acc, Z.max k acc) rootIno (fs_inodes fs) + 1)%Z.

Definition set_entries (dir : Z) (f : gmap string Z → gmap string Z) (fs : FileSystem) : FileSystem :=
  match fs_inodes fs !! dir with
  | Some (mkInode (KDir es) perm uid) => set_inode dir (mkInode (KDir (f es)) perm uid) fs
  | _ => fs
  end.

(** The calls below take directories as inodes: descriptor-relative, or resolved
    beforehand. Each returns its result and the new table. *)
Definition create_node (dir : Z) (name : string) (n : Inode) (fs : FileSystem) : (Z + ioerr) * FileSystem :=
  match entries fs dir with
  | None => (inr ENOTDIR, fs)
  | Some es =>
     match es !! name with
     | Some _ => (inr EEXIST, fs)
     | None => let ino := new_ino fs in (inl ino, set_inode ino n (set_entries dir <[name := ino]> fs))
     end
  end.

Definition write_file (ino : Z) (data : string) (fs : FileSystem) : (unit + ioerr) * FileSystem :=
  match fs_inodes fs !! ino with
  | Some (mkInode (KFile c) perm uid) => (inl tt, set_inode ino (mkInode (KFile (c +:+ data)) perm uid) fs)
  | _ => (inr EIO, fs)
  end.

Definition read_file (ino : Z) (fs : FileSystem) : string + ioerr :=
  match fs_inodes fs !! ino with
  | Some (mkInode (KFile c) _ _) => inl c
  | _ => inr EISDIR
  end.

Definition chmod (ino perm : Z) (fs : FileSystem) : (unit + ioerr) * FileSystem :=
  match fs_inodes fs !! ino with
  | Some (mkInode k _ uid) => (inl tt, set_inode ino (mkInode k perm uid) fs)
  | None => (inr EIO, fs)
  end.

(** [link]: a new name for an existing inode. *)
Definition link_node (ino dir : Z) (name : string) (fs : FileSystem) : (unit + ioerr) * FileSystem :=
  match entries fs dir with
  | None => (inr ENOTDIR, fs)
  | Some es =>
     match es !! name with
     | Some _ => (inr EEXIST, fs)
     | None => (inl tt, set_entries dir <[name := ino]> fs)
     end
  end.

(** [os.Remove]: a file, or a directory that is empty. *)
Definition remove_name (dir : Z) (name : string) (fs : FileSystem) : (unit + ioerr) * FileSystem :=
  match entries fs dir with
  | None => (inr ENOTDIR, fs)
  | Some es =>
     match es !! name with
     | None => (inr ENOENT, fs)
     | Some ino =>
        match entries fs ino with
        | Some inner => if bool_decide (inner = ∅) then (inl tt, set_entries dir (delete name) fs) else (inr EEXIST, fs)
        | None => (inl tt, set_entries dir (delete name) fs)
        end
     end
  end.

(** [rename] of a file within one directory: it takes the place of what is not a
    directory, and does nothing when both names are links to one inode. *)
Definition rename_in (dir : Z) (old new : string) (fs : FileSystem) : (unit + ioerr) * FileSystem :=
  match entries fs dir with
  | None => (inr ENOTDIR, fs)
  | Some es =>
     match es !! old with
     | None => (inr ENOENT, fs)
     | Some ino =>
        let place := set_entries dir (λ es, <[new := ino]> (delete old es)) fs in
        match es !! new with
        | None => (inl tt, place)
        | Some other =>
           if bool_decide (other = ino) then (inl tt, fs)
           else match entries fs other with
                | Some _ => (inr EISDIR, fs)
                | None => (inl tt, place)
                end
        end
     end
  end.

(** [flock(fd, LOCK_EX | LOCK_NB)] and [flock(fd, LOCK_UN)] by the open file
    description [holder]. *)
Definition flock (holder ino : Z) (fs : FileSystem) : (unit + ioerr) * FileSystem :=
  match fs_locks fs !! ino with
  | Some other => (if Z.eqb other holder then inl tt else inr EAGAIN, fs)
  | None => (inl tt, mkFS (fs_inodes fs) (<[ino := holder]> (fs_locks fs)))
  end.

Definition funlock (holder ino : Z) (fs : FileSystem) : FileSystem :=
  if bool_decide (fs_locks fs !! ino = Some holder)
  then mkFS (fs_inodes fs) (delete ino (fs_locks fs)) else fs.

(** ** Walks that stay below a directory *)

(** Names relative to an [os.Root] on the directory [base]: symbolic links are
    followed as long as they lead nowhere else. *)
Fixpoint resolve_in (links : nat) (base : Z) (fs : FileSystem) (stack : list Z) (todo : path)
    {struct links} : Z + ioerr :=
  (fix walk (stack : list Z) (todo : path) {struct todo} : Z + ioerr :=
     let current := match stack with ino :: _ => ino | [] => base end in
     match todo with
     | [] => inl current
     | c :: rest =>
        if bool_decide (c = "..") then match stack with [] => inr EESCAPE | _ :: below => walk below rest end
        else
          match entries fs current with
          | None => inr ENOTDIR
          | Some es =>
             match es !! c with
             | None => inr ENOENT
             | Some ino =>
                match i_kind <$> fs_inodes fs !! ino with
                | None => inr EIO
                | Some (KSymlink target) =>
                   if IsAbs target then inr EESCAPE
                   else match links with
                        | O => inr ELOOP
                        | S links' => resolve_in links' base fs stack (components target ++ rest)
                        end
                | Some (KDir _) => walk (ino :: stack) rest
                | Some _ => if bool_decide (rest = []) then inl ino else inr ENOTDIR
                end
             end
          end
     end) stack todo.

(** ** Lemmas *)

Lemma entries_inode fs d es :
  entries fs d = Some es ↔ ∃ perm uid, fs_inodes fs !! d = Some (mkInode (KDir es) perm uid).
Proof.
  unfold entries. destruct (fs_inodes fs !! d) as [[[] perm uid]|]; simpl; naive_solver.
Qed.

Lemma new_ino_fresh fs : fs_inodes fs !! new_ino fs = None.
Proof.
  assert (∀ k n, fs_inodes fs !! k = Some n → (k < new_ino fs)%Z) as H.
  { unfold new_ino. generalize (fs_inodes fs). intros m.
    assert (∀ k n, m !! k = Some n → (k ≤ map_fold (λ k _ acc, Z.max k acc) rootIno m)%Z) as Hm.
    { apply (map_fold_weak_ind (λ r m, ∀ k n, m !! k = Some n → (k ≤ r)%Z)); [by intros k n ?%lookup_empty_Some|].
      intros i x m' r Hi IH k n [[<- _]|[_ Hk]]%lookup_insert_Some; [lia|]. apply IH in Hk. lia. }
    intros k n Hk%Hm. lia. }
  destruct (fs_inodes fs !! new_ino fs) eqn:E; [|done]. apply H in E. lia.
Qed.

(** ** Path walks *)

Lemma resolve_nil l fs f st : resolve l fs f st [] = inl (At st).
Proof. by destruct l. Qed.

Lemma resolve_cons l fs f st c rest : resolve l fs f st (c :: rest) =
  if bool_decide (c = "..") then resolve l fs f (tail st) rest
  else match entries fs (top st) with
       | None => inr ENOTDIR
       | Some es =>
          match es !! c with
          | None => if bool_decide (rest = []) then inl (Missing st c) else inr ENOENT
          | Some ino =>
             match i_kind <$> fs_inodes fs !! ino with
             | None => inr EIO
             | Some (KDir _) => resolve l fs f ((c, ino) :: st) rest
             | Some (KSymlink target) =>
                if bool_decide (rest = []) && negb f then inl (At ((c, ino) :: st))
                else match l with
                     | O => inr ELOOP
                     | S l' => resolve l' fs f (if IsAbs target then [] else st) (components target ++ rest)
                     end
             | Some _ => if bool_decide (rest = []) then inl (At ((c, ino) :: st)) else inr ENOTDIR
             end
          end
       end.
Proof. by destruct l. Qed.

(** Induction over the steps of a walk. *)
Lemma walk_ind (P : nat → list (string * Z) → path → Prop) :
  (∀ l st, P l st []) →
  (∀ l st c rest, (∀ st', P l st' rest) → (∀ l' st' todo, (l' < l)%nat → P l' st' todo) → P l st (c :: rest)) →
  ∀ l st todo, P l st todo.
Proof.
  intros Hnil Hcons l. induction l as [l IH] using (well_founded_induction Nat.lt_wf_0).
  intros st todo. revert st. induction todo as [|c rest IHt]; intros st; [apply Hnil|].
  apply Hcons; auto.
Qed.

(** The shape of an inode, as far as walks care. *)
Inductive shape := ShDir | ShLink (target : string) | ShFile.

Definition shape_of (k : kind) : shape :=
  match k with KDir _ => ShDir | KSymlink t => ShLink t | _ => ShFile end.

(** [fs'] has everything [fs] has. *)
Record extends (fs fs' : FileSystem) : Prop := {
  ext_shape : ∀ i n, fs_inodes fs !! i = Some n →
    ∃ n', fs_inodes fs' !! i = Some n' ∧ shape_of (i_kind n') = shape_of (i_kind n);
  ext_entries : ∀ i es, entries fs i = Some es → ∃ es', entries fs' i = Some es' ∧ es ⊆ es';
}.

(** A walk that arrives still arrives. *)
Lemma resolve_extends fs fs' f l st p stack :
  extends fs fs' → resolve l fs f st p = inl (At stack) → resolve l fs' f st p = inl (At stack).
Proof.
  intros [Hs He]. revert stack. apply (walk_ind (λ l st p, ∀ stack,
    resolve l fs f st p = inl (At stack) → resolve l fs' f st p = inl (At stack))); clear l st p.
  { intros l st stack. by rewrite !resolve_nil. }
  intros l st c rest IHrest IHlinks stack. rewrite !resolve_cons. case_bool_decide; [by apply IHrest|].
  destruct (entries fs (top st)) as [es|] eqn:Hes; [|done].
  destruct (He _ _ Hes) as (es' & -> & Hsub).
  destruct (es !! c) as [ino|] eqn:Hc; [|by case_bool_decide].
  rewrite (lookup_weaken _ _ _ _ Hc Hsub). destruct (fs_inodes fs !! ino) as [n|] eqn:Hn; [|done]. simpl.
  destruct (Hs _ _ Hn) as (n' & -> & Hshape). simpl.
  destruct (i_kind n), (i_kind n'); simpl in Hshape; try discriminate; auto.
  injection Hshape as ->. destruct (_ && _); [done|]. destruct l; [done|]. apply IHlinks. lia.
Qed.

(** Where the last component of a path is missing, nothing is below it. *)
Lemma resolve_absent fs f l st p b :
  (∃ stack name, resolve l fs f st p = inl (Missing stack name)) ∨ resolve l fs f st p = inr ENOENT →
  resolve l fs f st (p ++ [b]) = inr ENOENT.
Proof.
  apply (walk_ind (λ l st p, (∃ stack name, resolve l fs f st p = inl (Missing stack name)) ∨
    resolve l fs f st p = inr ENOENT → resolve l fs f st (p ++ [b]) = inr ENOENT)); clear l st p.
  { intros l st. rewrite resolve_nil. by intros [(? & ? & [=])|[=]]. }
  intros l st c rest IHrest IHlinks. cbn [app]. rewrite !resolve_cons. case_bool_decide; [apply IHrest|].
  destruct (entries fs (top st)) as [es|]; [|by intros [(? & ? & [=])|[=]]].
  rewrite (bool_decide_eq_false_2 (rest ++ [b] = [])) by by destruct rest.
  destruct (es !! c) as [ino|]; [|done].
  destruct (i_kind <$> fs_inodes fs !! ino) as [[]|]; try (by intros [(? & ? & [=])|[=]]); [apply IHrest| | |].
  - case_bool_decide; by intros [(? & ? & [=])|[=]].
  - cbn [andb]. destruct (bool_decide (rest = []) && negb f); [by intros [(? & ? & [=])|[=]]|].
    destruct l; [by intros [(? & ? & [=])|[=]]|]. rewrite app_assoc. apply IHlinks. lia.
  - case_bool_decide; by intros [(? & ? & [=])|[=]].
Qed.

(** One more component below a directory that was reached. *)
Lemma resolve_below fs l st p stack es b :
  resolve l fs false st p = inl (At stack) → entries fs (top stack) = Some es → b ≠ ".." →
  resolve l fs false st (p ++ [b]) =
    match es !! b with
    | None => inl (Missing stack b)
    | Some ino => match fs_inodes fs !! ino with
                  | None => inr EIO
                  | Some _ => inl (At ((b, ino) :: stack))
                  end
    end.
Proof.
  intros Hr Hes Hb. revert stack Hr Hes. apply (walk_ind (λ l st p, ∀ stack,
    resolve l fs false st p = inl (At stack) → entries fs (top stack) = Some es →
    resolve l fs false st (p ++ [b]) = match es !! b with
      | None => inl (Missing stack b)
      | Some ino => match fs_inodes fs !! ino with None => inr EIO | Some _ => inl (At ((b, ino) :: stack)) end
      end)); clear l st p.
  { intros l st stack. rewrite resolve_nil. intros [= <-] Hes. cbn [app].
    rewrite resolve_cons, bool_decide_eq_false_2, Hes by done.
    destruct (es !! b) as [ino|]; [|done]. destruct (fs_inodes fs !! ino) as [n|]; [|done]. simpl.
    destruct (i_kind n); try done. apply resolve_nil. }
  intros l st c rest IHrest IHlinks stack. cbn [app]. rewrite !resolve_cons. case_bool_decide; [apply IHrest|].
  destruct (entries fs (top st)) as [es0|]; [|done].
  rewrite (bool_decide_eq_false_2 (rest ++ [b] = [])) by by destruct rest.
  destruct (es0 !! c) as [ino|]; [|by case_bool_decide].
  destruct (fs_inodes fs !! ino) as [n|] eqn:Hn; [|done]. simpl.
  assert (∀ k, i_kind n = k → shape_of k ≠ ShDir → ∀ es1 : gmap string Z, entries fs ino = Some es1 → False) as Hnodir.
  { intros k Hk Hsh es1 (perm & uid & He)%entries_inode. rewrite Hn in He. injection He as ->. by subst k. }
  destruct (i_kind n) eqn:Hk; [apply IHrest| | |].
  - case_bool_decide; [|done]. intros [= <-] He. by destruct (Hnodir _ eq_refl ltac:(done) _ He).
  - simpl. rewrite andb_true_r. case_bool_decide.
    + intros [= <-] He. by destruct (Hnodir _ eq_refl ltac:(done) _ He).
    + destruct l; [done|]. rewrite app_assoc. apply IHlinks. lia.
  - case_bool_decide; [|done]. intros [= <-] He. by destruct (Hnodir _ eq_refl ltac:(done) _ He).
Qed.

(** Where the walk does not end at a symbolic link there is nothing to follow. *)
Lemma resolve_settled fs l st p stack :
  resolve l fs false st p = inl (At stack) → (∀ t, i_kind <$> fs_inodes fs !! top stack ≠ Some (KSymlink t)) →
  resolve l fs true st p = inl (At stack).
Proof.
  intros Hr Hes. revert Hr. apply (walk_ind (λ l st p,
    resolve l fs false st p = inl (At stack) → resolve l fs true st p = inl (At stack))); clear l st p.
  { intros l st. by rewrite !resolve_nil. }
  intros l st c rest IHrest IHlinks. rewrite !resolve_cons. case_bool_decide; [apply IHrest|].
  destruct (entries fs (top st)) as [es0|]; [|done]. destruct (es0 !! c) as [ino|]; [|done].
  destruct (fs_inodes fs !! ino) as [n|] eqn:Hn; [|done]. simpl.
  destruct (i_kind n) eqn:Hk; [apply IHrest|done| |done].
  rewrite andb_true_r, andb_false_r. case_bool_decide.
  - intros [= <-]. destruct (Hes target). cbn [top]. by rewrite Hn, <- Hk.
  - destruct l; [done|]. apply IHlinks. lia.
Qed.

Lemma resolve_follow fs l st p stack es :
  resolve l fs false st p = inl (At stack) → entries fs (top stack) = Some es →
  resolve l fs true st p = inl (At stack).
Proof.
  intros Hr Hes. eapply resolve_settled; [done|]. intros t. apply entries_inode in Hes as (perm & uid & ->). done.
Qed.

Lemma resolve_absent_app fs f l st p rest :
  rest ≠ [] →
  (∃ stack name, resolve l fs f st p = inl (Missing stack name)) ∨ resolve l fs f st p = inr ENOENT →
  resolve l fs f st (p ++ rest) = inr ENOENT.
Proof.
  intros Hne. revert p. induction rest as [|b [|c rest] IH]; intros p H; [done|by apply resolve_absent|].
  change (b :: c :: rest) with ([b] ++ c :: rest). rewrite app_assoc. apply IH; [done|]. right. by apply resolve_absent.
Qed.

(** Where the walk of [p] without its last component has arrived when that
    component is missing, and what walks below [p] amount to from then on. *)
Lemma resolve_missing fs l st p c stack name :
  resolve l fs false st (p ++ [c]) = inl (Missing stack name) →
  name = c ∧ (∃ es, entries fs (top stack) = Some es ∧ es !! c = None) ∧
  ∀ fs', extends fs fs' → ∀ rest, rest ≠ [] →
    ∃ l', resolve l fs' false st (p ++ rest) = resolve l' fs' false stack rest.
Proof.
  apply (walk_ind (λ l st p, resolve l fs false st (p ++ [c]) = inl (Missing stack name) →
    name = c ∧ (∃ es, entries fs (top stack) = Some es ∧ es !! c = None) ∧
    ∀ fs', extends fs fs' → ∀ rest, rest ≠ [] →
      ∃ l', resolve l fs' false st (p ++ rest) = resolve l' fs' false stack rest)); clear l st p.
  { intros l st. cbn [app]. rewrite resolve_cons. case_bool_decide; [by rewrite resolve_nil|].
    destruct (entries fs (top st)) as [es|] eqn:Hes; [|done].
    destruct (es !! c) as [ino|] eqn:Hc.
    - destruct (fs_inodes fs !! ino) as [[[] ? ?]|]; simpl; [by rewrite resolve_nil|done..].
    - intros [= <- <-]. split_and!; [done|by exists es|]. intros fs' _ rest _. by exists l. }
  intros l st d p IHrest IHlinks. cbn [app]. rewrite resolve_cons.
  rewrite (bool_decide_eq_false_2 (p ++ [c] = [])) by by destruct p. cbn [andb].
  destruct (bool_decide (d = "..")) eqn:Hd.
  { intros Hr. destruct (IHrest _ Hr) as (? & ? & IH). split_and!; [done..|]. intros fs' He rest Hne.
    rewrite resolve_cons, Hd. by apply IH. }
  destruct (entries fs (top st)) as [es|] eqn:Hes; [|done].
  destruct (es !! d) as [ino|] eqn:Hc; [|done].
  destruct (fs_inodes fs !! ino) as [n|] eqn:Hn; [|done]. simpl.
  assert (∀ fs', extends fs fs' → ∃ es' n', entries fs' (top st) = Some es' ∧ es' !! d = Some ino ∧
    fs_inodes fs' !! ino = Some n' ∧ shape_of (i_kind n') = shape_of (i_kind n)) as Hext.
  { intros fs' [Hs He]. destruct (He _ _ Hes) as (es' & Hes' & Hsub). destruct (Hs _ _ Hn) as (n' & Hn' & Hsh).
    exists es', n'. split_and!; [done| |done..]. by eapply lookup_weaken. }
  destruct (i_kind n) eqn:Hk; [|done| |done].
  - intros Hr. destruct (IHrest _ Hr) as (? & ? & IH). split_and!; [done..|]. intros fs' He rest Hne.
    destruct (Hext _ He) as (es' & n' & Hes' & Hd' & Hn' & Hsh). rewrite resolve_cons, Hd, Hes', Hd', Hn'. simpl.
    destruct (i_kind n'); try discriminate. by apply IH.
  - destruct l as [|l]; [done|]. rewrite app_assoc. intros Hr.
    destruct (IHlinks l _ _ (Nat.lt_succ_diag_r l) Hr) as (? & ? & IH). split_and!; [done..|]. intros fs' He rest Hne.
    destruct (Hext _ He) as (es' & n' & Hes' & Hd' & Hn' & Hsh). rewrite resolve_cons, Hd, Hes', Hd', Hn'. simpl.
    destruct (i_kind n'); try discriminate. injection Hsh as ->.
    rewrite bool_decide_eq_false_2 by (by destruct p). simpl.
    setoid_rewrite app_assoc. by apply IH.
Qed.

(** ** One file in one directory *)

(** [fs0] with the entries of directory [d] and the inode [t] replaced: what a
    protocol that works on one file of one directory makes of the table. *)
Definition layer (fs0 : FileSystem) (d perm uid : Z) (es : gmap string Z) (t : Z) (n : Inode) : FileSystem :=
  mkFS (<[t := n]> (<[d := mkInode (KDir es) perm uid]> (fs_inodes fs0))) (fs_locks fs0).

Section Layer.
Context (fs0 : FileSystem) (d perm uid t : Z) (es0 : gmap string Z)
        (Hd : fs_inodes fs0 !! d = Some (mkInode (KDir es0) perm uid)) (Ht : fs_inodes fs0 !! t = None).

Lemma layer_ne : t ≠ d.
Proof using Hd Ht. congruence. Qed.

Lemma layer_dir es n : fs_inodes (layer fs0 d perm uid es t n) !! d = Some (mkInode (KDir es) perm uid).
Proof using Hd Ht. simpl. by rewrite lookup_insert_ne, lookup_insert_eq by apply layer_ne. Qed.

Lemma layer_node es n : fs_inodes (layer fs0 d perm uid es t n) !! t = Some n.
Proof using. simpl. by rewrite lookup_insert_eq. Qed.

Lemma layer_info es n : inode_info (layer fs0 d perm uid es t n) t =
  Some (mkFileInfo t (i_kind n) (i_perm n) (i_uid n) (link_count (layer fs0 d perm uid es t n) t)).
Proof using. unfold inode_info. by rewrite layer_node. Qed.

Lemma layer_entries es n : entries (layer fs0 d perm uid es t n) d = Some es.
Proof using Hd Ht. apply entries_inode. eauto using layer_dir. Qed.

Lemma layer_plain es n : shape_of (i_kind n) = ShFile → entries (layer fs0 d perm uid es t n) t = None.
Proof using. intros Hk. unfold entries. rewrite layer_node. simpl. by destruct (i_kind n). Qed.

Lemma layer_extends es n : es0 ⊆ es → extends fs0 (layer fs0 d perm uid es t n).
Proof using Hd Ht.
  intros Hsub. split.
  - intros i n0 Hi. destruct (decide (i = t)) as [->|]; [congruence|]. simpl. rewrite lookup_insert_ne by done.
    destruct (decide (i = d)) as [->|].
    + rewrite lookup_insert_eq. eexists. split; [done|]. by simplify_eq.
    + rewrite lookup_insert_ne by done. eauto.
  - intros i es1 Hi. destruct (decide (i = d)) as [->|].
    + apply entries_inode in Hi as (? & ? & Hi). simplify_eq. eauto using layer_entries.
    + exists es1. split; [|done]. apply entries_inode in Hi as (p & u & Hi). apply entries_inode.
      exists p, u. unfold layer. cbn [fs_inodes]. rewrite lookup_insert_ne by (intros ->; congruence).
      by rewrite lookup_insert_ne.
Qed.

Lemma layer_set_node es n n' :
  set_inode t n' (layer fs0 d perm uid es t n) = layer fs0 d perm uid es t n'.
Proof using. unfold set_inode, layer. simpl. by rewrite insert_insert_eq. Qed.

Lemma layer_set_entries es n f :
  set_entries d f (layer fs0 d perm uid es t n) = layer fs0 d perm uid (f es) t n.
Proof using Hd Ht.
  unfold set_entries. rewrite layer_dir. unfold set_inode, layer. simpl.
  rewrite (insert_insert_ne _ d t) by (symmetry; apply layer_ne). by rewrite insert_insert_eq.
Qed.

Lemma layer_create n name :
  set_inode t n (set_entries d <[name := t]> fs0) = layer fs0 d perm uid (<[name := t]> es0) t n.
Proof using Hd. unfold set_entries. by rewrite Hd. Qed.
End Layer.
