(* ===== verification/Tables.v ===== *)
(** * SQL on tables kept as finite maps

    The shapes of statement the service issues, on a table [gmap K V] filed by
    primary key: the first row by primary key that satisfies a condition (gorm's
    [First]), a conditional [UPDATE], a conditional [DELETE], [COUNT]. *)

From stdpp Require Import prelude strings gmap.
From Stdlib Require Import ZArith Lia.
From S2P Require Import Prelude.

Section Tables.
Context {K V : Type} `{Countable K}.
Implicit Types (m : gmap K V) (p : V → bool) (k : K) (v : V).

(** One step of the scan for the least key. *)
Definition keep_least (le : K → K → bool) p (kv : K * V) (acc : option (K * V)) : option (K * V) :=
  if p kv.2 then
    match acc with
    | Some best => if le kv.1 best.1 then Some kv else acc
    | None => Some kv
    end
  else acc.

(** [WHERE p ORDER BY primary key LIMIT 1]. *)
Definition first_where (le : K → K → bool) p m : option V :=
  snd <$> foldr (keep_least le p) None (map_to_list m).

(** [UPDATE ... SET f WHERE p]. *)
Definition update_where p (f : V → V) m : gmap K V := (λ v, if p v then f v else v) <$> m.

(** [DELETE ... WHERE p]. *)
Definition delete_where p m : gmap K V := filter (λ kv, p kv.2 = false) m.

(** [SELECT COUNT WHERE p], and the rows an [UPDATE] or [DELETE] touches. *)
Definition count_where p m : Z := Z.of_nat (size (filter (λ kv, p kv.2 = true) m)).

Lemma keep_least_fold le p l :
  match foldr (keep_least le p) None l with
  | Some kv => kv ∈ l ∧ p kv.2 = true
  | None => ∀ kv, kv ∈ l → p kv.2 = false
  end.
Proof.
  induction l as [|kv l IH]; simpl; [by intros kv ?%elem_of_nil|].
  unfold keep_least at 1. destruct (p kv.2) eqn:Hp.
  - destruct (foldr _ _ l) as [best|].
    + destruct (le kv.1 best.1); split; try done; [by left|right; by apply IH|by apply IH].
    + split; [by left|done].
  - destruct (foldr _ _ l) as [best|].
    + split; [right; by apply IH|by apply IH].
    + intros kv' [->|?]%elem_of_cons; auto.
Qed.

Lemma first_where_Some le p m v :
  first_where le p m = Some v → ∃ k, m !! k = Some v ∧ p v = true.
Proof.
  unfold first_where. pose proof (keep_least_fold le p (map_to_list m)) as Hk.
  destruct (foldr _ _ _) as [[k w]|]; [|done]. simpl. intros [= <-].
  destruct Hk as [Hin ?]. apply elem_of_map_to_list in Hin. eauto.
Qed.

Lemma first_where_None le p m :
  first_where le p m = None ↔ ∀ k v, m !! k = Some v → p v = false.
Proof.
  unfold first_where. pose proof (keep_least_fold le p (map_to_list m)) as Hk. split.
  - destruct (foldr _ _ _); [done|]. intros _ k v Hkv.
    by apply (Hk (k, v)), elem_of_map_to_list.
  - destruct (foldr _ _ _) as [[k v]|]; [|done]. destruct Hk as [Hin Hp]. intros Hall.
    apply elem_of_map_to_list in Hin. apply Hall in Hin. simpl in *. congruence.
Qed.

(** A condition only one row satisfies selects that row. *)
Lemma first_where_unique le p m k v :
  m !! k = Some v → p v = true →
  (∀ k' v', m !! k' = Some v' → p v' = true → k' = k) →
  first_where le p m = Some v.
Proof.
  intros Hk Hp Hu. destruct (first_where le p m) as [v'|] eqn:E.
  - apply first_where_Some in E as (k' & Hk' & Hp'). pose proof (Hu _ _ Hk' Hp'). congruence.
  - by rewrite (proj1 (first_where_None _ _ _) E _ _ Hk) in Hp.
Qed.

Lemma first_where_ext le p1 p2 m :
  (∀ k v, m !! k = Some v → p1 v = p2 v) → first_where le p1 m = first_where le p2 m.
Proof.
  intros Hext. unfold first_where. f_equal.
  assert (∀ kv, kv ∈ map_to_list m → p1 kv.2 = p2 kv.2) as Hl.
  { intros [k v] Hin%elem_of_map_to_list. by eapply Hext. }
  revert Hl. induction (map_to_list m) as [|kv l IH]; intros Hl; [done|]. simpl.
  rewrite IH by (intros; apply Hl; by right). unfold keep_least.
  by rewrite (Hl kv) by by left.
Qed.

Lemma lookup_update_where p f m k :
  update_where p f m !! k = (λ v, if p v then f v else v) <$> m !! k.
Proof. apply lookup_fmap. Qed.

Lemma lookup_delete_where p m k v :
  delete_where p m !! k = Some v ↔ m !! k = Some v ∧ p v = false.
Proof. unfold delete_where. by rewrite map_lookup_filter_Some. Qed.

Lemma delete_where_id p m :
  (∀ k v, m !! k = Some v → p v = false) → delete_where p m = m.
Proof. intros Hp. apply map_filter_id. intros k v. apply Hp. Qed.

Lemma update_where_id p f m :
  (∀ k v, m !! k = Some v → p v = false) → update_where p f m = m.
Proof.
  intros Hp. apply map_eq. intros k. rewrite lookup_update_where.
  destruct (m !! k) eqn:E; [|done]. simpl. by rewrite (Hp k).
Qed.

Lemma count_where_0 p m : count_where p m = 0%Z ↔ ∀ k v, m !! k = Some v → p v = false.
Proof.
  unfold count_where. change 0%Z with (Z.of_nat 0).
  rewrite Nat2Z.inj_iff, map_size_empty_iff, map_empty.
  setoid_rewrite map_lookup_filter_None. split.
  - intros Hall k v Hk. destruct (Hall k) as [Hn|Hn]; [congruence|].
    destruct (p v) eqn:E; [|done]. by destruct (Hn v Hk).
  - intros Hall k. right. intros v Hk Hp. simpl in Hp. specialize (Hall k v Hk). congruence.
Qed.

Lemma count_where_nonneg p m : (0 ≤ count_where p m)%Z.
Proof. unfold count_where. lia. Qed.

(** Exactly one row when the condition implies the primary key. *)
Lemma count_where_key p m k :
  (∀ k' v', m !! k' = Some v' → p v' = true → k' = k) →
  count_where p m = match m !! k with
                    | Some v => if p v then 1%Z else 0%Z
                    | None => 0%Z
                    end.
Proof.
  intros Hu. destruct (m !! k) as [v|] eqn:Hk; [destruct (p v) eqn:Hp|].
  - unfold count_where. replace (filter _ m) with ({[k := v]} : gmap K V);
      [by rewrite map_size_singleton|].
    apply map_eq. intros i. destruct (decide (i = k)) as [->|Hne].
    + rewrite lookup_singleton_eq. symmetry. by apply map_lookup_filter_Some.
    + rewrite lookup_singleton_ne by done. symmetry. apply map_lookup_filter_None.
      right. intros v' Hv' Hp'. by apply Hne, (Hu i v').
  - apply count_where_0. intros k' v' Hk'. destruct (p v') eqn:E; [|done].
    pose proof (Hu _ _ Hk' E). subst. congruence.
  - apply count_where_0. intros k' v' Hk'. destruct (p v') eqn:E; [|done].
    pose proof (Hu _ _ Hk' E). subst. congruence.
Qed.

(** A condition only the row [k] satisfies updates that row. *)
Lemma update_where_key p f m k v :
  m !! k = Some v → p v = true →
  (∀ k' v', m !! k' = Some v' → p v' = true → k' = k) →
  update_where p f m = <[k := f v]> m.
Proof.
  intros Hk Hp Hu. apply map_eq. intros i. rewrite lookup_update_where.
  destruct (decide (i = k)) as [->|Hne].
  - rewrite lookup_insert_eq, Hk. simpl. by rewrite Hp.
  - rewrite lookup_insert_ne by done. destruct (m !! i) as [v'|] eqn:Hi; [|done]. simpl.
    destruct (p v') eqn:E; [|done]. by destruct Hne; eapply Hu.
Qed.

(** A [DELETE] that touched one row removed the row the same condition selects. *)
Lemma delete_where_one le p m v :
  count_where p m = 1%Z → first_where le p m = Some v →
  ∃ k, m !! k = Some v ∧ p v = true ∧ delete_where p m = delete k m.
Proof.
  unfold count_where. intros Hone (k & Hk & Hp)%first_where_Some. exists k. split_and!; try done.
  set (f := filter (λ kv : K * V, p kv.2 = true) m) in *.
  assert (∀ i x, m !! i = Some x → p x = true → f !! i = Some x) as Hf by (intros; by apply map_lookup_filter_Some).
  assert (delete k f = ∅) as Hempty.
  { apply map_size_empty_iff. rewrite map_size_delete_Some by (exists v; by apply Hf). lia. }
  assert (∀ i x, m !! i = Some x → p x = true → i = k) as Honly.
  { intros i x Hi Hx. destruct (decide (i = k)) as [|Hne]; [done|].
    assert (delete k f !! i = Some x) as E by (rewrite lookup_delete_ne by done; by apply Hf).
    by rewrite Hempty in E. }
  apply map_eq. intros i. destruct (decide (i = k)) as [->|Hne].
  - rewrite lookup_delete_eq. destruct (delete_where p m !! k) eqn:E; [|done].
    apply lookup_delete_where in E as [E Hpf]. congruence.
  - rewrite lookup_delete_ne by done. destruct (m !! i) as [x|] eqn:Hi.
    + apply lookup_delete_where. split; [done|]. destruct (p x) eqn:Hx; [|done].
      destruct Hne. by eapply Honly.
    + destruct (delete_where p m !! i) eqn:E; [|done]. apply lookup_delete_where in E as [E _]. congruence.
Qed.

Lemma count_where_delete p m k v :
  m !! k = Some v → count_where p (delete k m) = (count_where p m - if p v then 1 else 0)%Z.
Proof.
  intros Hk. unfold count_where. rewrite map_filter_delete. destruct (p v) eqn:Hp.
  - rewrite map_size_delete_Some by (exists v; by apply map_lookup_filter_Some).
    assert (size (filter (λ kv : K * V, p kv.2 = true) m) ≠ 0%nat); [|lia].
    intros H0%map_size_empty_iff.
    assert (filter (λ kv : K * V, p kv.2 = true) m !! k = Some v) as E by by apply map_lookup_filter_Some.
    by rewrite H0 in E.
  - rewrite map_size_delete_None; [lia|]. apply map_lookup_filter_None. right. intros x Hx. simpl. congruence.
Qed.
End Tables.
