(* ===== verification/Sha256.v ===== *)
(** * SHA-256 ([crypto/sha256])

    The digest the service stores in place of a refresh token, computed as
    FIPS 180-4 defines it, on 32-bit words kept as [N] below 2^32. *)

From stdpp Require Import prelude strings.
From Stdlib Require Import NArith Lia Ascii.
From S2P Require Import Prelude GoStrings.

Local Open Scope N_scope.

(** 32-bit words: addition wraps around. *)
Definition word_max : N := 2 ^ 32.
Definition add32 (a b : N) : N := (a + b) mod word_max.
Definition rotr (n x : N) : N := N.lor (N.shiftr x n) (N.shiftl x (32 - n) mod word_max).
Definition not32 (x : N) : N := N.lxor x (word_max - 1).

Definition Ch (x y z : N) : N := N.lxor (N.land x y) (N.land (not32 x) z).
Definition Maj (x y z : N) : N := N.lxor (N.lxor (N.land x y) (N.land x z)) (N.land y z).
Definition Sigma0 (x : N) : N := N.lxor (N.lxor (rotr 2 x) (rotr 13 x)) (rotr 22 x).
Definition Sigma1 (x : N) : N := N.lxor (N.lxor (rotr 6 x) (rotr 11 x)) (rotr 25 x).
Definition sigma0 (x : N) : N := N.lxor (N.lxor (rotr 7 x) (rotr 18 x)) (N.shiftr x 3).
Definition sigma1 (x : N) : N := N.lxor (N.lxor (rotr 17 x) (rotr 19 x)) (N.shiftr x 10).

(** The constants are the first 32 bits of the fractional parts of the cube roots
    of the first 64 primes and of the square roots of the first eight. *)
Fixpoint sieve (fuel : nat) (n : N) (found : list N) : list N :=
  match fuel with
  | O => rev found
  | S fuel' => sieve fuel' (n + 1) (if existsb (λ p, n mod p =? 0) found then found else n :: found)
  end.

Definition primes : list N := Eval vm_compute in sieve 310 2 [].

(** The integer cube root, one bit at a time. *)
Fixpoint cube_root (bits : nat) (r n : N) : N :=
  match bits with
  | O => r
  | S b =>
     let r' := r + 2 ^ N.of_nat b in
     cube_root b (if r' * r' * r' <=? n then r' else r) n
  end.

Definition K256 : list N := Eval vm_compute in
  map (λ p, cube_root 36 0 (p * 2 ^ 96) mod 2 ^ 32) (firstn 64 primes).

Definition H256 : list N := Eval vm_compute in
  map (λ p, N.sqrt (p * 2 ^ 64) mod 2 ^ 32) (firstn 8 primes).

(** The bytes of a string, and [k] big-endian bytes of a number. *)
Fixpoint bytes_of (s : string) : list N :=
  match s with EmptyString => [] | String a s' => byte_val a :: bytes_of s' end.

Fixpoint big_endian (k : nat) (n : N) : list N :=
  match k with
  | O => []
  | S k' => N.land (N.shiftr n (8 * N.of_nat k')) 255 :: big_endian k' n
  end.

(** The padded message: a one bit, zeros, the length in bits on eight bytes. *)
Definition padded (s : string) : list N :=
  let l := String.length s in
  let zeros := ((119 - (l mod 64)) mod 64)%nat in
  bytes_of s ++ 128 :: repeat 0 zeros ++ big_endian 8 (8 * N.of_nat l).

Fixpoint words (l : list N) : list N :=
  match l with
  | a :: b :: c :: d :: l' => (a * 2 ^ 24 + b * 2 ^ 16 + c * 2 ^ 8 + d) :: words l'
  | _ => []
  end.

(** The message schedule, newest word first. *)
Fixpoint schedule (n : nat) (w : list N) : list N :=
  match n with
  | O => w
  | S n' =>
     let at_ i := nth i w 0 in
     schedule n' (add32 (add32 (sigma1 (at_ 1%nat)) (at_ 6%nat))
                    (add32 (sigma0 (at_ 14%nat)) (at_ 15%nat)) :: w)
  end.

Definition round (h : list N) (kw : N * N) : list N :=
  match h with
  | [a; b; c; d; e; f; g; hh] =>
     let t1 := add32 (add32 hh (Sigma1 e)) (add32 (Ch e f g) (add32 kw.1 kw.2)) in
     let t2 := add32 (Sigma0 a) (Maj a b c) in
     [add32 t1 t2; a; b; c; add32 d t1; e; f; g]
  | _ => h
  end.

Definition compress (h : list N) (block : list N) : list N :=
  let w := rev (schedule 48 (rev (words block))) in
  zip_with add32 h (foldl round h (zip K256 w)).

Fixpoint blocks (n : nat) (l : list N) (h : list N) : list N :=
  match n with
  | O => h
  | S n' => blocks n' (drop 64 l) (compress h (take 64 l))
  end.

Definition string_of_bytes (l : list N) : string :=
  foldr (λ b s, String (ascii_of_N b) s) "" l.

(** [sha256.Sum256]. *)
Definition sha256_Sum256 (s : string) : string :=
  let m := padded s in
  string_of_bytes (blocks (length m / 64) m H256 ≫= big_endian 4).

(** The test vectors of the standard. *)
Example sha256_abc : hex_encode (sha256_Sum256 "abc")
  = "ba7816bf8f01cfea414140de5dae2223b00361a396177a9cb410ff61f20015ad".
Proof. vm_compute. reflexivity. Qed.

Example sha256_empty : hex_encode (sha256_Sum256 "")
  = "e3b0c44298fc1c149afbf4c8996fb92427ae41e4649b934ca495991b7852b855".
Proof. vm_compute. reflexivity. Qed.

Example sha256_two_blocks :
  hex_encode (sha256_Sum256 "abcdbcdecdefdefgefghfghighijhijkijkljklmklmnlmnomnopnopq")
  = "248d6a61d20638b8e5c026930c3e6039a33ce45964ff2167f6ecedd419db06c1".
Proof. vm_compute. reflexivity. Qed.

(** ** The digest is 32 bytes long *)

Lemma string_of_bytes_length l : String.length (string_of_bytes l) = length l.
Proof. induction l as [|b l IH]; simpl; [done|]. by rewrite IH. Qed.

Lemma round_length h kw : length (round h kw) = length h.
Proof. by do 9 (destruct h as [|? h]; [done|]). Qed.

Lemma foldl_round_length l h : length (foldl round h l) = length h.
Proof. revert h. induction l as [|kw l IH]; intros h; simpl; [done|]. by rewrite IH, round_length. Qed.

Lemma blocks_length n l h : length (blocks n l h) = length h.
Proof.
  revert l h. induction n as [|n IH]; intros l h; simpl; [done|]. rewrite IH. unfold compress.
  rewrite length_zip_with, foldl_round_length. lia.
Qed.

Lemma big_endian_length k n : length (big_endian k n) = k.
Proof. induction k as [|k IH]; simpl; [done|]. by rewrite IH. Qed.

Lemma words_bytes_length l : length (l ≫= big_endian 4) = (4 * length l)%nat.
Proof.
  induction l as [|n l IH]; [done|].
  change ((n :: l) ≫= big_endian 4) with (big_endian 4 n ++ (l ≫= big_endian 4)).
  rewrite length_app, big_endian_length, IH. simpl. lia.
Qed.

Lemma sha256_length s : String.length (sha256_Sum256 s) = 32%nat.
Proof.
  unfold sha256_Sum256. by rewrite string_of_bytes_length, words_bytes_length, blocks_length.
Qed.
