(* ===== verification/Store.v ===== *)
(** * The user database and the world the service runs in

    The row types of src/service/model/ and src/model/event.go, the database as a
    record of tables, and the monad in which the service's operations run.

    A table is a map from its primary key to its row, so primary keys are unique
    by construction; the append-only audit table is a list in rowid order. Times
    are nanoseconds since Go's zero time, so [IsZero] is equality with 0, and
    durations are nanoseconds.

    Between two SQL statements that are not in one transaction other requests may
    run, a statement may fail, and time passes. The [World] carries a schedule of
    [Event]s, one consumed per statement, that supplies all three: [ev_env] is
    what the rest of the process does to the database before the statement,
    [ev_fault] makes the statement fail without effect, [ev_tick] advances the
    clock. Inside a transaction SQLite's isolation hides the other requests, so
    only faults and ticks are delivered. *)

From stdpp Require Import prelude strings gmap.
From Stdlib Require Import ZArith Lia Ascii.
From S2P Require Import Prelude GoStrings Password FileSystem Tables.

Local Open Scope Z_scope.

(** ** Rows *)

Record UserDBModel := mkUser {
  u_Id : Z;
  u_Username : string;
  u_Password : string;
  u_Role : string;
  u_Email : string;
  u_Nickname : string;
  u_Avatar : string;
  u_Description : string;
  u_TokenVersion : Z;
  u_CreatedAt : Z;
  u_UpdatedAt : Z;
}.

Record RefreshSessionDBModel := mkSession {
  rs_ID : string;
  rs_UserID : Z;
  rs_TokenSHA256 : string;
  rs_IssuedAt : Z;
  rs_ExpiresAt : Z;
  rs_UsedAt : option Z;
  rs_ReplacedBy : string;
  rs_RevokedAt : option Z;
  rs_RevokeReason : string;
}.

Record LoginAttemptDBModel := mkAttempt {
  la_Key : string;
  la_Failures : Z;
  la_WindowStartedAt : Z;
  la_LockedUntil : option Z;
}.

Record RevokedAccessTokenDBModel := mkRevoked {
  ra_JTI : string;
  ra_UserID : Z;
  ra_ExpiresAt : Z;
}.

Record CredentialEventDBModel := mkCredentialEvent {
  ce_ID : Z;
  ce_OccurredAt : Z;
  ce_InstallationID : string;
  ce_ActorUserID : Z;
  ce_EventType : string;
  ce_Success : bool;
  ce_Source : string;
  ce_Detail : string;
}.

Record BootstrapStateDBModel := mkBootstrapState {
  bs_InstallationID : string;
  bs_Status : string;
  bs_AdminUserID : option Z;
  bs_InitializedAt : option Z;
  bs_CreatedAt : Z;
  bs_UpdatedAt : Z;
}.

Record EventModel := mkEvent {
  em_UUID : string;
  em_SourceID : string;
  em_Name : string;
  em_Properties : string;
  em_Timestamp : Z;
}.

#[export] Instance UserDBModel_eq_dec : EqDecision UserDBModel.
Proof. solve_decision. Defined.
#[export] Instance RefreshSessionDBModel_eq_dec : EqDecision RefreshSessionDBModel.
Proof. solve_decision. Defined.

(** Go's zero value of a user row, what a lookup that found nothing leaves in
    its destination. *)
Definition zeroUser : UserDBModel := mkUser 0 "" "" "" "" "" "" "" 0 0 0.

(** The event types of [o_credential_event.go]. *)
Definition CredentialEventLoginSuccess : string := "login_success".
Definition CredentialEventLoginFailure : string := "login_failure".
Definition CredentialEventLoginLockout : string := "login_lockout".
Definition CredentialEventLogout : string := "logout".
Definition CredentialEventLogoutAll : string := "logout_all".
Definition CredentialEventRefreshSuccess : string := "refresh_success".
Definition CredentialEventRefreshFailure : string := "refresh_failure".
Definition CredentialEventRefreshReuse : string := "refresh_reuse_detected".
Definition CredentialEventPasswordChanged : string := "password_changed".
Definition CredentialEventPasswordReset : string := "password_reset".
Definition CredentialEventBootstrapCreated : string := "bootstrap_admin_created".

(** ** The database *)

Record Database := mkDatabase {
  o_users : gmap Z UserDBModel;
  (** [None]: the table does not exist (a database that predates it); the inner
      option is the singleton row with id 1. *)
  o_bootstrap_state : option (option BootstrapStateDBModel);
  o_refresh_sessions : gmap string RefreshSessionDBModel;
  o_login_attempts : gmap string LoginAttemptDBModel;
  o_credential_events : list CredentialEventDBModel;
  o_revoked_access_tokens : gmap string RevokedAccessTokenDBModel;
  events : gmap string EventModel;
}.

Definition emptyDatabase : Database := mkDatabase ∅ (Some None) ∅ ∅ [] ∅ ∅.

Definition with_users (f : gmap Z UserDBModel → gmap Z UserDBModel) (db : Database) : Database :=
  mkDatabase (f (o_users db)) (o_bootstrap_state db) (o_refresh_sessions db)
    (o_login_attempts db) (o_credential_events db) (o_revoked_access_tokens db) (events db).
Definition with_bootstrap (v : option (option BootstrapStateDBModel)) (db : Database) : Database :=
  mkDatabase (o_users db) v (o_refresh_sessions db)
    (o_login_attempts db) (o_credential_events db) (o_revoked_access_tokens db) (events db).
Definition with_sessions (f : gmap string RefreshSessionDBModel → gmap string RefreshSessionDBModel)
    (db : Database) : Database :=
  mkDatabase (o_users db) (o_bootstrap_state db) (f (o_refresh_sessions db))
    (o_login_attempts db) (o_credential_events db) (o_revoked_access_tokens db) (events db).
Definition with_attempts (f : gmap string LoginAttemptDBModel → gmap string LoginAttemptDBModel)
    (db : Database) : Database :=
  mkDatabase (o_users db) (o_bootstrap_state db) (o_refresh_sessions db)
    (f (o_login_attempts db)) (o_credential_events db) (o_revoked_access_tokens db) (events db).
Definition with_audit (f : list CredentialEventDBModel → list CredentialEventDBModel)
    (db : Database) : Database :=
  mkDatabase (o_users db) (o_bootstrap_state db) (o_refresh_sessions db)
    (o_login_attempts db) (f (o_credential_events db)) (o_revoked_access_tokens db) (events db).
Definition with_revoked
    (f : gmap string RevokedAccessTokenDBModel → gmap string RevokedAccessTokenDBModel)
    (db : Database) : Database :=
  mkDatabase (o_users db) (o_bootstrap_state db) (o_refresh_sessions db)
    (o_login_attempts db) (o_credential_events db) (f (o_revoked_access_tokens db)) (events db).
Definition with_events (f : gmap string EventModel → gmap string EventModel)
    (db : Database) : Database :=
  mkDatabase (o_users db) (o_bootstrap_state db) (o_refresh_sessions db)
    (o_login_attempts db) (o_credential_events db) (o_revoked_access_tokens db) (f (events db)).

(** Rows are filed under their own primary key. *)
Record keys_agree (db : Database) : Prop := {
  users_keyed : ∀ k u, o_users db !! k = Some u → u_Id u = k;
  sessions_keyed : ∀ k s, o_refresh_sessions db !! k = Some s → rs_ID s = k;
  attempts_keyed : ∀ k a, o_login_attempts db !! k = Some a → la_Key a = k;
  revoked_keyed : ∀ k r, o_revoked_access_tokens db !! k = Some r → ra_JTI r = k;
}.

(** [TokenSHA256] carries a unique index. *)
Definition digests_unique (db : Database) : Prop :=
  ∀ k1 k2 s1 s2, o_refresh_sessions db !! k1 = Some s1 → o_refresh_sessions db !! k2 = Some s2 →
    rs_TokenSHA256 s1 = rs_TokenSHA256 s2 → k1 = k2.

(** ** The world and its monad *)

Record Event := mkSched {
  ev_env : Database → Database;
  ev_fs : FileSystem → FileSystem;
  ev_fault : option dberr;
  ev_tick : N;
}.

Definition quietEvent : Event := mkSched id id None 0.

Record World := mkWorld {
  w_db : Database;
  w_fs : FileSystem;
  w_clock : Z;
  w_sched : nat → Event;
  w_isolated : bool;
  w_entropy : string;
  w_derived : list DeriveCall;
}.

Definition M (A : Type) : Type := World → A * World.

Definition mret {A} (a : A) : M A := λ w, (a, w).
Definition mbind {A B} (m : M A) (k : A → M B) : M B := λ w, let (a, w') := m w in k a w'.

(** Early return of an error, the [if err != nil { return ..., err }] of Go. *)
Definition try {A B} (m : M (res A)) (k : A → M (res B)) : M (res B) :=
  mbind m (λ r, match r with Ok a => k a | Err e => mret (Err e) end).

(** The same with [fmt.Errorf(msg + ": %w", err)]. *)
Definition try_wrap {A B} (msg : string) (m : M (res A)) (k : A → M (res B)) : M (res B) :=
  mbind m (λ r, match r with Ok a => k a | Err e => mret (Err (Wrap msg e)) end).

Declare Scope m_scope.
Delimit Scope m_scope with m.
Notation "x <- m ;; k" := (mbind m (λ x, k))
  (at level 100, m at next level, right associativity) : m_scope.
Notation "m ;; k" := (mbind m (λ _, k)) (at level 100, right associativity) : m_scope.
Notation "'ok' x <- m ;; k" := (try m (λ x, k))
  (at level 100, x name, m at next level, right associativity) : m_scope.
Notation "'ok' x <- m 'or' msg ;; k" := (try_wrap msg m (λ x, k))
  (at level 100, x name, m at next level, msg at level 0, right associativity) : m_scope.

Local Open Scope m_scope.

(** Setters. *)
Definition w_set_db (db : Database) (w : World) : World :=
  mkWorld db (w_fs w) (w_clock w) (w_sched w) (w_isolated w) (w_entropy w) (w_derived w).
Definition w_set_fs (fs : FileSystem) (w : World) : World :=
  mkWorld (w_db w) fs (w_clock w) (w_sched w) (w_isolated w) (w_entropy w) (w_derived w).
Definition w_set_isolated (b : bool) (w : World) : World :=
  mkWorld (w_db w) (w_fs w) (w_clock w) (w_sched w) b (w_entropy w) (w_derived w).

(** Time passes and the other requests run, up to the next statement or system
    call; the event that was consumed is returned. *)
Definition advance (w : World) : Event * World :=
  let e := w_sched w 0%nat in
  (e, mkWorld (if w_isolated w then w_db w else ev_env e (w_db w)) (ev_fs e (w_fs w))
        (w_clock w + Z.of_N (ev_tick e)) (λ n, w_sched w (S n)) (w_isolated w)
        (w_entropy w) (w_derived w)).

(** One SQL statement: a function on the database that may itself report an
    error (no row, a violated constraint) without changing it. *)
Definition exec {A} (stmt : Database → res A * Database) : M (res A) := λ w,
  let (e, w1) := advance w in
  match ev_fault e with
  | Some d => (Err (StoreError d), w1)
  | None => let (r, db') := stmt (w_db w1) in (r, w_set_db db' w1)
  end.

(** A statement that only reads. *)
Definition query {A} (q : Database → res A) : M (res A) := exec (λ db, (q db, db)).

(** A statement that always succeeds and writes. *)
Definition execute (f : Database → Database) : M (res unit) := exec (λ db, (Ok tt, f db)).

(** [BEGIN]; the body; [COMMIT] when it returned nil, [ROLLBACK] otherwise: gorm's
    [db.Transaction] and [withImmediateTransaction]. [BEGIN] and [COMMIT] are
    statements that may fail; a failed [COMMIT] leaves the database as it was. *)
Definition transaction {A} (msg_begin msg_commit : option string) (body : M (res A)) : M (res A) := λ w,
  let wrap m e := match m with Some s => Wrap s e | None => e end in
  let (b, w0) := execute id w in
  match b with
  | Err e => (Err (wrap msg_begin e), w0)
  | Ok _ =>
     let (r, w1) := body (w_set_isolated true w0) in
     match r with
     | Err e => (Err e, w_set_isolated (w_isolated w0) (w_set_db (w_db w0) w1))
     | Ok a =>
        let (c, w2) := execute id w1 in
        match c with
        | Err e => (Err (wrap msg_commit e), w_set_isolated (w_isolated w0) (w_set_db (w_db w0) w2))
        | Ok _ => (Ok a, w_set_isolated (w_isolated w0) w2)
        end
     end
  end.

(** The same for a body that also assigns variables of the enclosing function:
    they keep their last value, [x0] when the body never ran, whether or not the
    transaction is rolled back. *)
Definition capturing {X A} (x0 : X) (body : M (X * res A)) : M (X * res A) := λ w,
  let (b, w0) := execute id w in
  match b with
  | Err e => ((x0, Err e), w0)
  | Ok _ =>
     let '((x, r), w1) := body (w_set_isolated true w0) in
     match r with
     | Err e => ((x, Err e), w_set_isolated (w_isolated w0) (w_set_db (w_db w0) w1))
     | Ok a =>
        let (c, w2) := execute id w1 in
        match c with
        | Err e => ((x, Err e), w_set_isolated (w_isolated w0) (w_set_db (w_db w0) w2))
        | Ok _ => ((x, Ok a), w_set_isolated (w_isolated w0) w2)
        end
     end
  end.

(** [time.Now()]. *)
Definition time_Now : M Z := λ w, (w_clock w, w).

(** [rand.Read] of [n] bytes; [None] when the source is exhausted. *)
Definition rand_Read (n : nat) : M (option string) := λ w,
  if (n <=? String.length (w_entropy w))%nat
  then (Some (take_bytes n (w_entropy w)),
        mkWorld (w_db w) (w_fs w) (w_clock w) (w_sched w) (w_isolated w)
          (drop_bytes n (w_entropy w)) (w_derived w))
  else (None, w).

(** Records the key derivations of the password package. *)
Definition spend {A} (r : A * list DeriveCall) : M A := λ w,
  (r.1, mkWorld (w_db w) (w_fs w) (w_clock w) (w_sched w) (w_isolated w)
          (w_entropy w) (w_derived w ++ r.2)).

(** ** Durations and times *)

Definition second : Z := 1000000000.
Definition minute : Z := 60 * second.
Definition hour : Z := 60 * minute.

(** [t.Sub(u)] saturates at the bounds of a 64-bit duration. *)
Definition time_Sub (t u : Z) : Z := Z.max (- 2 ^ 63) (Z.min (2 ^ 63 - 1) (t - u)).

Definition IsZero (t : Z) : bool := t =? 0.

(** ** Reasoning about runs *)

(** [post m w Q]: running [m] from [w] ends with a value and world satisfying
    [Q]. Runs always end: [M] is a total state monad. *)
Definition post {A} (m : M A) (w : World) (Q : A → World → Prop) : Prop :=
  Q (m w).1 (m w).2.

(** A rely condition: what the rest of the system may do to the database and to
    the file system between two steps of the run under study. *)
Record Rely := mkRely {
  r_db : relation Database;
  r_fs : relation FileSystem;
  r_fs_refl : Reflexive r_fs;
}.

(** Nothing else runs. *)
Definition solo : Rely := mkRely eq eq (λ fs, eq_refl).

Definition rely (R : Rely) (w : World) : Prop :=
  ∀ n, (∀ db, r_db R db (ev_env (w_sched w n) db)) ∧
       (∀ fs, r_fs R fs (ev_fs (w_sched w n) fs)).

(** No statement of the run fails. *)
Definition faultless (w : World) : Prop := ∀ n, ev_fault (w_sched w n) = None.

Abbreviation alone w := (rely solo w).

(** [after R w db0 w1]: [w1] comes from [w] by letting the schedule advance, and
    [db0] is the database the next statement meets. *)
Record after (R : Rely) (w : World) (db0 : Database) (w1 : World) : Prop := {
  after_rely : rely R w1;
  after_faultless : faultless w → faultless w1;
  after_isolated : w_isolated w1 = w_isolated w;
  after_clock : w_clock w ≤ w_clock w1;
  after_entropy : w_entropy w1 = w_entropy w;
  after_derived : w_derived w1 = w_derived w;
  after_fs : r_fs R (w_fs w) (w_fs w1);
  after_meets : if w_isolated w then db0 = w_db w else r_db R (w_db w) db0;
}.

Lemma post_ret {A} (a : A) w Q : Q a w → post (mret a) w Q.
Proof. done. Qed.

Lemma post_time_Now w (Q : Z → World → Prop) : Q (w_clock w) w → post time_Now w Q.
Proof. done. Qed.

Lemma post_bind {A B} (m : M A) (k : A → M B) w Q :
  post m w (λ a w', post (k a) w' Q) → post (mbind m k) w Q.
Proof. unfold post, mbind. by destruct (m w). Qed.

Lemma post_try {A B} (m : M (res A)) (k : A → M (res B)) w Q :
  post m w (λ r w', match r with Ok a => post (k a) w' Q | Err e => Q (Err e) w' end) →
  post (try m k) w Q.
Proof. unfold post, try, mbind. by destruct (m w) as [[]]. Qed.

Lemma post_try_wrap {A B} msg (m : M (res A)) (k : A → M (res B)) w Q :
  post m w (λ r w', match r with Ok a => post (k a) w' Q | Err e => Q (Err (Wrap msg e)) w' end) →
  post (try_wrap msg m k) w Q.
Proof. unfold post, try_wrap, mbind. by destruct (m w) as [[]]. Qed.

Lemma post_mono {A} (m : M A) w (Q Q' : A → World → Prop) :
  post m w Q → (∀ a w', Q a w' → Q' a w') → post m w Q'.
Proof. unfold post. auto. Qed.

Lemma post_and {A} (m : M A) w (Q Q' : A → World → Prop) :
  post m w Q → post m w Q' → post m w (λ a w', Q a w' ∧ Q' a w').
Proof. unfold post. by destruct (m w). Qed.

Lemma post_run {A} (m : M A) w Q : post m w Q → ∀ a w', m w = (a, w') → Q a w'.
Proof. unfold post. intros HQ a w' E. by rewrite E in HQ. Qed.

Lemma run_pair {A B} (p : A * B) a : fst p = a → p = (a, snd p).
Proof. by destruct p; simpl; intros ->. Qed.

Lemma advance_after R w :
  rely R w → after R w (w_db (advance w).2) (advance w).2.
Proof.
  intros HR. constructor; simpl;
    [intros n; apply HR|intros Hf n; apply Hf|done|lia|done|done|apply HR|].
  destruct (w_isolated w); [done|apply HR].
Qed.

Lemma post_exec {A} (stmt : Database → res A * Database) R w (Q : res A → World → Prop) :
  rely R w →
  (∀ w1 d, after R w (w_db w1) w1 → ¬ faultless w → Q (Err (StoreError d)) w1) →
  (∀ db0 w1, after R w db0 w1 → w_db w1 = (stmt db0).2 → Q (stmt db0).1 w1) →
  post (exec stmt) w Q.
Proof.
  intros HR Hf Hok. unfold post, exec. pose proof (advance_after R w HR) as Ha.
  destruct (advance w) as [e w1] eqn:E. simpl in Ha.
  assert (e = w_sched w 0%nat) as -> by (by injection E).
  destruct (ev_fault (w_sched w 0%nat)) as [d|] eqn:Ef; simpl.
  - apply Hf; [done|]. intros H. by rewrite H in Ef.
  - specialize (Hok (w_db w1) (w_set_db (stmt (w_db w1)).2 w1)).
    destruct (stmt (w_db w1)) as [r db'] eqn:Es. simpl in *. apply Hok; [|done].
    destruct Ha. by constructor.
Qed.

Lemma post_query {A} (q : Database → res A) R w (Q : res A → World → Prop) :
  rely R w →
  (∀ w1 d, after R w (w_db w1) w1 → ¬ faultless w → Q (Err (StoreError d)) w1) →
  (∀ w1, after R w (w_db w1) w1 → Q (q (w_db w1)) w1) →
  post (query q) w Q.
Proof.
  intros HR Hf Hok. eapply post_exec; [done|done|]. simpl. intros db0 w1 Ha <-. by apply Hok.
Qed.

Lemma post_execute (f : Database → Database) R w (Q : res unit → World → Prop) :
  rely R w →
  (∀ w1 d, after R w (w_db w1) w1 → ¬ faultless w → Q (Err (StoreError d)) w1) →
  (∀ db0 w1, after R w db0 w1 → w_db w1 = f db0 → Q (Ok tt) w1) →
  post (execute f) w Q.
Proof. intros HR Hf Hok. by eapply post_exec. Qed.

(** [w0] is where the body of a transaction opened in [w] starts. *)
Record begun (R : Rely) (w w0 : World) : Prop := {
  begun_rely : rely R w0;
  begun_faultless : faultless w → faultless w0;
  begun_isolated : w_isolated w0 = true;
  begun_clock : w_clock w ≤ w_clock w0;
  begun_entropy : w_entropy w0 = w_entropy w;
  begun_derived : w_derived w0 = w_derived w;
  begun_fs : r_fs R (w_fs w) (w_fs w0);
  begun_meets : if w_isolated w then w_db w0 = w_db w else r_db R (w_db w) (w_db w0);
}.

(** [w3] is where a transaction opened in [w] whose body ended in [w2] ends. *)
Record closed (R : Rely) (w w2 w3 : World) : Prop := {
  closed_rely : rely R w2 → rely R w3;
  closed_faultless : faultless w2 → faultless w3;
  closed_isolated : w_isolated w3 = w_isolated w;
  closed_clock : w_clock w2 ≤ w_clock w3;
  closed_entropy : w_entropy w3 = w_entropy w2;
  closed_derived : w_derived w3 = w_derived w2;
  closed_fs : rely R w2 → r_fs R (w_fs w2) (w_fs w3);
}.

(** An error that wraps no sentinel: what a failing statement reports. *)
Definition plain (e : goerr) : Prop := ∀ s, errors_Is e s = false.

Lemma plain_store d : plain (StoreError d).
Proof. done. Qed.

Lemma plain_wrap (m : option string) d : plain (match m with Some s => Wrap s (StoreError d) | None => StoreError d end).
Proof. by destruct m. Qed.

Lemma post_transaction {A} mb mc (body : M (res A)) R w (Q : res A → World → Prop) :
  rely R w →
  (∀ w1 e, plain e → after R w (w_db w1) w1 → ¬ faultless w → Q (Err e) w1) →
  (∀ w0, begun R w w0 → post body w0 (λ r w2, w_isolated w2 = true ∧
     match r with
     | Err e => ∀ w3, closed R w w2 w3 → w_db w3 = w_db w0 → Q (Err e) w3
     | Ok a => (∀ e w3, plain e → closed R w w2 w3 → ¬ faultless w2 → w_db w3 = w_db w0 → Q (Err e) w3) ∧
               (∀ w3, closed R w w2 w3 → w_db w3 = w_db w2 → Q (Ok a) w3)
     end)) →
  post (transaction mb mc body) w Q.
Proof.
  intros HR Hb Hbody. unfold post, transaction.
  pose proof (post_execute id R w (λ r w1, match r with
    | Err e => (∃ d, e = StoreError d) ∧ after R w (w_db w1) w1 ∧ ¬ faultless w
    | Ok _ => after R w (w_db w1) w1 end) HR) as Hbegin.
  unfold post in Hbegin. destruct (execute id w) as [b w0].
  assert (match b with Err e => (∃ d, e = StoreError d) ∧ after R w (w_db w0) w0 ∧ ¬ faultless w
                     | Ok _ => after R w (w_db w0) w0 end) as H0.
  { apply Hbegin; simpl; [by eauto|]. by intros db0 w1 Ha ->. }
  clear Hbegin. destruct b as [[]|e]; [|destruct H0 as ([d ->] & ? & ?); apply Hb; [by apply (plain_wrap None) || apply plain_wrap|done..]].
  specialize (Hbody (w_set_isolated true w0)). unfold post in Hbody.
  destruct (body (w_set_isolated true w0)) as [r w1].
  destruct Hbody as [Hi Hr]. { by destruct H0. } simpl in Hi, Hr.
  destruct H0. destruct r as [a|e]; simpl.
  - destruct Hr as [Hfail Hcommit].
    unfold execute, exec, advance. destruct (ev_fault (w_sched w1 0%nat)) as [d|] eqn:Ef; simpl.
    + apply Hfail; [by apply (plain_wrap None) || apply plain_wrap| |intros H; by rewrite H in Ef|done].
      constructor; simpl; try done; [intros H n; apply H|intros H n; apply H|lia|intros H; apply H].
    + apply Hcommit; [|by rewrite Hi].
      constructor; simpl; try done; [intros H n; apply H|intros H n; apply H|lia|intros H; apply H].
  - apply Hr; [|done]. constructor; simpl; try done. intros _. apply r_fs_refl.
Qed.

(** The same rule for [capturing]; the captured value is the body's, or the
    initial one when [BEGIN] failed. *)
Lemma post_capturing {X A} (x0 : X) (body : M (X * res A)) R w (Q : X * res A → World → Prop) :
  rely R w →
  (∀ w1 e, plain e → after R w (w_db w1) w1 → ¬ faultless w → Q (x0, Err e) w1) →
  (∀ w0, begun R w w0 → post body w0 (λ xr w2, w_isolated w2 = true ∧
     match xr with
     | (x, Err e) => ∀ w3, closed R w w2 w3 → w_db w3 = w_db w0 → Q (x, Err e) w3
     | (x, Ok a) =>
        (∀ e w3, plain e → closed R w w2 w3 → ¬ faultless w2 → w_db w3 = w_db w0 → Q (x, Err e) w3) ∧
        (∀ w3, closed R w w2 w3 → w_db w3 = w_db w2 → Q (x, Ok a) w3)
     end)) →
  post (capturing x0 body) w Q.
Proof.
  intros HR Hb Hbody.
  unfold post, capturing.
  pose proof (post_execute id R w (λ r w1, match r with
    | Err e => (∃ d, e = StoreError d) ∧ after R w (w_db w1) w1 ∧ ¬ faultless w
    | Ok _ => begun R w (w_set_isolated true w1) ∧ w_isolated w1 = w_isolated w end) HR) as Hbegin.
  unfold post in Hbegin. destruct (execute id w) as [b w0].
  assert (match b with
    | Err e => (∃ d, e = StoreError d) ∧ after R w (w_db w0) w0 ∧ ¬ faultless w
    | Ok _ => begun R w (w_set_isolated true w0) ∧ w_isolated w0 = w_isolated w end) as H0.
  { apply Hbegin; simpl; [by eauto|]. intros db0 w1 [] E. split; [|done]. constructor; simpl; try done. by rewrite E. }
  clear Hbegin. destruct b as [[]|e]; [|destruct H0 as ([d ->] & ? & ?); apply Hb; [by apply (plain_wrap None) || apply plain_wrap|done..]].
  destruct H0 as [H0 Hiso].
  specialize (Hbody (w_set_isolated true w0) H0). unfold post in Hbody.
  destruct (body (w_set_isolated true w0)) as [[x r] w1].
  destruct Hbody as [Hi Hr]. simpl in Hi, Hr. destruct r as [a|e]; simpl.
  - destruct Hr as [Hfail Hcommit].
    unfold execute, exec, advance. destruct (ev_fault (w_sched w1 0%nat)) as [d|] eqn:Ef; simpl.
    + apply Hfail; [by apply (plain_wrap None) || apply plain_wrap| |intros H; by rewrite H in Ef|done].
      constructor; simpl; try done; [intros H n; apply H|intros H n; apply H|lia|intros H; apply H].
    + apply Hcommit; [|by rewrite Hi].
      constructor; simpl; try done; [intros H n; apply H|intros H n; apply H|lia|intros H; apply H].
  - apply Hr; [|done]. constructor; simpl; try done. intros _. apply r_fs_refl.
Qed.

(** ** Runs of a single request *)

(** [w1] follows [w] with nothing else running: only the clock and the schedule
    moved, besides the database. *)
Record calm (w w1 : World) : Prop := {
  calm_alone : alone w1;
  calm_faultless : faultless w → faultless w1;
  calm_isolated : w_isolated w1 = w_isolated w;
  calm_clock : w_clock w ≤ w_clock w1;
  calm_entropy : w_entropy w1 = w_entropy w;
  calm_derived : w_derived w1 = w_derived w;
  calm_fs : w_fs w1 = w_fs w;
}.

Lemma calm_refl w : alone w → calm w w.
Proof. by constructor. Qed.

Lemma calm_trans w1 w2 w3 : calm w1 w2 → calm w2 w3 → calm w1 w3.
Proof. intros [] []. constructor; [done|auto|congruence|lia|congruence..]. Qed.

(** As [calm], for runs that also touch files and draw random bytes. *)
Record runs (w w1 : World) : Prop := {
  runs_alone : alone w1;
  runs_faultless : faultless w → faultless w1;
  runs_isolated : w_isolated w1 = w_isolated w;
  runs_clock : w_clock w ≤ w_clock w1;
  runs_derived : w_derived w1 = w_derived w;
}.

Lemma runs_trans w1 w2 w3 : runs w1 w2 → runs w2 w3 → runs w1 w3.
Proof. intros [] []. constructor; [done|auto|congruence|lia|congruence..]. Qed.

Lemma calm_runs w w1 : calm w w1 → runs w w1.
Proof. intros []. by constructor. Qed.

Lemma runs_refl w : alone w → runs w w.
Proof. intros. by apply calm_runs, calm_refl. Qed.

Lemma after_solo w db0 w1 : after solo w db0 w1 → db0 = w_db w ∧ calm w w1.
Proof.
  intros []. split; [destruct (w_isolated w); simpl in *; congruence|].
  by constructor.
Qed.

Lemma exec_solo {A} (stmt : Database → res A * Database) w (Q : res A → World → Prop) :
  alone w →
  (∀ w1 d, calm w w1 → w_db w1 = w_db w → ¬ faultless w → Q (Err (StoreError d)) w1) →
  (∀ w1, calm w w1 → w_db w1 = (stmt (w_db w)).2 → Q (stmt (w_db w)).1 w1) →
  post (exec stmt) w Q.
Proof.
  intros HR Hf Hok. eapply post_exec; [done| |].
  - intros w1 d [Hd Hc]%after_solo Hn. by apply Hf.
  - intros db0 w1 [-> Hc]%after_solo E. by apply Hok.
Qed.

Lemma query_solo {A} (q : Database → res A) w (Q : res A → World → Prop) :
  alone w →
  (∀ w1 d, calm w w1 → w_db w1 = w_db w → ¬ faultless w → Q (Err (StoreError d)) w1) →
  (∀ w1, calm w w1 → w_db w1 = w_db w → Q (q (w_db w)) w1) →
  post (query q) w Q.
Proof. intros HR Hf Hok. apply exec_solo; [done..|]. exact Hok. Qed.

Lemma execute_solo (f : Database → Database) w (Q : res unit → World → Prop) :
  alone w →
  (∀ w1 d, calm w w1 → w_db w1 = w_db w → ¬ faultless w → Q (Err (StoreError d)) w1) →
  (∀ w1, calm w w1 → w_db w1 = f (w_db w) → Q (Ok tt) w1) →
  post (execute f) w Q.
Proof. intros HR Hf Hok. apply exec_solo; [done..|]. exact Hok. Qed.

Lemma rand_Read_solo n w (Q : option string → World → Prop) :
  alone w →
  ((String.length (w_entropy w) < n)%nat → Q None w) →
  (∀ s w1, runs w w1 → w_db w1 = w_db w → w_fs w1 = w_fs w → String.length s = n →
     w_entropy w = s +:+ w_entropy w1 → Q (Some s) w1) →
  post (rand_Read n) w Q.
Proof.
  intros Hw Hno Hyes. unfold post, rand_Read.
  destruct (Nat.leb_spec n (String.length (w_entropy w))); simpl; [|auto].
  apply Hyes; try done; [by apply take_bytes_length|by rewrite take_drop_bytes].
Qed.

(** A transaction on its own: its body sees the database as it stands; an error
    of [BEGIN], of the body or of [COMMIT] leaves the database as it was. *)
Lemma transaction_solo {A} mb mc (body : M (res A)) w (Q : res A → World → Prop) :
  alone w →
  (∀ w0, alone w0 → w_isolated w0 = true → w_db w0 = w_db w → w_fs w0 = w_fs w →
     (faultless w → faultless w0) → w_clock w ≤ w_clock w0 →
     w_entropy w0 = w_entropy w → w_derived w0 = w_derived w →
     post body w0 (λ r w2, calm w0 w2 ∧
       match r with
       | Err e => ∀ w3, calm w w3 → w_db w3 = w_db w → Q (Err e) w3
       | Ok a => ∀ w3, calm w w3 → w_db w3 = w_db w2 → Q (Ok a) w3
       end)) →
  (∀ e w1, plain e → calm w w1 → w_db w1 = w_db w → ¬ faultless w → Q (Err e) w1) →
  post (transaction mb mc body) w Q.
Proof.
  intros HR Hbody Hf. eapply (post_transaction _ _ _ solo); [done| |].
  { intros w1 e Hp [Hd Hc]%after_solo Hn. by apply Hf. }
  intros w0 []. eapply post_mono.
  - apply Hbody; try done. by destruct (w_isolated w).
  - intros r w2 [Hc Hr].
    assert (w_db w0 = w_db w) as E0 by (by destruct (w_isolated w)).
    assert (∀ w3, closed solo w w2 w3 → calm w w3) as Hclose.
    { intros w3 []. destruct Hc. simpl in *. constructor; auto; try lia; try congruence.
      rewrite <- closed_fs0 by done. congruence. }
    split; [by rewrite (calm_isolated _ _ Hc)|].
    destruct r as [a|e]; simpl in *.
    + split; [|by auto]. intros e w3 Hp Hw3 Hn E. apply Hf; [done|auto|congruence|].
      intros Hnf. by apply Hn, (calm_faultless _ _ Hc), begun_faultless0.
    + intros w3 Hw3 E. apply Hr; [auto|congruence].
Qed.

Lemma capturing_solo {X A} (x0 : X) (body : M (X * res A)) w (Q : X * res A → World → Prop) :
  alone w →
  (∀ w0, alone w0 → w_db w0 = w_db w → w_clock w ≤ w_clock w0 → (faultless w → faultless w0) →
     post body w0 (λ xr w2, calm w0 w2 ∧
       match xr with
       | (x, Err e) => ∀ w3, calm w w3 → w_db w3 = w_db w → Q (x, Err e) w3
       | (x, Ok a) =>
          (∀ e w3, plain e → calm w w3 → w_db w3 = w_db w → ¬ faultless w → Q (x, Err e) w3) ∧
          (∀ w3, calm w w3 → w_db w3 = w_db w2 → Q (x, Ok a) w3)
       end)) →
  (∀ e w1, plain e → calm w w1 → w_db w1 = w_db w → ¬ faultless w → Q (x0, Err e) w1) →
  post (capturing x0 body) w Q.
Proof.
  intros HR Hbody Hf. eapply (post_capturing _ _ solo); [done| |].
  { intros w1 e Hp [Hd Hc]%after_solo Hn. by apply Hf. }
  intros w0 []. assert (w_db w0 = w_db w) as E0 by (by destruct (w_isolated w)).
  eapply post_mono; [by apply Hbody|]. intros [x r] w2 [Hc Hr].
  assert (∀ w3, closed solo w w2 w3 → calm w w3) as Hclose.
  { intros w3 []. destruct Hc. simpl in *. constructor; auto; try lia; try congruence.
    rewrite <- closed_fs0 by done. congruence. }
  split; [by rewrite (calm_isolated _ _ Hc)|]. destruct r as [a|e]; simpl in *.
  - destruct Hr as [Herr Hok]. split; [|by auto].
    intros e w3 Hp Hw3 Hn E. apply Herr; [done|auto|congruence|].
    intros Hnf. by apply Hn, (calm_faultless _ _ Hc), begun_faultless0.
  - intros w3 Hw3 E. apply Hr; [auto|congruence].
Qed.

(** The same for a body that also touches files: a rollback undoes the database
    changes only. *)
Lemma transaction_runs {A} mb mc (body : M (res A)) w (Q : res A → World → Prop) :
  alone w →
  (∀ w0, alone w0 → w_db w0 = w_db w → w_fs w0 = w_fs w →
     post body w0 (λ r w2, runs w0 w2 ∧
       (∀ e w3, (is_Ok r = true → ¬ faultless w) → runs w w3 → w_fs w3 = w_fs w2 →
          w_db w3 = w_db w → Q (Err e) w3) ∧
       (∀ a w3, r = Ok a → runs w w3 → w_fs w3 = w_fs w2 → w_db w3 = w_db w2 → Q (Ok a) w3))) →
  (∀ e w1, plain e → calm w w1 → w_db w1 = w_db w → ¬ faultless w → Q (Err e) w1) →
  post (transaction mb mc body) w Q.
Proof.
  intros HR Hbody Hf. eapply (post_transaction _ _ _ solo); [done| |].
  { intros w1 e Hp [Hd Hc]%after_solo Hn. by apply Hf. }
  intros w0 []. assert (w_db w0 = w_db w) as E0 by (by destruct (w_isolated w)).
  eapply post_mono; [by apply Hbody|].
  intros r w2 (Hc & Herr & Hok).
  assert (∀ w3, closed solo w w2 w3 → runs w w3 ∧ w_fs w3 = w_fs w2) as Hclose.
  { intros w3 []. destruct Hc. simpl in *. split; [|symmetry; auto].
    constructor; auto; try lia; congruence. }
  split; [by rewrite (runs_isolated _ _ Hc)|]. destruct r as [a|e]; simpl in *.
  - split.
    + intros e w3 _ [? ?]%Hclose Hn E. apply Herr; [|done..|congruence]. intros _ Hnf.
      by apply Hn, (runs_faultless _ _ Hc), begun_faultless0.
    + intros w3 [? ?]%Hclose E. by apply Hok.
  - intros w3 [? ?]%Hclose E. apply Herr; [done..|congruence].
Qed.

#[export] Hint Resolve calm_refl calm_alone runs_alone runs_refl : store.
#[export] Hint Extern 2 (runs _ _) => (eapply runs_trans; eassumption) : store.
#[export] Hint Extern 2 (runs _ _) =>
  (eapply runs_trans; [eassumption|apply calm_runs; eassumption]) : store.
#[export] Hint Extern 2 (runs _ _) =>
  (eapply runs_trans; [apply calm_runs; eassumption|eassumption]) : store.
#[export] Hint Extern 3 (runs _ _) => (apply calm_runs; eauto 3 with store) : store.
#[export] Hint Extern 3 (_ = _) => congruence : store.
#[export] Hint Extern 2 (calm _ _) => (eapply calm_trans; eassumption) : store.

(** Symbolic execution of a run on its own. Statements leave one goal for the
    fault and one for the effect; the caller handles what remains. *)
Ltac m_step :=
  lazymatch goal with
  | |- post (mbind _ _) _ _ => apply post_bind
  | |- post (try _ _) _ _ => apply post_try
  | |- post (try_wrap _ _ _) _ _ => apply post_try_wrap
  | |- post (mret _) _ _ => apply post_ret
  | |- post time_Now _ _ => apply post_time_Now
  | |- post (rand_Read _) _ _ =>
     apply rand_Read_solo; [eauto with store|intros ?|intros ? ? ? ? ? ? ?]
  | |- post (query _) _ _ =>
     apply query_solo; [eauto with store|intros ? ? ? ? ?|intros ? ? ?]
  | |- post (execute _) _ _ =>
     apply execute_solo; [eauto with store|intros ? ? ? ? ?|intros ? ? ?]
  | |- post (exec _) _ _ =>
     apply exec_solo; [eauto with store|intros ? ? ? ? ?|intros ? ? ?]
  | |- post (if ?b then _ else _) _ _ => destruct b eqn:?
  | |- post (match ?x with _ => _ end) _ _ => destruct x eqn:?
  | |- match ?x with _ => _ end => destruct x eqn:?
  end.

(** Uses the specification of a called operation. *)
Tactic Notation "m_use" uconstr(lem) "as" simple_intropattern(a) simple_intropattern(w)
    simple_intropattern(H) :=
  eapply post_mono; [apply lem; eauto with store|cbv beta; intros a w H].

(** Makes the equations of the calm steps in the context available. *)
Ltac calm_eqs :=
  repeat match goal with
  | H : calm ?w ?w' |- _ =>
     lazymatch goal with
     | _ : w_fs w' = w_fs w |- _ => fail
     | _ => pose proof (calm_fs _ _ H)
     end
  end.
Ltac store_solve := calm_eqs; split_and?; eauto with store; try congruence.

(** ** Calls that touch neither files nor tables *)

Definition quiet {A} (m : M A) : Prop := ∀ w, alone w →
  post m w (λ _ w', runs w w' ∧ w_fs w' = w_fs w ∧ w_db w' = w_db w).

Lemma quiet_ret {A} (a : A) : quiet (mret a).
Proof. intros w Hw. m_step. split_and!; eauto with store. Qed.

Lemma quiet_bind {A B} (m : M A) (k : A → M B) : quiet m → (∀ a, quiet (k a)) → quiet (mbind m k).
Proof.
  intros Hm Hk w Hw. m_step. eapply post_mono; [by apply Hm|]. cbv beta. intros a w1 (Hr & Hf & Hd).
  eapply post_mono; [apply Hk; by eapply runs_alone|]. cbv beta. intros b w2 (Hr2 & Hf2 & Hd2).
  split_and!; [by eapply runs_trans|congruence..].
Qed.

Lemma quiet_calm {A} (m : M A) : (∀ w, alone w → post m w (λ _ w', calm w w' ∧ w_db w' = w_db w)) → quiet m.
Proof.
  intros H w Hw. eapply post_mono; [by apply H|]. cbv beta. intros r w1 [Hc Hd].
  split_and!; [by apply calm_runs|apply Hc|done].
Qed.

Lemma quiet_try {A B} (m : M (res A)) (k : A → M (res B)) : quiet m → (∀ a, quiet (k a)) → quiet (try m k).
Proof. intros Hm Hk. apply quiet_bind; [done|]. intros [a|e]; [done|apply quiet_ret]. Qed.

Lemma quiet_try_wrap {A B} msg (m : M (res A)) (k : A → M (res B)) :
  quiet m → (∀ a, quiet (k a)) → quiet (try_wrap msg m k).
Proof. intros Hm Hk. apply quiet_bind; [done|]. intros [a|e]; [done|apply quiet_ret]. Qed.

Create HintDb quiet.

Ltac quiet_walk :=
  intros; cbv zeta;
  lazymatch goal with
  | |- quiet (mret _) => apply quiet_ret
  | |- quiet (mbind _ _) => apply quiet_bind; quiet_walk
  | |- quiet (try _ _) => apply quiet_try; quiet_walk
  | |- quiet (try_wrap _ _ _) => apply quiet_try_wrap; quiet_walk
  | |- quiet (match ?x with _ => _ end) => destruct x; quiet_walk
  | |- quiet _ => solve [auto with quiet]
  end.
