(* ===== verification/Guarantee.v ===== *)
(** * Guarantees of operations under interference

    [within R G m]: whatever the rest of the system does to the database between
    the statements of [m] as long as it respects the rely condition [R], and
    whichever statements fail, the database ends in a state related by [G] to the
    one it started in. [G] is a preorder that includes the interference: an
    invariant ([I db → I db']) or a monotonicity property. The rules follow the
    shape of programs, and [within_solve] applies them, leaving the obligations of
    the single statements. *)

From stdpp Require Import prelude strings gmap.
From Stdlib Require Import ZArith Lia.
From S2P Require Import Prelude Tables FileSystem Store.

Local Open Scope m_scope.

(** [G] is a preorder that the interference of [R] respects. *)
Class Guarantee (R : Rely) (G : relation Database) : Prop := {
  guarantee_preorder :: PreOrder G;
  guarantee_env db db' : r_db R db db' → G db db';
}.

(** The world moved within [G]. *)
Record moved (R : Rely) (G : relation Database) (w w' : World) : Prop := {
  moved_rely : rely R w';
  moved_faultless : faultless w → faultless w';
  moved_isolated : w_isolated w' = w_isolated w;
  moved_clock : (w_clock w <= w_clock w')%Z;
  moved_db : G (w_db w) (w_db w');
}.

Definition within {A} (R : Rely) (G : relation Database) (m : M A) : Prop :=
  ∀ w, rely R w → post m w (λ _ w', moved R G w w').

Section Within.
Context (R : Rely) (G : relation Database) `{!Guarantee R G}.

Lemma moved_refl w : rely R w → moved R G w w.
Proof. intros. constructor; [done|done|done|lia|done]. Qed.

Lemma moved_trans w1 w2 w3 : moved R G w1 w2 → moved R G w2 w3 → moved R G w1 w3.
Proof. intros [] []. constructor; [done|auto|congruence|lia|by etrans]. Qed.

Lemma after_moved w db0 w1 : after R w db0 w1 → G db0 (w_db w1) → moved R G w w1.
Proof.
  intros [] HG. constructor; [done|done|done|done|].
  destruct (w_isolated w); [by subst|]. etrans; [by apply guarantee_env|done].
Qed.

Lemma within_ret {A} (a : A) : within R G (mret a).
Proof. intros w Hw. by apply moved_refl. Qed.

Lemma within_time_Now : within R G time_Now.
Proof. intros w Hw. by apply moved_refl. Qed.

Lemma within_bind {A B} (m : M A) (k : A → M B) :
  within R G m → (∀ a, within R G (k a)) → within R G (mbind m k).
Proof.
  intros Hm Hk w Hw. apply post_bind. eapply post_mono; [by apply Hm|].
  intros a w1 H1. eapply post_mono; [apply Hk, H1|].
  intros b w2 H2. exact (moved_trans _ _ _ H1 H2).
Qed.

Lemma within_try {A B} (m : M (res A)) (k : A → M (res B)) :
  within R G m → (∀ a, within R G (k a)) → within R G (try m k).
Proof. intros Hm Hk. apply within_bind; [done|]. intros [a|e]; [apply Hk|apply within_ret]. Qed.

Lemma within_try_wrap {A B} msg (m : M (res A)) (k : A → M (res B)) :
  within R G m → (∀ a, within R G (k a)) → within R G (try_wrap msg m k).
Proof. intros Hm Hk. apply within_bind; [done|]. intros [a|e]; [apply Hk|apply within_ret]. Qed.

Lemma within_exec {A} (stmt : Database → res A * Database) :
  (∀ db, G db (stmt db).2) → within R G (exec stmt).
Proof.
  intros Hs w Hw. eapply post_exec; [done| |].
  - intros w1 d Ha _. by eapply after_moved.
  - intros db0 w1 Ha E. eapply after_moved; [done|]. by rewrite E.
Qed.

Lemma within_query {A} (q : Database → res A) : within R G (query q).
Proof. apply within_exec. intros db. done. Qed.

Lemma within_execute (f : Database → Database) : (∀ db, G db (f db)) → within R G (execute f).
Proof. intros Hf. by apply within_exec. Qed.

Lemma begun_moved w w0 : begun R w w0 → G (w_db w) (w_db w0).
Proof.
  intros []. destruct (w_isolated w); [by rewrite begun_meets|by apply guarantee_env].
Qed.

Lemma within_transaction {A} mb mc (body : M (res A)) :
  within R G body → within R G (transaction mb mc body).
Proof.
  intros Hb w Hw. eapply post_transaction; [done| |].
  - intros w1 e _ Ha _. by eapply after_moved.
  - intros w0 H0. pose proof (begun_moved _ _ H0) as HG. destruct H0.
    eapply post_mono; [by apply Hb|]. intros r w2 [].
    split; [congruence|].
    assert (∀ w3, closed R w w2 w3 → w_db w3 = w_db w0 ∨ w_db w3 = w_db w2 → moved R G w w3) as Hend.
    { intros w3 [] Hdb. constructor; [by auto|by auto|done|lia|].
      destruct Hdb as [->| ->]; [done|by etrans]. }
    destruct r; [split|]; eauto.
Qed.

Lemma within_capturing {X A} (x0 : X) (body : M (X * res A)) :
  within R G body → within R G (capturing x0 body).
Proof.
  intros Hb w Hw. eapply post_capturing; [done| |].
  - intros w1 e _ Ha _. by eapply after_moved.
  - intros w0 H0. pose proof (begun_moved _ _ H0) as HG. destruct H0.
    eapply post_mono; [by apply Hb|]. intros [x r] w2 [].
    split; [congruence|].
    assert (∀ w3, closed R w w2 w3 → w_db w3 = w_db w0 ∨ w_db w3 = w_db w2 → moved R G w w3) as Hend.
    { intros w3 [] Hdb. constructor; [by auto|by auto|done|lia|].
      destruct Hdb as [->| ->]; [done|by etrans]. }
    destruct r; [split|]; eauto.
Qed.

Lemma within_rand_Read n : within R G (rand_Read n).
Proof.
  intros w Hw. unfold post, rand_Read. destruct (_ <=? _)%nat; simpl; [|by apply moved_refl].
  constructor; simpl; [done|done|done|lia|done].
Qed.

Lemma within_spend {A} (r : A * list Password.DeriveCall) : within R G (spend r).
Proof. intros w Hw. unfold post, spend. simpl. constructor; simpl; [done|done|done|lia|done]. Qed.

(** ** Transactions whose effect must be judged as a whole *)

(** Inside a transaction the other requests are not seen. *)
Record inside (w w1 : World) : Prop := {
  inside_rely : rely R w1;
  inside_faultless : faultless w → faultless w1;
  inside_isolated : w_isolated w1 = true;
  inside_clock : (w_clock w <= w_clock w1)%Z;
}.

Lemma inside_trans w1 w2 w3 : inside w1 w2 → inside w2 w3 → inside w1 w3.
Proof. intros [] []. constructor; [done|auto|done|lia]. Qed.

Lemma exec_inside {A} (stmt : Database → res A * Database) w (Q : res A → World → Prop) :
  rely R w → w_isolated w = true →
  (∀ w1 d, inside w w1 → Q (Err (StoreError d)) w1) →
  (∀ w1, inside w w1 → w_db w1 = (stmt (w_db w)).2 → Q (stmt (w_db w)).1 w1) →
  post (exec stmt) w Q.
Proof.
  intros Hw Hi Hf Hok. eapply post_exec; [done| |].
  - intros w1 d [] _. apply Hf. constructor; [done|done|congruence|done].
  - intros db0 w1 [] E. rewrite Hi in *. subst db0. apply Hok; [|done]. by constructor.
Qed.

Lemma query_inside {A} (q : Database → res A) w (Q : res A → World → Prop) :
  rely R w → w_isolated w = true →
  (∀ w1 d, inside w w1 → Q (Err (StoreError d)) w1) →
  (∀ w1, inside w w1 → w_db w1 = w_db w → Q (q (w_db w)) w1) →
  post (query q) w Q.
Proof. intros Hw Hi Hf Hok. by apply exec_inside. Qed.

Lemma within_atomic {A} mb mc (body : M (res A)) :
  (∀ w, rely R w → w_isolated w = true →
     post body w (λ r w', inside w w' ∧ ∀ a, r = Ok a → G (w_db w) (w_db w'))) →
  within R G (transaction mb mc body).
Proof.
  intros Hb w Hw. eapply post_transaction; [done| |].
  - intros w1 e _ Ha _. by eapply after_moved.
  - intros w0 H0. pose proof (begun_moved _ _ H0) as HG. destruct H0.
    eapply post_mono; [by apply Hb|]. intros r w2 [[] Hr]. split; [done|].
    assert (∀ w3, closed R w w2 w3 → G (w_db w) (w_db w3) → moved R G w w3) as Hend.
    { intros w3 [] Hdb. constructor; [by auto|by auto|done|lia|done]. }
    destruct r as [a|e]; [split|].
    + intros e w3 _ Hc _ E. apply Hend; [done|]. by rewrite E.
    + intros w3 Hc E. apply Hend; [done|]. rewrite E. etrans; [done|by eapply Hr].
    + intros w3 Hc E. apply Hend; [done|]. by rewrite E.
Qed.
End Within.

#[export] Hint Resolve within_ret within_time_Now within_query within_rand_Read within_spend : within.

(** Walks through a program; calls of other operations are left to the hints of
    [within]. *)
Ltac within_step :=
  lazymatch goal with
  | |- within ?R ?G (mret _) => apply (within_ret R G)
  | |- within ?R ?G time_Now => apply (within_time_Now R G)
  | |- within ?R ?G (mbind _ _) => apply (within_bind R G); [|intros ?]
  | |- within ?R ?G (try _ _) => apply (within_try R G); [|intros ?]
  | |- within ?R ?G (try_wrap _ _ _) => apply (within_try_wrap R G); [|intros ?]
  | |- within ?R ?G (query _) => apply (within_query R G)
  | |- within ?R ?G (rand_Read _) => apply (within_rand_Read R G)
  | |- within ?R ?G (execute _) => apply (within_execute R G)
  | |- within ?R ?G (exec _) => apply (within_exec R G)
  | |- within ?R ?G (transaction _ _ _) => apply (within_transaction R G)
  | |- within ?R ?G (capturing _ _) => apply (within_capturing R G)
  | |- within ?R ?G (spend _) => apply (within_spend R G)
  | |- within _ _ (if ?b then _ else _) => destruct b eqn:?
  | |- within _ _ (match ?x with _ => _ end) => destruct x eqn:?
  | |- within _ _ _ => solve [eauto with within]
  end.
Ltac within_solve := repeat (within_step; try exact _).

(** Any change: only the flow of time and of the schedule is recorded. *)
Definition anyhow : relation Database := λ _ _, True.

#[export] Instance anyhow_guarantee : Guarantee solo anyhow.
Proof. split; [split|]; done. Qed.
