(* ===== verification/Files.v ===== *)
(** * File operations of a run

    The calls of [os] and [syscall] on the file system of the world. Every call is
    a step of the schedule: other processes may act before it, and a fault makes it
    fail without effect, a write after an arbitrary prefix. *)

From stdpp Require Import prelude strings gmap.
From Stdlib Require Import ZArith Lia Ascii.
From S2P Require Import Prelude GoStrings Password FileSystem Tables Store.

Local Open Scope Z_scope.
Local Open Scope m_scope.

(** The Go error of a failed call; [os.IsNotExist] looks at the error itself and
    not at what it wraps. *)
Definition goerr_of (e : ioerr) : goerr :=
  match e with
  | ENOENT => Sentinel ErrNotExist
  | EEXIST => Sentinel ErrExist
  | ENOTDIR => NewError "not a directory"
  | ELOOP => NewError "too many levels of symbolic links"
  | EISDIR => NewError "is a directory"
  | EESCAPE => NewError "path escapes from parent"
  | EAGAIN => Sentinel EWOULDBLOCK
  | EIO => NewError "input/output error"
  end.

Definition IsNotExist (e : goerr) : bool :=
  match e with Sentinel s => bool_decide (s = ErrNotExist) | _ => false end.

Definition res_of {A} (r : A + ioerr) : res A :=
  match r with inl a => Ok a | inr e => Err (goerr_of e) end.

(** One call; [onFault] is what a failing call still does, given a number that the
    schedule chooses. *)
Definition sys {A} (f : FileSystem → (A + ioerr) * FileSystem) (onFault : nat → FileSystem → FileSystem)
    : M (res A) := λ w,
  let (e, w1) := advance w in
  match ev_fault e with
  | Some _ => (Err (goerr_of EIO), w_set_fs (onFault (N.to_nat (ev_tick e)) (w_fs w1)) w1)
  | None => let (r, fs') := f (w_fs w1) in (res_of r, w_set_fs fs' w1)
  end.

Definition call {A} (f : FileSystem → (A + ioerr) * FileSystem) : M (res A) := sys f (λ _ fs, fs).

(** A call that only reads. *)
Definition ask {A} (f : FileSystem → A + ioerr) : M (res A) := call (λ fs, (f fs, fs)).

Definition os_Lstat (p : path) : M (res FileInfo) := ask (λ fs, path_info false fs p).
Definition os_Stat (p : path) : M (res FileInfo) := ask (λ fs, path_info true fs p).

(** [file.Stat()], by descriptor. *)
Definition file_Stat (ino : Z) : M (res FileInfo) :=
  ask (λ fs, match inode_info fs ino with Some i => inl i | None => inr EIO end).

Definition file_Chmod (ino perm : Z) : M (res unit) := call (chmod ino perm).

Definition file_Write (ino : Z) (data : string) : M (res unit) :=
  sys (write_file ino data) (λ n fs, (write_file ino (take_bytes n data) fs).2).

(** [io.ReadAll(io.LimitReader(file, limit))]. *)
Definition read_limited (ino : Z) (limit : nat) : M (res string) :=
  ask (λ fs, match read_file ino fs with inl c => inl (take_bytes limit c) | inr e => inr e end).

(** [file.Sync()] and [file.Close()]: they may fail and change nothing here. *)
Definition file_Sync (ino : Z) : M (res unit) := ask (λ _, inl tt).
Definition file_Close (ino : Z) : M (res unit) := ask (λ _, inl tt).

(** [open(path, O_RDONLY | O_NOFOLLOW)]. *)
Definition open_nofollow (fs : FileSystem) (p : path) : Z + ioerr :=
  match resolve maxLinks fs false [] p with
  | inr e => inr e
  | inl (Missing _ _) => inr ENOENT
  | inl (At stack) =>
     match i_kind <$> fs_inodes fs !! top stack with
     | Some (KSymlink _) => inr ELOOP
     | Some _ => inl (top stack)
     | None => inr EIO
     end
  end.

Definition unix_Open_nofollow (p : path) : M (res Z) := ask (λ fs, open_nofollow fs p).

(** [os.Open(path)]. *)
Definition os_Open (p : path) : M (res Z) :=
  ask (λ fs, match resolve maxLinks fs true [] p with
             | inr e => inr e
             | inl (Missing _ _) => inr ENOENT
             | inl (At stack) => inl (top stack)
             end).

(** A new node where the walk of [p] ends in a missing name. *)
Definition create_path (p : path) (n : Inode) (fs : FileSystem) : (Z + ioerr) * FileSystem :=
  match resolve maxLinks fs false [] p with
  | inr e => (inr e, fs)
  | inl (At _) => (inr EEXIST, fs)
  | inl (Missing stack name) => create_node (top stack) name n fs
  end.

(** [link(old, new)]: neither path is followed at its end. *)
Definition link_path (old new : path) (fs : FileSystem) : (unit + ioerr) * FileSystem :=
  match resolve maxLinks fs false [] old, resolve maxLinks fs false [] new with
  | inl (At src), inl (Missing stack name) => link_node (top src) (top stack) name fs
  | inl (At _), inl (At _) => (inr EEXIST, fs)
  | inl (Missing _ _), _ => (inr ENOENT, fs)
  | inr e, _ | _, inr e => (inr e, fs)
  end.

(** [os.Remove(path)]. *)
Definition unlink_path (p : path) (fs : FileSystem) : (unit + ioerr) * FileSystem :=
  match resolve maxLinks fs false [] p with
  | inr e => (inr e, fs)
  | inl (Missing _ _) => (inr ENOENT, fs)
  | inl (At ((name, _) :: stack)) => remove_name (top stack) name fs
  | inl (At []) => (inr EISDIR, fs)
  end.

(** ** [os.Root]: a directory held open, here its inode *)

Definition os_OpenRoot (p : path) : M (res Z) :=
  ask (λ fs, match resolve maxLinks fs true [] p with
             | inr e => inr e
             | inl (Missing _ _) => inr ENOENT
             | inl (At stack) => match entries fs (top stack) with Some _ => inl (top stack) | None => inr ENOTDIR end
             end).

Definition root_Lstat (root : Z) (name : string) : M (res FileInfo) :=
  ask (λ fs, match entries fs root with
             | None => inr ENOTDIR
             | Some es =>
                match es !! name with
                | None => inr ENOENT
                | Some ino => match inode_info fs ino with Some i => inl i | None => inr EIO end
                end
             end).

Definition root_OpenRoot (root : Z) (name : string) : M (res Z) :=
  ask (λ fs, match resolve_in maxLinks root fs [] [name] with
             | inr e => inr e
             | inl ino => match entries fs ino with Some _ => inl ino | None => inr ENOTDIR end
             end).

(** [root.Open(name)], for reading. *)
Definition root_Open (root : Z) (name : string) : M (res Z) := ask (λ fs, resolve_in maxLinks root fs [] [name]).

(** [root.Open(".")], and [root.Stat(".")] is [file_Stat]. *)
Definition root_Self (root : Z) : M (res Z) :=
  ask (λ fs, match entries fs root with Some _ => inl root | None => inr ENOTDIR end).

Definition root_Mkdir (euid : Z) (root : Z) (name : string) (perm : Z) : M (res Z) :=
  call (create_node root name (mkInode (KDir ∅) perm euid)).

(** [root.OpenFile(name, O_WRONLY | O_CREATE | O_EXCL, perm)]. *)
Definition root_Create (euid : Z) (root : Z) (name : string) (perm : Z) : M (res Z) :=
  call (create_node root name (mkInode (KFile "") perm euid)).

Definition root_Rename (root : Z) (old new : string) : M (res unit) := call (rename_in root old new).
Definition root_Remove (root : Z) (name : string) : M (res unit) := call (remove_name root name).

(** [os.MkdirAll]: every missing prefix, from the top; a prefix that another
    process made meanwhile is accepted when it is a directory. *)
Fixpoint mkdirAll (euid perm : Z) (parent todo : path) : M (res unit) :=
  match todo with
  | [] => mret (Ok tt)
  | c :: rest =>
     let p := parent ++ [c] in
     info <- os_Stat p;;
     match info with
     | Ok i => if is_dir i then mkdirAll euid perm p rest else mret (Err (goerr_of ENOTDIR))
     | Err _ =>
        made <- call (create_path p (mkInode (KDir ∅) perm euid));;
        match made with
        | Ok _ => mkdirAll euid perm p rest
        | Err e =>
           again <- os_Lstat p;;
           match again with
           | Ok i => if is_dir i then mkdirAll euid perm p rest else mret (Err e)
           | Err _ => mret (Err e)
           end
        end
     end
  end.

(** ** Reasoning *)

(** [w1] follows [w]; only the file system may differ. *)
Record files (w w1 : World) : Prop := {
  files_runs : runs w w1;
  files_db : w_db w1 = w_db w;
  files_entropy : w_entropy w1 = w_entropy w;
}.

Lemma files_refl w : alone w → files w w.
Proof. intros. constructor; eauto with store. Qed.

Lemma files_trans w1 w2 w3 : files w1 w2 → files w2 w3 → files w1 w3.
Proof. intros [] []. constructor; [by eapply runs_trans|congruence..]. Qed.

Lemma files_alone w w1 : files w w1 → alone w1.
Proof. intros [[] _ _]. done. Qed.

Lemma files_faultless w w1 : files w w1 → faultless w → faultless w1.
Proof. intros [[] _ _]. done. Qed.

Lemma sys_solo {A} (f : FileSystem → (A + ioerr) * FileSystem) g w (Q : res A → World → Prop) :
  alone w →
  (∀ w1 n, files w w1 → w_fs w1 = g n (w_fs w) → ¬ faultless w → Q (Err (goerr_of EIO)) w1) →
  (∀ w1, files w w1 → w_fs w1 = (f (w_fs w)).2 → Q (res_of (f (w_fs w)).1) w1) →
  post (sys f g) w Q.
Proof.
  intros Hw Hfault Hok. unfold post, sys, advance. destruct (Hw 0%nat) as [Hdb Hfs].
  assert (∀ fs', files w (w_set_fs fs' (advance w).2)) as Hfiles.
  { intros fs'. constructor; [constructor|..]; simpl; try done.
    - intros n. apply Hw.
    - intros Hf n. apply Hf.
    - lia.
    - destruct (w_isolated w); [done|]. by rewrite <- Hdb. }
  simpl in Hfiles, Hfs. rewrite <- Hfs in *.
  destruct (ev_fault (w_sched w 0%nat)) as [d|] eqn:Ef; simpl.
  - eapply (Hfault _ (N.to_nat (ev_tick (w_sched w 0%nat)))); [apply Hfiles|done|].
    intros H. by rewrite H in Ef.
  - specialize (Hok (w_set_fs (f (w_fs w)).2 (advance w).2)). simpl in Hok. rewrite <- Hfs in Hok.
    destruct (f (w_fs w)) as [r fs']. simpl in *. apply Hok; [apply Hfiles|done].
Qed.

Lemma call_solo {A} (f : FileSystem → (A + ioerr) * FileSystem) w (Q : res A → World → Prop) :
  alone w →
  (∀ w1, files w w1 → w_fs w1 = w_fs w → ¬ faultless w → Q (Err (goerr_of EIO)) w1) →
  (∀ w1, files w w1 → w_fs w1 = (f (w_fs w)).2 → Q (res_of (f (w_fs w)).1) w1) →
  post (call f) w Q.
Proof. intros Hw Hf Hok. apply sys_solo; [done|by intros; apply Hf|done]. Qed.

Lemma ask_solo {A} (f : FileSystem → A + ioerr) w (Q : res A → World → Prop) :
  alone w →
  (∀ w1, files w w1 → w_fs w1 = w_fs w → ¬ faultless w → Q (Err (goerr_of EIO)) w1) →
  (∀ w1, files w w1 → w_fs w1 = w_fs w → Q (res_of (f (w_fs w))) w1) →
  post (ask f) w Q.
Proof. intros Hw Hf Hok. by apply call_solo. Qed.

Lemma files_calm w w1 : files w w1 → w_fs w1 = w_fs w → calm w w1.
Proof. intros [[] ? ?] ?. by constructor. Qed.

Lemma calm_files w w1 : calm w w1 → w_db w1 = w_db w → files w w1.
Proof. intros [] ?. constructor; [by constructor|done..]. Qed.

(** Reading leaves everything as it is. *)
Lemma ask_calm {A} (f : FileSystem → A + ioerr) w (Q : res A → World → Prop) :
  alone w →
  (∀ w1, calm w w1 → w_db w1 = w_db w → ¬ faultless w → Q (Err (goerr_of EIO)) w1) →
  (∀ w1, calm w w1 → w_db w1 = w_db w → Q (res_of (f (w_fs w))) w1) →
  post (ask f) w Q.
Proof.
  intros Hw Hf Hok. apply ask_solo; [done|..].
  - intros w1 H1 Hs Hn. apply Hf; [by apply files_calm|apply H1|done].
  - intros w1 H1 Hs. apply Hok; [by apply files_calm|apply H1].
Qed.

#[export] Hint Resolve files_alone files_refl : store.
#[export] Hint Extern 2 (files _ _) => (eapply files_trans; eassumption) : store.

(** Chains the steps of the context. *)
Ltac calm_chain :=
  first [eassumption
        | match goal with H : calm ?w _ |- calm ?w _ => apply (calm_trans _ _ _ H); calm_chain end].

Ltac files_chain :=
  first [eassumption
        | apply calm_files; [calm_chain|congruence]
        | match goal with
          | H : files ?w _ |- files ?w _ => apply (files_trans _ _ _ H); files_chain
          | H : calm ?w ?w1 |- files ?w _ =>
             apply (files_trans w w1); [apply calm_files; [exact H|congruence]|files_chain]
          end].

(** No call of a faultless run fails. *)
Ltac fault_absurd :=
  let Hfl := fresh in intros Hfl; exfalso;
  match goal with
  | H : ¬ faultless ?x |- _ =>
     apply H; first [exact Hfl | eapply (files_faultless _ x); [|exact Hfl]; files_chain]
  end.

Ltac f_step :=
  lazymatch goal with
  | |- post (ask _) _ _ =>
     apply ask_calm; [eauto with store|intros ? ? ? ?|intros ? ? ?]
  | |- post (os_Lstat _) _ _ => unfold os_Lstat; f_step
  | |- post (os_Stat _) _ _ => unfold os_Stat; f_step
  | |- post (file_Stat _) _ _ => unfold file_Stat; f_step
  | |- post (file_Sync _) _ _ => unfold file_Sync; f_step
  | |- post (file_Close _) _ _ => unfold file_Close; f_step
  | |- post (os_Open _) _ _ => unfold os_Open; f_step
  | |- post (unix_Open_nofollow _) _ _ => unfold unix_Open_nofollow; f_step
  | |- post (read_limited _ _) _ _ => unfold read_limited; f_step
  | |- post (os_OpenRoot _) _ _ => unfold os_OpenRoot; f_step
  | |- post (root_Lstat _ _) _ _ => unfold root_Lstat; f_step
  | |- post (root_OpenRoot _ _) _ _ => unfold root_OpenRoot; f_step
  | |- post (root_Open _ _) _ _ => unfold root_Open; f_step
  | |- post (root_Self _) _ _ => unfold root_Self; f_step
  | |- post (call _) _ _ =>
     apply call_solo; [eauto with store|intros ? ? ? ?|intros ? ? ?]
  | |- _ => m_step
  end.

(** What a read of the path says about the table. *)
Lemma path_info_At f fs p i : path_info f fs p = inl i →
  ∃ stack, resolve maxLinks fs f [] p = inl (At stack) ∧ inode_info fs (top stack) = Some i.
Proof.
  unfold path_info. destruct (resolve _ _ _ _ _) as [[stack|]|]; [|done..].
  destruct (inode_info fs (top stack)) eqn:E; [|done]. intros [= <-]. eauto.
Qed.

Lemma path_info_absent f fs p e : path_info f fs p = inr e → IsNotExist (goerr_of e) = true →
  (∃ stack name, resolve maxLinks fs f [] p = inl (Missing stack name)) ∨ resolve maxLinks fs f [] p = inr ENOENT.
Proof.
  unfold path_info. destruct (resolve _ _ _ _ _) as [[stack|]|]; [|eauto..].
  - destruct (inode_info fs (top stack)) eqn:E; by intros [= <-].
  - intros [= ->]. destruct e; try done. eauto.
Qed.

Lemma inode_info_Some fs ino i : inode_info fs ino = Some i →
  ∃ n, fs_inodes fs !! ino = Some n ∧ i = mkFileInfo ino (i_kind n) (i_perm n) (i_uid n) (link_count fs ino).
Proof. unfold inode_info. destruct (fs_inodes fs !! ino) as [n|]; simpl; [|done]. intros [= <-]. eauto. Qed.

Lemma inode_info_at fs ino n : fs_inodes fs !! ino = Some n →
  inode_info fs ino = Some (mkFileInfo ino (i_kind n) (i_perm n) (i_uid n) (link_count fs ino)).
Proof. unfold inode_info. by intros ->. Qed.

Lemma quiet_ask {A} (f : FileSystem → A + ioerr) : quiet (ask f).
Proof. apply quiet_calm. intros w Hw. by f_step. Qed.

#[export] Hint Extern 1 (quiet _) => apply quiet_ask : quiet.
