(* ===== verification/Trees.v ===== *)
(** * File systems up to permissions, and trees

    Two equivalences and an invariant on tables of inodes: [modes] relates tables
    that differ in permissions only, and every walk respects it; [keeps] relates a
    table to one that still has all its directories and symbolic links, which is
    all a walk to a directory depends on; [tree] says that directories have one
    name and names lead somewhere. *)

From stdpp Require Import prelude strings gmap.
From Stdlib Require Import ZArith Lia Ascii.
From S2P Require Import Prelude GoStrings FileSystem.

(** ** Permissions aside *)

Record modes (fs fs' : FileSystem) : Prop := {
  modes_kind : ∀ i, i_kind <$> fs_inodes fs' !! i = i_kind <$> fs_inodes fs !! i;
  modes_uid : ∀ i, i_uid <$> fs_inodes fs' !! i = i_uid <$> fs_inodes fs !! i;
}.

#[export] Instance modes_equivalence : Equivalence modes.
Proof.
  split; [by intros fs|by intros fs fs' [H1 H2]|].
  intros fs1 fs2 fs3 [H1 H1'] [H2 H2']. split; intros i; [by rewrite (H2 i)|by rewrite (H2' i)].
Qed.

Lemma entries_kind fs i :
  entries fs i = k ← i_kind <$> fs_inodes fs !! i; match k with KDir es => Some es | _ => None end.
Proof. unfold entries. by destruct (fs_inodes fs !! i). Qed.

#[export] Instance entries_proper : Proper (modes ==> eq ==> eq) entries.
Proof. intros fs fs' H i _ <-. by rewrite !entries_kind, (modes_kind _ _ H i). Qed.

#[export] Instance resolve_proper l : Proper (modes ==> eq ==> eq ==> eq ==> eq) (resolve l).
Proof.
  intros fs fs' H f _ <- st _ <- p _ <-.
  apply (walk_ind (λ l st p, resolve l fs f st p = resolve l fs' f st p)); clear l st p.
  { intros l st. by rewrite !resolve_nil. }
  intros l st c rest IHrest IHlinks. rewrite !resolve_cons, !IHrest. rewrite <- (entries_proper _ _ H _ _ eq_refl).
  case_bool_decide; [done|]. destruct (entries fs (top st)) as [es|]; [|done].
  destruct (es !! c) as [ino|]; [|done]. rewrite (modes_kind _ _ H ino).
  destruct (i_kind <$> fs_inodes fs !! ino) as [[]|]; try done.
  destruct (_ && _); [done|]. destruct l; [done|]. apply IHlinks. lia.
Qed.

Lemma chmod_modes i perm fs : modes fs (chmod i perm fs).2.
Proof.
  unfold chmod. destruct (fs_inodes fs !! i) as [[k p u]|] eqn:E; [|done]. split; intros j; simpl;
    (destruct (decide (j = i)) as [->|]; [by rewrite lookup_insert_eq, E|by rewrite lookup_insert_ne]).
Qed.

(** The bytes of a regular file. *)
Definition content (fs : FileSystem) (i : Z) : option string :=
  k ← i_kind <$> fs_inodes fs !! i; match k with KFile c => Some c | _ => None end.

#[export] Instance content_proper : Proper (modes ==> eq ==> eq) content.
Proof. intros fs fs' H i _ <-. unfold content. by rewrite (modes_kind _ _ H i). Qed.

(** ** Ends of walks *)

(** A node that is created is found where it was missing. *)
Lemma resolve_created fs f l st p stack name ino n : fs_inodes fs !! ino = None → (∀ t, i_kind n ≠ KSymlink t) →
  resolve l fs f st p = inl (Missing stack name) →
  let fs' := set_inode ino n (set_entries (top stack) <[name := ino]> fs) in
  extends fs fs' ∧ resolve l fs' f st p = inl (At ((name, ino) :: stack)).
Proof.
  intros Hino Hlink Hr.
  assert (∃ es p u, fs_inodes fs !! top stack = Some (mkInode (KDir es) p u) ∧ es !! name = None) as (es & pd & ud & Hd & Hn).
  { revert Hr. apply (walk_ind (λ l st p, resolve l fs f st p = inl (Missing stack name) → _)); clear l st p.
    { intros l st. by rewrite resolve_nil. }
    intros l st d rest IHrest IHlinks. rewrite resolve_cons. case_bool_decide; [by apply IHrest|].
    destruct (entries fs (top st)) as [es|] eqn:Hes; [|done]. destruct (es !! d) as [i|] eqn:Hi.
    - destruct (i_kind <$> fs_inodes fs !! i) as [[]|]; [by apply IHrest|by case_bool_decide| |by case_bool_decide|done].
      destruct (_ && _); [done|]. destruct l as [|l]; [done|]. apply IHlinks. lia.
    - case_bool_decide; [|done]. intros [= <- <-]. apply entries_inode in Hes as (p & u & Hp). eauto 10. }
  cbv zeta. rewrite (layer_create _ _ _ _ _ _ Hd). set (fs' := layer _ _ _ _ _ _ _).
  assert (extends fs fs') as He by (eapply layer_extends; [done|done|by apply insert_subseteq]). split; [done|].
  revert Hr. apply (walk_ind (λ l st p, resolve l fs f st p = inl (Missing stack name) →
    resolve l fs' f st p = inl (At ((name, ino) :: stack)))); clear l st p.
  { intros l st. by rewrite resolve_nil. }
  intros l st d rest IHrest IHlinks. rewrite !resolve_cons. case_bool_decide; [by apply IHrest|].
  destruct (entries fs (top st)) as [es1|] eqn:Hes; [|done]. destruct (ext_entries _ _ He _ _ Hes) as (es' & Hes' & Hsub).
  rewrite Hes'. destruct (es1 !! d) as [i|] eqn:Hi.
  - rewrite (lookup_weaken _ _ _ _ Hi Hsub). destruct (fs_inodes fs !! i) as [m|] eqn:Hnode; [|done].
    destruct (ext_shape _ _ He _ _ Hnode) as (n' & -> & Hsh). simpl.
    destruct (i_kind m), (i_kind n'); simpl in Hsh; try discriminate; try (by case_bool_decide); [by apply IHrest|].
    injection Hsh as ->. destruct (_ && _); [done|]. destruct l as [|l]; [done|]. apply IHlinks. lia.
  - case_bool_decide as Hrest; [subst rest|done]. intros [= -> ->].
    assert (es' = <[name := ino]> es) as ->.
    { unfold fs' in Hes'. rewrite (layer_entries _ _ _ _ _ _ Hd Hino) in Hes'. congruence. }
    rewrite lookup_insert_eq. unfold fs'. rewrite layer_node. simpl. destruct (i_kind n) as [| |t|] eqn:Hk; [by rewrite resolve_nil|done|by destruct (Hlink t)|done].
Qed.

(** ** Directories and links kept *)

Record keeps (fs fs' : FileSystem) : Prop := {
  keeps_shape : ∀ i n, fs_inodes fs !! i = Some n →
    ∃ n', fs_inodes fs' !! i = Some n' ∧ shape_of (i_kind n') = shape_of (i_kind n);
  keeps_entries : ∀ i es, entries fs i = Some es → ∃ es', entries fs' i = Some es' ∧
    ∀ c j n, es !! c = Some j → fs_inodes fs !! j = Some n → shape_of (i_kind n) ≠ ShFile → es' !! c = Some j;
}.

Lemma extends_keeps fs fs' : extends fs fs' → keeps fs fs'.
Proof.
  intros [Hs He]. split; [done|]. intros i es Hi. destruct (He i es Hi) as (es' & Hi' & Hsub).
  exists es'. split; [done|]. intros c j n Hc _ _. by eapply lookup_weaken.
Qed.

Lemma modes_keeps fs fs' : modes fs fs' → keeps fs fs'.
Proof.
  intros Hm. split.
  - intros i n Hn. pose proof (modes_kind _ _ Hm i) as Hk. rewrite Hn in Hk.
    destruct (fs_inodes fs' !! i) as [n'|]; [|discriminate]. exists n'. split; [done|]. simpl in Hk. congruence.
  - intros i es Hi. exists es. split; [by rewrite <- Hm|done].
Qed.

Lemma chmod_others i perm fs j : j ≠ i → fs_inodes (chmod i perm fs).2 !! j = fs_inodes fs !! j.
Proof. intros Hne. unfold chmod. destruct (fs_inodes fs !! i) as [[]|]; [|done]. simpl. by rewrite lookup_insert_ne. Qed.

(** A walk that arrives at a directory still arrives there. *)
Lemma resolve_keeps fs fs' f l st p stack :
  keeps fs fs' → is_Some (entries fs (top stack)) →
  resolve l fs f st p = inl (At stack) → resolve l fs' f st p = inl (At stack).
Proof.
  intros [Hs He] Htop. apply (walk_ind (λ l st p,
    resolve l fs f st p = inl (At stack) → resolve l fs' f st p = inl (At stack))); clear l st p.
  { intros l st. by rewrite !resolve_nil. }
  intros l st c rest IHrest IHlinks. rewrite !resolve_cons. case_bool_decide; [by apply IHrest|].
  destruct (entries fs (top st)) as [es|] eqn:Hes; [|done].
  destruct (He _ _ Hes) as (es' & -> & Hsub).
  destruct (es !! c) as [ino|] eqn:Hc; [|by case_bool_decide].
  destruct (fs_inodes fs !! ino) as [n|] eqn:Hn; [|done]. simpl.
  assert (∀ s, i_kind n = s → shape_of s = ShFile → inl (At ((c, ino) :: st)) ≠ (inl (At stack) : found + ioerr)) as Hfile.
  { intros s Hk Hsh [= <-]. destruct Htop as [es1 Htop]. simpl in Htop.
    apply entries_inode in Htop as (p & u & Htop). simplify_eq/=. }
  destruct (shape_of (i_kind n)) eqn:Hsh.
  - rewrite (Hsub _ _ _ Hc Hn) by congruence. destruct (Hs _ _ Hn) as (n' & -> & Hsh'). simpl.
    destruct (i_kind n) eqn:Hk, (i_kind n') eqn:Hk'; simpl in *; try congruence. apply IHrest.
  - rewrite (Hsub _ _ _ Hc Hn) by congruence. destruct (Hs _ _ Hn) as (n' & -> & Hsh'). simpl.
    destruct (i_kind n) eqn:Hk, (i_kind n') eqn:Hk'; simpl in *; try congruence.
    assert (target0 = target1) as -> by congruence.
    destruct (_ && _); [done|]. destruct l; [done|]. apply IHlinks. lia.
  - destruct (i_kind n) eqn:Hk; try discriminate; case_bool_decide; try done; intros E;
      by destruct (Hfile _ eq_refl Hsh).
Qed.

(** One name below a directory, when it is no link. *)
Lemma resolve_in_one l base fs es name i n :
  entries fs base = Some es → es !! name = Some i → name ≠ ".." →
  fs_inodes fs !! i = Some n → (∀ target, i_kind n ≠ KSymlink target) →
  resolve_in l base fs [] [name] = inl i.
Proof.
  intros He Hi Hname Hn Hk. destruct l; simpl; rewrite bool_decide_eq_false_2, He, Hi, Hn by done; simpl;
    by destruct (i_kind n) as [| |target|]; [|..|destruct (Hk target)|].
Qed.

(** ** Trees *)

Record tree (fs : FileSystem) : Prop := {
  tree_parent : ∀ d i1 i2 es1 es2 n1 n2, is_Some (entries fs d) →
    entries fs i1 = Some es1 → es1 !! n1 = Some d → entries fs i2 = Some es2 → es2 !! n2 = Some d →
    i1 = i2 ∧ n1 = n2;
  tree_loop : ∀ d es n, entries fs d = Some es → es !! n ≠ Some d;
  tree_leads : ∀ d es n i, entries fs d = Some es → es !! n = Some i → is_Some (fs_inodes fs !! i);
}.

#[export] Instance tree_proper : Proper (modes ==> iff) tree.
Proof.
  assert (∀ fs fs', modes fs fs' → tree fs → tree fs') as H.
  { intros fs fs' Hm [H1 H2 H3]. assert (∀ i, entries fs' i = entries fs i) as He by (intros i; by rewrite Hm).
    split.
    - intros d i1 i2. rewrite !He. apply H1.
    - intros d. rewrite He. apply H2.
    - intros d es n i. rewrite He. intros Hd Hn. pose proof (modes_kind _ _ Hm i) as Hk.
      destruct (H3 _ _ _ _ Hd Hn) as [x Hx]. rewrite Hx in Hk.
      destruct (fs_inodes fs' !! i); [eauto|discriminate]. }
  intros fs fs' Hm. split; [by apply H|]. apply H. by symmetry.
Qed.

(** ** Edits of one directory *)

(** [fs'] is [fs] with the entries [es] of the directory [d] turned into [es']:
    entries for files come and go, new inodes are files, nothing else changes but
    permissions. *)
Record edits (fs fs' : FileSystem) (d : Z) (es es' : gmap string Z) : Prop := {
  ed_before : entries fs d = Some es;
  ed_after : entries fs' d = Some es';
  ed_same : ∀ i, i ≠ d → is_Some (fs_inodes fs !! i) → i_kind <$> fs_inodes fs' !! i = i_kind <$> fs_inodes fs !! i;
  ed_new : ∀ i, fs_inodes fs !! i = None → entries fs' i = None;
  ed_names : ∀ c j, es' !! c = Some j → es !! c = Some j ∨ fs_inodes fs !! j = None ∧ is_Some (fs_inodes fs' !! j);
  ed_kept : ∀ c j n, es !! c = Some j → fs_inodes fs !! j = Some n → shape_of (i_kind n) ≠ ShFile → es' !! c = Some j;
}.

Section Edits.
Context (fs fs' : FileSystem) (d : Z) (es es' : gmap string Z) (He : edits fs fs' d es es').

Lemma edits_exists i : is_Some (fs_inodes fs !! i) → is_Some (fs_inodes fs' !! i).
Proof using He.
  intros Hi. destruct (decide (i = d)) as [->|Hne].
  - pose proof (ed_after _ _ _ _ _ He) as (p & u & ->)%entries_inode. eauto.
  - pose proof (ed_same _ _ _ _ _ He i Hne Hi) as E. destruct Hi as [n Hi]. rewrite Hi in E.
    destruct (fs_inodes fs' !! i); [eauto|discriminate].
Qed.

(** Directories of [fs'] are directories of [fs], and have entries of [fs] or new
    ones. *)
Lemma edits_entries i esi : entries fs' i = Some esi →
  ∃ esi0, entries fs i = Some esi0 ∧ (i ≠ d → esi = esi0) ∧
    ∀ c j, esi !! c = Some j → esi0 !! c = Some j ∨ fs_inodes fs !! j = None ∧ is_Some (fs_inodes fs' !! j).
Proof using He.
  intros Hi. destruct (decide (i = d)) as [->|Hne].
  - rewrite (ed_after _ _ _ _ _ He) in Hi. injection Hi as <-. exists es.
    split_and!; [apply (ed_before _ _ _ _ _ He)|done|apply (ed_names _ _ _ _ _ He)].
  - destruct (fs_inodes fs !! i) as [n|] eqn:Hn.
    + exists esi. split_and!; [|done|by left]. rewrite entries_kind, <- (ed_same _ _ _ _ _ He i Hne) by (rewrite Hn; eauto).
      by rewrite <- entries_kind.
    + by rewrite (ed_new _ _ _ _ _ He i Hn) in Hi.
Qed.

Lemma edits_other i : i ≠ d → is_Some (fs_inodes fs !! i) → entries fs' i = entries fs i.
Proof using He. intros Hne Hi. by rewrite !entries_kind, (ed_same _ _ _ _ _ He i Hne Hi). Qed.

Lemma edits_content i : is_Some (fs_inodes fs !! i) → content fs' i = content fs i.
Proof using He.
  intros Hi. unfold content. destruct (decide (i = d)) as [->|Hne]; [|by rewrite (ed_same _ _ _ _ _ He i Hne Hi)].
  pose proof (ed_before _ _ _ _ _ He) as (p & u & ->)%entries_inode.
  pose proof (ed_after _ _ _ _ _ He) as (p' & u' & ->)%entries_inode. done.
Qed.

Lemma edits_keeps : keeps fs fs'.
Proof using He.
  split.
  - intros i n Hn. destruct (decide (i = d)) as [->|Hne].
    + pose proof (ed_before _ _ _ _ _ He) as (p & u & E)%entries_inode.
      pose proof (ed_after _ _ _ _ _ He) as (p' & u' & E')%entries_inode. rewrite E'. simplify_eq. eauto.
    + pose proof (ed_same _ _ _ _ _ He i Hne) as E. rewrite Hn in E. specialize (E ltac:(eauto)).
      destruct (fs_inodes fs' !! i) as [n'|]; simplify_eq/=. exists n'. split; [done|congruence].
  - intros i esi Hi. destruct (decide (i = d)) as [->|Hne].
    + rewrite (ed_before _ _ _ _ _ He) in Hi. injection Hi as <-. exists es'.
      split; [apply (ed_after _ _ _ _ _ He)|apply (ed_kept _ _ _ _ _ He)].
    + exists esi. split; [|done]. rewrite edits_other; [done..|]. apply entries_inode in Hi as (? & ? & ->). eauto.
Qed.

Lemma edits_tree : tree fs → tree fs'.
Proof using He.
  intros [Hp Hl Hd].
  assert (∀ x i esi n, is_Some (entries fs' x) → entries fs' i = Some esi → esi !! n = Some x →
    ∃ esi0, entries fs i = Some esi0 ∧ esi0 !! n = Some x) as Hback.
  { intros x i esi n [esx Hx] Hi Hn. destruct (edits_entries _ _ Hi) as (esi0 & Hi0 & _ & Hsub).
    exists esi0. split; [done|]. destruct (Hsub _ _ Hn) as [|[Hnone _]]; [done|].
    by rewrite (ed_new _ _ _ _ _ He x Hnone) in Hx. }
  split.
  - intros x i1 i2 es1 es2 n1 n2 Hx H1 Hn1 H2 Hn2.
    destruct (Hback _ _ _ _ Hx H1 Hn1) as (e1 & ? & ?). destruct (Hback _ _ _ _ Hx H2 Hn2) as (e2 & ? & ?).
    apply (Hp x i1 i2 e1 e2 n1 n2); try done. destruct Hx as [esx Hx].
    apply edits_entries in Hx as (? & ? & _). eauto.
  - intros x esx n Hx Hn. destruct (Hback x x esx n) as (? & ? & ?); eauto. by eapply Hl.
  - intros x esx n i Hx Hn. destruct (edits_entries _ _ Hx) as (esx0 & Hx0 & _ & Hsub).
    destruct (Hsub _ _ Hn) as [Hn0|[_ ?]]; [|done]. by eapply edits_exists, Hd.
Qed.
End Edits.

(** Staging a file in a directory, and taking one out, are edits. *)
Lemma layer_edits fs d perm uid es t n es' :
  fs_inodes fs !! d = Some (mkInode (KDir es) perm uid) → fs_inodes fs !! t = None →
  shape_of (i_kind n) = ShFile →
  (∀ c j, es' !! c = Some j → es !! c = Some j ∨ j = t) →
  (∀ c j m, es !! c = Some j → fs_inodes fs !! j = Some m → shape_of (i_kind m) ≠ ShFile → es' !! c = Some j) →
  edits fs (layer fs d perm uid es' t n) d es es'.
Proof.
  intros Hd Ht Hn Hnames Hkept. split; [apply entries_inode; eauto|by eapply layer_entries| | | |done].
  - intros i Hne [m Hi]. simpl. rewrite lookup_insert_ne by congruence. by rewrite lookup_insert_ne by congruence.
  - intros i Hi. destruct (decide (i = t)) as [->|]; [by apply layer_plain|].
    unfold entries. simpl. rewrite lookup_insert_ne, lookup_insert_ne, Hi by congruence. done.
  - intros c j [? | ->]%Hnames; [by left|right]. split; [done|]. rewrite layer_node. eauto.
Qed.

Lemma remove_edits fs d perm uid es name i c p u :
  fs_inodes fs !! d = Some (mkInode (KDir es) perm uid) →
  es !! name = Some i → fs_inodes fs !! i = Some (mkInode (KFile c) p u) →
  edits fs (set_entries d (delete name) fs) d es (delete name es).
Proof.
  intros Hd Hi Hf. unfold set_entries. rewrite Hd. unfold set_inode. split.
  - apply entries_inode. eauto.
  - apply entries_inode. simpl. rewrite lookup_insert_eq. eauto.
  - intros j Hne _. simpl. by rewrite lookup_insert_ne.
  - intros j Hj. unfold entries. simpl. rewrite lookup_insert_ne by congruence. by rewrite Hj.
  - intros c' j [_ ?]%lookup_delete_Some. by left.
  - intros c' j m Hc Hj Hsh. rewrite lookup_delete_ne; [done|]. intros ->. simplify_eq/=.
Qed.

(** ** A new directory *)

Section Mkdir.
Context (fs : FileSystem) (r perm uid t : Z) (es : gmap string Z) (name : string) (p u : Z).
Context (Htree : tree fs) (Hr : fs_inodes fs !! r = Some (mkInode (KDir es) perm uid))
        (Ht : fs_inodes fs !! t = None) (Hname : es !! name = None).

Abbreviation made := (layer fs r perm uid (<[name := t]> es) t (mkInode (KDir ∅) p u)).

Lemma mkdir_extends : extends fs made.
Proof using Hr Ht Hname. apply (layer_extends _ _ _ _ _ es); [done..|]. by apply insert_subseteq. Qed.

Lemma mkdir_old i : i ≠ r → is_Some (fs_inodes fs !! i) → fs_inodes made !! i = fs_inodes fs !! i.
Proof using Ht. intros Hne [n Hi]. simpl. rewrite lookup_insert_ne by congruence. by rewrite lookup_insert_ne. Qed.

Lemma mkdir_old_entries i : i ≠ r → is_Some (fs_inodes fs !! i) → entries made i = entries fs i.
Proof using Ht. intros Hne Hi. unfold entries. by rewrite mkdir_old. Qed.

Lemma mkdir_new_entries : entries made t = Some ∅.
Proof using. apply entries_inode. eauto using layer_node. Qed.

Lemma mkdir_root_entries : entries made r = Some (<[name := t]> es).
Proof using Hr Ht. by eapply layer_entries. Qed.

Lemma mkdir_content i : is_Some (fs_inodes fs !! i) → content made i = content fs i.
Proof using Hr Ht.
  intros Hi. unfold content. destruct (decide (i = r)) as [->|]; [|by rewrite mkdir_old].
  by rewrite (layer_dir _ _ _ _ _ es), Hr by done.
Qed.

(** Entries of the new table: the old ones, and the new name. *)
Lemma mkdir_back i esi n x : entries made i = Some esi → esi !! n = Some x →
  (x = t ∧ i = r ∧ n = name) ∨ (x ≠ t ∧ ∃ esi0, entries fs i = Some esi0 ∧ esi0 !! n = Some x).
Proof using Htree Hr Ht Hname.
  intros Hi Hn. assert (∀ esi0, entries fs i = Some esi0 → esi0 !! n = Some x → x ≠ t) as Hold.
  { intros esi0 H0 Hx ->. destruct (tree_leads _ Htree _ _ _ _ H0 Hx). congruence. }
  destruct (decide (i = r)) as [->|Hne].
  - rewrite mkdir_root_entries in Hi. injection Hi as <-.
    assert (entries fs r = Some es) as Her by (apply entries_inode; eauto).
    apply lookup_insert_Some in Hn as [[-> <-]|[_ Hn]]; [by left|right]. eauto.
  - right. destruct (decide (i = t)) as [->|Hit].
    + rewrite mkdir_new_entries in Hi. by simplify_map_eq.
    + assert (entries fs i = Some esi) as Hi0; [|eauto]. apply entries_inode in Hi as (p' & u' & Hi).
      simpl in Hi. rewrite !lookup_insert_ne in Hi by done. apply entries_inode. eauto.
Qed.

Lemma mkdir_tree : tree made.
Proof using Htree Hr Ht Hname.
  split.
  - intros x i1 i2 es1 es2 n1 n2 [esx Hx] H1 Hn1 H2 Hn2.
    destruct (mkdir_back _ _ _ _ H1 Hn1) as [(-> & -> & ->)|(Hxt & e1 & ? & ?)];
      destruct (mkdir_back _ _ _ _ H2 Hn2) as [(? & -> & ->)|(? & e2 & ? & ?)]; try done.
    apply (tree_parent _ Htree x i1 i2 e1 e2 n1 n2); try done.
    destruct (decide (x = r)) as [->|]; [exists es; apply entries_inode; eauto|].
    rewrite mkdir_old_entries in Hx; [eauto|done|]. by eapply (tree_leads _ Htree).
  - intros x esx n Hx Hn. destruct (mkdir_back _ _ _ _ Hx Hn) as [(-> & E & _)|(_ & e & ? & ?)].
    + by apply (layer_ne fs r perm uid t es).
    + by eapply (tree_loop _ Htree).
  - intros x esx n i Hx Hn. destruct (mkdir_back _ _ _ _ Hx Hn) as [(-> & _ & _)|(_ & e & H0 & Hi)].
    + rewrite layer_node. eauto.
    + destruct (tree_leads _ Htree _ _ _ _ H0 Hi) as [m Hm].
      destruct (decide (i = r)) as [->|]; [rewrite (layer_dir _ _ _ _ _ es) by done; eauto|].
      rewrite mkdir_old; eauto.
Qed.
End Mkdir.

(** ** Link counts *)

Lemma map_size_le_1 {A} (m : gmap string A) :
  (∀ k1 k2 v1 v2, m !! k1 = Some v1 → m !! k2 = Some v2 → k1 = k2) → (size m ≤ 1)%nat.
Proof.
  intros Hu. induction m as [|k v m Hk _ _] using map_first_key_ind; [rewrite map_size_empty; lia|].
  assert (m = ∅) as ->; [|by rewrite insert_empty, map_size_singleton].
  apply map_empty. intros k'. destruct (m !! k') as [v'|] eqn:E; [|done].
  assert (k' ≠ k) as Hne by congruence.
  exfalso. apply Hne, (Hu k' k v' v); [by rewrite lookup_insert_ne|by rewrite lookup_insert_eq].
Qed.

(** A sum of which at most one term counts, and that once. *)
Lemma map_fold_le_1 (f : Inode → nat) (m : gmap Z Inode) :
  (∀ k n, m !! k = Some n → (f n ≤ 1)%nat) →
  (∀ k1 k2 n1 n2, m !! k1 = Some n1 → m !! k2 = Some n2 → f n1 ≠ 0%nat → f n2 ≠ 0%nat → k1 = k2) →
  (map_fold (λ _ n acc, f n + acc)%nat 0%nat m ≤ 1)%nat.
Proof.
  intros H1 H2. cut ((map_fold (λ _ n acc, f n + acc)%nat 0%nat m ≤ 1)%nat ∧
    (map_fold (λ _ n acc, f n + acc)%nat 0%nat m ≠ 0%nat → ∃ k n, m !! k = Some n ∧ f n ≠ 0%nat)); [tauto|].
  revert H1 H2. apply (map_fold_weak_ind (λ r m, (∀ k n, m !! k = Some n → (f n ≤ 1)%nat) →
    (∀ k1 k2 n1 n2, m !! k1 = Some n1 → m !! k2 = Some n2 → f n1 ≠ 0%nat → f n2 ≠ 0%nat → k1 = k2) →
    (r ≤ 1)%nat ∧ (r ≠ 0%nat → ∃ k n, m !! k = Some n ∧ f n ≠ 0%nat))); clear m.
  - intros _ _. split; [lia|done].
  - intros i n m r Hi IH H1 H2. destruct IH as [Hle Hex].
    { intros k n' Hk. apply (H1 k n'). rewrite lookup_insert_ne; [done|congruence]. }
    { intros k1 k2 n1 n2 Hk1 Hk2. apply H2; (rewrite lookup_insert_ne; [done|congruence]). }
    pose proof (H1 i n (lookup_insert_eq _ _ _)) as Hn. destruct (decide (f n = 0%nat)) as [E|E].
    + rewrite E. split; [lia|]. intros Hr. destruct (Hex Hr) as (k & n' & Hk & Hf).
      exists k, n'. split; [|done]. rewrite lookup_insert_ne; [done|congruence].
    + destruct (decide (r = 0%nat)) as [->|Hr]; [split; [lia|]|].
      * intros _. exists i, n. by rewrite lookup_insert_eq.
      * destruct (Hex Hr) as (k & n' & Hk & Hf). assert (k ≠ i) as Hki by congruence.
        exfalso. apply Hki, (H2 k i n' n); [by rewrite lookup_insert_ne|by rewrite lookup_insert_eq|done|done].
Qed.

Lemma link_count_one fs i :
  (∀ d1 d2 es1 es2 n1 n2, entries fs d1 = Some es1 → es1 !! n1 = Some i → entries fs d2 = Some es2 →
     es2 !! n2 = Some i → d1 = d2 ∧ n1 = n2) →
  (link_count fs i ≤ 1)%Z.
Proof.
  intros Hu. unfold link_count.
  assert (∀ k n, fs_inodes fs !! k = Some n → names_in i (i_kind n) ≠ 0%nat →
    ∃ es c, entries fs k = Some es ∧ es !! c = Some i) as Hname.
  { intros k n Hk Hn. destruct (i_kind n) as [es| | |] eqn:E; simpl in Hn; try done.
    destruct (map_choose (filter (λ kv : string * Z, kv.2 = i) es)) as (c & j & Hc).
    { intros E0. by rewrite E0 in Hn. }
    apply map_lookup_filter_Some in Hc as [Hc Hj]. simpl in Hj. subst j. exists es, c. split; [|done].
    apply entries_inode. destruct n. simpl in *. subst. eauto. }
  assert (map_fold (λ _ n acc, names_in i (i_kind n) + acc)%nat 0%nat (fs_inodes fs) ≤ 1)%nat; [|lia].
  apply (map_fold_le_1 (λ n, names_in i (i_kind n))).
  - intros k n Hk. destruct (i_kind n) as [es| | |] eqn:E; simpl; try lia. apply map_size_le_1.
    intros k1 k2 v1 v2 [H1 E1]%map_lookup_filter_Some [H2 E2]%map_lookup_filter_Some. simpl in *. subst.
    eapply (Hu k k es es); try done; apply entries_inode; destruct n; simpl in *; subst; eauto.
  - intros k1 k2 n1 n2 H1 H2 Hn1 Hn2. destruct (Hname _ _ H1 Hn1) as (es1 & c1 & ? & ?).
    destruct (Hname _ _ H2 Hn2) as (es2 & c2 & ? & ?). by eapply (Hu k1 k2).
Qed.

Lemma layer_link_count fs d perm uid es t n name :
  tree fs → fs_inodes fs !! d = Some (mkInode (KDir es) perm uid) → fs_inodes fs !! t = None →
  shape_of (i_kind n) = ShFile →
  (link_count (layer fs d perm uid (<[name := t]> es) t n) t ≤ 1)%Z.
Proof.
  intros Htree Hd Ht Hn. set (fs' := layer _ _ _ _ _ _ _). assert (entries fs d = Some es) as Hes by (apply entries_inode; eauto).
  assert (∀ i esi c, entries fs' i = Some esi → esi !! c = Some t → i = d ∧ c = name) as Hone.
  { intros i esi c Hi Hc. destruct (decide (i = d)) as [->|].
    - unfold fs' in Hi. rewrite (layer_entries _ _ _ _ _ es) in Hi by done. injection Hi as <-.
      apply lookup_insert_Some in Hc as [[-> _]|[_ Hc]]; [done|].
      destruct (tree_leads _ Htree _ _ _ _ Hes Hc). congruence.
    - destruct (decide (i = t)) as [->|]; [unfold fs' in Hi; by rewrite layer_plain in Hi|].
      apply entries_inode in Hi as (p & u & Hi). simpl in Hi. rewrite !lookup_insert_ne in Hi by done.
      assert (entries fs i = Some esi) as Hi' by (apply entries_inode; eauto).
      destruct (tree_leads _ Htree _ _ _ _ Hi' Hc). congruence. }
  apply link_count_one. intros d1 d2 es1 es2 n1 n2 H1 Hn1 H2 Hn2.
  destruct (Hone _ _ _ H1 Hn1), (Hone _ _ _ H2 Hn2). split; congruence.
Qed.

(** Link counts do not depend on permissions. *)
#[export] Instance link_count_proper : Proper (modes ==> eq ==> eq) link_count.
Proof.
  intros fs fs' H i _ <-. unfold link_count. f_equal.
  assert (∀ fs, map_fold (λ _ n acc, names_in i (i_kind n) + acc)%nat 0%nat (fs_inodes fs) =
    map_fold (λ _ k acc, names_in i k + acc)%nat 0%nat (i_kind <$> fs_inodes fs)) as Hk.
  { intros fs0. by rewrite map_fold_fmap. }
  rewrite !Hk. f_equal. apply map_eq. intros j. rewrite !lookup_fmap. symmetry. apply (modes_kind _ _ H).
Qed.
