(* ===== verification/AuthSecurity.v ===== *)
(** * Session tokens and the public key set (src/pkg/authsecurity)

    Minting and validation of access and refresh tokens, token identifiers and
    digests, and the JSON Web Key Set. The JWT library is a parameter, the record
    [JWT]; the class [JWTSpec] states the documented behaviour of it that the code
    relies on. The P-256 curve is the standard one, so [IsOnCurve] is executable. *)

From stdpp Require Import prelude strings gmap.
From Stdlib Require Import ZArith Lia Ascii.
From S2P Require Import Json Marshal Wire Prelude GoStrings Password FileSystem Tables Store Sha256.

Local Open Scope Z_scope.
Local Open Scope m_scope.

Definition AccessTokenIssuer : string := "casaos".
Definition RefreshTokenIssuer : string := "refresh".
Definition maxTokenSize : N := 8192.
Definition AccessTokenLifetime : Z := 3 * hour.
Definition RefreshTokenLifetime : Z := 7 * 24 * hour.
Definition maxSessionTokenIDBytes : nat := 16.

(** ** Keys *)

Inductive Curve := P256 | OtherCurve (name : string).

#[export] Instance Curve_eq_dec : EqDecision Curve.
Proof. solve_decision. Defined.

(** [ecdsa.PublicKey]; the coordinates are pointers. *)
Record PublicKey := mkPublicKey {
  pk_Curve : Curve;
  pk_X : option Z;
  pk_Y : option Z;
}.

Record PrivateKey := mkPrivateKey {
  sk_Public : PublicKey;
  sk_D : Z;
}.

Definition p256_p : Z := 0xffffffff00000001000000000000000000000000ffffffffffffffffffffffff.
Definition p256_b : Z := 0x5ac635d8aa3a93e7b3ebbd55769886bc651d06b0cc53b0f63bce3c3e27d2604b.

(** [elliptic.P256().IsOnCurve]: coordinates in the field, on the curve, and not
    the encoding (0, 0) of the point at infinity. *)
Definition p256_IsOnCurve (x y : Z) : bool :=
  (0 <=? x) && (x <? p256_p) && (0 <=? y) && (y <? p256_p) &&
  negb ((x =? 0) && (y =? 0)) &&
  ((y * y) mod p256_p =? (x * x * x - 3 * x + p256_b) mod p256_p).

(** The check both validators and the JWKS writer make of a public key. *)
Definition usableKey (key : option PublicKey) : bool :=
  match key with
  | None => false
  | Some key =>
     if negb (bool_decide (pk_Curve key = P256)) then false
     else match pk_X key, pk_Y key with
          | Some x, Some y => p256_IsOnCurve x y
          | _, _ => false
          end
  end.

(** ** Claims *)

(** [jwt.RegisteredClaims], the fields the service uses; dates are pointers. *)
Record RegisteredClaims := mkRegistered {
  Issuer : string;
  Subject : string;
  jti : string;
  IssuedAt : option Z;
  NotBefore : option Z;
  ExpiresAt : option Z;
}.

Record SessionClaims := mkSessionClaims {
  sc_Registered : RegisteredClaims;
  sc_Username : string;
  sc_UserID : Z;
  sc_TokenVersion : Z;
}.

(** The claims shape of the CasaOS-Common library. *)
Record CommonClaims := mkCommonClaims {
  cc_Registered : RegisteredClaims;
  cc_Username : string;
  cc_ID : Z;
}.

(** ** The JWT library *)

(** A signing method, by its [Alg()] name; the methods of the library are
    singletons, so comparing pointers compares names. *)
Abbreviation SigningMethod := string.
Definition SigningMethodES256 : SigningMethod := "ES256".

Record Token := mkToken {
  t_Method : SigningMethod;
  t_Valid : bool;
  (** [token.Claims] is the object that was passed in. *)
  t_OwnClaims : bool;
}.

(** What [ParseWithClaims] leaves behind: the token, the error and the content
    of the claims object. *)
Record Parsed (C : Type) := mkParsed {
  p_Token : option Token;
  p_Err : option goerr;
  p_Claims : C;
}.
Arguments mkParsed {C}.
Arguments p_Token {C}.
Arguments p_Err {C}.
Arguments p_Claims {C}.

(** A key function: from the unverified token to the key. *)
Definition Keyfunc : Type := option Token → res PublicKey.

Record JWT (C : Type) := mkJWT {
  NewNumericDate : Z → Z;
  SignedString : PrivateKey → C → M (res string);
  (** The token, the key function, [WithValidMethods], and the time the library
      reads from its clock. *)
  ParseWithClaims : string → Keyfunc → list SigningMethod → Z → Parsed C;
}.
Arguments mkJWT {C}.
Arguments NewNumericDate {C}.
Arguments SignedString {C}.
Arguments ParseWithClaims {C}.

(** ** Identifiers and digests *)

Definition NewTokenID : M (res string) :=
  raw <- rand_Read maxSessionTokenIDBytes;;
  mret match raw with
       | None => Err ErrSessionTokenID
       | Some raw => Ok (hex_encode raw)
       end.

Definition TokenSHA256 (token : string) : string := hex_encode (sha256_Sum256 token).

(** ** Minting *)

Section Mint.
Context (J : JWT SessionClaims).

Definition mintSessionToken (username : string) (userID tokenVersion : Z) (tokenID issuer : string)
    (lifetime : Z) (privateKey : option PrivateKey) : M (res string) :=
  match privateKey with
  | None => mret (Err ErrInvalidSessionToken)
  | Some privateKey =>
     if bool_decide (username = "") || (userID <? 1) || bool_decide (tokenID = "") ||
        (tokenVersion <? 0)
     then mret (Err ErrInvalidSessionToken)
     else
       now <- time_Now;;
       let claims := mkSessionClaims
         (mkRegistered issuer username tokenID (Some (NewNumericDate J now))
            (Some (NewNumericDate J now)) (Some (NewNumericDate J (now + lifetime))))
         username userID tokenVersion in
       ok signed <- SignedString J privateKey claims;;
       mret (Ok signed)
  end.

Definition MintAccessToken (username : string) (userID tokenVersion : Z) (tokenID : string)
    (privateKey : option PrivateKey) : M (res string) :=
  mintSessionToken username userID tokenVersion tokenID AccessTokenIssuer AccessTokenLifetime privateKey.

Definition MintRefreshToken (username : string) (userID tokenVersion : Z) (tokenID : string)
    (privateKey : option PrivateKey) : M (res string) :=
  mintSessionToken username userID tokenVersion tokenID RefreshTokenIssuer RefreshTokenLifetime privateKey.
End Mint.

(** ** Validation *)

(** The key function of both validators: ES256 only, and a usable P-256 key.
    [publicKey] is what the caller's accessor returns. *)
Definition keyfuncFor (publicKey : res (option PublicKey)) (invalid : goerr) : Keyfunc := λ parsed,
  match parsed with
  | None => Err invalid
  | Some parsed =>
     if negb (bool_decide (t_Method parsed = SigningMethodES256)) then Err invalid
     else match publicKey with
          | Err _ => Err invalid
          | Ok key => match key with
                      | Some k => if usableKey key then Ok k else Err invalid
                      | None => Err invalid
                      end
          end
  end.

(** [err != nil || parsed == nil || !parsed.Valid || parsed.Claims != claims]. *)
Definition parseFailed {C} (p : Parsed C) : bool :=
  match p_Err p, p_Token p with
  | None, Some parsed => negb (t_Valid parsed) || negb (t_OwnClaims parsed)
  | _, _ => true
  end.

Definition isNil {A} (o : option A) : bool := match o with None => true | Some _ => false end.

(** The nil checks on the three dates. *)
Definition datesMissing (r : RegisteredClaims) : bool :=
  isNil (ExpiresAt r) || isNil (IssuedAt r) || isNil (NotBefore r).

Definition validateSessionToken (J : JWT SessionClaims) (token issuer : string)
    (publicKey : option (res (option PublicKey))) : M (res SessionClaims) :=
  match publicKey with
  | None => mret (Err ErrInvalidSessionToken)
  | Some publicKey =>
     if bool_decide (token = "") || (maxTokenSize <? len token)%N
     then mret (Err ErrInvalidSessionToken)
     else
       now <- time_Now;;
       let p := ParseWithClaims J token (keyfuncFor publicKey ErrInvalidSessionToken)
                  [SigningMethodES256] now in
       let claims := p_Claims p in
       let r := sc_Registered claims in
       if parseFailed p || negb (bool_decide (Issuer r = issuer)) || bool_decide (jti r = "") ||
          (sc_UserID claims <? 1) || bool_decide (sc_Username claims = "") ||
          negb (bool_decide (Subject r = sc_Username claims)) || (sc_TokenVersion claims <? 0) ||
          datesMissing r
       then mret (Err ErrInvalidSessionToken)
       else mret (Ok claims)
  end.

Definition ValidateSessionAccessToken J token publicKey :=
  validateSessionToken J token AccessTokenIssuer publicKey.
Definition ValidateSessionRefreshToken J token publicKey :=
  validateSessionToken J token RefreshTokenIssuer publicKey.

(** The validators of [token.go], on the claims of CasaOS-Common. *)
Definition validateToken (J : JWT CommonClaims) (token issuer : string)
    (publicKey : option (res (option PublicKey))) (invalidError : goerr) : M (res CommonClaims) :=
  match publicKey with
  | None => mret (Err invalidError)
  | Some publicKey =>
     if bool_decide (token = "") || (maxTokenSize <? len token)%N
     then mret (Err invalidError)
     else
       now <- time_Now;;
       let p := ParseWithClaims J token (keyfuncFor publicKey invalidError)
                  [SigningMethodES256] now in
       let claims := p_Claims p in
       let r := cc_Registered claims in
       if parseFailed p || negb (bool_decide (Issuer r = issuer)) || (cc_ID claims <? 1) ||
          bool_decide (cc_Username claims = "") || datesMissing r
       then mret (Err invalidError)
       else mret (Ok claims)
  end.

Definition ValidateAccessToken J token publicKey :=
  validateToken J token AccessTokenIssuer publicKey ErrInvalidAccessToken.
Definition ValidateRefreshToken J token publicKey :=
  validateToken J token RefreshTokenIssuer publicKey ErrInvalidRefreshToken.

(** ** The JSON Web Key Set *)

Definition p256CoordinateBytes : nat := 32.

Record publicJWK := mkPublicJWK {
  KeyType : string;
  jwk_Curve : string;
  X : string;
  Y : string;
}.

(** [big.Int.FillBytes] on a buffer of [k] bytes; it panics when the value does
    not fit, which the curve check excludes. *)
Definition FillBytes (k : nat) (x : Z) : string := string_of_bytes (big_endian k (Z.to_N x)).

(** The URL-safe alphabet replaces the two non-alphanumeric digits. *)
Definition url_byte (a : ascii) : ascii :=
  if bool_decide (a = "+"%char) then "-"%char
  else if bool_decide (a = "/"%char) then "_"%char else a.

(** [base64.RawURLEncoding.EncodeToString]. *)
Definition base64url_encode (s : string) : string := map_bytes url_byte (base64_encode s).

Record publicJWKS := mkPublicJWKS { Keys : goslice publicJWK }.

(** [json.Marshal] of the key set. *)
Definition JWK_doc (k : publicJWK) : doc :=
  DObject [("kty", DText (KeyType k)); ("crv", DText (jwk_Curve k)); ("x", DText (X k)); ("y", DText (Y k))].

Definition JWKS_doc (keys : publicJWKS) : doc := DObject [("keys", sliceDoc JWK_doc (Keys keys))].

Definition marshalJWKS (keys : publicJWKS) : string := print (JWKS_doc keys).

(** The single key [GeneratePublicJWKS] publishes. *)
Definition jwkOf (x y : Z) : publicJWK :=
  mkPublicJWK "EC" "P-256" (base64url_encode (FillBytes p256CoordinateBytes x))
    (base64url_encode (FillBytes p256CoordinateBytes y)).

Definition GeneratePublicJWKS (publicKey : option PublicKey) : res string :=
  match publicKey with
  | Some (mkPublicKey _ (Some x) (Some y)) =>
     if usableKey publicKey then Ok (marshalJWKS (mkPublicJWKS (slice_from [jwkOf x y])))
     else Err (NewError "JWKS requires a valid P-256 public key")
  | _ => Err (NewError "JWKS requires a valid P-256 public key")
  end.

(** ** The library's documented behaviour *)

(** Claims that survive the JSON encoding unchanged: ASCII text, integers of the
    machine's width, dates on whole seconds. *)
Definition ascii_text (s : string) : bool := all_bytes (λ a, (byte_val a <? 128)%N) s.

Definition int64 (z : Z) : Prop := 0 ≤ z < 2 ^ 63.

Definition whole_second (d : option Z) : Prop :=
  ∃ t, d = Some (t * second) ∧ int64 t.

Record encodable (c : SessionClaims) : Prop := {
  enc_text : ascii_text (Issuer (sc_Registered c)) && ascii_text (Subject (sc_Registered c)) &&
             ascii_text (jti (sc_Registered c)) && ascii_text (sc_Username c) = true;
  enc_user : int64 (sc_UserID c);
  enc_version : int64 (sc_TokenVersion c);
  enc_iat : whole_second (IssuedAt (sc_Registered c));
  enc_nbf : whole_second (NotBefore (sc_Registered c));
  enc_exp : whole_second (ExpiresAt (sc_Registered c));
}.

(** The dates allow use at time [now]. *)
Definition in_force (r : RegisteredClaims) (now : Z) : Prop :=
  (∀ t, IssuedAt r = Some t → t ≤ now) ∧ (∀ t, NotBefore r = Some t → t ≤ now) ∧
  (∀ t, ExpiresAt r = Some t → now < t).

(** What the code relies on of the JWT library. [decode] is the content of a
    token; [genuine k t] says that the signature of [t] verifies under [k]. *)
Class JWTSpec (J : JWT SessionClaims) (decode : string → option (SigningMethod * SessionClaims))
    (genuine : PublicKey → string → Prop) : Prop := {
  jwt_date t : 0 ≤ t → ∃ s, NewNumericDate J t = s * second ∧ s * second ≤ t < (s + 1) * second;
  jwt_sign k c w : alone w →
    post (SignedString J k c) w (λ r w', runs w w' ∧ w_db w' = w_db w ∧ w_fs w' = w_fs w ∧
      w_clock w' = w_clock w ∧
      ∀ t, r = Ok t → encodable c →
        decode t = Some (SigningMethodES256, c) ∧ genuine (sk_Public k) t);
  jwt_parse_sound t kf ms now tok :
    p_Err (ParseWithClaims J t kf ms now) = None →
    p_Token (ParseWithClaims J t kf ms now) = Some tok → t_Valid tok = true →
    decode t = Some (t_Method tok, p_Claims (ParseWithClaims J t kf ms now)) ∧
    t_Method tok ∈ ms ∧
    in_force (sc_Registered (p_Claims (ParseWithClaims J t kf ms now))) now ∧
    ∃ tok' k, t_Method tok' = t_Method tok ∧ kf (Some tok') = Ok k ∧ genuine k t;
  jwt_parse_complete t kf ms now m c k :
    decode t = Some (m, c) → genuine k t → m ∈ ms →
    (∀ tok, t_Method tok = m → kf (Some tok) = Ok k) →
    in_force (sc_Registered c) now →
    ParseWithClaims J t kf ms now = mkParsed (Some (mkToken m true true)) None c;
}.

(** Claims a validator may return. *)
Record wellFormed (issuer : string) (c : SessionClaims) : Prop := {
  wf_issuer : Issuer (sc_Registered c) = issuer;
  wf_jti : jti (sc_Registered c) ≠ "";
  wf_user : 1 ≤ sc_UserID c;
  wf_name : sc_Username c ≠ "";
  wf_subject : Subject (sc_Registered c) = sc_Username c;
  wf_version : 0 ≤ sc_TokenVersion c;
  wf_dates : datesMissing (sc_Registered c) = false;
}.

(** The claims a mint at time [now] signs. *)
Definition mintedClaims (J : JWT SessionClaims) (username : string) (userID tokenVersion : Z)
    (tokenID issuer : string) (lifetime now : Z) : SessionClaims :=
  mkSessionClaims
    (mkRegistered issuer username tokenID (Some (NewNumericDate J now))
       (Some (NewNumericDate J now)) (Some (NewNumericDate J (now + lifetime))))
    username userID tokenVersion.

Section Tokens.
Context (J : JWT SessionClaims) (decode : string → option (SigningMethod * SessionClaims))
        (genuine : PublicKey → string → Prop) `{!JWTSpec J decode genuine}.

Lemma mintSessionToken_spec username userID tokenVersion tokenID issuer lifetime key w :
  alone w →
  post (mintSessionToken J username userID tokenVersion tokenID issuer lifetime key) w (λ r w',
    runs w w' ∧ w_db w' = w_db w ∧ w_fs w' = w_fs w ∧ w_clock w' = w_clock w ∧
    ∀ t, r = Ok t → ∃ k, key = Some k ∧
      username ≠ "" ∧ 1 ≤ userID ∧ tokenID ≠ "" ∧ 0 ≤ tokenVersion ∧
      (encodable (mintedClaims J username userID tokenVersion tokenID issuer lifetime (w_clock w)) →
       decode t = Some (SigningMethodES256,
         mintedClaims J username userID tokenVersion tokenID issuer lifetime (w_clock w)) ∧
       genuine (sk_Public k) t)).
Proof.
  intros Hw. unfold mintSessionToken. destruct key as [k|]; [|m_step; split_and!; eauto with store; done].
  m_step; [m_step; split_and!; eauto with store; done|]. bool_split.
  do 3 m_step. m_use jwt_sign as r w1 (Hr & Hd & Hf & Hc & Hs).
  destruct r as [t|e]; repeat m_step; split_and!; eauto with store; try done.
  intros ? [= <-]. exists k. split_and!; try done. intros He. by apply Hs.
Qed.

Lemma NewTokenID_spec w : alone w →
  post NewTokenID w (λ r w', runs w w' ∧ w_db w' = w_db w ∧ w_fs w' = w_fs w ∧ w_clock w' = w_clock w ∧
    match r with
    | Ok id => String.length id = 32%nat ∧ ascii_text id = true
    | Err e => e = ErrSessionTokenID
    end).
Proof.
  intros Hw. unfold NewTokenID. m_step. unfold post, rand_Read.
  destruct (Nat.leb_spec maxSessionTokenIDBytes (String.length (w_entropy w))) as [Hl|Hl].
  - cbn [fst snd mret]. split_and!; try done.
    + by rewrite hex_encode_length, take_bytes_length.
    + generalize (take_bytes maxSessionTokenIDBytes (w_entropy w)). intros s. unfold ascii_text.
      induction s as [|[b0 b1 b2 b3 b4 b5 b6 b7] s IH]; [done|]. cbn [hex_encode all_bytes].
      rewrite IH, andb_true_r. by destruct b0, b1, b2, b3, b4, b5, b6, b7.
  - cbn [fst snd mret]. split_and!; eauto with store.
Qed.

(** What acceptance by a validator establishes. *)
Lemma validateSessionToken_sound token issuer publicKey w c :
  fst (validateSessionToken J token issuer publicKey w) = Ok c →
  wellFormed issuer c ∧ decode token = Some (SigningMethodES256, c) ∧
  token ≠ "" ∧ (len token ≤ maxTokenSize)%N ∧
  in_force (sc_Registered c) (w_clock w) ∧
  ∃ key, publicKey = Some (Ok (Some key)) ∧ usableKey (Some key) = true ∧ genuine key token.
Proof.
  unfold validateSessionToken. destruct publicKey as [pk|]; [|done].
  destruct (bool_decide (token = "") || _) eqn:Hsize; [done|].
  apply orb_false_elim in Hsize as [Hne%bool_decide_eq_false Hlen%N.ltb_ge].
  unfold mbind, time_Now. set (p := ParseWithClaims J token _ _ _).
  match goal with |- context [if ?b then _ else _] => destruct b eqn:Hb end; [done|].
  intros [= <-]. bool_split.
  match goal with H : parseFailed p = false |- _ => unfold parseFailed in H;
    destruct (p_Err p) eqn:He; [done|]; destruct (p_Token p) as [tok|] eqn:Ht; [|done] end.
  bool_split.
  destruct (jwt_parse_sound token _ _ _ tok He Ht ltac:(done)) as (Hdec & Hm & Hforce & tok' & k & Hm' & Hk & Hgen).
  fold p in Hdec, Hforce. apply list_elem_of_singleton in Hm. rewrite Hm in Hdec, Hm'.
  split_and!; try done.
  exists k. unfold keyfuncFor in Hk. rewrite Hm', bool_decide_eq_true_2 in Hk by done. simpl in Hk.
  destruct pk as [[key|]|]; try done. destruct (usableKey (Some key)) eqn:Hu; [|done].
  by simplify_eq.
Qed.

(** A token that decodes to well-formed claims in force, genuine under a usable
    key, is accepted. *)
Lemma validateSessionToken_complete token issuer key w c :
  decode token = Some (SigningMethodES256, c) → genuine key token →
  usableKey (Some key) = true → wellFormed issuer c →
  token ≠ "" → (len token ≤ maxTokenSize)%N → in_force (sc_Registered c) (w_clock w) →
  validateSessionToken J token issuer (Some (Ok (Some key))) w = (Ok c, w).
Proof.
  intros Hdec Hgen Hu [] Hne Hlen Hforce. unfold validateSessionToken.
  rewrite bool_decide_eq_false_2 by done. rewrite (proj2 (N.ltb_ge _ _) Hlen). cbn [orb].
  unfold mbind, time_Now. cbv beta iota zeta.
  erewrite jwt_parse_complete; [|done|done|by left| |done].
  - simpl. rewrite (bool_decide_eq_true_2 (Issuer _ = issuer)) by done.
    rewrite (bool_decide_eq_false_2 (jti _ = "")) by done.
    rewrite (bool_decide_eq_false_2 (sc_Username c = "")) by done.
    rewrite (bool_decide_eq_true_2 (Subject _ = _)) by done.
    rewrite (proj2 (Z.ltb_ge _ _) wf_user0), (proj2 (Z.ltb_ge _ _) wf_version0), wf_dates0. done.
  - intros tok Hm. unfold keyfuncFor. rewrite bool_decide_eq_true_2 by done. cbn [negb]. by rewrite Hu.
Qed.
End Tokens.

(** ** A concrete library for the witnesses *)

Module ToyJWT.
Definition field (s : string) : string := hex_encode s.

Definition keyText (k : PublicKey) : string := match pk_X k with Some x => Itoa x | None => "" end.

Definition date (d : option Z) : string :=
  match d with Some t => Itoa (t / second) | None => "" end.

Definition encode (k : PublicKey) (c : SessionClaims) : string :=
  let r := sc_Registered c in
  join_with "." ["e"; join_with "_" [field (Issuer r); field (Subject r); field (jti r);
    field (sc_Username c); field (Itoa (sc_UserID c)); field (Itoa (sc_TokenVersion c));
    field (date (IssuedAt r)); field (date (NotBefore r)); field (date (ExpiresAt r));
    field (keyText k)]; "s"].

(** The fields between the two dots. *)
Definition payload (t : string) : list string :=
  match split_on "." t with
  | [_; body; _] => split_on "_" body
  | _ => []
  end.

Definition number (s : string) : option Z := hex_decode s ≫= Atoi.

Definition decodeFields (parts : list string) : option (SigningMethod * SessionClaims) :=
  match parts with
  | [iss; sub; id; name; user; version; iat; nbf; exp; _] =>
     iss ← hex_decode iss; sub ← hex_decode sub; id ← hex_decode id; name ← hex_decode name;
     user ← number user; version ← number version;
     iat ← number iat; nbf ← number nbf; exp ← number exp;
     Some (SigningMethodES256, mkSessionClaims
       (mkRegistered iss sub id (Some (iat * second)) (Some (nbf * second)) (Some (exp * second)))
       name user version)
  | _ => None
  end.

Definition decode (t : string) : option (SigningMethod * SessionClaims) :=
  decodeFields (payload t).

Definition genuine (k : PublicKey) (t : string) : Prop :=
  last (payload t) = Some (field (keyText k)).

#[export] Instance genuine_dec k t : Decision (genuine k t).
Proof. unfold genuine. apply _. Defined.

Definition in_forceb (r : RegisteredClaims) (now : Z) : bool :=
  match IssuedAt r, NotBefore r, ExpiresAt r with
  | Some i, Some n, Some e => (i <=? now) && (n <=? now) && (now <? e)
  | _, _, _ => false
  end.

Definition zeroClaims : SessionClaims :=
  mkSessionClaims (mkRegistered "" "" "" None None None) "" 0 0.

Definition parse (t : string) (kf : Keyfunc) (ms : list SigningMethod) (now : Z) : Parsed SessionClaims :=
  match decode t with
  | Some (m, c) =>
     match kf (Some (mkToken m false true)) with
     | Ok k =>
        if bool_decide (m ∈ ms) && bool_decide (genuine k t) && in_forceb (sc_Registered c) now
        then mkParsed (Some (mkToken m true true)) None c
        else mkParsed (Some (mkToken m false true)) (Some (NewError "token is unverifiable")) c
     | Err e => mkParsed (Some (mkToken m false true)) (Some e) c
     end
  | None => mkParsed None (Some (NewError "malformed")) zeroClaims
  end.

Definition jwt : JWT SessionClaims :=
  mkJWT (λ t, t / second * second) (λ k c, mret (Ok (encode (sk_Public k) c))) parse.

Lemma field_plain a s : a = "."%char ∨ a = "_"%char → contains_byte a (field s) = false.
Proof.
  unfold field. intros Ha. induction s as [|[b0 b1 b2 b3 b4 b5 b6 b7] s IH]; [done|].
  cbn [hex_encode contains_byte]. rewrite IH. destruct Ha as [-> | ->]; by destruct b0, b1, b2, b3, b4, b5, b6, b7.
Qed.

Lemma number_field z : int64 z → number (field (Itoa z)) = Some z.
Proof. intros Hz. unfold number, field. rewrite hex_decode_encode. by apply Atoi_Itoa. Qed.

Lemma date_field d : whole_second d → ∃ t, d = Some (t * second) ∧ number (field (date d)) = Some t.
Proof.
  intros (t & -> & Ht). exists t. split; [done|]. unfold date.
  rewrite Z.div_mul by done. by apply number_field.
Qed.

Lemma payload_encode k c : payload (encode k c)
  = let r := sc_Registered c in
    [field (Issuer r); field (Subject r); field (jti r); field (sc_Username c);
     field (Itoa (sc_UserID c)); field (Itoa (sc_TokenVersion c));
     field (date (IssuedAt r)); field (date (NotBefore r)); field (date (ExpiresAt r));
     field (keyText k)].
Proof.
  unfold payload, encode. rewrite split_join; [|done|].
  - apply split_join; [done|]. repeat constructor; apply field_plain; by right.
  - repeat constructor. apply join_plain; [done|]. repeat constructor; apply field_plain; by left.
Qed.

Lemma decode_encode k c : encodable c → decode (encode k c) = Some (SigningMethodES256, c).
Proof.
  intros [_ Hu Hv (i & Hi & Hi')%date_field (n & Hn & Hn')%date_field (e & He & He')%date_field].
  unfold decode. rewrite payload_encode. cbv zeta. unfold decodeFields.
  rewrite Hi', Hn', He', !number_field by done. unfold field. rewrite !hex_decode_encode. simpl.
  destruct c as [[] ? ? ?]. simpl in *. by subst.
Qed.

Lemma in_forceb_spec r now :
  datesMissing r = false → in_force r now ↔ in_forceb r now = true.
Proof.
  unfold datesMissing, in_forceb, in_force. intros Hd.
  destruct (IssuedAt r), (NotBefore r), (ExpiresAt r); try done.
  rewrite !andb_true_iff, !Z.leb_le, Z.ltb_lt. naive_solver.
Qed.

Lemma decode_dates t m c :
  decode t = Some (m, c) → datesMissing (sc_Registered c) = false.
Proof.
  unfold decode, decodeFields. intros Hd.
  repeat (case_match; try discriminate). by simplify_option_eq.
Qed.

#[export] Instance jwt_spec : JWTSpec jwt decode genuine.
Proof.
  split.
  - intros t Ht. exists (t / second). split; [done|].
    pose proof (Z.div_mod t second ltac:(done)). pose proof (Z.mod_pos_bound t second ltac:(done)). lia.
  - intros k c w Hw. unfold post. simpl. split_and!; eauto with store.
    intros ? [= <-] He. split; [by apply decode_encode|]. unfold genuine. by rewrite payload_encode.
  - intros t kf ms now tok. simpl. unfold parse. destruct (decode t) as [[m c]|] eqn:Hd; [|done].
    destruct (kf _) as [k|] eqn:Hk; [|done]. destruct (_ && _) eqn:Hb; [|done].
    simpl. intros _ [= <-] _. bool_split. simpl. split_and!; try done.
    + apply in_forceb_spec; [by eapply decode_dates|done].
    + by exists (mkToken m false true), k.
  - intros t kf ms now m c k Hd Hg Hm Hk Hf. simpl. unfold parse. rewrite Hd, Hk by done.
    apply decode_dates in Hd. apply in_forceb_spec in Hf; [|done].
    by rewrite !bool_decide_eq_true_2, Hf.
Qed.
End ToyJWT.

(** ** Coordinates are published at full width *)

(** [big.Int.SetBytes]. *)
Definition SetBytes (s : string) : Z := foldl (λ acc b, 256 * acc + Z.of_N b) 0 (bytes_of s).

Definition std_byte (a : ascii) : ascii :=
  if bool_decide (a = "-"%char) then "+"%char
  else if bool_decide (a = "_"%char) then "/"%char else a.

(** [base64.RawURLEncoding.Strict().DecodeString] on text without line breaks. *)
Definition base64url_decode (s : string) : option string :=
  if contains_any "+/" s then None else base64_decode (map_bytes std_byte s).

Lemma map_bytes_std_url s : all_bytes is_base64 s = true → map_bytes std_byte (map_bytes url_byte s) = s.
Proof.
  induction s as [|a s IH]; [done|]. cbn [all_bytes map_bytes]. intros [Ha Hs]%andb_prop.
  rewrite IH by done. f_equal. revert Ha. by destruct a as [[] [] [] [] [] [] [] []].
Qed.

Lemma url_no_std s : contains_any "+/" (map_bytes url_byte s) = false.
Proof.
  induction s as [|a s IH]; [done|]. cbn [map_bytes contains_any]. rewrite IH, orb_false_r.
  by destruct a as [[] [] [] [] [] [] [] []].
Qed.

Lemma base64url_decode_encode s : base64url_decode (base64url_encode s) = Some s.
Proof.
  unfold base64url_decode, base64url_encode. rewrite url_no_std, map_bytes_std_url.
  - apply base64_decode_encode.
  - apply string_of_sextets_class.
Qed.

Lemma bytes_of_string l : Forall (λ b, (b < 256)%N) l → bytes_of (string_of_bytes l) = l.
Proof.
  induction 1 as [|b l Hb Hl IH]; [done|]. simpl. unfold byte_val. by rewrite N_ascii_embedding, IH.
Qed.

Lemma big_endian_bytes k n : Forall (λ b, (b < 256)%N) (big_endian k n).
Proof.
  induction k as [|k IH]; [constructor|]. simpl. constructor; [|done].
  change 255%N with (N.ones 8). rewrite N.land_ones. by apply N.mod_lt.
Qed.

Lemma big_endian_value k n acc :
  foldl (λ acc b, 256 * acc + Z.of_N b) acc (big_endian k n)
  = acc * 2 ^ (8 * Z.of_nat k) + Z.of_N n mod 2 ^ (8 * Z.of_nat k).
Proof.
  revert acc. induction k as [|k IH]; intros acc.
  { simpl. rewrite Z.mod_1_r. lia. }
  cbn [big_endian foldl]. rewrite IH.
  change 255%N with (N.ones 8). rewrite N.land_ones, N.shiftr_div_pow2, N2Z.inj_mod, N2Z.inj_div, !N2Z.inj_pow.
  replace (Z.of_N (8 * N.of_nat k)) with (8 * Z.of_nat k) by lia.
  replace (8 * Z.of_nat (S k)) with (8 * Z.of_nat k + 8) by lia.
  rewrite Z.pow_add_r by lia. set (B := 2 ^ (8 * Z.of_nat k)).
  assert (0 < B) by (unfold B; lia). change (Z.of_N 2 ^ Z.of_N 8) with 256. change (2 ^ 8) with 256.
  change (Z.of_N 2) with 2. fold B. rewrite Z.rem_mul_r by lia. lia.
Qed.

Lemma SetBytes_FillBytes k x : 0 ≤ x < 2 ^ (8 * Z.of_nat k) → SetBytes (FillBytes k x) = x.
Proof.
  intros Hx. unfold SetBytes, FillBytes. rewrite bytes_of_string by apply big_endian_bytes.
  rewrite big_endian_value, Z2N.id by lia. rewrite Z.mod_small by lia. lia.
Qed.

Lemma usableKey_range x y c :
  usableKey (Some (mkPublicKey c (Some x) (Some y))) = true →
  c = P256 ∧ 0 ≤ x < 2 ^ 256 ∧ 0 ≤ y < 2 ^ 256 ∧ p256_IsOnCurve x y = true.
Proof.
  unfold usableKey. simpl. destruct (bool_decide_reflect (c = P256)) as [->|]; [|done]. simpl.
  intros Hon. split; [done|]. pose proof Hon as Hon'. unfold p256_IsOnCurve in Hon'. bool_split.
  assert (p256_p < 2 ^ 256) by done. split_and!; try done; lia.
Qed.

(** ** Properties *)

(** C8. Round trip of session tokens: a token minted for a user validates, with
    the same key and in the same class, at any time from its creation until one
    second before the end of its lifetime, and yields exactly the identity, the
    credential generation and the token identifier it was minted with. *)
Theorem mint_validate_roundtrip (J : JWT SessionClaims)
    (decode : string → option (SigningMethod * SessionClaims)) (genuine : PublicKey → string → Prop)
    (username : string) (userID tokenVersion : Z) (tokenID issuer : string) (lifetime : Z)
    (key : PrivateKey) (token : string) (w w1 w2 : World) :
  JWTSpec J decode genuine → alone w →
  mintSessionToken J username userID tokenVersion tokenID issuer lifetime (Some key) w = (Ok token, w1) →
  encodable (mintedClaims J username userID tokenVersion tokenID issuer lifetime (w_clock w)) →
  usableKey (Some (sk_Public key)) = true →
  token ≠ "" → (len token ≤ maxTokenSize)%N →
  0 ≤ w_clock w → 0 ≤ lifetime →
  w_clock w ≤ w_clock w2 → w_clock w2 ≤ w_clock w + lifetime - second →
  fst (validateSessionToken J token issuer (Some (Ok (Some (sk_Public key)))) w2)
    = Ok (mintedClaims J username userID tokenVersion tokenID issuer lifetime (w_clock w)).
Proof.
  intros HJ Hw Hrun Henc Hu Hne Hlen H0 Hlife Hlo Hhi.
  destruct (post_run _ _ _ (mintSessionToken_spec J decode genuine username userID tokenVersion
    tokenID issuer lifetime (Some key) w Hw) _ _ Hrun) as (_ & _ & _ & _ & Ht).
  destruct (Ht token eq_refl) as (k & [= <-] & Hname & Hid & Hjti & Hver & Hdec).
  destruct (Hdec Henc) as [Hd Hg].
  rewrite (validateSessionToken_complete J decode genuine _ _ _ _ _ Hd Hg Hu); try done.
  destruct (jwt_date (w_clock w)) as (s & Hs & Hs1); [lia|].
  destruct (jwt_date (w_clock w + lifetime)) as (s' & Hs' & Hs1'); [lia|].
  unfold in_force, mintedClaims. simpl. rewrite Hs, Hs'.
  split_and!; intros ? [= <-]; unfold second in *; lia.
Qed.

Definition toyKey : PublicKey := mkPublicKey P256
  (Some 0x6b17d1f2e12c4247f8bce6e563a440f277037d812deb33a0f4a13945d898c296)
  (Some 0x4fe342e2fe1a7f9b8ee7eb4a7c0f9e162bce33576b315ececbb6406837bf51f5).

Definition toyPrivate : PrivateKey := mkPrivateKey toyKey 1.

Definition idleWorld : World :=
  mkWorld emptyDatabase emptyFS (2000 * hour) (λ _, quietEvent) false "" [].

Definition laterWorld : World :=
  mkWorld emptyDatabase emptyFS (2002 * hour) (λ _, quietEvent) false "" [].

Abbreviation toyMint := (mintSessionToken ToyJWT.jwt "ann" 7 2 "aabb" AccessTokenIssuer
  AccessTokenLifetime (Some toyPrivate) idleWorld).

Definition toyToken : string :=
  ToyJWT.encode toyKey (mintedClaims ToyJWT.jwt "ann" 7 2 "aabb" AccessTokenIssuer AccessTokenLifetime (2000 * hour)).

Lemma toyClaims_encodable : encodable
  (mintedClaims ToyJWT.jwt "ann" 7 2 "aabb" AccessTokenIssuer AccessTokenLifetime (w_clock idleWorld)).
Proof.
  split.
  - reflexivity.
  - unfold int64. cbn [sc_UserID mintedClaims]. lia.
  - unfold int64. cbn [sc_TokenVersion mintedClaims]. lia.
  - exists 7200000. split; [vm_compute; reflexivity|unfold int64; lia].
  - exists 7200000. split; [vm_compute; reflexivity|unfold int64; lia].
  - exists 7210800. split; [vm_compute; reflexivity|unfold int64; lia].
Qed.

Lemma mint_validate_roundtrip_witness :
  fst (validateSessionToken ToyJWT.jwt toyToken AccessTokenIssuer (Some (Ok (Some toyKey))) laterWorld)
  = Ok (mintedClaims ToyJWT.jwt "ann" 7 2 "aabb" AccessTokenIssuer AccessTokenLifetime (2000 * hour)).
Proof.
  apply (mint_validate_roundtrip ToyJWT.jwt ToyJWT.decode ToyJWT.genuine "ann" 7 2 "aabb"
    AccessTokenIssuer AccessTokenLifetime toyPrivate toyToken idleWorld (snd toyMint) laterWorld).
  - apply ToyJWT.jwt_spec.
  - intros n. split; reflexivity.
  - apply run_pair. vm_compute. reflexivity.
  - apply toyClaims_encodable.
  - vm_compute. reflexivity.
  - vm_compute. congruence.
  - vm_compute. congruence.
  - vm_compute. congruence.
  - vm_compute. congruence.
  - vm_compute. congruence.
  - vm_compute. congruence.
Defined.

(** C9. Acceptance is sound and the two classes are separate: an accepted access
    token is non-empty, at most 8 KiB, signed under the current usable P-256 key
    and in force, its claims are complete and coherent, and the same token is
    never accepted as a refresh token, at whatever time and under whatever key. *)
Theorem access_token_sound (J : JWT SessionClaims)
    (decode : string → option (SigningMethod * SessionClaims)) (genuine : PublicKey → string → Prop)
    (token : string) (publicKey publicKey' : option (res (option PublicKey)))
    (w w' : World) (c : SessionClaims) :
  JWTSpec J decode genuine →
  fst (ValidateSessionAccessToken J token publicKey w) = Ok c →
  wellFormed AccessTokenIssuer c ∧ in_force (sc_Registered c) (w_clock w) ∧
  (len token ≤ maxTokenSize)%N ∧
  (∃ key, publicKey = Some (Ok (Some key)) ∧ usableKey (Some key) = true ∧ genuine key token) ∧
  is_Ok (fst (ValidateSessionRefreshToken J token publicKey' w')) = false.
Proof.
  intros HJ Hacc.
  destruct (validateSessionToken_sound J decode genuine _ _ _ _ _ Hacc)
    as (Hwf & Hdec & _ & Hlen & Hforce & Hkey).
  split_and!; try done. destruct (fst (ValidateSessionRefreshToken _ _ _ _)) as [c'|] eqn:Hr; [|done].
  destruct (validateSessionToken_sound J decode genuine _ _ _ _ _ Hr) as (Hwf' & Hdec' & _).
  rewrite Hdec in Hdec'. injection Hdec' as <-.
  pose proof (wf_issuer _ _ Hwf) as E1. pose proof (wf_issuer _ _ Hwf') as E2. rewrite E1 in E2. discriminate E2.
Qed.

Lemma access_token_sound_witness :
  is_Ok (fst (ValidateSessionRefreshToken ToyJWT.jwt toyToken (Some (Ok (Some toyKey))) laterWorld)) = false.
Proof.
  eapply (access_token_sound ToyJWT.jwt ToyJWT.decode ToyJWT.genuine toyToken
    (Some (Ok (Some toyKey))) (Some (Ok (Some toyKey))) laterWorld laterWorld).
  - apply ToyJWT.jwt_spec.
  - vm_compute. reflexivity.
Defined.

(** What a reader of the document decodes, with [json.Unmarshal] into the same
    structs. *)
Definition decodeJWK : json → publicJWK → publicJWK * bool := decodeFields
  [("kty", text_field KeyType (λ v k, mkPublicJWK v (jwk_Curve k) (X k) (Y k)));
   ("crv", text_field jwk_Curve (λ v k, mkPublicJWK (KeyType k) v (X k) (Y k)));
   ("x", text_field X (λ v k, mkPublicJWK (KeyType k) (jwk_Curve k) v (Y k)));
   ("y", text_field Y (λ v k, mkPublicJWK (KeyType k) (jwk_Curve k) (X k) v))].

#[export] Program Instance Wire_JWK : Wire publicJWK := {
  toDoc := JWK_doc; fromJson := decodeJWK; zeroOf := mkPublicJWK "" "" "" ""; depthOf := 1;
  clean k := utf8 (KeyType k) ∧ utf8 (jwk_Curve k) ∧ utf8 (X k) ∧ utf8 (Y k) }.
Next Obligation.
  intros [t c x y] (Ht & Hc & Hx & Hy). cbn [KeyType jwk_Curve X Y] in *. unfold JWK_doc, decodeJWK. cbn [valueOf List.map].
  do 4 (erewrite decodeFields_member; [|reflexivity|by apply text_field_clean]). done.
Qed.
Next Obligation. intros [t c x y]. simpl. lia. Qed.

Definition decodeJWKS : json → publicJWKS → publicJWKS * bool := decodeFields
  [("keys", field (λ tv, fromJson tv.2) Keys (λ v _, mkPublicJWKS v))].

#[export] Program Instance Wire_JWKS : Wire publicJWKS := {
  toDoc := JWKS_doc; fromJson := decodeJWKS; zeroOf := mkPublicJWKS None; depthOf := 3; clean keys := clean (Keys keys) }.
Next Obligation.
  intros [keys] Hk. unfold JWKS_doc, decodeJWKS. cbn [valueOf List.map Keys] in *.
  erewrite decodeFields_member; [|reflexivity|]; [reflexivity|]. unfold field. cbn [snd Keys].
  change (fromJson (valueOf (sliceDoc JWK_doc keys)) None) with (@fromJson (goslice publicJWK) _ (valueOf (toDoc keys)) zeroOf).
  by rewrite (wire_read keys Hk).
Qed.
Next Obligation. intros [keys]. pose proof (wire_depth keys) as H. simpl in *. lia. Qed.

(** The texts of a key are printable ASCII. *)
Lemma base64url_valid s : utf8 (base64url_encode s).
Proof.
  apply ascii_valid. unfold base64url_encode.
  assert (all_bytes is_base64 (base64_encode s) = true) as H by apply string_of_sextets_class.
  induction (base64_encode s) as [|a t IH]; [done|]. cbn [map_bytes all_bytes] in *.
  apply andb_prop in H as [Ha Ht]. rewrite (IH Ht), andb_true_r. by destruct a as [[] [] [] [] [] [] [] []].
Qed.

Lemma jwks_clean x y : clean (mkPublicJWKS (slice_from [jwkOf x y])).
Proof. split; [done|]. repeat constructor; apply base64url_valid. Qed.

(** The published key set is exact: [GeneratePublicJWKS] succeeds on the
    usable P-256 keys and on no other, and then whoever decodes the document gets one
    EC/P-256 key whose coordinates decode, at the full 32 bytes, to those of the public
    key. *)
Theorem jwks_faithful (key : PublicKey) :
  (is_Ok (GeneratePublicJWKS (Some key)) = usableKey (Some key)) ∧
  ∀ json, GeneratePublicJWKS (Some key) = Ok json →
    ∃ k x y bx by', unmarshalNew json = Some (mkPublicJWKS (slice_from [k])) ∧ KeyType k = "EC" ∧ jwk_Curve k = "P-256" ∧
      pk_X key = Some x ∧ pk_Y key = Some y ∧
      base64url_decode (X k) = Some bx ∧ String.length bx = 32%nat ∧ SetBytes bx = x ∧
      base64url_decode (Y k) = Some by' ∧ String.length by' = 32%nat ∧ SetBytes by' = y.
Proof.
  destruct key as [c [x|] [y|]]; split; try (unfold usableKey, GeneratePublicJWKS; simpl; by repeat case_match).
  unfold GeneratePublicJWKS. intros json.
  destruct (usableKey _) eqn:Hu; [|done]. apply usableKey_range in Hu as (-> & Hx & Hy & _).
  intros [= <-]. exists (jwkOf x y), x, y, (FillBytes 32 x), (FillBytes 32 y). split.
  { change (marshalJWKS (mkPublicJWKS (slice_from [jwkOf x y]))) with (marshal (mkPublicJWKS (slice_from [jwkOf x y]))).
    apply marshal_read; [apply jwks_clean|vm_compute; discriminate]. }
  unfold jwkOf. cbn [KeyType jwk_Curve X Y pk_X pk_Y].
  unfold p256CoordinateBytes. rewrite !base64url_decode_encode, !SetBytes_FillBytes by done.
  unfold FillBytes. rewrite !string_of_bytes_length, !big_endian_length. done.
Qed.
