(* ===== verification/Bootstrap.v ===== *)
(** * Exactly-once bootstrap (src/pkg/userbootstrap/bootstrap.go)

    The transition from an uninitialised appliance to one with a local
    administrator: a marker row in the database, paired with an installation seal
    stored outside it. [Seal] is the Go interface of the same name; the laws a
    seal obeys are the class [SealSpec], against which the state machine is
    verified. *)

From stdpp Require Import prelude strings gmap.
From Stdlib Require Import ZArith Lia Ascii.
From S2P Require Import Prelude GoStrings Password FileSystem Tables Store.

Local Open Scope Z_scope.
Local Open Scope m_scope.

(** [type Status string]. *)
Abbreviation Status := string.
Definition StatusPristine : Status := "pristine".
Definition StatusInitialized : Status := "initialized".
Definition StatusRecovery : Status := "recovery".

Record State := mkState {
  InstallationID : string;
  status : Status;
}.

#[export] Instance State_eq_dec : EqDecision State.
Proof. solve_decision. Defined.

Definition zeroState : State := mkState "" "".

Definition Initialized (st : State) : bool := bool_decide (status st = StatusInitialized).
Definition SetupRequired (st : State) : bool := bool_decide (status st = StatusPristine).

(** The integrity marker stored outside the database directory. *)
Record Seal := mkSeal {
  Load : M (res (option string));
  Create : string → M (option goerr);
}.

(** ** Installation identifiers *)

(** [value[i] = f(value[i])]. *)
Fixpoint alter_byte (i : nat) (f : N → N) (s : string) : string :=
  match i, s with
  | _, EmptyString => ""
  | O, String a s' => String (ascii_of_N (f (byte_val a))) s'
  | S i', String a s' => String a (alter_byte i' f s')
  end.

(** The version-4 UUID text of sixteen random bytes. *)
Definition installationIDOf (value : string) : string :=
  let value := alter_byte 6 (λ b, N.lor (N.land b 0x0f) 0x40) value in
  let value := alter_byte 8 (λ b, N.lor (N.land b 0x3f) 0x80) value in
  let encoded := hex_encode value in
  slice 0 8 encoded +:+ "-" +:+ slice 8 12 encoded +:+ "-" +:+ slice 12 16 encoded +:+ "-" +:+
  slice 16 20 encoded +:+ "-" +:+ slice 20 32 encoded.

Definition newInstallationID : M (res string) :=
  raw <- rand_Read 16;;
  mret match raw with
       | None => Err (Wrap "generate installation id" (NewError "read"))
       | Some value => Ok (installationIDOf value)
       end.

(** [value[i]]. *)
Definition byte_at (s : string) (i : nat) : option ascii := String.get i s.

Definition validInstallationID (value : string) : bool :=
  if negb (bool_decide (String.length value = 36%nat)) ||
     negb (bool_decide (byte_at value 8 = Some "-"%char)) ||
     negb (bool_decide (byte_at value 13 = Some "-"%char)) ||
     negb (bool_decide (byte_at value 18 = Some "-"%char)) ||
     negb (bool_decide (byte_at value 23 = Some "-"%char))
  then false
  else
    let compact := slice 0 8 value +:+ slice 9 13 value +:+ slice 14 18 value +:+
                   slice 19 23 value +:+ slice 24 36 value in
    match hex_decode compact with
    | None => false
    | Some decoded =>
       bool_decide (String.length decoded = 16%nat) &&
       bool_decide (byte_at value 14 = Some "4"%char) &&
       (bool_decide (byte_at value 19 = Some "8"%char) ||
        bool_decide (byte_at value 19 = Some "9"%char) ||
        bool_decide (byte_at value 19 = Some "a"%char) ||
        bool_decide (byte_at value 19 = Some "b"%char))
    end.

Definition validStatus (s : Status) : bool :=
  bool_decide (s = StatusPristine) || bool_decide (s = StatusInitialized) ||
  bool_decide (s = StatusRecovery).

(** ** Statements *)

Definition marker_of (db : Database) : option State :=
  match o_bootstrap_state db with
  | Some (Some row) => Some (mkState (bs_InstallationID row) (bs_Status row))
  | _ => None
  end.

Definition readState : M (res (option State)) :=
  ok st <- query (λ db, match o_bootstrap_state db with
                        | None => Err (StoreError NoSuchTable)
                        | Some _ => Ok (marker_of db)
                        end) or "read bootstrap state";;
  mret (Ok st).

(** The [initialized_at] column both writers compute. *)
Definition initializedAt (st : State) (now : Z) : option Z :=
  if bool_decide (status st = StatusInitialized) then Some now else None.

Definition insertState (st : State) (adminUserID : option Z) (now : Z) : M (res unit) :=
  ok _ <- exec (λ db,
    match o_bootstrap_state db with
    | None => (Err (StoreError NoSuchTable), db)
    | Some (Some _) => (Err (StoreError ConstraintFailed), db)
    | Some None =>
       (Ok tt, with_bootstrap (Some (Some (mkBootstrapState (InstallationID st) (status st)
                 adminUserID (initializedAt st now) now now))) db)
    end) or "create bootstrap state";;
  mret (Ok tt).

Definition updateState (st : State) (adminUserID : option Z) (now : Z) : M (res unit) :=
  ok rows <- exec (λ db,
    match o_bootstrap_state db with
    | None => (Err (StoreError NoSuchTable), db)
    | Some None => (Ok 0, db)
    | Some (Some row) =>
       (Ok 1, with_bootstrap (Some (Some (mkBootstrapState (InstallationID st) (status st)
                adminUserID (initializedAt st now) (bs_CreatedAt row) now))) db)
    end) or "update bootstrap state";;
  if negb (rows =? 1) then mret (Err ErrInconsistentState) else mret (Ok tt).

(** [SELECT COUNT, MIN(id) FROM o_users]. *)
Definition min_id (m : gmap Z UserDBModel) : option Z :=
  u_Id <$> first_where Z.leb (λ _, true) m.

Definition userSummary : M (res (Z * option Z)) :=
  ok s <- query (λ db, Ok (Z.of_nat (size (o_users db)), min_id (o_users db)))
    or "read user summary";;
  mret (Ok s).

(** [db.Conn]: the pool may fail to deliver a connection. *)
Definition db_Conn (msg : string) : M (res unit) :=
  ok u <- query (λ _, Ok tt) or msg;; mret (Ok u).

Definition withImmediateTransaction {A} (operation : M (res A)) : M (res A) :=
  ok _ <- db_Conn "acquire database connection";;
  transaction (Some "begin immediate transaction") (Some "commit immediate transaction") operation.

(** ** ReconcileState *)

(** What the transaction decides: the state, whether to publish the seal,
    whether recovery is required. *)
Record Decision := mkDecision {
  d_result : State;
  d_createSeal : bool;
  d_recovery : bool;
}.

(** The nested switches on the marker's status, before the write-back. *)
Definition decideMarked (marker : State) (seal : option string) (userCount : Z) : Decision :=
  let set s := mkState (InstallationID marker) s in
  let keep := mkDecision marker false false in
  let recover := mkDecision (set StatusRecovery) false true in
  if bool_decide (status marker = StatusRecovery) then mkDecision marker false true
  else if bool_decide (status marker = StatusPristine) then
    match seal with
    | Some _ => recover
    | None => if userCount >? 0 then mkDecision (set StatusInitialized) true false else keep
    end
  else if bool_decide (status marker = StatusInitialized) then
    if userCount =? 0 then recover
    else match seal with
         | Some sealID => if bool_decide (sealID = InstallationID marker) then keep else recover
         | None => mkDecision marker true false
         end
  else keep.

(** The body of the transaction of [ReconcileState]. *)
Definition reconcileBody (seal : option string) (newID : string) : M (res Decision) :=
  ok marker <- readState;;
  ok summary <- userSummary;;
  let '(userCount, firstUserID) := (summary : Z * option Z) in
  now <- time_Now;;
  match marker with
  | None =>
     let d := match seal with
              | Some sealID => mkDecision (mkState sealID StatusRecovery) false true
              | None => if userCount >? 0
                        then mkDecision (mkState newID StatusInitialized) true false
                        else mkDecision (mkState newID StatusPristine) false false
              end in
     ok _ <- insertState (d_result d) firstUserID now;;
     mret (Ok d)
  | Some m =>
     if negb (validInstallationID (InstallationID m)) || negb (validStatus (status m)) then
       let id := match seal with Some sealID => sealID | None => newID end in
       let d := mkDecision (mkState id StatusRecovery) false true in
       ok _ <- updateState (d_result d) firstUserID now;;
       mret (Ok d)
     else
       let d := decideMarked m seal userCount in
       if negb (bool_decide (status (d_result d) = status m)) then
         ok _ <- updateState (d_result d) firstUserID now;;
         mret (Ok d)
       else mret (Ok d)
  end.

(** [ReconcileState(ctx, db, seal)]: the state beside the error, since recovery
    returns both. *)
Definition ReconcileState (seal : option Seal) : M (State * option goerr) :=
  match seal with
  | None => mret (zeroState, Some (NewError "bootstrap seal is required"))
  | Some seal =>
     loaded <- Load seal;;
     match loaded with
     | Err e => mret (zeroState, Some (Wrap "load bootstrap seal" e))
     | Ok sealID =>
        id <- newInstallationID;;
        match id with
        | Err e => mret (zeroState, Some e)
        | Ok newID =>
           decided <- withImmediateTransaction (reconcileBody sealID newID);;
           match decided with
           | Err e => mret (zeroState, Some e)
           | Ok d =>
              created <- (if d_createSeal d then Create seal (InstallationID (d_result d))
                          else mret None);;
              match created with
              | Some e => mret (zeroState, Some (Wrap "create bootstrap seal" e))
              | None =>
                 if d_recovery d then mret (d_result d, Some (Sentinel ErrRecoveryRequired))
                 else mret (d_result d, None)
              end
           end
        end
     end
  end.

(** ** CreateAdmin *)

Section CreateAdmin.
(** SQLite's choice of a row identifier for a new user. *)
Context (next_rowid : gmap Z UserDBModel → Z).

(** The [INSERT INTO o_users (username, password, role, ...)]; the remaining
    columns take their defaults. *)
Definition insertAdmin (username passwordHash : string) (now : Z) : M (res Z) :=
  exec (λ db,
    let id := next_rowid (o_users db) in
    if bool_decide (first_where Z.leb (λ u, bool_decide (u_Username u = username)) (o_users db) = None)
    then (Ok id, with_users <[id := mkUser id username passwordHash "admin" "" "" "" "" 0 now now]> db)
    else (Err (StoreError ConstraintFailed), db)).

(** The compare-and-set [UPDATE o_bootstrap_state ... WHERE id = 1 AND
    installation_id = ? AND status = 'pristine']. *)
Definition sealMarker (installationID : string) (userID now : Z) : M (res Z) :=
  exec (λ db,
    match o_bootstrap_state db with
    | None => (Err (StoreError NoSuchTable), db)
    | Some (Some row) =>
       if bool_decide (bs_InstallationID row = installationID) &&
          bool_decide (bs_Status row = StatusPristine)
       then (Ok 1, with_bootstrap (Some (Some (mkBootstrapState installationID StatusInitialized
                     (Some userID) (Some now) (bs_CreatedAt row) now))) db)
       else (Ok 0, db)
    | Some None => (Ok 0, db)
    end).

(** The body of the transaction: [None] is the [outcome = ErrAlreadyInitialized]
    exit, which commits without having written. *)
Definition createAdminBody (username passwordHash installationID : string)
    (beforeCommit : option (Z → M (option goerr))) : M (res (option Z)) :=
  ok marker <- readState;;
  ok summary <- userSummary;;
  let userCount := (summary : Z * option Z).1 in
  if match marker with
     | None => true
     | Some m => negb (bool_decide (status m = StatusPristine)) ||
                 negb (bool_decide (InstallationID m = installationID))
     end || negb (userCount =? 0)
  then mret (Ok None)
  else
    now <- time_Now;;
    ok createdUserID <- insertAdmin username passwordHash now or "create bootstrap administrator";;
    if createdUserID <? 1 then mret (Err (NewError "read bootstrap administrator id: invalid id"))
    else
      prepared <- match beforeCommit with
                  | Some callback => callback createdUserID
                  | None => mret None
                  end;;
      match prepared with
      | Some e => mret (Err (Wrap "prepare administrator data" e))
      | None =>
         ok rows <- sealMarker installationID createdUserID now or "seal bootstrap database state";;
         if negb (rows =? 1) then mret (Err ErrInconsistentState)
         else mret (Ok (Some createdUserID))
      end.

Definition CreateAdmin (seal : option Seal) (username passwordHash : string)
    (beforeCommit : option (Z → M (option goerr))) : M (res Z) :=
  if negb (IsArgon2id passwordHash)
  then mret (Err (NewError "bootstrap password must be an Argon2id verifier"))
  else
    reconciled <- ReconcileState seal;;
    match reconciled with
    | (_, Some e) => mret (Err e)
    | (st, None) =>
       if negb (bool_decide (status st = StatusPristine)) then mret (Err ErrAlreadyInitialized)
       else
         done <- withImmediateTransaction
                   (createAdminBody username passwordHash (InstallationID st) beforeCommit);;
         match done with
         | Err e => mret (Err e)
         | Ok None =>
            again <- ReconcileState seal;;
            match again with
            | (_, Some e) => mret (Err e)
            | (_, None) => mret (Err ErrAlreadyInitialized)
            end
         | Ok (Some createdUserID) =>
            match seal with
            | None => mret (Err (NewError "nil seal"))
            | Some seal =>
               created <- Create seal (InstallationID st);;
               match created with
               | Some e => mret (Err (Wrap "create bootstrap seal after database commit" e))
               | None => mret (Ok createdUserID)
               end
            end
         end
    end.
End CreateAdmin.

(** ** The abstract decision *)

(** What reconciliation decides from the marker, the seal and the number of
    users: the specification of the transaction. *)
Definition decision (marker : option State) (seal : option string) (userCount : Z)
    (newID : string) : Decision :=
  match marker with
  | None =>
     match seal with
     | Some sealID => mkDecision (mkState sealID StatusRecovery) false true
     | None => if userCount >? 0
               then mkDecision (mkState newID StatusInitialized) true false
               else mkDecision (mkState newID StatusPristine) false false
     end
  | Some m =>
     if negb (validInstallationID (InstallationID m)) || negb (validStatus (status m)) then
       mkDecision (mkState (match seal with Some s => s | None => newID end) StatusRecovery)
         false true
     else decideMarked m seal userCount
  end.

Lemma decideMarked_id m seal n : InstallationID (d_result (decideMarked m seal n)) = InstallationID m.
Proof. unfold decideMarked. by repeat case_match. Qed.

Lemma decideMarked_same m seal n :
  status (d_result (decideMarked m seal n)) = status m → d_result (decideMarked m seal n) = m.
Proof.
  intros Hs. pose proof (decideMarked_id m seal n). destruct (d_result _), m. simpl in *. congruence.
Qed.

(** The seal is published only when there is none. *)
Lemma decision_create_seal marker seal n newID :
  d_createSeal (decision marker seal n newID) = true →
  seal = None ∧ status (d_result (decision marker seal n newID)) = StatusInitialized ∧ n ≠ 0.
Proof.
  unfold decision, decideMarked. repeat case_match; simpl; intros; try done; subst;
    repeat case_bool_decide; try done; split_and!; try done; lia.
Qed.

(** Setup is open only without seal, users or a marker that left pristine. *)
Lemma decision_pristine marker seal n newID :
  0 ≤ n →
  status (d_result (decision marker seal n newID)) = StatusPristine →
  d_recovery (decision marker seal n newID) = false →
  seal = None ∧ n = 0 ∧
  (marker = None ∧ d_result (decision marker seal n newID) = mkState newID StatusPristine ∨
   marker = Some (d_result (decision marker seal n newID))).
Proof.
  intros Hn. unfold decision, decideMarked. repeat case_match; simpl; intros Hs Hr; try done;
    repeat case_bool_decide; try done; simplify_eq; split_and!; auto; lia.
Qed.

Lemma decision_recovery marker seal n newID :
  d_recovery (decision marker seal n newID) = true ↔
  status (d_result (decision marker seal n newID)) = StatusRecovery.
Proof.
  unfold decision. destruct marker as [m|]; [|by repeat case_match].
  destruct (negb _ || _) eqn:Hv; [done|]. apply orb_false_elim in Hv as [_ Hv].
  unfold decideMarked. repeat case_match; simpl; split; intros; try done; try congruence;
    repeat case_bool_decide; congruence.
Qed.

(** ** Refinement of the decision by the code *)

(** The databases differ in the bootstrap table only. *)
Definition only_marker (db db' : Database) : Prop :=
  with_bootstrap (o_bootstrap_state db) db' = db.

Lemma only_marker_refl db : only_marker db db.
Proof. by destruct db. Qed.

Lemma only_marker_with v db : only_marker db (with_bootstrap v db).
Proof. by destruct db. Qed.

Lemma only_marker_users db db' : only_marker db db' → o_users db' = o_users db.
Proof. unfold only_marker. by intros <-. Qed.

Lemma only_marker_trans db1 db2 db3 :
  only_marker db1 db2 → only_marker db2 db3 → only_marker db1 db3.
Proof. unfold only_marker. intros <- <-. by destruct db3. Qed.

Lemma only_marker_eq db db' : db' = db → only_marker db db'.
Proof. intros ->. apply only_marker_refl. Qed.

#[export] Hint Resolve only_marker_refl only_marker_with only_marker_eq : store.

Lemma readState_spec w : alone w →
  post readState w (λ r w', calm w w' ∧ w_db w' = w_db w ∧
    match r with
    | Ok m => m = marker_of (w_db w) ∧ o_bootstrap_state (w_db w) ≠ None
    | Err _ => faultless w → o_bootstrap_state (w_db w) = None
    end).
Proof.
  intros Hw. unfold readState. repeat m_step; eauto with store.
  all: simplify_eq/=; split_and!; eauto with store; try congruence.
  all: destruct (o_bootstrap_state (w_db w)); naive_solver.
Qed.

Lemma userSummary_spec w : alone w →
  post userSummary w (λ r w', calm w w' ∧ w_db w' = w_db w ∧
    match r with
    | Ok s => s = (Z.of_nat (size (o_users (w_db w))), min_id (o_users (w_db w)))
    | Err _ => ¬ faultless w
    end).
Proof.
  intros Hw. unfold userSummary. repeat m_step; eauto with store.
Qed.

Lemma insertState_spec st admin now w : alone w →
  post (insertState st admin now) w (λ r w', calm w w' ∧ only_marker (w_db w) (w_db w') ∧
    match r with
    | Ok _ => marker_of (w_db w') = Some st
    | Err _ => faultless w → o_bootstrap_state (w_db w) ≠ Some None
    end).
Proof.
  intros Hw. unfold insertState. repeat m_step; eauto with store.
  all: destruct (o_bootstrap_state (w_db w)) as [[]|] eqn:E; simplify_eq/=;
    split_and!; eauto with store; try naive_solver.
  all: match goal with H : w_db _ = _ |- _ => rewrite H end; eauto with store.
  all: by destruct st.
Qed.

Lemma updateState_spec st admin now w : alone w →
  post (updateState st admin now) w (λ r w', calm w w' ∧ only_marker (w_db w) (w_db w') ∧
    match r with
    | Ok _ => marker_of (w_db w') = Some st
    | Err _ => faultless w → marker_of (w_db w) = None
    end).
Proof.
  intros Hw. unfold updateState. repeat m_step; eauto with store.
  all: unfold marker_of; destruct (o_bootstrap_state (w_db w)) as [[]|] eqn:E; simplify_eq/=;
    split_and!; eauto with store; try naive_solver.
  all: match goal with H : w_db _ = _ |- _ => rewrite H end; eauto with store.
  all: by destruct st.
Qed.

Lemma db_Conn_spec msg w : alone w →
  post (db_Conn msg) w (λ r w', calm w w' ∧ w_db w' = w_db w ∧
    match r with Ok _ => True | Err _ => ¬ faultless w end).
Proof. intros Hw. unfold db_Conn. repeat m_step; eauto with store. Qed.

Lemma reconcileBody_spec seal newID w : alone w →
  post (reconcileBody seal newID) w (λ r w', calm w w' ∧ only_marker (w_db w) (w_db w') ∧
    match r with
    | Ok d => d = decision (marker_of (w_db w)) seal (Z.of_nat (size (o_users (w_db w)))) newID ∧
              marker_of (w_db w') = Some (d_result d)
    | Err _ => faultless w → o_bootstrap_state (w_db w) = None
    end).
Proof.
  intros Hw. unfold reconcileBody. m_step.
  m_use readState_spec as [marker|e] w1 (Hc1 & Hd1 & Hr1); [|split_and!; eauto with store].
  m_step. m_use userSummary_spec as [summary|e] w2 (Hc2 & Hd2 & Hr2);
    [|split_and!; eauto with store; intros; exfalso; eauto using calm_faultless].
  subst summary. do 2 m_step. destruct Hr1 as [-> Htable].
  assert (calm w w2) as Hc by eauto with store.
  assert (w_db w2 = w_db w) as Hd by congruence. rewrite Hd1, <- Hd in *. clear w1 Hc1 Hd1 Hc2 Hd2.
  unfold decision. destruct (marker_of (w_db w2)) as [m|] eqn:Em.
  - m_step.
    + m_step. m_use updateState_spec as [[]|e] w3 (Hc3 & Ho3 & Hr3); repeat m_step;
        split_and!; eauto with store.
      intros Hf. rewrite Hr3 in Em by eauto using calm_faultless. done.
    + m_step.
      * m_step. m_use updateState_spec as [[]|e] w3 (Hc3 & Ho3 & Hr3); repeat m_step;
          split_and!; eauto with store.
        intros Hf. rewrite Hr3 in Em by eauto using calm_faultless. done.
      * m_step. split_and!; eauto with store.
        rewrite Em. f_equal. symmetry. apply decideMarked_same.
        by apply negb_false_iff, bool_decide_eq_true in Heqb0.
  - m_step. m_use insertState_spec as [[]|e] w3 (Hc3 & Ho3 & Hr3); repeat m_step;
      split_and!; eauto with store.
    intros Hf. exfalso. apply Hr3; [by eauto using calm_faultless|].
    unfold marker_of in Em. by destruct (o_bootstrap_state (w_db w2)) as [[]|].
Qed.

(** ** Identifiers are well formed *)

Lemma version_nibble a0 a1 a2 a3 a4 a5 a6 a7 :
  ascii_of_N (N.lor (N.land (byte_val (Ascii a0 a1 a2 a3 a4 a5 a6 a7)) 0x0f) 0x40)
  = Ascii a0 a1 a2 a3 false false true false.
Proof. destruct a0, a1, a2, a3, a4, a5, a6, a7; reflexivity. Qed.

Lemma variant_bits a0 a1 a2 a3 a4 a5 a6 a7 :
  ascii_of_N (N.lor (N.land (byte_val (Ascii a0 a1 a2 a3 a4 a5 a6 a7)) 0x3f) 0x80)
  = Ascii a0 a1 a2 a3 a4 a5 false true.
Proof. destruct a0, a1, a2, a3, a4, a5, a6, a7; reflexivity. Qed.

(** The groups of the text form around the 32 digits [e]. *)
Lemma validInstallationID_digits e :
  String.length e = 32%nat →
  validInstallationID (slice 0 8 e +:+ "-" +:+ slice 8 12 e +:+ "-" +:+ slice 12 16 e +:+ "-" +:+
    slice 16 20 e +:+ "-" +:+ slice 20 32 e)
  = match hex_decode e with
    | None => false
    | Some decoded =>
       bool_decide (String.length decoded = 16%nat) &&
       bool_decide (byte_at e 12 = Some "4"%char) &&
       (bool_decide (byte_at e 16 = Some "8"%char) || bool_decide (byte_at e 16 = Some "9"%char) ||
        bool_decide (byte_at e 16 = Some "a"%char) || bool_decide (byte_at e 16 = Some "b"%char))
    end.
Proof.
  intros Hl. do 32 (destruct e as [|? e]; [discriminate Hl|]).
  destruct e; [reflexivity|discriminate Hl].
Qed.

Lemma installationIDOf_valid value :
  String.length value = 16%nat → validInstallationID (installationIDOf value) = true.
Proof.
  intros Hl. do 16 (destruct value as [|? value]; [discriminate Hl|]).
  destruct value; [clear Hl|discriminate Hl].
  destruct a5 as [b0 b1 b2 b3 b4 b5 b6 b7], a7 as [c0 c1 c2 c3 c4 c5 c6 c7].
  unfold installationIDOf. cbn [alter_byte]. rewrite version_nibble, variant_bits.
  rewrite validInstallationID_digits, hex_decode_encode by apply hex_encode_length.
  repeat match goal with a : ascii |- _ => destruct a end. simpl.
  destruct c4, c5; reflexivity.
Qed.

Lemma newInstallationID_spec w : alone w →
  post newInstallationID w (λ r w', runs w w' ∧ w_db w' = w_db w ∧ w_fs w' = w_fs w ∧
    match r with
    | Ok id => validInstallationID id = true
    | Err _ => (String.length (w_entropy w) < 16)%nat
    end).
Proof.
  intros Hw. unfold newInstallationID. do 2 m_step; m_step; split_and!; eauto with store.
  by apply installationIDOf_valid.
Qed.

(** ** The seal's contract *)

(** What [bootstrap.go] relies on of a [Seal], [view] being the identifier the
    file system holds: a successful [Load] reports it; a successful [Create] found
    no other identifier and leaves its own; a failed [Create] either changed
    nothing or had already published its identifier. Neither touches the
    database. *)
Class SealSpec (seal : Seal) (view : FileSystem → option string) : Prop := {
  seal_load w : alone w →
    post (Load seal) w (λ r w', calm w w' ∧ w_db w' = w_db w ∧
      ∀ v, r = Ok v → v = view (w_fs w));
  seal_create id w : alone w →
    post (Create seal id) w (λ r w', runs w w' ∧ w_db w' = w_db w ∧
      match r with
      | None => view (w_fs w') = Some id ∧ (view (w_fs w) = None ∨ view (w_fs w) = Some id)
      | Some _ => view (w_fs w') = view (w_fs w) ∨
                  view (w_fs w) = None ∧ view (w_fs w') = Some id
      end);
}.

(** What [CreateAdmin] expects of [beforeCommit] on the files as they are: it
    prepares files, and touches neither the database nor the seal. *)
Definition callback_ok (view : FileSystem → option string) (fs : FileSystem) (cb : Z → M (option goerr)) : Prop :=
  ∀ id w, alone w → w_fs w = fs → post (cb id) w (λ _ w',
    runs w w' ∧ w_db w' = w_db w ∧ view (w_fs w') = view (w_fs w)).

(** ** The abstract state machine *)

(** The part of the world bootstrap is about. *)
Record Abs := mkAbs {
  a_marker : option State;
  a_users : gmap Z UserDBModel;
  a_seal : option string;
}.

Definition abs_of (view : FileSystem → option string) (w : World) : Abs :=
  mkAbs (marker_of (w_db w)) (o_users (w_db w)) (view (w_fs w)).

Definition user_count (a : Abs) : Z := Z.of_nat (size (a_users a)).

Definition decided (a : Abs) (newID : string) : Decision :=
  decision (a_marker a) (a_seal a) (user_count a) newID.

(** A reconciliation, cut at any point: nothing happened, the marker was
    committed, or the missing seal was published as well. *)
Inductive reconcile_step : Abs → Abs → Prop :=
| reconcile_stay a : reconcile_step a a
| reconcile_commit a newID :
    validInstallationID newID = true →
    reconcile_step a (mkAbs (Some (d_result (decided a newID))) (a_users a) (a_seal a))
| reconcile_seal a newID :
    validInstallationID newID = true →
    d_createSeal (decided a newID) = true →
    reconcile_step a (mkAbs (Some (d_result (decided a newID))) (a_users a)
                        (Some (InstallationID (d_result (decided a newID))))).

(** The creation of the administrator, cut at any point after its commit. *)
Inductive create_step (username passwordHash : string) : Abs → Abs → Prop :=
| create_commit a id userID now sealed :
    a_marker a = Some (mkState id StatusPristine) →
    a_users a = ∅ → a_seal a = None → 1 ≤ userID →
    (sealed = None ∨ sealed = Some id) →
    create_step username passwordHash a
      (mkAbs (Some (mkState id StatusInitialized))
         {[userID := mkUser userID username passwordHash "admin" "" "" "" "" 0 now now]} sealed).

(** Everything [CreateAdmin] can do, whatever fails on the way. *)
Inductive bootstrap_step (username passwordHash : string) : Abs → Abs → Prop :=
| bootstrap_reconcile a b c :
    reconcile_step a b → reconcile_step b c → bootstrap_step username passwordHash a c
| bootstrap_create a b c :
    reconcile_step a b → create_step username passwordHash b c →
    bootstrap_step username passwordHash a c.

Section Refinement.
Context (seal : Seal) (view : FileSystem → option string) `{!SealSpec seal view}.

Lemma withImmediateTransaction_spec {A} (body : M (res A)) w (P : res A → Database → Prop) :
  alone w →
  (∀ e, P (Err e) (w_db w)) →
  (∀ w0, alone w0 → w_db w0 = w_db w → w_fs w0 = w_fs w →
     post body w0 (λ r w2, calm w0 w2 ∧ match r with Ok a => P (Ok a) (w_db w2) | Err _ => True end)) →
  post (withImmediateTransaction body) w (λ r w', calm w w' ∧ P r (w_db w')).
Proof.
  intros Hw He Hb. unfold withImmediateTransaction. m_step.
  m_use db_Conn_spec as [[]|e] w1 (Hc1 & Hd1 & _); [|split; [done|by rewrite Hd1]].
  apply transaction_solo; [eauto with store| |].
  - intros w0 Ha _ Hd Hf _ _ _ _. eapply post_mono.
    + apply Hb; [done|congruence|]. rewrite Hf. by apply calm_fs.
    + intros r w2 [Hc2 Hr]. split; [done|]. destruct r as [a|e]; intros w3 Hc3 Hd3.
      * split; [eauto with store|by rewrite Hd3].
      * split; [eauto with store|by rewrite Hd3, Hd1].
  - intros e w2 _ Hc2 Hd2 _. split; [eauto with store|by rewrite Hd2, Hd1].
Qed.

Lemma abs_of_calm w w' : calm w w' → w_db w' = w_db w → abs_of view w' = abs_of view w.
Proof. intros Hc Hd. unfold abs_of. by rewrite Hd, (calm_fs _ _ Hc). Qed.

(** The transaction of [ReconcileState] commits the decision or nothing. *)
Lemma reconcileTransaction_spec newID w : alone w →
  post (withImmediateTransaction (reconcileBody (view (w_fs w)) newID)) w (λ r w',
    calm w w' ∧
    match r with
    | Ok d => d = decided (abs_of view w) newID ∧ only_marker (w_db w) (w_db w') ∧
              marker_of (w_db w') = Some (d_result d)
    | Err _ => w_db w' = w_db w
    end).
Proof.
  intros Hw. apply (withImmediateTransaction_spec _ _ (λ r db, match r with
    | Ok d => d = decided (abs_of view w) newID ∧ only_marker (w_db w) db ∧
              marker_of db = Some (d_result d)
    | Err _ => db = w_db w end)); [done|done|].
  intros w0 H0 Hd0 Hf0. m_use reconcileBody_spec as r w3 (Hc3 & Ho3 & Hr3).
  split; [done|]. destruct r as [d|]; [|done]. destruct Hr3 as [-> Hm].
  rewrite Hd0 in *. done.
Qed.

(** [ReconcileState] refines [reconcile_step] under every fault schedule, and
    what it returns without error is the committed, non-recovery decision. *)
Lemma ReconcileState_refines w : alone w →
  post (ReconcileState (Some seal)) w (λ r w',
    runs w w' ∧ only_marker (w_db w) (w_db w') ∧
    reconcile_step (abs_of view w) (abs_of view w') ∧
    (r.2 = None → ∃ newID,
       validInstallationID newID = true ∧
       r.1 = d_result (decided (abs_of view w) newID) ∧
       d_recovery (decided (abs_of view w) newID) = false ∧
       a_marker (abs_of view w') = Some r.1 ∧
       a_seal (abs_of view w') = if d_createSeal (decided (abs_of view w) newID)
                                 then Some (InstallationID r.1) else a_seal (abs_of view w))).
Proof.
  intros Hw. unfold ReconcileState. m_step.
  m_use seal_load as r1 w1 (Hc1 & Hd1 & Hv).
  pose proof (abs_of_calm _ _ Hc1 Hd1) as Ha1.
  destruct r1 as [sealID|e].
  2:{ m_step. rewrite Ha1. split_and!; [eauto with store..|constructor|done]. }
  specialize (Hv _ eq_refl). subst sealID. m_step.
  m_use newInstallationID_spec as r2 w2 (Hc2 & Hd2 & Hf2 & Hid).
  assert (abs_of view w2 = abs_of view w) as Ha2.
  { rewrite <- Ha1. unfold abs_of. by rewrite Hd2, Hf2. }
  assert (runs w w2) as Hr2 by (eapply runs_trans; [by apply calm_runs|done]).
  assert (w_db w2 = w_db w) as Hdb2 by congruence.
  destruct r2 as [newID|e].
  2:{ m_step. rewrite Ha2. split_and!; [eauto with store..|constructor|done]. }
  replace (view (w_fs w)) with (view (w_fs w2)) by (by injection Ha2).
  m_step. m_use reconcileTransaction_spec as r w3 [Hc3 Hr3]. rewrite Ha2, Hdb2 in Hr3.
  assert (runs w w3) as Hw3 by (eapply runs_trans; [done|by apply calm_runs]).
  destruct r as [d|e].
  2:{ m_step. rewrite (abs_of_calm w2 w3), Ha2 by (congruence || done).
      split_and!; [eauto with store..|constructor|done]. }
  destruct Hr3 as (Hd & Ho & Hm).
  assert (a_seal (abs_of view w3) = a_seal (abs_of view w)) as Hs3.
  { rewrite <- Ha2. unfold abs_of. simpl. by rewrite (calm_fs _ _ Hc3). }
  destruct (d_createSeal d) eqn:Hcreate; m_step.
  - m_use seal_create as r4 w4 (Hc4 & Hd4 & Hr4).
    assert (runs w w4) as Hw4 by eauto with store. simpl in Hs3.
    assert (a_seal (abs_of view w) = None) as Hnone 
      by (subst d; by apply decision_create_seal in Hcreate as [? _]).
    assert (reconcile_step (abs_of view w) (mkAbs (Some (d_result d)) (o_users (w_db w))
      (Some (InstallationID (d_result d))))) as Hstep by (subst d; by apply reconcile_seal).
    assert (reconcile_step (abs_of view w) (mkAbs (Some (d_result d)) (o_users (w_db w)) None)) as Hstep'
      by (rewrite <- Hnone; subst d; by apply reconcile_commit).
    assert (abs_of view w4 = mkAbs (Some (d_result d)) (o_users (w_db w)) (view (w_fs w4))) as E
      by (unfold abs_of; by rewrite Hd4, Hm, (only_marker_users _ _ Ho)).
    simpl in Hnone. destruct r4 as [e|].
    + m_step. rewrite E. split_and!; [done|by rewrite Hd4| |done].
      destruct Hr4 as [->|[_ ->]]; [rewrite Hs3, Hnone|]; done.
    + destruct Hr4 as [Hv _]. rewrite Hv in E.
      repeat m_step; rewrite E; split_and!; try done; try (by rewrite Hd4).
      intros _. exists newID. subst d. simpl. by rewrite Hcreate.
  - repeat m_step. all: assert (abs_of view w3 = mkAbs (Some (d_result d)) (o_users (w_db w)) (view (w_fs w))) as E
      by (unfold abs_of in *; simpl in Hs3; by rewrite Hm, Hs3, (only_marker_users _ _ Ho)).
    all: rewrite E; split_and!; try done; [subst d; by apply reconcile_commit|..].
    intros _. exists newID. subst d. simpl. by rewrite Hcreate.
Qed.

(** Where setup is still open, no file was touched. *)
Lemma ReconcileState_pristine w : alone w →
  post (ReconcileState (Some seal)) w (λ r w', r.2 = None → status r.1 = StatusPristine → w_fs w' = w_fs w).
Proof.
  intros Hw. unfold ReconcileState. m_step. m_use seal_load as r1 w1 (Hc1 & Hd1 & Hv).
  pose proof (abs_of_calm _ _ Hc1 Hd1) as Ha1. destruct r1 as [sealID|e]; [|by m_step].
  specialize (Hv _ eq_refl). subst sealID. m_step. m_use newInstallationID_spec as r2 w2 (Hc2 & Hd2 & Hf2 & _).
  destruct r2 as [newID|e]; [|by m_step].
  assert (w_fs w2 = w_fs w) as Hfs2 by (by rewrite Hf2, (calm_fs _ _ Hc1)). rewrite <- Hfs2.
  m_step. m_use reconcileTransaction_spec as r w3 [Hc3 Hr3]. destruct r as [d|e]; [|by m_step].
  destruct Hr3 as (Hd & _ & _). destruct (d_createSeal d) eqn:Hcreate; m_step.
  - m_use seal_create as r4 w4 (_ & _ & _). subst d. apply decision_create_seal in Hcreate as (_ & Hi & _).
    repeat m_step; intros Hno Hp; exfalso; cbn [fst snd] in Hno, Hp; first [discriminate Hno|unfold decided in Hp; by rewrite Hi in Hp].
  - repeat m_step; intros _ _; apply (calm_fs _ _ Hc3).
Qed.

Context (next_rowid : gmap Z UserDBModel → Z).
Context (beforeCommit : option (Z → M (option goerr))) (fs : FileSystem)
        (beforeCommit_ok : ∀ cb, beforeCommit = Some cb → callback_ok view fs cb).

Definition newAdmin (userID : Z) (username passwordHash : string) (now : Z) : UserDBModel :=
  mkUser userID username passwordHash "admin" "" "" "" "" 0 now now.

Lemma runBeforeCommit_spec id w : alone w → w_fs w = fs →
  post (match beforeCommit with Some cb => cb id | None => mret None end) w (λ _ w',
    runs w w' ∧ w_db w' = w_db w ∧ view (w_fs w') = view (w_fs w)).
Proof.
  intros Hw Hfs. destruct beforeCommit as [cb|]; [by apply (beforeCommit_ok cb)|].
  m_step. eauto with store.
Qed.

Lemma createAdminBody_spec username passwordHash id w : alone w → w_fs w = fs →
  post (createAdminBody next_rowid username passwordHash id beforeCommit) w (λ r w',
    runs w w' ∧ view (w_fs w') = view (w_fs w) ∧
    match r with
    | Ok None => w_db w' = w_db w
    | Ok (Some userID) => ∃ now,
        marker_of (w_db w) = Some (mkState id StatusPristine) ∧ o_users (w_db w) = ∅ ∧
        1 ≤ userID ∧ marker_of (w_db w') = Some (mkState id StatusInitialized) ∧
        o_users (w_db w') = {[userID := newAdmin userID username passwordHash now]}
    | Err _ => True
    end).
Proof.
  intros Hw Hfs. unfold createAdminBody. m_step.
  m_use readState_spec as [marker|e] w1 (Hc1 & Hd1 & Hr1);
    [|split_and!; eauto with store; by rewrite (calm_fs _ _ Hc1)].
  m_step. m_use userSummary_spec as [summary|e] w2 (Hc2 & Hd2 & Hr2);
    [|split_and!; eauto with store; by rewrite (calm_fs _ _ Hc2), (calm_fs _ _ Hc1)].
  assert (calm w w2) as Hc by eauto with store.
  assert (w_db w2 = w_db w) as Hd by congruence.
  subst summary. destruct Hr1 as [-> _]. cbn [fst]. rewrite Hd1, <- Hd in *.
  clear w1 Hc1 Hd1 Hc2 Hd2. assert (view (w_fs w2) = view (w_fs w)) as Hv2
    by (by rewrite (calm_fs _ _ Hc)).
  m_step; [m_step; split_and!; eauto with store|].
  apply orb_false_elim in Heqb as [Hm Hn]. apply negb_false_iff, Z.eqb_eq in Hn.
  assert (o_users (w_db w2) = ∅) as Hempty by (apply map_size_empty_inv; lia).
  assert (marker_of (w_db w2) = Some (mkState id StatusPristine)) as Hmark.
  { destruct (marker_of (w_db w2)) as [[i st]|]; [|done]. simpl in Hm.
    apply orb_false_elim in Hm as [H1%negb_false_iff H2%negb_false_iff].
    apply bool_decide_eq_true in H1, H2. by subst. }
  do 2 m_step. unfold insertAdmin. do 2 m_step; [store_solve|].
  rewrite Hempty in *. rewrite bool_decide_eq_true_2 in * by done. cbn [fst snd] in *.
  m_step; [m_step; store_solve|].
  m_step. eapply post_mono; [apply runBeforeCommit_spec; [eauto with store|calm_eqs; congruence]|]. cbv beta.
  intros prepared w4 (Hc4 & Hd4 & Hv4).
  assert (runs w w4) as Hr4 by (eapply runs_trans; [|done]; eauto with store).
  assert (view (w_fs w4) = view (w_fs w)) as Hv by (calm_eqs; congruence).
  destruct prepared as [e|]; [m_step; store_solve|].
  unfold sealMarker. do 2 m_step; [store_solve|].
  rewrite Hd4, H0 in *. cbn [o_bootstrap_state with_users] in *.
  unfold marker_of in Hmark.
  destruct (o_bootstrap_state (w_db w2)) as [[row|]|] eqn:Eb; simplify_eq/=.
  rewrite !bool_decide_eq_true_2 in * by done. cbn [fst snd andb] in *.
  m_step; [discriminate|m_step].
  split_and!; [store_solve..|]. exists (w_clock w2). rewrite H2.
  unfold marker_of. simpl. rewrite Eb, Hempty. split_and!; try done; [by destruct row; simplify_eq/=|lia].
Qed.

(** A transaction whose body leaves the seal alone: what the body established,
    or the database as it was. *)
Lemma immediate_runs {A} (body : M (res A)) w (P : A → Database → Prop) :
  alone w →
  (∀ w0, alone w0 → w_db w0 = w_db w → w_fs w0 = w_fs w →
     post body w0 (λ r w2, runs w0 w2 ∧ view (w_fs w2) = view (w_fs w0) ∧
       match r with Ok a => P a (w_db w2) | Err _ => True end)) →
  post (withImmediateTransaction body) w (λ r w',
    runs w w' ∧ view (w_fs w') = view (w_fs w) ∧
    match r with Ok a => P a (w_db w') | Err _ => w_db w' = w_db w end).
Proof.
  intros Hw Hb. unfold withImmediateTransaction. m_step.
  m_use db_Conn_spec as [[]|e] w1 (Hc1 & Hd1 & _); [|store_solve].
  apply transaction_runs; [eauto with store| |intros e w2 _ ? ? _; store_solve].
  intros w0 H0 Hd0 Hf0. assert (w_fs w0 = w_fs w) as Hf by (by rewrite Hf0, (calm_fs _ _ Hc1)).
  m_use Hb as r w2 (Hr2 & Hv2 & HP). split; [done|].
  calm_eqs. split.
  - intros e w3 _ Hr3 Hf3 Hd3. store_solve.
  - intros a w3 -> Hr3 Hf3 Hd3. rewrite Hd3. store_solve.
Qed.

Lemma createAdminTransaction_spec username passwordHash id w :
  alone w → w_fs w = fs → a_seal (abs_of view w) = None →
  post (withImmediateTransaction
          (createAdminBody next_rowid username passwordHash id beforeCommit)) w (λ r w',
    runs w w' ∧
    match r with
    | Ok (Some userID) =>
       create_step username passwordHash (abs_of view w) (abs_of view w') ∧
       a_seal (abs_of view w') = None ∧
       a_marker (abs_of view w') = Some (mkState id StatusInitialized) ∧
       (∀ w2, w_db w2 = w_db w' → view (w_fs w2) = Some id →
          create_step username passwordHash (abs_of view w) (abs_of view w2)) ∧
       ∃ now, a_users (abs_of view w') = {[userID := newAdmin userID username passwordHash now]}
    | _ => abs_of view w' = abs_of view w
    end).
Proof.
  intros Hw Hfs Hnone. eapply post_mono; [apply (immediate_runs _ _ (λ r db,
    match r with
    | None => db = w_db w
    | Some userID => ∃ now,
        marker_of (w_db w) = Some (mkState id StatusPristine) ∧ o_users (w_db w) = ∅ ∧
        1 ≤ userID ∧ marker_of db = Some (mkState id StatusInitialized) ∧
        o_users db = {[userID := newAdmin userID username passwordHash now]}
    end)); [done|]|].
  - intros w0 H0 Hd0 Hf0. m_use createAdminBody_spec as r w2 (Hr & Hv & HP).
    split_and!; [done..|]. destruct r as [[userID|]|]; rewrite <- ?Hd0; done.
  - intros r w' (Hr & Hv & HP). split; [done|].
    destruct r as [[userID|]|]; [|unfold abs_of; by rewrite HP, Hv..].
    destruct HP as (now & Hm & Hu & Hid & Hm' & Hu'). simpl in Hnone.
    assert (∀ w2, w_db w2 = w_db w' → view (w_fs w2) = None ∨ view (w_fs w2) = Some id →
      create_step username passwordHash (abs_of view w) (abs_of view w2)) as Hstep.
    { intros w2 Hd2 Hv2. unfold abs_of at 2. rewrite Hd2, Hm', Hu'. by eapply create_commit. }
    split_and!; [apply Hstep; [done|left; congruence]|simpl; congruence|done| |by exists now].
    intros w2 Hd2 Hv2. apply Hstep; auto.
Qed.

(** [CreateAdmin] refines [bootstrap_step] under every fault schedule; success
    means the whole transition was made. *)
Lemma CreateAdmin_refines username passwordHash w : alone w → w_fs w = fs →
  post (CreateAdmin next_rowid (Some seal) username passwordHash beforeCommit) w (λ r w',
    runs w w' ∧
    bootstrap_step username passwordHash (abs_of view w) (abs_of view w') ∧
    ∀ userID, r = Ok userID →
      IsArgon2id passwordHash = true ∧
      ∃ b id now, reconcile_step (abs_of view w) b ∧
        create_step username passwordHash b (abs_of view w') ∧
        a_marker (abs_of view w') = Some (mkState id StatusInitialized) ∧
        a_seal (abs_of view w') = Some id ∧
        a_users (abs_of view w') = {[userID := newAdmin userID username passwordHash now]}).
Proof.
  intros Hw Hfs. unfold CreateAdmin. m_step.
  { m_step. split_and!; [eauto with store| |done]. eapply bootstrap_reconcile; constructor. }
  apply negb_false_iff in Heqb. m_step. pose proof (ReconcileState_pristine w Hw) as Hpf.
  eapply post_mono; [apply (post_and _ _ _ _ (ReconcileState_refines w Hw) Hpf)|]. clear Hpf. cbv beta.
  intros [st [e|]] w1 [(Hr1 & _ & Hs1 & Hst) Hpf]; simpl in Hst, Hpf.
  { m_step. split_and!; [done| |done]. eapply bootstrap_reconcile; [done|constructor]. }
  m_step.
  { m_step. split_and!; [done| |done]. eapply bootstrap_reconcile; [done|constructor]. }
  destruct (Hst eq_refl) as (newID & _ & -> & Hrec & Hmark & Hseal). clear Hst.
  set (d := decided (abs_of view w) newID) in *.
  apply negb_false_iff, bool_decide_eq_true in Heqb0 as Hpr.
  destruct (decision_pristine (a_marker (abs_of view w)) (a_seal (abs_of view w))
    (user_count (abs_of view w)) newID) as (Hnone & _ & _); [unfold user_count; lia|done..|].
  assert (d_createSeal d = false) as Hcs.
  { destruct (d_createSeal d) eqn:Hcs; [|done]. apply decision_create_seal in Hcs as (_ & Hi & _).
    unfold d, decided in Hpr. rewrite Hpr in Hi. done. }
  simpl in Hnone. rewrite Hcs, Hnone in Hseal. m_step.
  assert (w_fs w1 = fs) as Hfs1 by (rewrite <- Hfs; by apply Hpf).
  m_use createAdminTransaction_spec as r w2 (Hr2 & HP).
  assert (runs w w2) as Hw2 by eauto with store.
  destruct r as [[userID|]|e].
  - destruct HP as (Hstep & Hs2 & Hm1 & Hsealed & now & Hu). m_step.
    m_use seal_create as r3 w3 (Hr3 & Hd3 & HP3). simpl in Hs2.
    assert (runs w w3) as Hw3 by eauto with store.
    assert (∀ e, r3 = Some e → bootstrap_step username passwordHash (abs_of view w) (abs_of view w3)) as Hfail.
    { intros e ->. eapply bootstrap_create; [done|]. destruct HP3 as [E|[_ E]]; [|by apply Hsealed].
      unfold abs_of at 2. rewrite Hd3, E. done. }
    destruct r3 as [e|]; m_step; [by split_and!; eauto|].
    destruct HP3 as [Hv3 _]. specialize (Hsealed w3 Hd3 Hv3).
    split_and!; [done|by eapply bootstrap_create|]. intros ? [= <-]. split; [done|].
    exists (abs_of view w1), (InstallationID (d_result d)), now. split_and!; try done.
    all: simpl in *; by rewrite Hd3.
  - m_step. m_use ReconcileState_refines as [st2 [e|]] w3 (Hr3 & _ & Hs3 & _); m_step;
      rewrite HP in Hs3; (split_and!; [eauto with store|by eapply bootstrap_reconcile|done]).
  - m_step. rewrite HP. split_and!; [done| |done]. eapply bootstrap_reconcile; [done|constructor].
Qed.
End Refinement.

(** ** Consequences on the abstract machine *)

(** Setup is open: no seal, no user, and a marker that never left pristine. *)
Definition setup_open (a : Abs) : Prop :=
  a_seal a = None ∧ a_users a = ∅ ∧
  (a_marker a = None ∨ ∃ id, a_marker a = Some (mkState id StatusPristine)).

Lemma reconcile_step_users a b : reconcile_step a b → a_users b = a_users a.
Proof. by inversion 1. Qed.

Lemma reconcile_step_seal a b id : a_seal a = Some id → reconcile_step a b → a_seal b = Some id.
Proof.
  intros Hs. inversion 1 as [|? ? Hv|? ? Hv Hc]; subst; try done.
  apply decision_create_seal in Hc as [Hn _]. congruence.
Qed.

(** Reconciliation never opens setup. *)
Lemma reconcile_step_open a b : reconcile_step a b → setup_open b → setup_open a.
Proof.
  inversion 1 as [|? newID Hv|? ? Hv Hc]; subst; [done| |by intros [? _]].
  intros (Hs & Hu & Hm). simpl in *. destruct Hm as [|[id [= Hm]]]; [done|].
  destruct (decision_pristine (a_marker a) (a_seal a) (user_count a) newID) as (_ & _ & Hmark).
  - unfold user_count. lia.
  - unfold decided in Hm. by rewrite Hm.
  - unfold decided in Hm. destruct (d_recovery _) eqn:E; [|done].
    apply decision_recovery in E. rewrite Hm in E. discriminate.
  - split_and!; [done..|]. unfold decided in Hm. rewrite Hm in Hmark.
    destruct Hmark as [[? _]|?]; eauto.
Qed.

Lemma create_step_open u p a b : create_step u p a b → setup_open a.
Proof. inversion 1; subst. split_and!; eauto. Qed.

Lemma create_step_id u p a b :
  create_step u p a b → ∃ userID now, 1 ≤ userID ∧ a_users b = {[userID := newAdmin userID u p now]}.
Proof. inversion 1; subst. eauto. Qed.

Lemma user_count_zero a : user_count a = 0 ↔ a_users a = ∅.
Proof.
  unfold user_count. split; [|by intros ->].
  intros. apply map_size_empty_inv. lia.
Qed.

(** With a [beforeCommit] that merely leaves the database alone, an administrator
    appears only when setup was open, and success finds marker and seal agreeing. *)
Lemma CreateAdmin_enrols (seal : Seal) (view : FileSystem → option string) `{!SealSpec seal view}
    (next_rowid : gmap Z UserDBModel → Z) (beforeCommit : option (Z → M (option goerr))) username passwordHash w :
  (∀ cb id w0, beforeCommit = Some cb → alone w0 → post (cb id) w0 (λ _ w', runs w0 w' ∧ w_db w' = w_db w0)) →
  alone w →
  post (CreateAdmin next_rowid (Some seal) username passwordHash beforeCommit) w (λ r w', runs w w' ∧
    match r with
    | Ok userID => setup_open (abs_of view w) ∧ 1 ≤ userID ∧ ∃ id now,
        a_marker (abs_of view w') = Some (mkState id StatusInitialized) ∧ a_seal (abs_of view w') = Some id ∧
        a_users (abs_of view w') = {[userID := newAdmin userID username passwordHash now]}
    | Err _ => a_users (abs_of view w') = a_users (abs_of view w) ∨
        setup_open (abs_of view w) ∧ ∃ userID now,
          a_users (abs_of view w') = {[userID := newAdmin userID username passwordHash now]}
    end).
Proof.
  intros Hcb Hw. unfold CreateAdmin. m_step; [m_step; split; [eauto with store|by left]|].
  m_step. m_use (ReconcileState_refines seal view) as [st [e|]] w1 (Hr1 & Ho1 & Hs1 & Hst); simpl in Hst.
  { m_step. split; [done|left]. by apply reconcile_step_users. }
  m_step; [m_step; split; [done|left; by apply reconcile_step_users]|].
  destruct (Hst eq_refl) as (newID & _ & -> & Hrec & _ & _). clear Hst.
  apply negb_false_iff, bool_decide_eq_true in Heqb0 as Hpr.
  destruct (decision_pristine (a_marker (abs_of view w)) (a_seal (abs_of view w))
    (user_count (abs_of view w)) newID) as (Hnone & Hzero & Hmark); [unfold user_count; lia|done..|].
  assert (setup_open (abs_of view w)) as Hopen.
  { split_and!; [done|by apply user_count_zero|]. unfold decided in Hpr.
    destruct Hmark as [[? _]|Hm]; [by left|right]. destruct (d_result _) as [i s]. simpl in Hpr. subst s. eauto. }
  assert (o_users (w_db w1) = o_users (w_db w)) as Hu1 by apply (only_marker_users _ _ Ho1).
  assert (alone w1) as Hw1 by eauto with store. set (id := InstallationID _). m_step.
  eapply post_mono; [apply (immediate_runs (λ _, None) _ _ (λ r db, match r with
    | None => db = w_db w1
    | Some userID => ∃ now, 1 ≤ userID ∧ marker_of db = Some (mkState id StatusInitialized) ∧
        o_users db = {[userID := newAdmin userID username passwordHash now]}
    end)); [done|]|].
  { intros w0 H0 Hd0 Hf0. eapply post_mono; [apply (createAdminBody_spec (λ _, None) next_rowid beforeCommit (w_fs w0));
      [|done|done]|].
    - intros cb Hc uid w2 Hw2 _. eapply post_mono; [by apply (Hcb cb)|]. cbv beta. by intros r w3 [? ?].
    - cbv beta. intros r w2 (Hr2 & _ & HP). split_and!; [done..|]. rewrite Hd0 in HP.
      destruct r as [[userID|]|]; try done. destruct HP as (now & _ & _ & ? & ? & ?). by exists now. }
  cbv beta. intros r w2 (Hr2 & _ & HP). assert (runs w w2) as Hw2 by eauto with store.
  assert (alone w2) as Ha2 by eauto with store.
  destruct r as [[userID|]|e].
  - destruct HP as (now & Hid & Hm & Hu). m_step. m_use (seal_create (seal := seal) (view := view)) as r3 w3 (Hr3 & Hd3 & HP3).
    assert (runs w w3) as Hw3 by eauto with store. destruct r3 as [e|]; m_step; (split; [done|]).
    + right. split; [done|]. exists userID, now. simpl. by rewrite Hd3.
    + split_and!; [done|done|]. exists id, now. simpl. rewrite Hd3. destruct HP3 as [-> _]. done.
  - m_step. m_use (ReconcileState_refines seal view) as [st2 [e|]] w3 (Hr3 & Ho3 & _ & _); m_step;
      (split; [eauto with store|left]); simpl; by rewrite (only_marker_users _ _ Ho3), HP.
  - m_step. split; [done|left]. simpl. by rewrite HP.
Qed.

(** A bootstrap attempt leaves the users alone unless setup was open. *)
Lemma bootstrap_step_users u p a b :
  bootstrap_step u p a b → a_users b = a_users a ∨ setup_open a.
Proof.
  inversion 1; subst.
  - left. by rewrite (reconcile_step_users b0 b), (reconcile_step_users a b0).
  - right. by eapply reconcile_step_open, create_step_open.
Qed.

Lemma bootstrap_step_seal u p a b id :
  a_seal a = Some id → bootstrap_step u p a b → a_seal b = Some id.
Proof.
  intros Hs. inversion 1; subst; [by eauto using reconcile_step_seal|].
  pose proof (reconcile_step_seal _ _ _ Hs H0). inversion H1. congruence.
Qed.

(** The life of an appliance: daemon starts, bootstrap attempts, and anything at
    all done to the database file (user management, a restore from backup), in
    any order, each possibly cut short by a failure. *)
Inductive appliance_step : Abs → Abs → Prop :=
| appliance_reconcile a b : reconcile_step a b → appliance_step a b
| appliance_bootstrap u p a b : bootstrap_step u p a b → appliance_step a b
| appliance_database a marker users : appliance_step a (mkAbs marker users (a_seal a)).

Lemma appliance_seal a b id :
  rtc appliance_step a b → a_seal a = Some id → a_seal b = Some id.
Proof.
  induction 1 as [|a b c Hs _ IH]; [done|]. intros Ha. apply IH.
  inversion Hs; subst; eauto using reconcile_step_seal, bootstrap_step_seal.
Qed.

(** ** A seal for concrete runs: inode 0 holds the identifier *)

Definition memView (fs : FileSystem) : option string :=
  match fs_inodes fs !! 0 with
  | Some (mkInode (KFile c) _ _) => Some c
  | _ => None
  end.

Definition memSeal : Seal := mkSeal
  (λ w, (Ok (memView (w_fs w)), w))
  (λ id w, match memView (w_fs w) with
           | Some other => (if bool_decide (other = id) then None else Some (NewError "other seal"), w)
           | None => (None, w_set_fs (set_inode 0 (mkInode (KFile id) 0x180 0) (w_fs w)) w)
           end).

#[export] Instance memSeal_spec : SealSpec memSeal memView.
Proof.
  split.
  - intros w Hw. unfold post. simpl. split_and!; eauto with store.
  - intros id w Hw. unfold post. simpl. destruct (memView (w_fs w)) as [other|] eqn:E; simpl.
    + split_and!; eauto with store. case_bool_decide; naive_solver.
    + split_and!; [by constructor|done| |by left]. unfold memView. simpl. by rewrite lookup_insert_eq.
Qed.

Definition quietWorld (db : Database) (entropy : string) : World :=
  mkWorld db emptyFS (2000 * hour) (λ _, quietEvent) false entropy [].

Lemma quietWorld_alone db entropy : alone (quietWorld db entropy).
Proof. by intros n. Qed.

Definition firstID : gmap Z UserDBModel → Z := λ m, Z.of_nat (size m) + 1.

Definition sixteen : string := "0123456789abcdef".

(** ** Properties *)

(** C3. What a successful bootstrap means: when [CreateAdmin] returns a user
    identifier, on whatever fault schedule, the password was an Argon2id verifier,
    setup had been open (no seal, no user, no marker beyond pristine), and now
    exactly one user exists, an administrator with that verifier, beside an
    initialised marker and a seal carrying the same installation identifier. *)
Theorem bootstrap_success (seal : Seal) (view : FileSystem → option string)
    (next_rowid : gmap Z UserDBModel → Z) (beforeCommit : option (Z → M (option goerr)))
    (username passwordHash : string) (w w' : World) (userID : Z) :
  SealSpec seal view →
  (∀ cb, beforeCommit = Some cb → callback_ok view (w_fs w) cb) →
  alone w →
  CreateAdmin next_rowid (Some seal) username passwordHash beforeCommit w = (Ok userID, w') →
  IsArgon2id passwordHash = true ∧ setup_open (abs_of view w) ∧ 1 ≤ userID ∧
  ∃ id now,
    o_users (w_db w') = {[userID := mkUser userID username passwordHash "admin" "" "" "" "" 0 now now]} ∧
    marker_of (w_db w') = Some (mkState id StatusInitialized) ∧
    view (w_fs w') = Some id.
Proof.
  intros Hseal Hcb Hw Hrun.
  destruct (post_run _ _ _ (CreateAdmin_refines seal view next_rowid beforeCommit (w_fs w) Hcb
    username passwordHash w Hw eq_refl) _ _ Hrun) as (_ & _ & Hok).
  destruct (Hok userID eq_refl) as (Harg & b & id & now & Hrec & Hcreate & Hm & Hs & Hu).
  split_and!; [done|by eapply reconcile_step_open, create_step_open| |by exists id, now].
  apply create_step_id in Hcreate as (userID' & now' & Hid & Hu').
  rewrite Hu' in Hu. by apply map_singleton_inj in Hu as [-> _].
Qed.

Abbreviation bootstrapRun :=
  (CreateAdmin firstID (Some memSeal) "admin" sampleVerifier None (quietWorld emptyDatabase sixteen)).

Lemma bootstrapRun_ok : bootstrapRun = (Ok 1, snd bootstrapRun).
Proof. apply run_pair. vm_compute. reflexivity. Qed.

Lemma no_callback view fs : ∀ cb, None = Some cb → callback_ok view fs cb.
Proof. intros cb H. discriminate H. Qed.

Lemma bootstrap_success_witness :
  fst bootstrapRun = Ok 1 ∧
  memView (w_fs (snd bootstrapRun)) = Some "30313233-3435-4637-b839-616263646566".
Proof.
  destruct (bootstrap_success memSeal memView firstID None "admin" sampleVerifier
    (quietWorld emptyDatabase sixteen) (snd bootstrapRun) 1 memSeal_spec (no_callback memView _)
    (quietWorld_alone _ _) bootstrapRun_ok) as (_ & _ & _ & id & now & _ & Hm & Hv).
  split; [vm_compute; reflexivity|]. rewrite Hv.
  apply (f_equal (fmap InstallationID)) in Hm. vm_compute in Hm. symmetry. exact Hm.
Defined.

(** C4. Atomicity of bootstrap: however a run of [CreateAdmin] ends and whatever
    failed on the way, either the users are untouched, or setup was open and the
    database holds exactly the new administrator together with its initialised
    marker, the seal being absent (to be published by the next reconciliation) or
    that of the same installation. *)
Theorem bootstrap_atomic (seal : Seal) (view : FileSystem → option string)
    (next_rowid : gmap Z UserDBModel → Z) (beforeCommit : option (Z → M (option goerr)))
    (username passwordHash : string) (w : World) :
  SealSpec seal view →
  (∀ cb, beforeCommit = Some cb → callback_ok view (w_fs w) cb) →
  alone w →
  let w' := snd (CreateAdmin next_rowid (Some seal) username passwordHash beforeCommit w) in
  o_users (w_db w') = o_users (w_db w) ∨
  setup_open (abs_of view w) ∧
  ∃ id userID now,
    o_users (w_db w') = {[userID := mkUser userID username passwordHash "admin" "" "" "" "" 0 now now]} ∧
    marker_of (w_db w') = Some (mkState id StatusInitialized) ∧
    (view (w_fs w') = None ∨ view (w_fs w') = Some id).
Proof.
  intros Hseal Hcb Hw w'.
  destruct (CreateAdmin_refines seal view next_rowid beforeCommit (w_fs w) Hcb
    username passwordHash w Hw eq_refl) as (_ & Hstep & _). fold w' in Hstep.
  inversion Hstep as [? b ? H1 H2|? b ? H1 H2]; subst.
  - left. apply reconcile_step_users in H1, H2. simpl in *. congruence.
  - right. split; [by eapply reconcile_step_open, create_step_open|].
    inversion H2 as [? id userID now sealed ? ? ? ? Hsealed]; subst.
    exists id, userID, now. split_and!; [done..|]. by destruct Hsealed as [->| ->]; auto.
Qed.

Lemma bootstrap_atomic_witness :
  o_users (w_db (snd bootstrapRun)) = o_users emptyDatabase ∨
  ∃ id, marker_of (w_db (snd bootstrapRun)) = Some (mkState id StatusInitialized).
Proof.
  destruct (bootstrap_atomic memSeal memView firstID None "admin" sampleVerifier
    (quietWorld emptyDatabase sixteen) memSeal_spec (no_callback memView _)
    (quietWorld_alone _ _)) as [H|(_ & id & _ & _ & _ & H & _)].
  - left. exact H.
  - right. exists id. exact H.
Defined.

Lemma create_step_unsealed u p a b id : create_step u p a b → a_seal a = Some id → False.
Proof. inversion 1; subst. congruence. Qed.

(** C5. Setup never reopens: once a seal has been published, then after any number
    of daemon starts, bootstrap attempts and arbitrary rewrites of the database,
    each cut short anywhere, a bootstrap attempt fails, leaves the users as they
    are and leaves the seal in place. *)
Theorem sealed_forever (seal : Seal) (view : FileSystem → option string)
    (next_rowid : gmap Z UserDBModel → Z) (beforeCommit : option (Z → M (option goerr)))
    (username passwordHash id : string) (a : Abs) (w : World) :
  SealSpec seal view →
  (∀ cb, beforeCommit = Some cb → callback_ok view (w_fs w) cb) →
  alone w →
  a_seal a = Some id →
  rtc appliance_step a (abs_of view w) →
  let run := CreateAdmin next_rowid (Some seal) username passwordHash beforeCommit w in
  is_Ok (fst run) = false ∧
  o_users (w_db (snd run)) = o_users (w_db w) ∧
  view (w_fs (snd run)) = Some id.
Proof.
  intros Hseal Hcb Hw Ha Hlife run.
  pose proof (appliance_seal _ _ _ Hlife Ha) as Hs.
  destruct (CreateAdmin_refines seal view next_rowid beforeCommit (w_fs w) Hcb
    username passwordHash w Hw eq_refl) as (_ & Hstep & Hok). fold run in Hstep, Hok.
  split_and!.
  - destruct (fst run) as [userID|] eqn:E; [|done].
    destruct (Hok userID eq_refl) as (_ & b & _ & _ & Hrec & Hc & _).
    exfalso. by eapply create_step_unsealed, reconcile_step_seal.
  - destruct (bootstrap_step_users _ _ _ _ Hstep) as [E|[Hn _]]; [exact E|congruence].
  - by eapply (bootstrap_step_seal username passwordHash _ (abs_of view (snd run))).
Qed.

Lemma sealed_forever_witness :
  is_Ok (fst (CreateAdmin firstID (Some memSeal) "mallory" sampleVerifier None
    (w_set_fs (mkFS {[0 := mkInode (KFile "30313233-3435-4637-b839-616263646566") 0x180 0]} ∅)
       (quietWorld emptyDatabase sixteen)))) = false.
Proof.
  eapply (sealed_forever memSeal memView firstID None "mallory" sampleVerifier
    "30313233-3435-4637-b839-616263646566"
    (mkAbs None ∅ (Some "30313233-3435-4637-b839-616263646566")) _ memSeal_spec (no_callback memView _)).
  - intros n. split; reflexivity.
  - reflexivity.
  - apply rtc_refl.
Defined.

(** How the marker's status may move. *)
Inductive status_moves : Status → Status → Prop :=
| status_same s : status_moves s s
| status_initialized : status_moves StatusPristine StatusInitialized
| status_recovery s : status_moves s StatusRecovery.

Lemma decideMarked_moves m seal n : status_moves (status m) (status (d_result (decideMarked m seal n))).
Proof.
  unfold decideMarked. repeat case_match; repeat case_bool_decide; simpl; try constructor.
  all: try done. all: match goal with H : status _ = StatusPristine |- _ => rewrite H end; constructor.
Qed.

(** Reconciliation is monotone, whatever fails on the way. *)
Lemma ReconcileState_monotone seal view `{!SealSpec seal view} m w : alone w →
  marker_of (w_db w) = Some m → validInstallationID (InstallationID m) = true → validStatus (status m) = true →
  post (ReconcileState (Some seal)) w (λ _ w',
    ∃ m', marker_of (w_db w') = Some m' ∧ InstallationID m' = InstallationID m ∧
      status_moves (status m) (status m') ∧ (status m = StatusRecovery → m' = m)).
Proof.
  intros Hw Hm Hid Hst. m_use (ReconcileState_refines seal view) as r w' (_ & _ & Hstep & _).
  assert (∀ newID, d_result (decided (abs_of view w) newID)
    = d_result (decideMarked m (view (w_fs w)) (user_count (abs_of view w)))) as Hd.
  { intros newID. unfold decided, decision. simpl. by rewrite Hm, Hid, Hst. }
  assert (marker_of (w_db w') = Some m ∨ marker_of (w_db w')
    = Some (d_result (decideMarked m (view (w_fs w)) (user_count (abs_of view w))))) as [E|E].
  { inversion Hstep as [? Ea|? newID Hv Ea|? newID Hv Hc Ea]; subst.
    - left. by rewrite <- Hm.
    - right. by rewrite <- (Hd newID).
    - right. by rewrite <- (Hd newID). }
  - exists m. split_and!; try done. constructor.
  - eexists. split_and!; [exact E|apply decideMarked_id|apply decideMarked_moves|].
    intros Hr. unfold decideMarked. by rewrite bool_decide_eq_true_2.
Qed.

(** A database whose administrator was imported beside a pristine marker. *)
Definition importedDatabase : Database :=
  mkDatabase {[1 := newAdmin 1 "admin" sampleVerifier 5]}
    (Some (Some (mkBootstrapState "30313233-3435-4637-b839-616263646566" StatusPristine None None 5 5)))
    ∅ ∅ [] ∅ ∅.

(** The three records agree: what a healthy appliance looks like. *)
Definition healthy (a : Abs) (st : State) : Prop :=
  a_marker a = Some st ∧ validInstallationID (InstallationID st) = true ∧
  (status st = StatusPristine ∧ a_users a = ∅ ∧ a_seal a = None ∨
   status st = StatusInitialized ∧ a_users a ≠ ∅ ∧ a_seal a = Some (InstallationID st)).

(** The decision on a healthy appliance is to keep it as it is. *)
Lemma healthy_decided a st newID : healthy a st → decided a newID = mkDecision st false false.
Proof.
  intros (Hm & Hid & Hst). unfold decided, decision. rewrite Hm, Hid. destruct st as [id s]. simpl in *.
  destruct Hst as [(-> & Hu & ->)|(-> & Hu & ->)]; simpl.
  - apply user_count_zero in Hu. unfold decideMarked. simpl. by rewrite Hu.
  - unfold decideMarked. simpl. rewrite <- user_count_zero in Hu.
    destruct (Z.eqb_spec (user_count a) 0); [done|]. by rewrite bool_decide_eq_true_2.
Qed.

Lemma decided_healthy a b newID :
  validInstallationID newID = true →
  d_recovery (decided a newID) = false →
  a_marker b = Some (d_result (decided a newID)) → a_users b = a_users a →
  a_seal b = (if d_createSeal (decided a newID)
              then Some (InstallationID (d_result (decided a newID))) else a_seal a) →
  healthy b (d_result (decided a newID)).
Proof.
  intros Hid Hrec Hm Hu Hs. unfold healthy. rewrite Hm, Hs, Hu. clear Hm Hs Hu.
  rewrite <- user_count_zero. assert (0 ≤ user_count a) by (unfold user_count; lia).
  revert Hrec. unfold decided, decision, decideMarked. 
  destruct (a_marker a) as [[mid ms]|], (a_seal a) as [sid|]; repeat case_match; simpl in *; intros; try done;
    repeat match goal with
    | H : _ || _ = false |- _ => apply orb_false_elim in H as [? ?]
    | H : negb _ = false |- _ => apply negb_false_iff in H
    | H : bool_decide _ = true |- _ => apply bool_decide_eq_true in H
    | H : bool_decide _ = false |- _ => apply bool_decide_eq_false in H
    end; subst; split_and!; try done; try (left; split_and!; (done || lia));
    try (right; split_and!; (done || lia)).
  all: unfold validStatus in *; repeat case_bool_decide; done.
Qed.

Lemma ReconcileState_healthy seal view `{!SealSpec seal view} w : alone w →
  post (ReconcileState (Some seal)) w (λ r w',
    runs w w' ∧ only_marker (w_db w) (w_db w') ∧ (r.2 = None → healthy (abs_of view w') r.1)).
Proof.
  intros Hw. m_use (ReconcileState_refines seal view) as r w1 (Hr & Ho & _ & Hst).
  split_and!; [done..|]. intros Hn. destruct (Hst Hn) as (newID & Hid & E & Hrec & Hm & Hs).
  rewrite E in *. apply decided_healthy; try done. by apply only_marker_users.
Qed.

(** A body whose decision keeps a well-formed marker writes nothing at all. *)
Lemma reconcileBody_still m seal newID w : alone w →
  marker_of (w_db w) = Some m → validInstallationID (InstallationID m) = true → validStatus (status m) = true →
  d_result (decideMarked m seal (Z.of_nat (size (o_users (w_db w))))) = m →
  post (reconcileBody seal newID) w (λ r w', calm w w' ∧ w_db w' = w_db w ∧
    match r with Ok d => d = decideMarked m seal (Z.of_nat (size (o_users (w_db w)))) | Err _ => True end).
Proof.
  intros Hw Hm Hid Hst Hd. unfold reconcileBody. m_step.
  m_use readState_spec as [marker|e] w1 (Hc1 & Hd1 & Hr1); [|split_and!; eauto with store].
  m_step. m_use userSummary_spec as [summary|e] w2 (Hc2 & Hd2 & Hr2);
    [|split_and!; eauto with store; congruence].
  subst summary. destruct Hr1 as [-> _]. do 2 m_step. rewrite Hm, Hid, Hst. cbn [negb orb]. rewrite Hd1, Hd.
  rewrite bool_decide_eq_true_2 by done. cbn [negb]. m_step. split_and!; eauto with store; congruence.
Qed.

(** Reconciling a healthy appliance writes nothing, whatever fails on the way. *)
Lemma ReconcileState_still seal view `{!SealSpec seal view} st w : alone w →
  healthy (abs_of view w) st →
  post (ReconcileState (Some seal)) w (λ r w',
    w_db w' = w_db w ∧ w_fs w' = w_fs w ∧ (r.2 = None → r.1 = st)).
Proof.
  intros Hw Hh. unfold ReconcileState. m_step. m_use seal_load as r1 w1 (Hc1 & Hd1 & Hv).
  pose proof (calm_fs _ _ Hc1) as Hf1. destruct r1 as [sealID|e]; [|by m_step].
  rewrite (Hv _ eq_refl). m_step. m_use newInstallationID_spec as r2 w2 (Hc2 & Hd2 & Hf2 & _).
  assert (w_db w2 = w_db w ∧ w_fs w2 = w_fs w) as [Hdb Hfs] by (split; congruence).
  destruct r2 as [newID|e]; [|by m_step]. m_step.
  pose proof (healthy_decided _ _ newID Hh) as Hk. destruct Hh as (Hm & Hid & Hst). simpl in Hm.
  assert (validStatus (status st) = true) as Hvs by (destruct Hst as [(-> & _)|(-> & _)]; done).
  unfold decided, decision in Hk. simpl in Hk. rewrite Hm, Hid, Hvs in Hk. cbn [negb orb] in Hk.
  eapply post_mono; [apply (withImmediateTransaction_spec _ w2 (λ r db,
    db = w_db w ∧ match r with Ok d => d = mkDecision st false false | Err _ => True end))|].
  - eauto with store.
  - intros e. by rewrite Hdb.
  - intros w0 H0 Hd0 _. rewrite Hdb in Hd0. unfold user_count in Hk. simpl in Hk. rewrite <- Hd0 in Hk, Hm.
    eapply post_mono; [apply (reconcileBody_still st); [done..|by rewrite Hk]|].
    intros r w4 (Hc4 & Hd4 & Hr4). split; [done|]. destruct r as [d|]; [|done]. rewrite Hr4, Hk. split; congruence.
  - intros r w3 (Hc3 & Hd3 & Hr3). pose proof (calm_fs _ _ Hc3) as Hf3. destruct r as [d|e]; [subst d; cbn [d_createSeal d_recovery d_result]|].
    all: repeat m_step; split_and!; try done; congruence.
Qed.

(** C6. Reconciliation, while nothing else changes the files and the database, is
    monotone, repairs and comes to rest. Whatever fails on
    the way, it writes nothing of the database but the marker row; a well-formed
    marker keeps its installation identifier, its status only moves from pristine to
    initialised or from anything to recovery, and recovery is never left. When it
    reports no error it has repaired whatever a crash left behind: marker, users and
    seal agree (pristine with no user and no seal, or initialised with users and the
    seal of that installation), and the returned state is the stored one. From then
    on reconciliation is at rest: a later run that meets this marker, these users and this
    seal, at whatever time and whatever fails during it, leaves the whole database
    (every column of the marker row included) and every file as they are, and when
    it reports no error it returns the same state. *)
Theorem reconcile_repairs (seal : Seal) (view : FileSystem → option string) (w : World) :
  SealSpec seal view → alone w →
  let run := ReconcileState (Some seal) w in
  let w' := snd run in
  only_marker (w_db w) (w_db w') ∧
  (∀ m, marker_of (w_db w) = Some m → validInstallationID (InstallationID m) = true → validStatus (status m) = true →
     ∃ m', marker_of (w_db w') = Some m' ∧ InstallationID m' = InstallationID m ∧
       status_moves (status m) (status m') ∧ (status m = StatusRecovery → m' = m)) ∧
  (snd (fst run) = None →
     healthy (abs_of view w') (fst (fst run)) ∧
     ∀ w2, alone w2 → abs_of view w2 = abs_of view w' →
       let again := ReconcileState (Some seal) w2 in
       w_db (snd again) = w_db w2 ∧ w_fs (snd again) = w_fs w2 ∧
       (snd (fst again) = None → fst (fst again) = fst (fst run))).
Proof.
  intros Hseal Hw run w'. destruct (ReconcileState_healthy seal view w Hw) as (_ & Ho & Hh). split_and!; [exact Ho|..].
  - intros m Hm Hid Hst. exact (ReconcileState_monotone seal view m w Hw Hm Hid Hst).
  - intros Hn. specialize (Hh Hn). split; [exact Hh|]. intros w2 Hw2 Ha.
    apply (ReconcileState_still seal view); [done|]. rewrite Ha. exact Hh.
Qed.

Abbreviation repairRun := (ReconcileState (Some memSeal) (quietWorld importedDatabase sixteen)).
(** The next start, an hour later, on what a run left. *)
Definition nextStart (w : World) : World :=
  mkWorld (w_db w) (w_fs w) (w_clock w + hour) (λ _, quietEvent) false sixteen [].

Lemma reconcile_repairs_witness :
  a_seal (abs_of memView (snd repairRun)) = Some "30313233-3435-4637-b839-616263646566" ∧
  (∃ m', marker_of (w_db (snd repairRun)) = Some m' ∧ status_moves StatusPristine (status m')) ∧
  w_db (snd (ReconcileState (Some memSeal) (nextStart (snd repairRun)))) = w_db (snd repairRun).
Proof.
  destruct (reconcile_repairs memSeal memView (quietWorld importedDatabase sixteen) memSeal_spec (quietWorld_alone _ _))
    as (_ & Hmono & Hrep). cbv zeta in Hrep.
  assert (fst repairRun = (mkState "30313233-3435-4637-b839-616263646566" StatusInitialized, None)) as E
    by (vm_compute; reflexivity).
  rewrite E in Hrep. cbn [fst snd InstallationID status] in Hrep.
  destruct (Hrep eq_refl) as ((_ & _ & Hs) & Hrest). split_and!.
  - destruct Hs as [(H & _)|(_ & _ & H)]; [discriminate H|exact H].
  - destruct (Hmono (mkState "30313233-3435-4637-b839-616263646566" StatusPristine) eq_refl
      ltac:(vm_compute; reflexivity) ltac:(vm_compute; reflexivity)) as (m' & Hm & _ & Hms & _).
    exists m'. split; [exact Hm|exact Hms].
  - clear -Hrest. revert Hrest. generalize (snd repairRun). intros w' Hrest.
    destruct (Hrest (nextStart w')) as (H & _); [by intros n|done|exact H].
Defined.
