(* ===== verification/FileSeal.v ===== *)
(** * The bootstrap seal on disk (src/pkg/userbootstrap/file_seal.go)

    The seal is a file outside the database directory, published with a hard link
    so that it appears complete or not at all. *)

From stdpp Require Import prelude strings gmap.
From Stdlib Require Import ZArith Lia Ascii.
From S2P Require Import Prelude GoStrings Password FileSystem Tables Store Files Bootstrap.

Local Open Scope Z_scope.
Local Open Scope m_scope.

Definition sealFormatPrefix : string := "recasaos-user-bootstrap-v1:".

Record FileSeal := mkFileSeal {
  fsl_path : string;
  fsl_ownerUID : Z;
}.

Definition NewFileSeal (path : string) (ownerUID : Z) : FileSeal := mkFileSeal path ownerUID.

Definition newline : string := String byte_LF "".

(** ** Directories *)

(** The loop of [rejectSymlinkAncestors]: [current] is the path inspected so far.
    [None] is a nil error. *)
Fixpoint rejectFrom (current todo : path) : M (option goerr) :=
  match todo with
  | [] => mret None
  | component :: rest =>
     let current := current ++ [component] in
     info <- os_Lstat current;;
     match info with
     | Err e => if IsNotExist e then mret None
                else mret (Some (Wrap "inspect bootstrap seal ancestor" e))
     | Ok info =>
        if is_symlink info then
          if negb (fi_uid info =? 0)
          then mret (Some (NewError "bootstrap seal path must not contain untrusted symlink ancestors"))
          else
            resolved <- ask (λ fs, EvalSymlinks fs current);;
            match resolved with
            | Err e => mret (Some (Wrap "resolve trusted bootstrap seal ancestor" e))
            | Ok resolved => rejectFrom resolved rest
            end
        else if negb (is_dir info)
        then mret (Some (NewError "bootstrap seal ancestor must be a directory"))
        else rejectFrom current rest
     end
  end.

(** The path is absolute and clean. *)
Definition rejectSymlinkAncestors (p : path) : M (option goerr) := rejectFrom [] p.

(** The checks on the directory's own inode. *)
Definition checkSealDirectory (info : FileInfo) (ownerUID : Z) : option goerr :=
  if is_symlink info || negb (is_dir info)
  then Some (NewError "bootstrap seal directory must be a real directory, not a symlink")
  else if negb (fi_uid info =? ownerUID)
  then Some (NewError "bootstrap seal directory has an unexpected owner")
  else if negb (Z.land (fi_perm info) 18 =? 0)
  then Some (NewError "bootstrap seal directory must not be writable by group or other users")
  else None.

Definition validateExistingSealDirectory (p : path) (ownerUID : Z) : M (option goerr) :=
  rejected <- rejectSymlinkAncestors p;;
  match rejected with
  | Some e => mret (Some e)
  | None =>
     info <- os_Lstat p;;
     match info with
     | Err e => mret (Some e)
     | Ok info => mret (checkSealDirectory info ownerUID)
     end
  end.

(** The uid of the process, and how [os.CreateTemp] picks the suffix of a name. *)
Section FileSeal.
Context (euid : Z) (temp_suffix : FileSystem → string).

Definition ensureSealDirectory (p : path) (ownerUID : Z) : M (option goerr) :=
  rejected <- rejectSymlinkAncestors p;;
  match rejected with
  | Some e => mret (Some e)
  | None =>
     info <- os_Lstat p;;
     match info with
     | Ok info => mret (checkSealDirectory info ownerUID)
     | Err e =>
        if negb (IsNotExist e) then mret (Some (Wrap "inspect bootstrap seal directory" e))
        else
          made <- mkdirAll euid 448 [] p;;
          match made with
          | Err e => mret (Some (Wrap "create bootstrap seal directory" e))
          | Ok _ =>
             rejected <- rejectSymlinkAncestors p;;
             match rejected with
             | Some e => mret (Some e)
             | None =>
                info <- os_Lstat p;;
                match info with
                | Err e => mret (Some (Wrap "inspect created bootstrap seal directory" e))
                | Ok info => mret (checkSealDirectory info ownerUID)
                end
             end
          end
     end
  end.

(** ** Reading the seal *)

(** The content of the file, up to its first 128 bytes. *)
Definition parseSeal (contents : string) : res string :=
  let value := trim_suffix newline contents in
  if negb (has_prefix sealFormatPrefix value) || contains newline value
  then Err (NewError "bootstrap seal has an invalid format")
  else
    let installationID := trim_prefix sealFormatPrefix value in
    if negb (validInstallationID installationID)
    then Err (NewError "bootstrap seal has an invalid installation id")
    else Ok installationID.

(** The checks on the file found at the path. *)
Definition checkSealFile (info : FileInfo) (ownerUID : Z) : option goerr :=
  if is_symlink info || negb (is_regular info)
  then Some (NewError "bootstrap seal must be a regular file, not a symlink")
  else if negb (fi_perm info =? 384) then Some (NewError "bootstrap seal must have mode 0600")
  else if negb (fi_uid info =? ownerUID) then Some (NewError "bootstrap seal has an unexpected owner")
  else None.

(** Opening it, checking that it is still the same file, and reading. *)
Definition readSeal (p : path) (info : FileInfo) : M (res (option string)) :=
  ok fd <- unix_Open_nofollow p or "open bootstrap seal";;
  ok openedInfo <- file_Stat fd or "inspect open bootstrap seal";;
  if negb (SameFile info openedInfo) || negb (is_regular openedInfo)
  then mret (Err (NewError "bootstrap seal changed while opening"))
  else
    ok contents <- read_limited fd 128 or "read bootstrap seal";;
    match parseSeal contents with
    | Err e => mret (Err e)
    | Ok installationID => mret (Ok (Some installationID))
    end.

Definition FileSeal_Load (seal : option FileSeal) : M (res (option string)) :=
  match seal with
  | None => mret (Err (NewError "bootstrap seal path must be absolute"))
  | Some seal =>
     if negb (IsAbs (fsl_path seal)) then mret (Err (NewError "bootstrap seal path must be absolute"))
     else
       invalid <- validateExistingSealDirectory (Dir (fsl_path seal)) (fsl_ownerUID seal);;
       match invalid with
       | Some e => if IsNotExist e then mret (Ok None) else mret (Err e)
       | None =>
          info <- os_Lstat (components (fsl_path seal));;
          match info with
          | Err e => if IsNotExist e then mret (Ok None) else mret (Err (Wrap "inspect bootstrap seal" e))
          | Ok info =>
             match checkSealFile info (fsl_ownerUID seal) with
             | Some e => mret (Err e)
             | None => readSeal (components (fsl_path seal)) info
             end
          end
       end
  end.

(** ** Publishing the seal *)

(** [os.CreateTemp(directory, ".recasaos-bootstrap-seal-*")]: the path and the
    descriptor. *)
Definition tempPrefix : string := ".recasaos-bootstrap-seal-".

Definition createTemp (directory : path) : M (res (path * Z)) :=
  call (λ fs,
    let p := directory ++ [tempPrefix +:+ temp_suffix fs] in
    match create_path p (mkInode (KFile "") 384 euid) fs with
    | (inl ino, fs') => (inl (p, ino), fs')
    | (inr e, fs') => (inr e, fs')
    end).

Definition sealText (installationID : string) : string := sealFormatPrefix +:+ installationID +:+ newline.

(** Filling the temporary file. *)
Definition writeTemporary (fd : Z) (ownerUID : Z) (installationID : string) : M (res unit) :=
  ok _ <- file_Chmod fd 384 or "secure temporary bootstrap seal";;
  ok info <- file_Stat fd or "inspect temporary bootstrap seal";;
  if negb (fi_uid info =? ownerUID)
  then mret (Err (NewError "temporary bootstrap seal has an unexpected owner"))
  else
    ok _ <- file_Write fd (sealText installationID) or "write temporary bootstrap seal";;
    ok _ <- file_Sync fd or "sync temporary bootstrap seal";;
    ok _ <- file_Close fd or "close temporary bootstrap seal";;
    mret (Ok tt).

(** Giving it its name, and making the name durable. *)
Definition publishSeal (seal : FileSeal) (temporaryPath : path) (installationID : string) : M (option goerr) :=
  linked <- call (link_path temporaryPath (components (fsl_path seal)));;
  match linked with
  | Err e =>
     loaded <- FileSeal_Load (Some seal);;
     match loaded with
     | Ok (Some existingID) =>
        if bool_decide (existingID = installationID) then mret None
        else mret (Some (Wrap "publish bootstrap seal" e))
     | _ => mret (Some (Wrap "publish bootstrap seal" e))
     end
  | Ok _ =>
     opened <- os_Open (Dir (fsl_path seal));;
     match opened with
     | Err e => mret (Some (Wrap "open bootstrap seal directory" e))
     | Ok handle =>
        synced <- file_Sync handle;;
        match synced with
        | Err e => mret (Some (Wrap "sync bootstrap seal directory" e))
        | Ok _ => mret None
        end
     end
  end.

(** [Create] once no seal was found: the temporary file is closed and removed on
    every way out, errors of that ignored. *)
Definition createSeal (seal : FileSeal) (installationID : string) : M (option goerr) :=
  let directory := Dir (fsl_path seal) in
  invalid <- ensureSealDirectory directory (fsl_ownerUID seal);;
  match invalid with
  | Some e => mret (Some e)
  | None =>
     temporary <- createTemp directory;;
     match temporary with
     | Err e => mret (Some (Wrap "create temporary bootstrap seal" e))
     | Ok (temporaryPath, fd) =>
        written <- writeTemporary fd (fsl_ownerUID seal) installationID;;
        result <- match written with
                  | Err e => mret (Some e)
                  | Ok _ => publishSeal seal temporaryPath installationID
                  end;;
        _ <- call (unlink_path temporaryPath);;
        mret result
     end
  end.

Definition FileSeal_Create (seal : option FileSeal) (installationID : string) : M (option goerr) :=
  if negb (validInstallationID installationID)
  then mret (Some (NewError "refuse to create a seal with an invalid installation id"))
  else
    loaded <- FileSeal_Load seal;;
    match loaded with
    | Err e => mret (Some e)
    | Ok (Some existingID) =>
       if bool_decide (existingID = installationID) then mret None
       else mret (Some (NewError "bootstrap seal belongs to another installation"))
    | Ok None =>
       match seal with
       | None => mret (Some (NewError "bootstrap seal path must be absolute"))
       | Some seal => createSeal seal installationID
       end
    end.

(** The seal as the bootstrap component sees it. *)
Definition fileSeal (seal : FileSeal) : Seal :=
  mkSeal (FileSeal_Load (Some seal)) (FileSeal_Create (Some seal)).
End FileSeal.

(** ** The text of a seal *)

Lemma validInstallationID_length id : validInstallationID id = true → String.length id = 36%nat.
Proof. unfold validInstallationID. by case_bool_decide. Qed.

(** Hexadecimal digits and hyphens: no line break. *)
Lemma validInstallationID_plain id : validInstallationID id = true → contains_byte byte_LF id = false.
Proof.
  unfold validInstallationID. destruct (bool_decide (String.length id = 36%nat)) eqn:Hlen; [|done].
  apply bool_decide_eq_true in Hlen. repeat (destruct id as [|? id]; [discriminate Hlen|]).
  destruct id; [clear Hlen|discriminate Hlen]. cbn [negb orb byte_at String.get].
  repeat (case_bool_decide; [simplify_eq|done]). cbn [negb orb].
  destruct (hex_decode _) as [d|] eqn:E; [intros _|done]. apply hex_decode_class in E.
  apply (all_bytes_no_byte (λ a, is_hex a || bool_decide (a = "-"%char))); [reflexivity|].
  cbn [slice Nat.sub take_bytes drop_bytes String.append all_bytes] in *.
  repeat match goal with H : _ && _ = true |- _ => apply andb_prop in H as [? H] end.
  repeat match goal with H : is_hex _ = true |- _ => rewrite H; clear H end.
  reflexivity.
Qed.

Lemma parse_sealText id : validInstallationID id = true →
  parseSeal (take_bytes 128 (sealText id)) = Ok id.
Proof.
  intros Hid. pose proof (validInstallationID_length _ Hid) as Hlen. unfold parseSeal, sealText.
  rewrite take_bytes_all by (rewrite !string_length_app, Hlen; vm_compute; lia).
  rewrite <- string_app_assoc, trim_suffix_app, has_prefix_app, trim_prefix_app. unfold newline.
  rewrite contains_single, contains_byte_app, (validInstallationID_plain _ Hid), Hid. reflexivity.
Qed.

(** ** What is on disk *)

(** The seal an onlooker finds at the path. *)
Definition sealView (seal : FileSeal) (fs : FileSystem) : option string :=
  match resolve maxLinks fs false [] (components (fsl_path seal)) with
  | inl (At stack) =>
     match fs_inodes fs !! top stack with
     | Some (mkInode (KFile c) perm uid) =>
        if (perm =? 384) && (uid =? fsl_ownerUID seal) then
          match parseSeal (take_bytes 128 c) with Ok id => Some id | Err _ => None end
        else None
     | _ => None
     end
  | _ => None
  end.

(** Nothing has the name [p]. *)
Definition absent_at (fs : FileSystem) (p : path) : Prop :=
  (∃ stack name, resolve maxLinks fs false [] p = inl (Missing stack name)) ∨
  resolve maxLinks fs false [] p = inr ENOENT.

Abbreviation unpublished seal fs := (absent_at fs (components (fsl_path seal))).

Lemma unpublished_view seal fs : unpublished seal fs → sealView seal fs = None.
Proof. unfold sealView. by intros [(? & ? & ->)| ->]. Qed.

Lemma absent_path_info fs p : absent_at fs p → path_info false fs p = inr ENOENT.
Proof. unfold path_info. by intros [(? & ? & ->)| ->]. Qed.

(** A seal's path: absolute, in clean form, and not one of the temporary names. *)
Record sealPath (seal : FileSeal) (base : string) : Prop := {
  sp_split : components (fsl_path seal) = Dir (fsl_path seal) ++ [base];
  sp_up : Forall (λ c, c ≠ "..") (components (fsl_path seal));
  sp_plain : has_prefix tempPrefix base = false;
}.

(** Every component of the path is a real directory. *)
Fixpoint realDirectories (fs : FileSystem) (current todo : path) : Prop :=
  match todo with
  | [] => True
  | c :: rest => (∃ i, path_info false fs (current ++ [c]) = inl i ∧ is_dir i = true) ∧
                 realDirectories fs (current ++ [c]) rest
  end.

(** ** Loading *)

Lemma rejectFrom_spec current todo w : alone w →
  post (rejectFrom current todo) w (λ r w', calm w w' ∧ w_db w' = w_db w ∧
    (∀ e, r = Some e → IsNotExist e = false) ∧
    (realDirectories (w_fs w) current todo → faultless w → r = None)).
Proof.
  revert current w. induction todo as [|c rest IH]; intros current w Hw; cbn [rejectFrom].
  { m_step. eauto with store. }
  assert (∀ current' w1, calm w w1 → w_db w1 = w_db w →
    post (rejectFrom current' rest) w1 (λ r w', calm w w' ∧ w_db w' = w_db w ∧
      (∀ e, r = Some e → IsNotExist e = false) ∧
      (realDirectories (w_fs w) current' rest → faultless w → r = None))) as Hrest.
  { intros cur w1 Hc Hd. m_use IH as r w2 (Hc2 & Hd2 & Hr & Hl). rewrite (calm_fs _ _ Hc) in Hl.
    split_and!; [calm_chain|congruence|done|]. intros Hreal Hfl. apply Hl; [done|]. by apply (calm_faultless _ _ Hc). }
  cbn [realDirectories].
  m_step. f_step; [m_step; split_and!; [done..|by intros ? [= <-]|intros _; fault_absurd]|].
  destruct (path_info false (w_fs w) (current ++ [c])) as [info|e]; cbn [res_of].
  2:{ destruct (IsNotExist (goerr_of e)); m_step; split_and!; try done; [by intros ? [= <-]|].
      by intros [(? & ? & ?) _]. }
  destruct (is_symlink info) eqn:Hsym.
  - assert (∀ w' r, calm w w' → w_db w' = w_db w → (∀ e, r = Some e → IsNotExist e = false) →
      calm w w' ∧ w_db w' = w_db w ∧ (∀ e, r = Some e → IsNotExist e = false) ∧
      ((∃ i, (inl info : FileInfo + ioerr) = inl i ∧ is_dir i = true) ∧ realDirectories (w_fs w) (current ++ [c]) rest →
        faultless w → r = None)) as Hend.
    { intros w' r Hc Hd He. split_and!; [done..|]. intros [(i & [= <-] & Hi) _] _. exfalso. 
      unfold is_symlink, is_dir in *. by destruct (fi_kind info). }
    m_step; [m_step; apply Hend; [done..|by intros ? [= <-]]|].
    m_step. f_step; [m_step; apply Hend; [calm_chain|congruence|by intros ? [= <-]]|].
    destruct (EvalSymlinks _ _); cbn [res_of]; [|m_step; apply Hend; [calm_chain|congruence|by intros ? [= <-]]].
    eapply post_mono; [apply Hrest; [calm_chain|congruence]|]. cbv beta. intros r w2 (? & ? & ? & _). by apply Hend.
  - destruct (is_dir info) eqn:Hdir; cbn [negb].
    + eapply post_mono; [by apply Hrest|]. cbv beta. intros r w2 (? & ? & ? & Hl). split_and!; try done.
      intros [_ ?]. by apply Hl.
    + m_step. split_and!; [done..|by intros ? [= <-]|]. intros [(i & [= <-] & Hi) _]. congruence.
Qed.

(** A real directory is at [p]. *)
Definition directory_at (fs : FileSystem) (p : path) : Prop :=
  ∃ stack es, resolve maxLinks fs false [] p = inl (At stack) ∧ entries fs (top stack) = Some es.

Lemma checkSealDirectory_spec fs p uid info : path_info false fs p = inl info →
  match checkSealDirectory info uid with Some e => IsNotExist e = false | None => directory_at fs p end.
Proof.
  intros (stack & Hr & (n & Hn & ->)%inode_info_Some)%path_info_At.
  unfold checkSealDirectory, is_symlink, is_dir. simpl. destruct (i_kind n) as [es| | |] eqn:Hk; simpl; try done.
  destruct (negb (i_uid n =? uid)); [done|]. destruct (negb (_ =? 0)); [done|].
  exists stack, es. split; [done|]. unfold entries. rewrite Hn. simpl. by rewrite Hk.
Qed.

(** The directory is there and passes every check. *)
Definition prepared (fs : FileSystem) (p : path) (uid : Z) : Prop :=
  realDirectories fs [] p ∧ ∃ info, path_info false fs p = inl info ∧ checkSealDirectory info uid = None.

Lemma validateExisting_spec p uid w : alone w →
  post (validateExistingSealDirectory p uid) w (λ r w', calm w w' ∧ w_db w' = w_db w ∧
    match r with Some e => IsNotExist e = true → absent_at (w_fs w) p | None => directory_at (w_fs w) p end ∧
    (prepared (w_fs w) p uid → faultless w → r = None)).
Proof.
  intros Hw. unfold validateExistingSealDirectory, rejectSymlinkAncestors. m_step.
  m_use rejectFrom_spec as r w1 (Hc1 & Hd1 & Hr & Hl).
  destruct r as [e|]; [m_step; split_and!; [done..| |]; [by rewrite (Hr e eq_refl)|by intros [? _] ?; apply Hl]|].
  m_step. f_step; [m_step; split_and!; [calm_chain|congruence|done|intros _; fault_absurd]|].
  rewrite (calm_fs _ _ Hc1). destruct (path_info false (w_fs w) p) as [info|e] eqn:E; cbn [res_of]; m_step;
    (split_and!; [calm_chain|congruence|..]).
  - apply (checkSealDirectory_spec _ _ uid) in E. destruct (checkSealDirectory info uid); [congruence|done].
  - intros (_ & i & Hi & Hok) _. congruence.
  - by apply path_info_absent.
  - intros (_ & i & Hi & Hok) _. congruence.
Qed.

Lemma readSeal_spec p info w stack c :
  alone w → resolve maxLinks (w_fs w) false [] p = inl (At stack) →
  i_kind <$> fs_inodes (w_fs w) !! top stack = Some (KFile c) →
  post (readSeal p info) w (λ r w', calm w w' ∧ w_db w' = w_db w ∧
    ∀ v, r = Ok v → ∃ id, v = Some id ∧ parseSeal (take_bytes 128 c) = Ok id).
Proof.
  intros Hw Hr Hk. unfold readSeal. m_step. f_step; [done|]. unfold open_nofollow. rewrite Hr, Hk. cbn [res_of].
  m_step. f_step; [split_and!; [calm_chain|congruence|done]|].
  destruct (match inode_info _ _ with Some i => _ | None => _ end) as [info'|e]; cbn [res_of];
    [|split_and!; [calm_chain|congruence|done]].
  m_step; [m_step; split_and!; [calm_chain|congruence|done]|].
  m_step. f_step; [split_and!; [calm_chain|congruence|done]|].
  assert (calm w w0) as Hc by calm_chain. rewrite (calm_fs _ _ Hc).
  unfold read_file. destruct (fs_inodes (w_fs w) !! top stack) as [[k perm uid]|]; [|discriminate Hk].
  injection Hk as ->. cbn [res_of]. destruct (parseSeal (take_bytes 128 c)) as [id|e]; m_step; (split_and!; [calm_chain|congruence|]); [|done].
  intros v [= <-]. eauto.
Qed.

Section Load.
Context (seal : FileSeal) (base : string) (Hpath : sealPath seal base).

Lemma absent_unpublished fs : absent_at fs (Dir (fsl_path seal)) → unpublished seal fs.
Proof using Hpath.
  intros H%(resolve_absent _ _ _ _ _ base). right. by rewrite (sp_split _ _ Hpath), H.
Qed.

Lemma Load_spec w : alone w →
  post (FileSeal_Load (Some seal)) w (λ r w', calm w w' ∧ w_db w' = w_db w ∧
    match r with
    | Ok None => unpublished seal (w_fs w)
    | Ok (Some id) => sealView seal (w_fs w) = Some id
    | Err _ => faultless w → IsAbs (fsl_path seal) = true →
        prepared (w_fs w) (Dir (fsl_path seal)) (fsl_ownerUID seal) → ¬ unpublished seal (w_fs w)
    end).
Proof using Hpath.
  intros Hw. cbn [FileSeal_Load]. m_step; [m_step; split_and!; [eauto with store|done|]|].
  { apply negb_true_iff in Heqb. congruence. }
  m_step. m_use validateExisting_spec as r w1 (Hc1 & Hd1 & Hr & Hl). destruct r as [e|].
  { destruct (IsNotExist e); m_step; split_and!; try done; [by apply absent_unpublished, Hr|].
    intros Hfl _ Hprep. discriminate (Hl Hprep Hfl). }
  m_step. f_step; [m_step; [done|m_step; split_and!; [calm_chain|congruence|fault_absurd]]|].
  rewrite (calm_fs _ _ Hc1). destruct (path_info _ _ _) as [info|e] eqn:E; cbn [res_of].
  2:{ destruct (IsNotExist (goerr_of e)) eqn:En; m_step; (split_and!; [calm_chain|congruence|]).
      - exact (path_info_absent _ _ _ _ E En).
      - intros _ _ _ Hun%absent_path_info. rewrite Hun in E. by injection E as <-. }
  assert (¬ unpublished seal (w_fs w)) as Hpub by (intros Hun%absent_path_info; congruence).
  apply path_info_At in E as (stack & Hres & (n & Hn & ->)%inode_info_Some).
  unfold checkSealFile, is_symlink, is_regular. simpl.
  destruct (i_kind n) as [|c| |] eqn:Hk; simpl; try (m_step; split_and!; [calm_chain|congruence|done]).
  destruct (i_perm n =? 384) eqn:Hp; simpl; [|m_step; split_and!; [calm_chain|congruence|done]].
  destruct (i_uid n =? fsl_ownerUID seal) eqn:Hu; simpl; [|m_step; split_and!; [calm_chain|congruence|done]].
  assert (calm w w0) as Hc by calm_chain. pose proof (calm_fs _ _ Hc) as Hfs.
  eapply post_mono; [apply (readSeal_spec _ _ _ stack c); [eauto with store|by rewrite Hfs|by rewrite Hfs, Hn; simpl; rewrite Hk]|].
  cbv beta. intros r w2 (Hc2 & Hd2 & Hr2). split_and!; [calm_chain|congruence|].
  destruct r as [v|]; [|done]. destruct (Hr2 v eq_refl) as (id & -> & Hid).
  unfold sealView. rewrite Hres, Hn. destruct n as [k perm uid]. simpl in *. by rewrite Hk, Hp, Hu, Hid.
Qed.
End Load.

(** ** Making the directory *)

(** A new empty directory reveals nothing below it. *)
Lemma resolve_new_directory fs parent c more perm uid :
  more ≠ [] → Forall (λ x, x ≠ "..") (c :: more) →
  absent_at fs (parent ++ c :: more) →
  absent_at (create_path (parent ++ [c]) (mkInode (KDir ∅) perm uid) fs).2 (parent ++ c :: more).
Proof.
  intros Hne [Hc Hmore]%Forall_cons Hun. unfold create_path.
  destruct (resolve maxLinks fs false [] (parent ++ [c])) as [[?|st name]|e] eqn:Hr; [exact Hun| |exact Hun].
  destruct (resolve_missing _ _ _ _ _ _ _ Hr) as (-> & (es & Hes & Hnone) & Hwalk).
  unfold create_node. rewrite Hes, Hnone. cbn [snd].
  apply entries_inode in Hes as (p & u & Hd). pose proof (new_ino_fresh fs) as Ht.
  rewrite (layer_create _ _ p u _ es) by done. set (fs' := layer _ _ _ _ _ _ _).
  assert (extends fs fs') as Hext by (apply (layer_extends _ _ _ _ _ es); [done..|by apply insert_subseteq]).
  destruct more as [|m more]; [destruct (Hne eq_refl)|]. apply Forall_cons in Hmore as [Hm _].
  destruct (Hwalk _ Hext (c :: m :: more)) as [l' E]; [done|].
  assert (resolve l' fs' false st (c :: m :: more) =
    if bool_decide (more = []) then inl (Missing ((c, new_ino fs) :: st) m) else inr ENOENT) as E2.
  { assert (entries fs' (top st) = Some (<[c := new_ino fs]> es)) as He by by apply (layer_entries _ _ _ _ _ es).
    assert (fs_inodes fs' !! new_ino fs = Some (mkInode (KDir ∅) perm uid)) as Hi by apply layer_node.
    assert (entries fs' (new_ino fs) = Some ∅) as Hn by (apply entries_inode; eauto).
    rewrite resolve_cons, bool_decide_eq_false_2, He, lookup_insert_eq, Hi by done. simpl.
    rewrite resolve_cons, bool_decide_eq_false_2 by done. cbn [top]. by rewrite Hn, lookup_empty. }
  rewrite E2 in E. unfold absent_at. rewrite E. case_bool_decide; [left; eauto|by right].
Qed.

Section Create.
Context (euid : Z) (temp_suffix : FileSystem → string).
Context (seal : FileSeal) (base : string) (Hpath : sealPath seal base).

Lemma mkdir_unpublished parent c rest perm fs :
  Dir (fsl_path seal) = parent ++ c :: rest → unpublished seal fs →
  unpublished seal (create_path (parent ++ [c]) (mkInode (KDir ∅) perm euid) fs).2.
Proof using Hpath.
  intros Hdir Hun. pose proof (sp_split _ _ Hpath) as Hs. pose proof (sp_up _ _ Hpath) as Hup.
  rewrite Hdir, <- (assoc_L app) in Hs. rewrite Hs in *.
  apply Forall_app in Hup as [_ Hup]. apply resolve_new_directory; [by destruct rest|done|done].
Qed.

Lemma mkdirAll_unpublished perm parent todo w :
  Dir (fsl_path seal) = parent ++ todo → alone w → unpublished seal (w_fs w) →
  post (mkdirAll euid perm parent todo) w (λ _ w', files w w' ∧ unpublished seal (w_fs w')).
Proof using Hpath.
  revert parent w. induction todo as [|c rest IH]; intros parent w Hdir Hw Hun; cbn [mkdirAll].
  { m_step. eauto with store. }
  assert (∀ w1, files w w1 → unpublished seal (w_fs w1) →
    post (mkdirAll euid perm (parent ++ [c]) rest) w1 (λ _ w', files w w' ∧ unpublished seal (w_fs w'))) as Hrest.
  { intros w1 H1 Hun1. eapply post_mono; [apply IH; [by rewrite Hdir, <- (assoc_L app)|eauto with store|done]|].
    cbv beta. intros r w2 [H2 Hun2]. split; [files_chain|done]. }
  assert (∀ w1, calm w w1 → w_db w1 = w_db w → files w w1 ∧ unpublished seal (w_fs w1)) as Hcalm.
  { intros w1 Hc1 Hd1. split; [files_chain|]. by rewrite (calm_fs _ _ Hc1). }
  assert (∀ w1, calm w w1 → w_db w1 = w_db w →
    post (made <- call (create_path (parent ++ [c]) (mkInode (KDir ∅) perm euid));;
          match made with
          | Ok _ => mkdirAll euid perm (parent ++ [c]) rest
          | Err e => again <- os_Lstat (parent ++ [c]);;
             match again with
             | Ok i => if is_dir i then mkdirAll euid perm (parent ++ [c]) rest else mret (Err e)
             | Err _ => mret (Err e)
             end
          end) w1 (λ _ w', files w w' ∧ unpublished seal (w_fs w'))) as Hmake.
  { intros w1 Hc1 Hd1. destruct (Hcalm w1 Hc1 Hd1) as [Hf1 Hun1].
    assert (∀ w2 e, files w1 w2 → unpublished seal (w_fs w2) →
      post (again <- os_Lstat (parent ++ [c]);;
             match again with
             | Ok i => if is_dir i then mkdirAll euid perm (parent ++ [c]) rest else mret (Err e)
             | Err _ => mret (Err e)
             end) w2 (λ _ w', files w w' ∧ unpublished seal (w_fs w'))) as Hagain.
    { intros w2 e H2 Hun2. m_step. f_step.
      - m_step. split; [files_chain|by rewrite (calm_fs _ _ H)].
      - destruct (res_of _); [|m_step; split; [files_chain|by rewrite (calm_fs _ _ H)]].
        m_step; [apply Hrest; [files_chain|by rewrite (calm_fs _ _ H)]|].
        m_step. split; [files_chain|by rewrite (calm_fs _ _ H)]. }
    m_step. f_step; [apply Hagain; [done|congruence]|].
    assert (unpublished seal (w_fs w0)) as Hun0 by (rewrite H0; by eapply mkdir_unpublished).
    destruct (res_of _); [|by apply Hagain]. apply Hrest; [files_chain|done]. }
  m_step. f_step; [by apply Hmake|]. destruct (res_of _); [|by apply Hmake].
  m_step; [by apply Hrest; apply Hcalm|]. m_step. by apply Hcalm.
Qed.

(** What [ensureSealDirectory] does when there is no directory yet. *)
Lemma makeSealDirectory_spec w :
  alone w → unpublished seal (w_fs w) →
  post (made <- mkdirAll euid 448 [] (Dir (fsl_path seal));;
        match made with
        | Err e => mret (Some (Wrap "create bootstrap seal directory" e))
        | Ok _ =>
           rejected <- rejectSymlinkAncestors (Dir (fsl_path seal));;
           match rejected with
           | Some e => mret (Some e)
           | None =>
              info <- os_Lstat (Dir (fsl_path seal));;
              match info with
              | Err e => mret (Some (Wrap "inspect created bootstrap seal directory" e))
              | Ok info => mret (checkSealDirectory info (fsl_ownerUID seal))
              end
           end
        end) w (λ r w', files w w' ∧ unpublished seal (w_fs w') ∧
    (r = None → directory_at (w_fs w') (Dir (fsl_path seal)))).
Proof using Hpath.
  intros Hw Hun. unfold rejectSymlinkAncestors. m_step.
  eapply post_mono; [apply (mkdirAll_unpublished _ []); [done|done|done]|].
  cbv beta. intros r w2 [H2 Hun2]. destruct r as [[]|e']; [|m_step; split_and!; [files_chain|done|done]].
  m_step. m_use rejectFrom_spec as r w3 (Hc3 & Hd3 & _). pose proof (calm_fs _ _ Hc3) as Hf3.
  destruct r as [e'|]; [m_step; split_and!; [files_chain|by rewrite Hf3|done]|].
  m_step. f_step; [m_step; split_and!; [files_chain|by rewrite (calm_fs _ _ H), Hf3|done]|].
  destruct (path_info _ _ _) as [info|e'] eqn:E'; cbn [res_of]; m_step;
    (split_and!; [files_chain|by rewrite (calm_fs _ _ H), Hf3|]); [|done].
  apply (checkSealDirectory_spec _ _ (fsl_ownerUID seal)) in E'. rewrite (calm_fs _ _ H).
  intros Hn. by rewrite Hn in E'.
Qed.

Lemma ensureSealDirectory_spec w :
  alone w → unpublished seal (w_fs w) →
  post (ensureSealDirectory euid (Dir (fsl_path seal)) (fsl_ownerUID seal)) w (λ r w',
    files w w' ∧ unpublished seal (w_fs w') ∧ (r = None → directory_at (w_fs w') (Dir (fsl_path seal))) ∧
    (faultless w → prepared (w_fs w) (Dir (fsl_path seal)) (fsl_ownerUID seal) → r = None ∧ w_fs w' = w_fs w)).
Proof using Hpath.
  intros Hw Hun. unfold ensureSealDirectory, rejectSymlinkAncestors. m_step.
  m_use rejectFrom_spec as r w1 (Hc1 & Hd1 & _ & Hl). pose proof (calm_fs _ _ Hc1) as Hf1.
  destruct r as [e|].
  { m_step. split_and!; [files_chain|by rewrite Hf1|done|]. intros Hfl [Hreal _]. discriminate (Hl Hreal Hfl). }
  m_step. f_step.
  { m_step; [|done]. m_step. split_and!; [files_chain|by rewrite (calm_fs _ _ H), Hf1|done|fault_absurd]. }
  assert (w_fs w0 = w_fs w) as Hf0 by (rewrite (calm_fs _ _ H); done). rewrite Hf1.
  destruct (path_info _ _ _) as [info|e] eqn:E; cbn [res_of].
  { m_step. split_and!; [files_chain|by rewrite Hf0|..].
    - apply (checkSealDirectory_spec _ _ (fsl_ownerUID seal)) in E. rewrite Hf0. intros Hn. by rewrite Hn in E.
    - intros _ (_ & i & Hi & Hok). split; congruence. }
  assert (¬ prepared (w_fs w) (Dir (fsl_path seal)) (fsl_ownerUID seal)) as Hnot by (intros (_ & i & Hi & _); congruence).
  m_step; [m_step; split_and!; [files_chain|by rewrite Hf0|done|done]|]. clear E.
  eapply post_mono; [apply makeSealDirectory_spec; [eauto with store|rewrite Hf0; exact Hun]|].
  cbv beta. intros r w2 (? & ? & ?). split_and!; [files_chain|done|done|done].
Qed.

Lemma unpublished_entry fs stack es :
  resolve maxLinks fs false [] (Dir (fsl_path seal)) = inl (At stack) → entries fs (top stack) = Some es →
  unpublished seal fs → es !! base = None.
Proof using Hpath.
  intros Hr Hes Hun. unfold absent_at in Hun. rewrite (sp_split _ _ Hpath), (resolve_below _ _ _ _ stack es) in Hun.
  - destruct (es !! base); [|done]. destruct (fs_inodes fs !! z); by destruct Hun as [(? & ? & [=])|[=]].
  - done.
  - done.
  - pose proof (sp_up _ _ Hpath) as H. rewrite (sp_split _ _ Hpath) in H. apply Forall_app in H as [_ H].
    by inversion H.
Qed.

(** ** Publishing *)

Lemma temp_ne suffix : tempPrefix +:+ suffix ≠ base.
Proof using Hpath. intros <-. pose proof (sp_plain _ _ Hpath) as H. by rewrite has_prefix_app in H. Qed.

Lemma base_up : base ≠ "..".
Proof using Hpath.
  pose proof (sp_up _ _ Hpath) as H. rewrite (sp_split _ _ Hpath) in H. apply Forall_app in H as [_ H].
  by inversion H.
Qed.

(** The directory [d] of the seal at the start of the publication, and the new
    inode [t] of the temporary file. *)
Section Staging.
Context (fs0 : FileSystem) (stack : list (string * Z)) (es0 : gmap string Z) (perm uid : Z).
Context (Hdir : resolve maxLinks fs0 false [] (Dir (fsl_path seal)) = inl (At stack)).
Context (Hd : fs_inodes fs0 !! top stack = Some (mkInode (KDir es0) perm uid)).
Context (t : Z) (Ht : fs_inodes fs0 !! t = None).

Abbreviation stage es n := (layer fs0 (top stack) perm uid es t n).

Lemma stage_lookup es n b : es0 ⊆ es → b ≠ ".." →
  resolve maxLinks (stage es n) false [] (Dir (fsl_path seal) ++ [b]) =
    match es !! b with
    | None => inl (Missing stack b)
    | Some ino => match fs_inodes (stage es n) !! ino with
                  | None => inr EIO
                  | Some _ => inl (At ((b, ino) :: stack))
                  end
    end.
Proof using Hdir Hd Ht.
  intros Hsub Hb. apply resolve_below; [|by apply (layer_entries _ _ _ _ _ es0)|done].
  eapply resolve_extends; [by eapply layer_extends|done].
Qed.

(** Following the last component makes no difference at a directory. *)
Lemma stage_resolves es n : es0 ⊆ es →
  resolve maxLinks (stage es n) true [] (Dir (fsl_path seal)) = inl (At stack).
Proof using Hdir Hd Ht.
  intros Hsub. apply (resolve_follow _ _ _ _ _ es).
  - eapply resolve_extends; [by eapply layer_extends|done].
  - by apply (layer_entries _ _ _ _ _ es0).
Qed.

Lemma stage_unpublished es n : es0 ⊆ es → es !! base = None → unpublished seal (stage es n).
Proof using Hdir Hd Ht Hpath.
  intros Hsub Hb. left. rewrite (sp_split _ _ Hpath), stage_lookup, Hb; [eauto|done|apply base_up].
Qed.

Lemma stage_published es id : validInstallationID id = true → es0 ⊆ es → es !! base = Some t →
  sealView seal (stage es (mkInode (KFile (sealText id)) 384 (fsl_ownerUID seal))) = Some id.
Proof using Hdir Hd Ht Hpath.
  intros Hid Hsub Hb. unfold sealView. rewrite (sp_split _ _ Hpath), stage_lookup, Hb; [|done|apply base_up].
  rewrite layer_node. cbn [top]. rewrite layer_node, !Z.eqb_refl. cbn [andb]. by rewrite parse_sealText.
Qed.

(** The content is only ever what was written. *)
Lemma writeTemporary_spec es id w : alone w → w_fs w = stage es (mkInode (KFile "") 384 euid) →
  post (writeTemporary t (fsl_ownerUID seal) id) w (λ r w', files w w' ∧ (∃ n, w_fs w' = stage es n ∧ shape_of (i_kind n) = ShFile ∧
    (r = Ok tt → n = mkInode (KFile (sealText id)) 384 (fsl_ownerUID seal))) ∧
    (faultless w → euid = fsl_ownerUID seal → r = Ok tt)).
Proof using.
  intros Hw Hfs.
  assert (∀ (r : res unit) w' c p u, files w w' → w_fs w' = stage es (mkInode (KFile c) p u) → is_Ok r = false →
    (faultless w → euid = fsl_ownerUID seal → r = Ok tt) →
    files w w' ∧ (∃ n, w_fs w' = stage es n ∧ shape_of (i_kind n) = ShFile ∧
      (r = Ok tt → n = mkInode (KFile (sealText id)) 384 (fsl_ownerUID seal))) ∧
    (faultless w → euid = fsl_ownerUID seal → r = Ok tt)) as Hfail.
  { intros r w' c p u Hf Hs Hr Hl. split_and!; [done| |done]. eexists. split_and!; [done|done|by intros ->]. }
  unfold writeTemporary, file_Chmod. m_step.
  f_step; [eapply Hfail; [done|by rewrite H0, Hfs|done|fault_absurd]|].
  unfold chmod in H0 |- *. rewrite Hfs, layer_node, layer_set_node in H0. rewrite Hfs, layer_node. cbn [fst snd res_of] in *.
  m_step. f_step; [eapply Hfail; [files_chain|by rewrite (calm_fs _ _ H1), H0|done|fault_absurd]|].
  rewrite H0, layer_info. cbn [res_of fi_uid i_uid].
  assert (w_fs w0 = stage es (mkInode (KFile "") 384 euid)) as Hfs0 by by rewrite (calm_fs _ _ H1).
  m_step; [m_step; eapply Hfail; [files_chain|exact Hfs0|done|]|].
  { intros _ ->. by rewrite Z.eqb_refl in Heqb. }
  apply negb_false_iff, Z.eqb_eq in Heqb. m_step. unfold file_Write. apply sys_solo; [eauto with store|..].
  { intros w3 k Hf3 Hs3 Hnf. rewrite Hfs0 in Hs3. unfold write_file in Hs3.
    rewrite layer_node, layer_set_node in Hs3. eapply Hfail; [files_chain|exact Hs3|done|fault_absurd]. }
  intros w3 Hf3 Hs3. rewrite Hfs0 in *. unfold write_file in *. rewrite layer_node, layer_set_node in *.
  cbn [fst snd res_of String.append] in *. rewrite Heqb in Hs3.
  m_step. f_step; [eapply Hfail; [files_chain|by rewrite (calm_fs _ _ H3), Hs3|done|fault_absurd]|].
  cbn [res_of]. m_step.
  f_step; [eapply Hfail; [files_chain|by rewrite (calm_fs _ _ H5), (calm_fs _ _ H3), Hs3|done|fault_absurd]|].
  cbn [res_of]. m_step. split_and!; [files_chain| |done].
  eexists. split_and!; [by rewrite (calm_fs _ _ H5), (calm_fs _ _ H3), Hs3|done|done].
Qed.

Context (tmp : string) (Htmp : tmp ≠ "..") (Hbase : es0 !! base = None) (Hfree : es0 !! tmp = None) (Hne : tmp ≠ base).

Abbreviation withTemp := (<[tmp := t]> es0).

Lemma withTemp_sub : es0 ⊆ withTemp.
Proof using Hfree. by apply insert_subseteq. Qed.

Lemma withTemp_base : withTemp !! base = None.
Proof using Hbase Hne. by rewrite lookup_insert_ne. Qed.

(** The name appears with the hard link, or not at all. *)
Lemma publishSeal_spec n id w : alone w → w_fs w = stage withTemp n →
  post (publishSeal seal (Dir (fsl_path seal) ++ [tmp]) id) w (λ r w', files w w' ∧
    (w_fs w' = stage withTemp n ∧ r ≠ None ∨ w_fs w' = stage (<[base := t]> withTemp) n) ∧
    (faultless w → r = None)).
Proof using Hpath Hdir Hd Ht Htmp Hbase Hfree Hne.
  intros Hw Hfs. unfold publishSeal. m_step. f_step.
  - m_step. m_use (Load_spec seal base) as r w2 (Hc2 & Hd2 & Hr).
    assert (w_fs w2 = stage withTemp n) as Hfs2 by (rewrite (calm_fs _ _ Hc2); congruence).
    assert (∀ i, r ≠ Ok (Some i)) as Hno.
    { intros i ->. rewrite H0, Hfs, unpublished_view in Hr; [done|].
      apply stage_unpublished; [apply withTemp_sub|apply withTemp_base]. }
    destruct r as [[i|]|]; [by destruct (Hno i)|..]; m_step; (split_and!; [files_chain|by left|fault_absurd]).
  - rewrite Hfs in H0 |- *. unfold link_path in *. rewrite (sp_split _ _ Hpath) in *.
    rewrite !stage_lookup, withTemp_base, lookup_insert_eq, layer_node in *
      by (apply withTemp_sub || apply base_up || done).
    unfold link_node in *. cbn [top] in *. rewrite (layer_entries _ _ _ _ _ es0), withTemp_base in * by done.
    cbn [fst snd res_of] in *. rewrite (layer_set_entries _ _ _ _ _ es0) in H0 by done.
    m_step. f_step; [m_step; split_and!; [files_chain|right; by rewrite (calm_fs _ _ H1)|fault_absurd]|].
    rewrite H0, stage_resolves by (etrans; [apply withTemp_sub|apply insert_subseteq, withTemp_base]). cbn [res_of].
    m_step. f_step; [|cbn [res_of]]; m_step;
      (split_and!; [files_chain|right; by rewrite (calm_fs _ _ H3), (calm_fs _ _ H1)|]); [fault_absurd|done].
Qed.

(** Removing the temporary name leaves the seal's own. *)
Lemma unlinkTemp_spec es n w : alone w → shape_of (i_kind n) = ShFile → es0 ⊆ es → es !! tmp = Some t → w_fs w = stage es n →
  post (call (unlink_path (Dir (fsl_path seal) ++ [tmp]))) w (λ _ w', files w w' ∧
    (w_fs w' = stage es n ∨ w_fs w' = stage (delete tmp es) n)).
Proof using Hdir Hd Ht Htmp.
  intros Hw Hk Hsub Ht' Hfs. f_step; [split; [done|left; congruence]|]. split; [done|right].
  rewrite Hfs in H0. unfold unlink_path in H0. rewrite stage_lookup, Ht', layer_node in H0 by done.
  unfold remove_name in H0. rewrite (layer_entries _ _ _ _ _ es0), Ht', layer_plain in H0 by done. cbn [snd] in H0.
  by rewrite (layer_set_entries _ _ _ _ _ es0) in H0.
Qed.

Abbreviation removeTemp := (call (unlink_path (Dir (fsl_path seal) ++ [tmp]))).

Lemma discardTemp_spec n (r : option goerr) w : alone w → shape_of (i_kind n) = ShFile → w_fs w = stage withTemp n →
  post (_ <- removeTemp;; mret r) w (λ r' w', files w w' ∧ unpublished seal (w_fs w') ∧ r' = r).
Proof using Hpath Hdir Hd Ht Htmp Hbase Hfree Hne.
  intros Hw Hk Hfs. m_step. eapply post_mono; [apply (unlinkTemp_spec withTemp n);
    [done|done|apply withTemp_sub|by rewrite lookup_insert_eq|done]|].
  cbv beta. intros _ w5 [Hf5 Hs5]. m_step. split_and!; [done| |done].
  destruct Hs5 as [->| ->]; apply stage_unpublished; rewrite ?delete_insert_id by done;
    [apply withTemp_sub|apply withTemp_base|done..].
Qed.

Lemma settleTemp_spec id (r : option goerr) w : alone w → validInstallationID id = true →
  w_fs w = stage (<[base := t]> withTemp) (mkInode (KFile (sealText id)) 384 (fsl_ownerUID seal)) →
  post (_ <- removeTemp;; mret r) w (λ r' w', files w w' ∧ sealView seal (w_fs w') = Some id ∧ r' = r).
Proof using Hpath Hdir Hd Ht Htmp Hbase Hfree Hne.
  intros Hw Hid Hfs. assert (es0 ⊆ <[base := t]> withTemp) as Hsub.
  { etrans; [apply withTemp_sub|]. apply insert_subseteq, withTemp_base. }
  m_step. eapply post_mono; [eapply (unlinkTemp_spec _ _ _ Hw); [|exact Hsub| |exact Hfs]; [done|]|].
  { by rewrite lookup_insert_ne, lookup_insert_eq. }
  cbv beta. intros _ w5 [Hf5 Hs5]. m_step. split_and!; [done| |done].
  destruct Hs5 as [->| ->]; apply stage_published; try done; [by rewrite lookup_insert_eq|..].
  - rewrite delete_insert_ne, delete_insert_id by done. by apply insert_subseteq.
  - by rewrite lookup_delete_ne, lookup_insert_eq.
Qed.
End Staging.

(** The name [os.CreateTemp] picks is unused. *)
Definition temp_free (fs : FileSystem) : Prop :=
  ∀ stack es, resolve maxLinks fs false [] (Dir (fsl_path seal)) = inl (At stack) →
    entries fs (top stack) = Some es → es !! (tempPrefix +:+ temp_suffix fs) = None.

Lemma createSeal_spec id w : alone w → unpublished seal (w_fs w) → validInstallationID id = true →
  post (createSeal euid temp_suffix seal id) w (λ r w', files w w' ∧
    (unpublished seal (w_fs w') ∧ r ≠ None ∨ sealView seal (w_fs w') = Some id) ∧
    (faultless w → euid = fsl_ownerUID seal → prepared (w_fs w) (Dir (fsl_path seal)) (fsl_ownerUID seal) →
     temp_free (w_fs w) → r = None)).
Proof using Hpath.
  intros Hw Hun Hid. unfold createSeal. m_step. m_use ensureSealDirectory_spec as r w1 (Hf1 & Hun1 & Hdir1 & Hl1).
  destruct r as [e|]; [m_step; split_and!; [done|by left|]|].
  { intros Hfl _ Hprep _. by destruct (Hl1 Hfl Hprep) as [[=] _]. }
  destruct (Hdir1 eq_refl) as (stack & es0 & Hdir & Hes).
  assert (es0 !! base = None) as Hbase by (eapply unpublished_entry; [exact Hdir|exact Hes|exact Hun1]).
  pose proof Hes as (perm & uid & Hd)%entries_inode.
  pose proof (new_ino_fresh (w_fs w1)) as Ht. set (t := new_ino (w_fs w1)) in *.
  set (tmp := tempPrefix +:+ temp_suffix (w_fs w1)). assert (tmp ≠ base) as Hne by apply temp_ne.
  assert (tmp ≠ "..") as Hup by done.
  m_step. unfold createTemp. f_step; [m_step; split_and!; [files_chain|left; split; [congruence|done]|fault_absurd]|].
  fold tmp in H0 |- *. unfold create_path in *. rewrite (resolve_below _ _ _ _ stack es0) in * by done.
  destruct (es0 !! tmp) as [other|] eqn:Hfree.
  { assert (faultless w → prepared (w_fs w) (Dir (fsl_path seal)) (fsl_ownerUID seal) → ¬ temp_free (w_fs w)) as Hbusy.
    { intros Hfl Hprep Hfree'. destruct (Hl1 Hfl Hprep) as [_ E]. rewrite <- E in Hfree'.
      unfold tmp in Hfree. by rewrite (Hfree' stack es0 Hdir Hes) in Hfree. }
    destruct (fs_inodes (w_fs w1) !! other); cbn [fst snd res_of] in *;
      (m_step; split_and!; [files_chain|left; split; [congruence|done]|intros Hfl _ Hprep ?; by destruct (Hbusy Hfl Hprep)]). }
  unfold create_node in *. rewrite Hes, Hfree in *. cbn [fst snd res_of] in *. fold t in H0 |- *.
  rewrite (layer_create _ _ perm uid _ es0) in H0 by done.
  m_step. eapply post_mono; [eapply writeTemporary_spec; [eauto with store|done]|].
  cbv beta. intros r w3 (Hf3 & (n & Hs3 & Hk & Hn) & Hl3). m_step.
  assert (faultless w → faultless w0) as Hfl0 by (apply files_faultless; files_chain).
  assert (faultless w → faultless w3) as Hfl3 by (apply files_faultless; files_chain).
  eapply (post_mono _ _ (λ r w4, files w3 w4 ∧
    (w_fs w4 = layer (w_fs w1) (top stack) perm uid (<[tmp := t]> es0) t n ∧ r ≠ None ∨
     w_fs w4 = layer (w_fs w1) (top stack) perm uid (<[base := t]> (<[tmp := t]> es0)) t
                 (mkInode (KFile (sealText id)) 384 (fsl_ownerUID seal))) ∧
    (faultless w → euid = fsl_ownerUID seal → r = None))).
  { destruct r as [[]|e]; [|m_step; split_and!; [eauto with store|by left|intros Hfl He; discriminate (Hl3 (Hfl0 Hfl) He)]].
    rewrite (Hn eq_refl) in *.
    eapply post_mono; [eapply publishSeal_spec; eauto with store|]. cbv beta. intros r w4 (? & ? & ?). eauto. }
  cbv beta. intros r' w4 (Hf4 & [[Hs4 Hr]|Hs4] & Hl4).
  - eapply post_mono; [eapply (discardTemp_spec (w_fs w1)); eauto with store|].
    cbv beta. intros ? w5 (Hf5 & ? & ->). split_and!; [files_chain|by left|auto].
  - eapply post_mono; [eapply (settleTemp_spec (w_fs w1)); eauto with store|].
    cbv beta. intros ? w5 (Hf5 & ? & ->). split_and!; [files_chain|by right|auto].
Qed.

(** Everything the publication of a first seal needs. *)
Record publishable (id : string) (fs : FileSystem) : Prop := {
  pub_id : validInstallationID id = true;
  pub_abs : IsAbs (fsl_path seal) = true;
  pub_owner : euid = fsl_ownerUID seal;
  pub_dir : prepared fs (Dir (fsl_path seal)) (fsl_ownerUID seal);
  pub_absent : unpublished seal fs;
  pub_temp : temp_free fs;
}.

Lemma Create_spec id w : alone w →
  post (FileSeal_Create euid temp_suffix (Some seal) id) w (λ r w', files w w' ∧
    match r with
    | None => sealView seal (w_fs w') = Some id ∧ (sealView seal (w_fs w) = None ∨ sealView seal (w_fs w) = Some id)
    | Some _ => sealView seal (w_fs w') = sealView seal (w_fs w) ∨
                sealView seal (w_fs w) = None ∧ sealView seal (w_fs w') = Some id
    end ∧ (faultless w → publishable id (w_fs w) → r = None)).
Proof using Hpath.
  intros Hw. unfold FileSeal_Create. destruct (validInstallationID id) eqn:Hid; cbn [negb];
    [|m_step; split_and!; [eauto with store|by left|intros _ []; congruence]].
  m_step. m_use (Load_spec seal base Hpath) as r w1 (Hc1 & Hd1 & Hr). assert (files w w1) as Hf1 by files_chain.
  destruct r as [[other|]|e].
  - m_step; m_step; (split_and!; [done|..]); rewrite ?(calm_fs _ _ Hc1); try done.
    + by apply bool_decide_eq_true in Heqb as <-.
    + apply bool_decide_eq_true in Heqb as <-. auto.
    + by left.
    + intros _ []. by rewrite unpublished_view in Hr.
  - rewrite <- (calm_fs _ _ Hc1) in Hr |- *. pose proof (unpublished_view _ _ Hr) as Hv.
    eapply post_mono; [apply createSeal_spec; eauto with store|]. cbv beta. intros r w2 (Hf2 & Hcase & Hl).
    split_and!; [files_chain|rewrite Hv|].
    + destruct Hcase as [[Hun Hn]|Hs]; [rewrite (unpublished_view _ _ Hun)|rewrite Hs]; destruct r; auto. done.
    + intros Hfl []. apply Hl; [|done..]. by apply (calm_faultless _ _ Hc1).
  - m_step. split_and!; [done|left; by rewrite (calm_fs _ _ Hc1)|]. intros Hfl []. by destruct (Hr Hfl).
Qed.
End Create.

(** The file discharges the interface of the bootstrap component. *)
#[export] Instance fileSeal_spec euid temp_suffix seal base : sealPath seal base →
  SealSpec (fileSeal euid temp_suffix seal) (sealView seal).
Proof.
  intros Hpath. split.
  - intros w Hw. m_use (Load_spec seal base Hpath) as r w1 (Hc & Hd & Hr). split_and!; [done..|].
    intros [id|] ->; [done|]. by rewrite unpublished_view.
  - intros id w Hw. m_use (Create_spec euid temp_suffix seal base Hpath) as r w1 (Hf & Hr & _).
    split_and!; [apply Hf|apply Hf|done].
Qed.

(** ** Properties *)

(** C7. Publication of the seal file, on every fault schedule: a seal that can be
    read is never replaced; the path goes from showing nothing to showing the
    complete new seal or does not change what it shows; a reported success means
    the new seal is there; whatever [Load] then returns without error is what the
    path shows. And it does succeed when nothing fails: on a path whose
    directories are real, owned by the service and closed to others, with no seal
    yet. *)
Theorem file_seal_publication (euid : Z) (temp_suffix : FileSystem → string) (seal : FileSeal)
    (base id : string) (w : World) :
  sealPath seal base → alone w →
  let run := FileSeal_Create euid temp_suffix (Some seal) id w in
  let before := sealView seal (w_fs w) in
  let after := sealView seal (w_fs (snd run)) in
  (after = before ∨ before = None ∧ after = Some id) ∧
  (fst run = None → after = Some id) ∧
  (∀ v, fst (FileSeal_Load (Some seal) (snd run)) = Ok v → v = after) ∧
  (faultless w → publishable euid temp_suffix seal id (w_fs w) → fst run = None).
Proof.
  intros Hpath Hw run before after.
  destruct (Create_spec euid temp_suffix seal base Hpath id w Hw) as (Hf & Hr & Hl). fold run in Hf, Hr, Hl.
  split_and!; [|by intros E; rewrite E in Hr; destruct Hr| |done].
  - destruct (fst run); [done|]. destruct Hr as [E [E'|E']]; [by right|left]. unfold after, before. congruence.
  - intros v Hv. destruct (Load_spec seal base Hpath (snd run) (files_alone _ _ Hf)) as (_ & _ & H).
    rewrite Hv in H. destruct v; [by rewrite <- H|]. by symmetry; apply unpublished_view.
Qed.

(** A root with /var/lib, the latter closed to others. *)
Definition varLib : FileSystem :=
  mkFS {[rootIno := mkInode (KDir {["var" := 2]}) 493 0; 2 := mkInode (KDir {["lib" := 3]}) 493 0;
         3 := mkInode (KDir ∅) 448 0]} ∅.

Lemma varLib_entries i es : entries varLib i = Some es →
  (i = 1 ∧ es = {["var" := 2]}) ∨ (i = 2 ∧ es = {["lib" := 3]}) ∨ (i = 3 ∧ es = ∅).
Proof.
  intros (p & u & H)%entries_inode. unfold varLib in H. cbn [fs_inodes] in H.
  repeat (apply lookup_insert_Some in H as [[<- [= <- _ _]]|[_ H]]; [auto|]).
  apply lookup_singleton_Some in H as [<- [= <- _ _]]. auto.
Qed.

Definition varSeal : FileSeal := NewFileSeal "/var/lib/seal" 0.

Lemma varSeal_path : sealPath varSeal "seal".
Proof. split; [reflexivity| |reflexivity]. vm_compute. repeat constructor; discriminate. Qed.

Definition varWorld : World := w_set_fs varLib (quietWorld emptyDatabase sixteen).

Lemma varLib_publishable :
  publishable 0 (λ _, "42") varSeal "30313233-3435-4637-b839-616263646566" varLib.
Proof.
  split; [vm_compute; reflexivity|reflexivity|reflexivity| | |].
  - split; [split; [|split; [|exact I]]|]; eexists; (split; [reflexivity|reflexivity]).
  - left. eexists _, _. reflexivity.
  - intros stack es Hr He. vm_compute in Hr. injection Hr as <-. vm_compute in He. injection He as <-. reflexivity.
Qed.

Abbreviation varRun :=
  (FileSeal_Create 0 (λ _, "42") (Some varSeal) "30313233-3435-4637-b839-616263646566" varWorld).

Lemma file_seal_publication_witness :
  fst varRun = None ∧
  fst (FileSeal_Load (Some varSeal) (snd varRun)) = Ok (Some "30313233-3435-4637-b839-616263646566").
Proof.
  destruct (file_seal_publication 0 (λ _, "42") varSeal "seal" "30313233-3435-4637-b839-616263646566"
    varWorld varSeal_path (λ n, conj (λ _, eq_refl) (λ _, eq_refl))) as (_ & Hok & _ & Hlive).
  assert (fst varRun = None) as E.
  { apply Hlive; [intros n; reflexivity|exact varLib_publishable]. }
  split; [exact E|]. vm_compute. reflexivity.
Defined.
