(* ===== verification/UserConfig.v ===== *)
(** * Custom configuration files (src/pkg/userconfig/store.go)

    One file per user and key, in a directory per user below the configured data
    root. Every access goes through directories held open ([os.Root], here the
    directory's inode), and a file is replaced by renaming a complete temporary
    over it. *)

From stdpp Require Import prelude strings gmap.
From Stdlib Require Import ZArith Lia Ascii.
From S2P Require Import Prelude GoStrings Password FileSystem Tables Store Files.

Local Open Scope Z_scope.
Local Open Scope m_scope.

Definition MaxKeyBytes : nat := 64.
Definition MaxConfigBytes : N := 2 ^ 20.

(** ** Keys *)

(** The loop over the bytes, from [index] on. *)
Fixpoint keyBytes (index : nat) (key : string) : bool :=
  match key with
  | EmptyString => true
  | String c rest =>
     (is_letter c || is_digit c ||
      (bool_decide (0 < index)%nat &&
       (bool_decide (c = "-"%char) || bool_decide (c = "_"%char) || bool_decide (c = "."%char)))) &&
     keyBytes (S index) rest
  end.

(** [None] is a nil error. *)
Definition ValidateKey (key : string) : option goerr :=
  if bool_decide (String.length key = 0%nat) || bool_decide (MaxKeyBytes < String.length key)%nat ||
     contains ".." key || contains_any "/\" key
  then Some (Sentinel ErrInvalidKey)
  else if keyBytes 0 key then None else Some (Sentinel ErrInvalidKey).

Definition filenameOf (key : string) : string := key +:+ ".json".

(** [euid] is [os.Geteuid()]. *)
Section UserConfig.
Context (euid : Z).

Definition ownedByCurrentUser (info : FileInfo) : bool := fi_uid info =? euid.

Definition validateRegularFile (info : FileInfo) : option goerr :=
  if is_symlink info then Some (Wrap "symbolic link" ErrUnsafeStorage)
  else if negb (is_regular info) then Some (Wrap "non-regular file" ErrUnsafeStorage)
  else if negb (ownedByCurrentUser info) then Some (Wrap "unexpected owner" ErrUnsafeStorage)
  else if 1 <? fi_nlink info then Some (Wrap "unexpected link count" ErrUnsafeStorage)
  else None.

(** ** The user's directory *)

(** Not for others to write: [Perm() & 0o022 == 0]. *)
Definition sharedRootSafe (info : FileInfo) : bool :=
  is_dir info && ownedByCurrentUser info && (Z.land (fi_perm info) 18 =? 0).

(** The second half of [openUserRoot]: the directory [userDirectory] of the opened
    root, verified and closed to others through its own descriptor. *)
Definition openUserDirectory (root : Z) (userDirectory : string) : M (res Z) :=
  ok userInfo <- root_Lstat root userDirectory;;
  if is_symlink userInfo || negb (is_dir userInfo) || negb (ownedByCurrentUser userInfo)
  then mret (Err ErrUnsafeStorage)
  else
    ok userRoot <- root_OpenRoot root userDirectory or "open custom configuration directory";;
    ok openedUserInfo <- file_Stat userRoot or "inspect opened custom configuration directory";;
    if negb (SameFile userInfo openedUserInfo) || negb (is_dir openedUserInfo) ||
       negb (ownedByCurrentUser openedUserInfo)
    then mret (Err (Wrap "user directory changed during open" ErrUnsafeStorage))
    else
      ok handle <- root_Self userRoot or "open custom configuration directory handle";;
      ok _ <- file_Chmod handle 448 or "secure custom configuration directory";;
      ok _ <- file_Close handle or "close custom configuration directory handle";;
      mret (Ok userRoot).

Definition openUserRoot (rootPath : string) (userID : Z) (create : bool) : M (res Z) :=
  if userID <=? 0 then mret (Err ErrInvalidUserID)
  else if bool_decide (TrimSpace rootPath = "") || negb (IsAbs rootPath) then mret (Err ErrUnsafeStorage)
  else
    ok rootInfo <- os_Lstat (components rootPath) or "inspect custom configuration root";;
    if is_symlink rootInfo || negb (sharedRootSafe rootInfo)
    then mret (Err (Wrap "unsafe shared data root" ErrUnsafeStorage))
    else
      ok root <- os_OpenRoot (components rootPath) or "open custom configuration root";;
      ok openedRootInfo <- file_Stat root or "inspect opened custom configuration root";;
      if negb (SameFile rootInfo openedRootInfo) || negb (sharedRootSafe openedRootInfo)
      then mret (Err (Wrap "shared data root changed during open" ErrUnsafeStorage))
      else
        let userDirectory := Itoa userID in
        ok _ <- (if (create : bool) then
                   made <- root_Mkdir euid root userDirectory 448;;
                   match made with
                   | Err e => if errors_Is e ErrExist then mret (Ok tt)
                              else mret (Err (Wrap "create custom configuration directory" e))
                   | Ok _ => mret (Ok tt)
                   end
                 else mret (Ok tt));;
        openUserDirectory root userDirectory.

(** ** Operations *)

Definition openExistingRegularFile (root : Z) (filename : string) : M (res Z) :=
  ok before <- root_Lstat root filename;;
  match validateRegularFile before with
  | Some e => mret (Err e)
  | None =>
     ok file <- root_Open root filename;;
     ok after <- file_Stat file or "inspect opened custom configuration";;
     if match validateRegularFile after with Some _ => true | None => false end || negb (SameFile before after)
     then mret (Err ErrUnsafeStorage)
     else
       ok _ <- file_Chmod file 384 or "secure opened custom configuration";;
       mret (Ok file)
  end.

Definition Read (rootPath : string) (userID : Z) (key : string) : M (res string) :=
  match ValidateKey key with
  | Some e => mret (Err e)
  | None =>
     ok root <- openUserRoot rootPath userID false;;
     ok file <- openExistingRegularFile root (filenameOf key);;
     ok data <- read_limited file (N.to_nat (MaxConfigBytes + 1)) or "read custom configuration";;
     if (MaxConfigBytes <? len data)%N then mret (Err ErrConfigTooLarge) else mret (Ok data)
  end.

Definition temporaryPrefix : string := ".recasaos-custom-".

(** [attempts] are left of the 16. *)
Fixpoint createTemporaryAttempts (root : Z) (attempts : nat) : M (res (string * Z)) :=
  match attempts with
  | O => mret (Err ErrTemporaryCreate)
  | S attempts =>
     nonce <- rand_Read 16;;
     match nonce with
     | None => mret (Err (Wrap "generate name" ErrTemporaryCreate))
     | Some nonce =>
        let name := temporaryPrefix +:+ hex_encode nonce in
        created <- root_Create euid root name 384;;
        match created with
        | Ok file => mret (Ok (name, file))
        | Err e => if errors_Is e ErrExist then createTemporaryAttempts root attempts
                   else mret (Err (Wrap "create" ErrTemporaryCreate))
        end
     end
  end.

Definition createTemporaryFile (root : Z) : M (res (string * Z)) := createTemporaryAttempts root 16.

Definition syncRoot (root : Z) : M (option goerr) :=
  directory <- root_Self root;;
  match directory with
  | Err e => mret (Some (Wrap "open custom configuration directory for sync" e))
  | Ok directory =>
     synced <- file_Sync directory;;
     match synced with
     | Err e => mret (Some (Wrap "sync custom configuration directory" e))
     | Ok _ => mret None
     end
  end.

(** The temporary file is filled, closed and renamed over the configuration. *)
Definition installTemporary (root fd : Z) (temporaryName filename data : string) : M (res unit) :=
  ok _ <- file_Write fd data or "write custom configuration";;
  ok _ <- file_Chmod fd 384 or "secure custom configuration";;
  ok _ <- file_Sync fd or "sync custom configuration";;
  ok _ <- file_Close fd or "close custom configuration";;
  ok _ <- root_Rename root temporaryName filename or "install custom configuration";;
  mret (Ok tt).

(** The part of [Write] below the opened directory; a temporary file that was not
    installed is removed, errors of that ignored. *)
Definition replaceFile (root : Z) (filename data : string) : M (option goerr) :=
  existing <- root_Lstat root filename;;
  match match existing with
        | Ok info => validateRegularFile info
        | Err e => if errors_Is e ErrNotExist then None else Some (Wrap "inspect custom configuration" e)
        end with
  | Some e => mret (Some e)
  | None =>
     created <- createTemporaryFile root;;
     match created with
     | Err e => mret (Some e)
     | Ok (temporaryName, fd) =>
        installed <- installTemporary root fd temporaryName filename data;;
        match installed with
        | Err e => _ <- root_Remove root temporaryName;; mret (Some e)
        | Ok _ => syncRoot root
        end
     end
  end.

Definition Write (rootPath : string) (userID : Z) (key data : string) : M (option goerr) :=
  match ValidateKey key with
  | Some e => mret (Some e)
  | None =>
     if (MaxConfigBytes <? len data)%N then mret (Some (Sentinel ErrConfigTooLarge))
     else
       opened <- openUserRoot rootPath userID true;;
       match opened with
       | Err e => mret (Some e)
       | Ok root => replaceFile root (filenameOf key) data
       end
  end.

(** The part of [Delete] below the opened directory. *)
Definition removeFile (root : Z) (filename : string) : M (option goerr) :=
  existing <- root_Lstat root filename;;
  match existing with
  | Err e => mret (Some e)
  | Ok info =>
     match validateRegularFile info with
     | Some e => mret (Some e)
     | None =>
        removed <- root_Remove root filename;;
        match removed with
        | Err e => mret (Some (Wrap "remove custom configuration" e))
        | Ok _ => syncRoot root
        end
     end
  end.

Definition Delete (rootPath : string) (userID : Z) (key : string) : M (option goerr) :=
  match ValidateKey key with
  | Some e => mret (Some e)
  | None =>
     opened <- openUserRoot rootPath userID false;;
     match opened with
     | Err e => mret (Some e)
     | Ok root => removeFile root (filenameOf key)
     end
  end.
End UserConfig.
