(* ===== verification/ConfigStore.v ===== *)
(** * The configuration store as a map

    What the files of src/pkg/userconfig/store.go amount to: a map from users and
    keys to bytes. [config] reads it off the file system, and the operations of
    the store are shown to act on it as a map's do. *)

From stdpp Require Import prelude strings gmap.
From Stdlib Require Import ZArith Lia Ascii.
From S2P Require Import Prelude GoStrings Password FileSystem Tables Store Files Trees Bootstrap FileSeal UserConfig.

Local Open Scope Z_scope.
Local Open Scope m_scope.

Section ConfigStore.
Context (euid : Z) (rootPath : string).

(** The data root, if it is a real directory. *)
Definition dataRoot (fs : FileSystem) : option Z :=
  match resolve maxLinks fs false [] (components rootPath) with
  | inl (At stack) => match entries fs (top stack) with Some _ => Some (top stack) | None => None end
  | _ => None
  end.

(** What the name of a user's directory leads to. *)
Definition userDir (fs : FileSystem) (userID : Z) : option Z :=
  match dataRoot fs with
  | Some r => match entries fs r with Some es => es !! Itoa userID | None => None end
  | None => None
  end.

(** What is stored in directory [d] under a name. *)
Definition fileIn (fs : FileSystem) (d : Z) (name : string) : option string :=
  match entries fs d with
  | Some es => match es !! name with Some i => content fs i | None => None end
  | None => None
  end.

Definition config (fs : FileSystem) (userID : Z) (key : string) : option string :=
  match userDir fs userID with Some d => fileIn fs d (filenameOf key) | None => None end.

Definition same_configs (fs fs' : FileSystem) : Prop := ∀ userID key, config fs' userID key = config fs userID key.

#[export] Instance dataRoot_proper : Proper (modes ==> eq) dataRoot.
Proof.
  intros fs fs' H. unfold dataRoot. rewrite <- (resolve_proper _ _ _ H _ _ eq_refl _ _ eq_refl _ _ eq_refl).
  destruct (resolve _ _ _ _ _) as [[]|]; [|done..]. by rewrite H.
Qed.

#[export] Instance userDir_proper : Proper (modes ==> eq ==> eq) userDir.
Proof.
  intros fs fs' H id _ <-. unfold userDir. rewrite <- (dataRoot_proper _ _ H).
  destruct (dataRoot fs); [|done]. by rewrite H.
Qed.

Lemma config_modes fs fs' : modes fs fs' → same_configs fs fs'.
Proof.
  intros H id key. unfold config, fileIn. rewrite <- (userDir_proper _ _ H _ _ eq_refl).
  destruct (userDir fs id) as [d|]; [|done]. rewrite <- (entries_proper _ _ H _ _ eq_refl).
  destruct (entries fs d) as [es|]; [|done]. destruct (es !! filenameOf key); [|done]. by rewrite H.
Qed.

Lemma same_configs_trans fs1 fs2 fs3 : same_configs fs1 fs2 → same_configs fs2 fs3 → same_configs fs1 fs3.
Proof. intros H1 H2 id key. by rewrite H2. Qed.

Lemma dataRoot_inv fs r : dataRoot fs = Some r ↔
  ∃ stack, resolve maxLinks fs false [] (components rootPath) = inl (At stack) ∧ top stack = r ∧ is_Some (entries fs r).
Proof.
  unfold dataRoot. split.
  - destruct (resolve _ _ _ _ _) as [[stack|]|]; try done. destruct (entries fs (top stack)) eqn:E; [|done].
    intros [= <-]. eauto.
  - intros (stack & -> & <- & [es ->]). done.
Qed.

(** Making a user's directory shows no configuration. *)
Lemma mkdir_configs fs r perm uid t es userID p u :
  tree fs → dataRoot fs = Some r → fs_inodes fs !! r = Some (mkInode (KDir es) perm uid) →
  fs_inodes fs !! t = None → es !! Itoa userID = None →
  let fs' := layer fs r perm uid (<[Itoa userID := t]> es) t (mkInode (KDir ∅) p u) in
  dataRoot fs' = Some r ∧ same_configs fs fs'.
Proof.
  intros Htree Hroot Hr Ht Hnone fs'.
  assert (dataRoot fs' = Some r) as Hroot'.
  { apply dataRoot_inv in Hroot as (stack & Hres & Htop & _). apply dataRoot_inv. exists stack.
    split_and!; [|done|]; [eapply resolve_extends; [by apply (mkdir_extends _ _ _ _ _ es)|done]|].
    unfold fs'. rewrite (mkdir_root_entries _ _ _ _ _ es) by done. eauto. }
  split; [done|]. intros id key. unfold config, userDir. rewrite Hroot, Hroot'. unfold fs'.
  rewrite (mkdir_root_entries _ _ _ _ _ es) by done.
  assert (entries fs r = Some es) as Hes by (apply entries_inode; eauto). rewrite Hes.
  destruct (decide (Itoa id = Itoa userID)) as [E|E].
  - rewrite E, lookup_insert_eq, Hnone. unfold fileIn. by rewrite mkdir_new_entries.
  - rewrite lookup_insert_ne by done. destruct (es !! Itoa id) as [d|] eqn:Hd; [|done].
    pose proof (tree_leads _ Htree _ _ _ _ Hes Hd) as Hex.
    assert (d ≠ r) by (intros ->; by eapply (tree_loop _ Htree)).
    unfold fileIn. rewrite mkdir_old_entries by done. destruct (entries fs d) as [esd|] eqn:Hesd; [|done].
    destruct (esd !! filenameOf key) as [i|] eqn:Hi; [|done].
    apply (mkdir_content _ _ _ _ _ es); [done..|]. by eapply (tree_leads _ Htree).
Qed.

(** ** Opening a user's directory *)

Lemma Itoa_up id : 0 < id → Itoa id ≠ "..".
Proof.
  intros H E. pose proof (format_uint_digits (Z.to_N id)) as Hd. rewrite <- Itoa_nonneg, E in Hd by lia. discriminate Hd.
Qed.

(** A real directory of the service's is in place for the user. *)
Definition userReady (fs : FileSystem) (userID : Z) : Prop :=
  ∃ d es p, userDir fs userID = Some d ∧ fs_inodes fs !! d = Some (mkInode (KDir es) p euid).

Lemma userReady_modes fs fs' userID : modes fs fs' → userReady fs userID → userReady fs' userID.
Proof.
  intros Hm (d & es & p & Hd & Hn). pose proof (modes_kind _ _ Hm d) as Hk. pose proof (modes_uid _ _ Hm d) as Hu.
  rewrite Hn in Hk, Hu. destruct (fs_inodes fs' !! d) as [[k p' u]|] eqn:E; simplify_eq/=.
  exists d, es, p'. split; [by rewrite <- Hm|done].
Qed.

Definition rootReady (fs : FileSystem) : Prop :=
  ∃ info, path_info false fs (components rootPath) = inl info ∧ sharedRootSafe euid info = true.

(** The data root stays safe as long as its own inode and the directories on the
    way to it do. *)
Lemma rootReady_keeps fs fs' : rootReady fs → keeps fs fs' →
  (∀ r n, dataRoot fs = Some r → fs_inodes fs !! r = Some n →
     ∃ es', fs_inodes fs' !! r = Some (mkInode (KDir es') (i_perm n) (i_uid n))) →
  rootReady fs'.
Proof.
  intros (info & Hinfo & Hsafe) Hkeeps Hroot.
  apply path_info_At in Hinfo as (stack & Hres & (n & Hn & ->)%inode_info_Some).
  unfold sharedRootSafe, is_dir, ownedByCurrentUser in Hsafe. simpl in Hsafe.
  destruct (i_kind n) as [es| | |] eqn:Hk; try discriminate.
  assert (entries fs (top stack) = Some es) as Hes by (apply entries_inode; destruct n; simpl in *; subst; eauto).
  destruct (Hroot (top stack) n) as [es' Hn']; [apply dataRoot_inv; eauto|done|].
  eexists. unfold path_info. rewrite (resolve_keeps _ _ _ _ _ _ _ Hkeeps ltac:(eauto) Hres), (inode_info_at _ _ _ Hn').
  split; [done|]. done.
Qed.

Lemma openUserDirectory_spec r userID w :
  alone w → 0 < userID → dataRoot (w_fs w) = Some r →
  post (openUserDirectory euid r (Itoa userID)) w (λ res w', files w w' ∧ modes (w_fs w) (w_fs w') ∧
    (∀ d, res = Ok d → userDir (w_fs w) userID = Some d ∧ is_Some (entries (w_fs w) d) ∧ userReady (w_fs w) userID) ∧
    (∀ i, userDir (w_fs w) userID ≠ Some i → fs_inodes (w_fs w') !! i = fs_inodes (w_fs w) !! i) ∧
    (∀ e, res = Err e → errors_Is e ErrNotExist = true → userDir (w_fs w) userID = None) ∧
    (faultless w → userReady (w_fs w) userID → is_Ok res = true)).
Proof.
  intros Hw Hid Hroot. unfold openUserDirectory.
  assert (∀ e w1, files w w1 → w_fs w1 = w_fs w → (faultless w → userReady (w_fs w) userID → False) →
    (errors_Is e ErrNotExist = true → userDir (w_fs w) userID = None) →
    files w w1 ∧ modes (w_fs w) (w_fs w1) ∧
    (∀ d, (Err e : res Z) = Ok d → userDir (w_fs w) userID = Some d ∧ is_Some (entries (w_fs w) d) ∧ userReady (w_fs w) userID) ∧
    (∀ i, userDir (w_fs w) userID ≠ Some i → fs_inodes (w_fs w1) !! i = fs_inodes (w_fs w) !! i) ∧
    (∀ e', (Err e : res Z) = Err e' → errors_Is e' ErrNotExist = true → userDir (w_fs w) userID = None) ∧
    (faultless w → userReady (w_fs w) userID → is_Ok (Err e : res Z) = true)) as Hfail.
  { intros e w1 H1 Hm Hl He. rewrite Hm. split_and!; try done; [by intros ? [= <-]|]. intros Hf Hu. by destruct (Hl Hf Hu). }
  assert (∀ w1, calm w w1 → w_fs w1 = w_fs w) as Hcalm by apply calm_fs.
  pose proof Hroot as (_ & _ & _ & [es Hes])%dataRoot_inv.
  assert (userDir (w_fs w) userID = es !! Itoa userID) as Hdir by (unfold userDir; by rewrite Hroot, Hes).
  m_step. f_step; [apply Hfail; [files_chain|by apply Hcalm|fault_absurd|done]|].
  rewrite Hes. destruct (es !! Itoa userID) as [d|] eqn:Hd.
  2:{ cbn [res_of]. apply Hfail; [files_chain|by apply Hcalm| |done]. intros _ (d & ? & ? & E & _). congruence. }
  destruct (inode_info (w_fs w) d) as [info|] eqn:Hinfo; cbn [res_of].
  2:{ apply Hfail; [files_chain|by apply Hcalm| |done]. intros _ (d' & ? & ? & E & Hn). unfold inode_info in Hinfo.
      assert (d' = d) as -> by congruence. by rewrite Hn in Hinfo. }
  apply inode_info_Some in Hinfo as (n & Hn & ->).
  assert (userReady (w_fs w) userID → (∃ esd, i_kind n = KDir esd) ∧ i_uid n = euid) as Hready.
  { intros (d' & esd & p & E & Hn'). assert (d' = d) as -> by congruence. rewrite Hn in Hn'. injection Hn' as ->. eauto. }
  unfold is_symlink, is_dir, ownedByCurrentUser. cbn [fi_kind fi_uid].
  destruct (i_kind n) as [esd| | |] eqn:Hk; cbn [orb negb];
    try (m_step; apply Hfail; [files_chain|by apply Hcalm|intros _ [[? ?] _]%Hready; congruence|done]).
  destruct (i_uid n =? euid) eqn:Hu; cbn [orb negb].
  2:{ m_step. apply Hfail; [files_chain|by apply Hcalm| |done]. intros _ [_ ?]%Hready. apply Z.eqb_neq in Hu. congruence. }
  assert (entries (w_fs w) d = Some esd) as Hesd by (apply entries_inode; destruct n; simpl in *; subst; eauto).
  m_step. f_step; [apply Hfail; [files_chain|apply Hcalm; calm_chain|fault_absurd|done]|].
  rewrite (calm_fs _ _ H), (resolve_in_one _ _ _ es (Itoa userID) d n) by
    first [done|by apply Itoa_up|intros ?; congruence]. rewrite Hesd. cbn [res_of].
  m_step. f_step; [apply Hfail; [files_chain|apply Hcalm; calm_chain|fault_absurd|done]|].
  assert (w_fs w0 = w_fs w) as -> by (rewrite (calm_fs w1 w0), (calm_fs w w1); done).
  rewrite (inode_info_at _ _ _ Hn). cbn [res_of]. unfold SameFile. cbn [fi_ino fi_kind fi_uid].
  rewrite Z.eqb_refl, Hk, Hu. cbn [negb orb].
  assert (calm w w2) as Hc2 by calm_chain.
  m_step. f_step; [apply Hfail; [files_chain|apply Hcalm; calm_chain|fault_absurd|done]|].
  rewrite (calm_fs _ _ Hc2), Hesd. cbn [res_of].
  assert (calm w w3) as Hc3 by calm_chain.
  m_step. unfold file_Chmod. f_step; [apply Hfail; [files_chain|by rewrite H8, (calm_fs _ _ Hc3)|fault_absurd|done]|].
  rewrite (calm_fs _ _ Hc3) in H8 |- *.
  assert (∀ res w', files w w' → w_fs w' = w_fs w4 → (is_Ok res = false → ¬ faultless w) → (res = Ok d ∨ is_Ok res = false) →
    (∀ e, res = Err e → errors_Is e ErrNotExist = false) →
    files w w' ∧ modes (w_fs w) (w_fs w') ∧
    (∀ d, res = Ok d → userDir (w_fs w) userID = Some d ∧ is_Some (entries (w_fs w) d) ∧ userReady (w_fs w) userID) ∧
    (∀ i, userDir (w_fs w) userID ≠ Some i → fs_inodes (w_fs w') !! i = fs_inodes (w_fs w) !! i) ∧
    (∀ e, res = Err e → errors_Is e ErrNotExist = true → userDir (w_fs w) userID = None) ∧
    (faultless w → userReady (w_fs w) userID → is_Ok res = true)) as Hend.
  { intros res w' Hf Hs Hl Hres He. rewrite Hs, H8. split_and!; [done|apply chmod_modes| | | |].
    - intros d' E. destruct Hres as [->|Hres]; [injection E as <-|by subst res]. split_and!; [done|eauto|].
      exists d, esd, (i_perm n). split; [done|]. rewrite Hn. destruct n. simpl in *. apply Z.eqb_eq in Hu. by subst.
    - intros i Hi. apply chmod_others. congruence.
    - intros e Ee Hx. by rewrite (He e Ee) in Hx.
    - intros Hfl _. destruct (is_Ok res) eqn:E; [done|]. by destruct (Hl eq_refl). }
  unfold chmod at 1. rewrite Hn. destruct n as [k p u]. cbn [fst res_of].
  m_step. f_step; [apply Hend; [files_chain|by apply calm_fs| |by right|by intros ? [= <-]]|].
  { intros _. fault_absurd. }
  cbn [res_of]. m_step. apply Hend; [files_chain|by apply calm_fs|done|by left|done].
Qed.

Lemma absolute_not_blank s : IsAbs s = true → bool_decide (TrimSpace s = "") = false.
Proof.
  unfold IsAbs. destruct s as [|c s]; [done|]. simpl. rewrite andb_true_r, bool_decide_eq_true. intros <-.
  destruct (TrimSpace_head "/" s) as [t ->]; [|done]. by repeat constructor.
Qed.

(** The directory is made when it is missing. *)
Lemma makeUserDirectory_spec r userID (create : bool) w :
  alone w → tree (w_fs w) → dataRoot (w_fs w) = Some r →
  post (if create then
          made <- root_Mkdir euid r (Itoa userID) 448;;
          match made with
          | Err e => if errors_Is e ErrExist then mret (Ok tt)
                     else mret (Err (Wrap "create custom configuration directory" e))
          | Ok _ => mret (Ok tt)
          end
        else mret (Ok tt)) w (λ res w',
    files w w' ∧ tree (w_fs w') ∧ dataRoot (w_fs w') = Some r ∧ same_configs (w_fs w) (w_fs w') ∧
    (create = false → w_fs w' = w_fs w ∧ res = Ok tt) ∧ (rootReady (w_fs w) → rootReady (w_fs w')) ∧
    (w_fs w' = w_fs w ∨ userDir (w_fs w) userID = None ∧
       ∃ d, userDir (w_fs w') userID = Some d ∧ entries (w_fs w') d = Some ∅) ∧
    (faultless w → (userReady (w_fs w) userID ∨ create = true ∧ userDir (w_fs w) userID = None) →
     res = Ok tt ∧ userReady (w_fs w') userID)).
Proof.
  intros Hw Htree Hroot. destruct create.
  2:{ m_step. split_and!; [eauto with store|done|done|done|done|done|by left|]. intros _ [?|[? _]]; done. }
  pose proof Hroot as (_ & _ & _ & [es Hes])%dataRoot_inv.
  assert (userDir (w_fs w) userID = es !! Itoa userID) as Hdir by (unfold userDir; by rewrite Hroot, Hes).
  m_step. unfold root_Mkdir. f_step.
  { m_step; [done|]. m_step. rewrite H0. split_and!; [done..|by left|fault_absurd]. }
  unfold create_node in *. rewrite Hes in *. destruct (es !! Itoa userID) as [d|] eqn:Hd; cbn [fst snd res_of] in *.
  { m_step; [|done]. m_step. rewrite H0. split_and!; [done..|by left|]. intros _ [?|[_ ?]]; [done|congruence]. }
  m_step. apply entries_inode in Hes as (perm & uid & Hr). pose proof (new_ino_fresh (w_fs w)) as Ht.
  rewrite (layer_create _ _ perm uid _ es) in H0 by done.
  destruct (mkdir_configs (w_fs w) r perm uid _ es userID 448 euid Htree Hroot Hr Ht Hd) as [Hroot' Hsame].
  assert (userDir (w_fs w1) userID = Some (new_ino (w_fs w))) as Hnew.
  { unfold userDir. by rewrite H0, Hroot', (mkdir_root_entries _ _ _ _ _ es), lookup_insert_eq. }
  rewrite H0 in *. split_and!; try done; [by apply mkdir_tree| | |].
  - intros Hready. apply (rootReady_keeps (w_fs w)); [done|by apply extends_keeps, (mkdir_extends _ _ _ _ _ es)|].
    intros r' n Hr' Hn. assert (r' = r) as -> by congruence. rewrite Hr in Hn. injection Hn as <-.
    exists (<[Itoa userID := new_ino (w_fs w)]> es). by apply (layer_dir _ _ _ _ _ es).
  - right. split; [congruence|]. eexists. split; [done|]. by rewrite mkdir_new_entries.
  - intros _ _. split; [done|]. eexists _, _, _. split; [done|by rewrite layer_node].
Qed.

Lemma openUserRoot_spec userID create w :
  alone w → tree (w_fs w) →
  post (openUserRoot euid rootPath userID create) w (λ r w', files w w' ∧ tree (w_fs w') ∧
    same_configs (w_fs w) (w_fs w') ∧ (create = false → modes (w_fs w) (w_fs w')) ∧
    (modes (w_fs w) (w_fs w') ∨ userDir (w_fs w) userID = None ∧
       ∃ d, userDir (w_fs w') userID = Some d ∧ entries (w_fs w') d = Some ∅) ∧
    (rootReady (w_fs w) → rootReady (w_fs w')) ∧
    (∀ d, r = Ok d → 0 < userID ∧ userDir (w_fs w') userID = Some d ∧ is_Some (entries (w_fs w') d) ∧
       userReady (w_fs w') userID) ∧
    (∀ e, r = Err e → errors_Is e ErrNotExist = true → userDir (w_fs w) userID = None ∨ create = true) ∧
    (faultless w → 0 < userID → IsAbs rootPath = true → rootReady (w_fs w) →
     (userReady (w_fs w) userID ∨ create = true ∧ userDir (w_fs w) userID = None) → is_Ok r = true)).
Proof.
  intros Hw Htree. unfold openUserRoot.
  assert (∀ e w1, calm w w1 → w_db w1 = w_db w →
    (faultless w → 0 < userID → IsAbs rootPath = true → rootReady (w_fs w) → False) →
    (errors_Is e ErrNotExist = true → userDir (w_fs w) userID = None) →
    files w w1 ∧ tree (w_fs w1) ∧ same_configs (w_fs w) (w_fs w1) ∧ (create = false → modes (w_fs w) (w_fs w1)) ∧
    (modes (w_fs w) (w_fs w1) ∨ userDir (w_fs w) userID = None ∧
       ∃ d, userDir (w_fs w1) userID = Some d ∧ entries (w_fs w1) d = Some ∅) ∧
    (rootReady (w_fs w) → rootReady (w_fs w1)) ∧
    (∀ d, (Err e : res Z) = Ok d → 0 < userID ∧ userDir (w_fs w1) userID = Some d ∧ is_Some (entries (w_fs w1) d) ∧
       userReady (w_fs w1) userID) ∧
    (∀ e', (Err e : res Z) = Err e' → errors_Is e' ErrNotExist = true → userDir (w_fs w) userID = None ∨ create = true) ∧
    (faultless w → 0 < userID → IsAbs rootPath = true → rootReady (w_fs w) →
     (userReady (w_fs w) userID ∨ create = true ∧ userDir (w_fs w) userID = None) → is_Ok (Err e : res Z) = true)) as Hfail.
  { intros e w1 Hc Hd Hno He. rewrite (calm_fs _ _ Hc).
    split_and!; try done; [files_chain|by left|by intros ? [= <-]; auto|]. intros ? ? ? ?. by destruct Hno. }
  destruct (Z.leb_spec userID 0) as [|Hid]; [m_step; apply Hfail; [eauto with store|done|lia|done]|].
  m_step. { m_step. apply Hfail; [eauto with store|done| |done]. intros _ _ Ha. by rewrite absolute_not_blank, Ha in Heqb. }
  m_step. f_step; [apply Hfail; [done|done|fault_absurd|done]|].
  destruct (path_info false (w_fs w) (components rootPath)) as [info|e] eqn:Hinfo; cbn [res_of].
  2:{ apply Hfail; [done|done| |].
      - intros _ _ _ (i & Hi & _). congruence.
      - intros Hx. unfold userDir, dataRoot.
        by destruct (path_info_absent _ _ _ _ Hinfo) as [(? & ? & ->)| ->]; [destruct e|..]. }
  pose proof Hinfo as (stack & Hres & (n & Hn & Ei)%inode_info_Some)%path_info_At.
  destruct (sharedRootSafe euid info) eqn:Hsafe.
  2:{ rewrite orb_true_r. m_step. apply Hfail; [done|done| |done]. intros _ _ _ (i & Hi & ?). congruence. }
  assert (∃ es, i_kind n = KDir es) as [es Hk].
  { subst info. unfold sharedRootSafe, is_dir in Hsafe. simpl in Hsafe. destruct (i_kind n); eauto; discriminate. }
  assert (entries (w_fs w) (top stack) = Some es) as Hes by (apply entries_inode; destruct n; simpl in *; subst; eauto).
  assert (dataRoot (w_fs w) = Some (top stack)) as Hroot by (apply dataRoot_inv; eauto).
  assert (is_symlink info = false) as -> by (subst info; unfold is_symlink; simpl; by rewrite Hk). cbn [orb negb].
  m_step. f_step; [apply Hfail; [calm_chain|congruence|fault_absurd|done]|].
  rewrite (calm_fs _ _ H), (resolve_follow _ _ _ _ _ _ Hres Hes), Hes. cbn [res_of].
  assert (calm w w0) as Hc0 by calm_chain.
  m_step. f_step; [apply Hfail; [calm_chain|congruence|fault_absurd|done]|].
  rewrite (calm_fs _ _ Hc0), (inode_info_at _ _ _ Hn), <- Ei. cbn [res_of]. rewrite Hsafe.
  unfold SameFile. rewrite Z.eqb_refl. cbn [negb orb].
  assert (calm w w2) as Hc2 by calm_chain. pose proof (calm_fs _ _ Hc2) as Hf2.
  m_step. eapply post_mono; [apply makeUserDirectory_spec; [eauto with store|by rewrite Hf2|by rewrite Hf2]|].
  cbv beta. rewrite Hf2. intros r w3 (Hf3 & Ht3 & Hr3 & Hs3 & Hm3 & Hrr3 & Hn3 & Hl3).
  assert (faultless w → faultless w2) as Hfl2 by apply (calm_faultless _ _ Hc2).
  destruct r as [[]|e].
  2:{ split_and!; [files_chain|done|done|by intros ->; destruct (Hm3 eq_refl)|by destruct Hn3 as [->|?]; [left|right]|done|done|by intros ? [= <-] ?; destruct create; [by right|by destruct (Hm3 eq_refl)]|].
      intros Hfl _ _ _ Hu. by destruct (Hl3 (Hfl2 Hfl) Hu). }
  eapply post_mono; [apply openUserDirectory_spec; [eauto with store|done|done]|].
  cbv beta. intros r w4 (Hf4 & Hm4 & Hd4 & Ho4 & He4 & Hl4). split_and!.
  - files_chain.
  - by rewrite <- Hm4.
  - eapply same_configs_trans; [done|by apply config_modes].
  - intros Hc. destruct (Hm3 Hc) as [<- _]. done.
  - destruct Hn3 as [E|(Hnone & d & Hd & He)]; [left; by rewrite <- E|right]. split; [done|].
    exists d. rewrite <- Hm4. done.
  - intros Hready. apply (rootReady_keeps (w_fs w3)); [by apply Hrr3|by apply modes_keeps|].
    intros r' m Hr' Hn'. pose proof Hr' as (_ & _ & _ & [esr Hesr])%dataRoot_inv.
    rewrite Ho4, Hn'.
    + apply entries_inode in Hesr as (p & u & E). rewrite Hn' in E. injection E as ->. eauto.
    + intros Hu. unfold userDir in Hu. rewrite Hr', Hesr in Hu. by eapply (tree_loop _ Ht3).
  - intros d Hd. destruct (Hd4 d Hd) as (? & ? & ?).
    split_and!; [done|by rewrite <- Hm4|by rewrite <- Hm4|by eapply userReady_modes].
  - intros e Ee Hx. destruct create; [by right|left]. destruct (Hm3 eq_refl) as [<- _]. by apply (He4 e).
  - intros Hfl _ _ _ Hu. destruct (Hl3 (Hfl2 Hfl) Hu) as [_ ?]. apply Hl4; [|done].
    apply (files_faultless w); [files_chain|done].
Qed.

(** ** Keys and file names *)

Lemma filenameOf_inj k1 k2 : filenameOf k1 = filenameOf k2 → k1 = k2.
Proof.
  unfold filenameOf. intros E. apply (f_equal (trim_suffix ".json")) in E. by rewrite !trim_suffix_app in E.
Qed.

Lemma ValidateKey_head key : ValidateKey key = None →
  ∃ c rest, key = String c rest ∧ is_letter c || is_digit c = true.
Proof.
  unfold ValidateKey. destruct key as [|c rest]; [done|]. destruct (_ || _ || _ || _); [done|].
  cbn [keyBytes]. rewrite bool_decide_eq_false_2 by lia. cbn [andb]. rewrite orb_false_r.
  destruct (is_letter c || is_digit c) eqn:E; [eauto|done].
Qed.

(** No key names a temporary file, nor a parent directory. *)
Lemma filename_plain key : ValidateKey key = None →
  has_prefix temporaryPrefix (filenameOf key) = false ∧ filenameOf key ≠ "..".
Proof.
  intros (c & rest & -> & Hc)%ValidateKey_head. assert (c ≠ "."%char) by (by intros ->).
  unfold filenameOf. simpl. split; [by rewrite bool_decide_eq_false_2|]. congruence.
Qed.

(** ** Edits of a user's directory *)

(** The configurations other than the one of [userID] and [key]. *)
Definition same_except (userID : Z) (key : string) (fs fs' : FileSystem) : Prop :=
  ∀ userID' key', 0 < userID' < 2 ^ 63 → ValidateKey key' = None → (userID', key') ≠ (userID, key) →
    config fs' userID' key' = config fs userID' key'.

Lemma same_except_from fs1 fs2 fs3 userID key :
  same_configs fs1 fs2 → same_except userID key fs2 fs3 → same_except userID key fs1 fs3.
Proof. intros H1 H2 id k Hid Hk Hne. by rewrite H2. Qed.

Lemma edits_configs fs fs' d es es' userID key :
  tree fs → edits fs fs' d es es' → userDir fs userID = Some d → 0 < userID < 2 ^ 63 →
  (∀ n, n ≠ filenameOf key → has_prefix temporaryPrefix n = false → es' !! n = es !! n) →
  tree fs' ∧ userDir fs' userID = Some d ∧ same_except userID key fs fs' ∧
  config fs' userID key = fileIn fs' d (filenameOf key).
Proof.
  intros Htree He Hdir Hid Hnames.
  unfold userDir in Hdir. destruct (dataRoot fs) as [r|] eqn:Hroot; [|done].
  destruct (entries fs r) as [esr|] eqn:Hesr; [|done].
  assert (dataRoot fs' = Some r) as Hroot'.
  { apply dataRoot_inv in Hroot as (stack & Hres & Htop & Hsome). apply dataRoot_inv. exists stack. split_and!; [|done|].
    - eapply resolve_keeps; [by eapply edits_keeps|by rewrite Htop|done].
    - destruct (keeps_entries _ _ (edits_keeps _ _ _ _ _ He) r esr Hesr) as (? & ? & _). eauto. }
  assert (r ≠ d) as Hrd by (intros ->; by eapply (tree_loop _ Htree)).
  assert (is_Some (fs_inodes fs !! r)) as Hr by (apply entries_inode in Hesr as (? & ? & ->); eauto).
  assert (entries fs' r = Some esr) as Hesr' by (by rewrite (edits_other _ _ _ _ _ He)).
  assert (userDir fs' userID = Some d) as Hdir' by (unfold userDir; by rewrite Hroot', Hesr').
  split_and!; [by eapply edits_tree|done| |unfold config; by rewrite Hdir'].
  intros id k Hid' Hk Hne. unfold config, userDir. rewrite Hroot, Hroot', Hesr, Hesr'.
  destruct (esr !! Itoa id) as [d'|] eqn:Hd'; [|done].
  pose proof (tree_leads _ Htree _ _ _ _ Hesr Hd') as Hex.
  assert (∀ es0, entries fs d' = Some es0 →
    match es0 !! filenameOf k with Some i => content fs' i | None => None end =
    match es0 !! filenameOf k with Some i => content fs i | None => None end) as Hcont.
  { intros es0 H0. destruct (es0 !! filenameOf k) as [i|] eqn:Hi; [|done].
    apply (edits_content _ _ _ _ _ He). by eapply (tree_leads _ Htree). }
  unfold fileIn. destruct (decide (d' = d)) as [->|Hdd].
  - assert (Itoa id = Itoa userID) as E.
    { eapply (tree_parent _ Htree d r r); [rewrite (ed_before _ _ _ _ _ He); eauto|done..]. }
    apply Itoa_inj in E; [|lia..]. subst id.
    rewrite (ed_after _ _ _ _ _ He), (ed_before _ _ _ _ _ He), Hnames.
    + apply Hcont, (ed_before _ _ _ _ _ He).
    + intros ->%filenameOf_inj. done.
    + by apply filename_plain.
  - rewrite (edits_other _ _ _ _ _ He) by done. destruct (entries fs d') as [es0|] eqn:H0; [|done]. by apply Hcont.
Qed.

(** ** Staging the new file *)

(** Something the run can be replaced over: nothing, or a regular file. *)
Definition replaceable (fs : FileSystem) (es : gmap string Z) (name : string) : Prop :=
  ∀ i, es !! name = Some i → ∃ c p u, fs_inodes fs !! i = Some (mkInode (KFile c) p u).

(** A name for a temporary file. *)
Definition nonceName (entropy : string) : string := temporaryPrefix +:+ hex_encode (take_bytes 16 entropy).

Section Staging.
Context (fs : FileSystem) (d perm uid : Z) (es : gmap string Z)
        (Hd : fs_inodes fs !! d = Some (mkInode (KDir es) perm uid)).

Lemma dir_entries : entries fs d = Some es.
Proof using Hd. apply entries_inode. eauto. Qed.

Lemma createTemporary_spec k w : alone w → w_fs w = fs →
  post (createTemporaryAttempts euid d k) w (λ r w', runs w w' ∧ w_db w' = w_db w ∧
    match r with
    | Ok (tmp, t) => has_prefix temporaryPrefix tmp = true ∧ es !! tmp = None ∧ fs_inodes fs !! t = None ∧
        w_fs w' = layer fs d perm uid (<[tmp := t]> es) t (mkInode (KFile "") 384 euid)
    | Err _ => w_fs w' = fs
    end ∧
    (faultless w → (0 < k)%nat → (16 ≤ String.length (w_entropy w))%nat → es !! nonceName (w_entropy w) = None →
     is_Ok r = true)).
Proof using Hd.
  revert w. induction k as [|k IH]; intros w Hw Hfs; cbn [createTemporaryAttempts].
  { m_step. split_and!; [eauto with store|done|done|lia]. }
  m_step. m_step; [m_step; split_and!; [eauto with store|done|done|lia]|].
  rename s into nonce. assert (nonceName (w_entropy w) = temporaryPrefix +:+ hex_encode nonce) as Hnonce.
  { unfold nonceName. rewrite H3, <- H2, take_bytes_app. done. }
  rewrite Hnonce. set (tmp := temporaryPrefix +:+ hex_encode nonce) in *. m_step. unfold root_Create. f_step.
  { m_step; [done|]. m_step. split_and!; [eapply runs_trans; [done|apply H4]|by rewrite (files_db _ _ H4)|congruence|].
    intros Hfl. destruct H6. by apply (runs_faultless _ _ H). }
  rewrite H1, Hfs in *. unfold create_node in *. rewrite dir_entries in *.
  assert (runs w w0) as Hr0 by (eapply runs_trans; [done|apply H4]).
  assert (w_db w0 = w_db w) as Hd0 by (rewrite (files_db _ _ H4); done).
  destruct (es !! tmp) as [i|] eqn:Htmp; cbn [fst snd res_of] in *.
  - m_step; [|done]. m_use IH as r w2 (Hr2 & Hd2 & Hres & _).
    split_and!; [eapply runs_trans; done|congruence|done|done].
  - m_step. split_and!; [done|done|apply has_prefix_app|done|apply new_ino_fresh| |done].
    by rewrite (layer_create _ _ perm uid _ es) in H5.
Qed.

Context (t : Z) (Ht : fs_inodes fs !! t = None) (tmp name : string)
        (Htmp : es !! tmp = None) (Hne : tmp ≠ name) (Hname : replaceable fs es name)
        (Htree : tree fs).

Abbreviation stage es' n := (layer fs d perm uid es' t n).
Abbreviation withTemp := (<[tmp := t]> es).

(** What the rename makes of the directory. *)
Lemma rename_stage n : shape_of (i_kind n) = ShFile →
  rename_in d tmp name (stage withTemp n) = (inl tt, stage (<[name := t]> es) n).
Proof using Hd Ht Htmp Hne Hname Htree.
  intros Hk. unfold rename_in. rewrite (layer_entries _ _ _ _ _ es), lookup_insert_eq, lookup_insert_ne by done.
  assert (set_entries d (λ es', <[name := t]> (delete tmp es')) (stage withTemp n) = stage (<[name := t]> es) n) as ->.
  { rewrite (layer_set_entries _ _ _ _ _ es) by done. by rewrite delete_insert_id. }
  destruct (es !! name) as [other|] eqn:Ho; [|done]. destruct (Hname _ Ho) as (c & p & u & Hother).
  rewrite bool_decide_eq_false_2 by congruence.
  assert (entries (stage withTemp n) other = None) as ->; [|done].
  unfold entries. simpl. rewrite !lookup_insert_ne by congruence. by rewrite Hother.
Qed.

Lemma installTemporary_spec data w : alone w → w_fs w = stage withTemp (mkInode (KFile "") 384 euid) →
  post (installTemporary d t tmp name data) w (λ r w', files w w' ∧
    match r with
    | Ok _ => w_fs w' = stage (<[name := t]> es) (mkInode (KFile data) 384 euid)
    | Err _ => ∃ n, w_fs w' = stage withTemp n ∧ shape_of (i_kind n) = ShFile
    end ∧ (faultless w → is_Ok r = true)).
Proof using Hd Ht Htmp Hne Hname Htree.
  intros Hw Hfs.
  assert (∀ (e : goerr) w' c p u, files w w' → w_fs w' = stage withTemp (mkInode (KFile c) p u) →
    (faultless w → False) →
    files w w' ∧ (∃ n, w_fs w' = stage withTemp n ∧ shape_of (i_kind n) = ShFile) ∧
    (faultless w → is_Ok (Err e : res unit) = true)) as Hfail.
  { intros e w' c p u Hf Hs Hl. split_and!; [done|by eexists|]. intros Hfl. by destruct (Hl Hfl). }
  unfold installTemporary. m_step. unfold file_Write. apply sys_solo; [done|..].
  { intros w1 k Hf1 Hs1 Hnf. rewrite Hfs in Hs1. unfold write_file in Hs1. rewrite layer_node, layer_set_node in Hs1.
    eapply Hfail; [done|exact Hs1|fault_absurd]. }
  intros w1 Hf1 Hs1. rewrite Hfs in *. unfold write_file in *. rewrite layer_node, layer_set_node in *.
  cbn [fst snd res_of String.append] in *.
  m_step. unfold file_Chmod. f_step; [eapply Hfail; [files_chain|by rewrite H0|fault_absurd]|].
  rewrite Hs1 in *. unfold chmod in *. rewrite layer_node, layer_set_node in *. cbn [fst snd res_of] in *.
  m_step. f_step; [eapply Hfail; [files_chain|by rewrite (calm_fs _ _ H1)|fault_absurd]|]. cbn [res_of].
  m_step. f_step; [eapply Hfail; [files_chain|by rewrite (calm_fs _ _ H3), (calm_fs _ _ H1)|fault_absurd]|]. cbn [res_of].
  m_step. unfold root_Rename.
  assert (w_fs w3 = stage withTemp (mkInode (KFile data) 384 euid)) as Hs3
    by (by rewrite (calm_fs _ _ H3), (calm_fs _ _ H1)).
  f_step; [eapply Hfail; [files_chain|by rewrite H6|fault_absurd]|].
  rewrite Hs3, rename_stage in H6 |- * by done. cbn [fst snd res_of] in *. m_step. split_and!; [files_chain|done|done].
Qed.

Lemma removeTemporary_spec n w : alone w → w_fs w = stage withTemp n → shape_of (i_kind n) = ShFile →
  post (root_Remove d tmp) w (λ _ w', files w w' ∧ (w_fs w' = stage withTemp n ∨ w_fs w' = stage es n)).
Proof using Hd Ht Htmp.
  intros Hw Hfs Hk. unfold root_Remove. f_step; [split; [done|left; congruence]|]. split; [done|right].
  rewrite Hfs in H0. unfold remove_name in H0. rewrite (layer_entries _ _ _ _ _ es), lookup_insert_eq, layer_plain in H0 by done.
  cbn [snd] in H0. rewrite (layer_set_entries _ _ _ _ _ es) in H0 by done. by rewrite delete_insert_id in H0.
Qed.

(** Whatever stage was reached, it is an edit of the directory. *)
Lemma stage_edits es' n : shape_of (i_kind n) = ShFile →
  es' = withTemp ∨ es' = es ∨ es' = <[name := t]> es → edits fs (stage es' n) d es es'.
Proof using Hd Ht Htmp Hname Hne.
  intros Hk Hes. apply layer_edits; [done..| |].
  - intros c j. destruct Hes as [->|[->| ->]]; [|by left|]; intros [[_ <-]|[_ ?]]%lookup_insert_Some; auto.
  - intros c j m Hc Hj Hm. destruct Hes as [->|[->| ->]]; [|done|].
    + rewrite lookup_insert_ne; [done|]. congruence.
    + rewrite lookup_insert_ne; [done|]. intros ->. destruct (Hname _ Hc) as (? & ? & ? & ?). simplify_eq/=.
Qed.
End Staging.

(** ** Writing *)

(** A file of the service's own, ready to be read. *)
Definition readable (fs : FileSystem) (userID : Z) (key data : string) : Prop :=
  ∃ d es i p, userDir fs userID = Some d ∧ entries fs d = Some es ∧ es !! filenameOf key = Some i ∧
    fs_inodes fs !! i = Some (mkInode (KFile data) p euid) ∧ link_count fs i ≤ 1.

Lemma validateRegularFile_ok fs i n :
  validateRegularFile euid (mkFileInfo i (i_kind n) (i_perm n) (i_uid n) (link_count fs i)) = None →
  ∃ c p, n = mkInode (KFile c) p euid ∧ link_count fs i ≤ 1.
Proof.
  unfold validateRegularFile, is_symlink, is_regular, ownedByCurrentUser. simpl.
  destruct n as [[| c | |] p u]; simpl; try done.
  destruct (Z.eqb_spec u euid) as [->|]; [|done]. simpl. destruct (Z.ltb_spec 1 (link_count fs i)); [done|].
  intros _. by exists c, p.
Qed.

Lemma validateRegularFile_regular fs i c p : link_count fs i ≤ 1 →
  validateRegularFile euid (mkFileInfo i (KFile c) p euid (link_count fs i)) = None.
Proof.
  intros Hl. unfold validateRegularFile, is_symlink, is_regular, ownedByCurrentUser. simpl. rewrite Z.eqb_refl. simpl.
  by destruct (Z.ltb_spec 1 (link_count fs i)); [lia|].
Qed.

Lemma syncRoot_spec d w : alone w → is_Some (entries (w_fs w) d) →
  post (syncRoot d) w (λ r w', calm w w' ∧ w_db w' = w_db w ∧ (faultless w → r = None)).
Proof.
  intros Hw [es Hes]. unfold syncRoot. m_step. f_step; [m_step; split_and!; [done|done|fault_absurd]|].
  rewrite Hes. cbn [res_of]. m_step. f_step; [m_step; split_and!; [calm_chain|congruence|fault_absurd]|].
  cbn [res_of]. m_step. split_and!; [calm_chain|congruence|done].
Qed.

(** The configuration of [userID] and [key] was replaced or left, and no other
    touched. *)
Definition replaced (userID : Z) (key data : string) (fs fs' : FileSystem) : Prop :=
  tree fs' ∧ same_except userID key fs fs' ∧
  (config fs' userID key = config fs userID key ∨ config fs' userID key = Some data).

Section Replace.
Context (userID : Z) (key data : string) (Hid : 0 < userID < 2 ^ 63) (Hkey : ValidateKey key = None).

Lemma stage_replaced fs d perm uid es t tmp es' n :
  tree fs → userDir fs userID = Some d → fs_inodes fs !! d = Some (mkInode (KDir es) perm uid) →
  fs_inodes fs !! t = None → has_prefix temporaryPrefix tmp = true → es !! tmp = None →
  replaceable fs es (filenameOf key) → shape_of (i_kind n) = ShFile →
  es' = <[tmp := t]> es ∨ es' = es ∨ es' = <[filenameOf key := t]> es ∧ i_kind n = KFile data →
  replaced userID key data fs (layer fs d perm uid es' t n) ∧
  userDir (layer fs d perm uid es' t n) userID = Some d ∧
  (es' = <[filenameOf key := t]> es → i_kind n = KFile data →
   config (layer fs d perm uid es' t n) userID key = Some data).
Proof using Hid Hkey.
  intros Htree Hdir Hd Ht Hpre Htmp Hrepl Hn Hes'. destruct (filename_plain _ Hkey) as [Hplain _].
  assert (tmp ≠ filenameOf key) as Hne by (intros ->; congruence).
  assert (edits fs (layer fs d perm uid es' t n) d es es') as He
    by (apply (stage_edits _ _ _ _ _ Hd _ Ht tmp (filenameOf key)); naive_solver).
  destruct (edits_configs _ _ _ _ _ userID key Htree He Hdir Hid) as (Ht' & Hd' & Hs' & Hc').
  { intros c Hc Hp. destruct Hes' as [->|[->|[-> _]]]; [|done|by rewrite lookup_insert_ne].
    rewrite lookup_insert_ne; [done|]. intros ->. congruence. }
  unfold fileIn in Hc'. rewrite (layer_entries _ _ _ _ _ es) in Hc' by done.
  assert (es' = <[filenameOf key := t]> es → i_kind n = KFile data →
    config (layer fs d perm uid es' t n) userID key = Some data) as Hnew.
  { intros -> Hk. rewrite Hc', lookup_insert_eq. unfold content. rewrite layer_node. simpl. by rewrite Hk. }
  split_and!; [split_and!; [done|done|]|done|done].
  destruct Hes' as [->|[->|[-> Hk]]]; [left|left|right; by apply Hnew].
  all: rewrite Hc'; unfold config; rewrite Hdir; unfold fileIn; rewrite (ed_before _ _ _ _ _ He).
  all: rewrite ?lookup_insert_ne by done; destruct (es !! filenameOf key) as [i|] eqn:Hi; [|done].
  all: apply (edits_content _ _ _ _ _ He); by eapply (tree_leads _ Htree); [apply (ed_before _ _ _ _ _ He)|].
Qed.

Lemma stage_rootReady fs d perm uid es t name n :
  tree fs → userDir fs userID = Some d → fs_inodes fs !! d = Some (mkInode (KDir es) perm uid) →
  fs_inodes fs !! t = None → replaceable fs es name → shape_of (i_kind n) = ShFile →
  rootReady fs → rootReady (layer fs d perm uid (<[name := t]> es) t n).
Proof.
  intros Htree Hdir Hd Ht Hrepl Hn Hready. apply (rootReady_keeps fs); [done|eapply edits_keeps, layer_edits; try done|].
  - intros c j [[_ <-]|[_ ?]]%lookup_insert_Some; auto.
  - intros c j m Hc Hj Hm. rewrite lookup_insert_ne; [done|]. intros ->. destruct (Hrepl _ Hc) as (? & ? & ? & ?). simplify_eq/=.
  - intros r m Hr Hm. pose proof Hr as (_ & _ & _ & [esr Hesr])%dataRoot_inv.
    assert (r ≠ d) as Hrd. { intros ->. unfold userDir in Hdir. rewrite Hr, Hesr in Hdir. by eapply (tree_loop _ Htree). }
    simpl. rewrite !lookup_insert_ne by congruence. apply entries_inode in Hesr as (p & u & E).
    rewrite Hm in E. injection E as ->. eauto.
Qed.

(** What [replaceFile] needs to succeed. *)
Definition writableFile (fs : FileSystem) (d : Z) (entropy : string) : Prop :=
  (16 ≤ String.length entropy)%nat ∧
  ∀ es, entries fs d = Some es → es !! nonceName entropy = None ∧
    ∀ i, es !! filenameOf key = Some i →
      ∃ c p, fs_inodes fs !! i = Some (mkInode (KFile c) p euid) ∧ link_count fs i ≤ 1.

(** What a run of [Write] that started in [w] guarantees. *)
Definition writes (live : Prop) (w : World) (r : option goerr) (w' : World) : Prop :=
  runs w w' ∧ w_db w' = w_db w ∧ replaced userID key data (w_fs w) (w_fs w') ∧
  (r = None → 0 < userID ∧ ValidateKey key = None ∧
     config (w_fs w') userID key = Some data ∧ readable (w_fs w') userID key data ∧
     (rootReady (w_fs w) → rootReady (w_fs w')) ∧ (userReady (w_fs w) userID → userReady (w_fs w') userID)) ∧
  (faultless w → live → r = None).

Lemma writes_failed live e w w1 : tree (w_fs w) → calm w w1 → w_db w1 = w_db w → (faultless w → live → False) →
  writes live w (Some e) w1.
Proof.
  intros Ht Hc Hd Hl. unfold writes, replaced. rewrite (calm_fs _ _ Hc).
  split_and!; try done; [by apply calm_runs|by left|]. intros Hfl Hwr. by destruct (Hl Hfl Hwr).
Qed.

(** The second half of [replaceFile]. *)
Lemma replaceStaged_spec d es perm uid w :
  alone w → tree (w_fs w) → userDir (w_fs w) userID = Some d →
  fs_inodes (w_fs w) !! d = Some (mkInode (KDir es) perm uid) → replaceable (w_fs w) es (filenameOf key) →
  post (created <- createTemporaryFile euid d;;
        match created with
        | Err e => mret (Some e)
        | Ok (temporaryName, fd) =>
           installed <- installTemporary d fd temporaryName (filenameOf key) data;;
           match installed with
           | Err e => _ <- root_Remove d temporaryName;; mret (Some e)
           | Ok _ => syncRoot d
           end
        end) w (writes (writableFile (w_fs w) d (w_entropy w)) w).
Proof using Hid Hkey.
  intros Hw Htree Hdir Hd Hrepl. unfold createTemporaryFile. m_step.
  eapply post_mono; [apply (createTemporary_spec _ _ _ _ _ Hd); done|].
  cbv beta. intros r w1 (Hr1 & Hd1 & Hres & Hl1).
  assert (faultless w → writableFile (w_fs w) d (w_entropy w) → is_Ok r = true) as Hlive.
  { intros Hfl [H16 Hw16]. apply Hl1; [done|lia|done|]. by apply (Hw16 es), entries_inode; eauto. }
  clear Hl1. destruct r as [[tmp t]|e]; cycle 1.
  { m_step. unfold writes, replaced. rewrite Hres. split_and!; try done; [by left|]. intros Hfl Hwr.
    discriminate (Hlive Hfl Hwr). }
  destruct Hres as (Hpre & Htmp & Ht & Hs1). destruct (filename_plain _ Hkey) as [Hplain _].
  assert (tmp ≠ filenameOf key) as Hne by (intros ->; congruence).
  m_step. eapply post_mono; [eapply (installTemporary_spec (w_fs w)); eauto with store|].
  cbv beta. intros r w2 (Hf2 & Hs2 & Hl2).
  assert (runs w w2) as Hr2 by (eapply runs_trans; [done|apply Hf2]).
  assert (w_db w2 = w_db w) as Hd2 by (rewrite (files_db _ _ Hf2); done).
  destruct r as [[]|e].
  - destruct (stage_replaced (w_fs w) d perm uid es t tmp (<[filenameOf key := t]> es)
      (mkInode (KFile data) 384 euid)) as (Hrep & Hdir' & Hnew); try done; [naive_solver|].
    eapply post_mono; [apply syncRoot_spec; [eauto with store|rewrite Hs2; eexists; by apply (layer_entries _ _ _ _ _ es)]|].
    cbv beta. intros r w3 (Hc3 & Hd3 & Hl3). unfold writes. rewrite (calm_fs _ _ Hc3), Hs2.
    split_and!; [eapply runs_trans; [done|by apply calm_runs]|congruence|done| |].
    + intros _. split_and!; [lia|done|by apply Hnew| | |].
      * exists d, (<[filenameOf key := t]> es), t, 384.
        split_and!; [done|by apply (layer_entries _ _ _ _ _ es)|by rewrite lookup_insert_eq|by rewrite layer_node|].
        by apply layer_link_count.
      * by eapply stage_rootReady.
      * intros (d' & es' & p & Hd' & Hn'). simplify_eq. eexists _, _, _.
        split; [done|]. by apply (layer_dir _ _ _ _ _ es).
    + intros Hfl _. by apply Hl3, (runs_faultless _ _ Hr2).
  - destruct Hs2 as (n & Hs2 & Hk). m_step.
    eapply post_mono; [eapply (removeTemporary_spec (w_fs w)); eauto with store|].
    cbv beta. intros _ w3 [Hf3 Hs3]. m_step. unfold writes.
    assert (replaced userID key data (w_fs w) (w_fs w3)) as Hrep.
    { destruct Hs3 as [->| ->]; eapply (stage_replaced (w_fs w) d perm uid es t tmp); eauto. }
    split_and!; [eapply runs_trans; [done|apply Hf3]|rewrite (files_db _ _ Hf3); done|done|done|].
    intros Hfl _. discriminate (Hl2 (runs_faultless _ _ Hr1 Hfl)).
Qed.

Lemma replaceFile_spec d w :
  alone w → tree (w_fs w) → userDir (w_fs w) userID = Some d → is_Some (entries (w_fs w) d) →
  post (replaceFile euid d (filenameOf key) data) w (writes (writableFile (w_fs w) d (w_entropy w)) w).
Proof using Hid Hkey.
  intros Hw Htree Hdir [es Hes]. pose proof Hes as (perm & uid & Hd)%entries_inode.
  unfold replaceFile. m_step. f_step; [m_step; [|done]; m_step; apply writes_failed; [done..|fault_absurd]|].
  assert (replaceable (w_fs w) es (filenameOf key) → post (created <- createTemporaryFile euid d;;
        match created with
        | Err e => mret (Some e)
        | Ok (temporaryName, fd) =>
           installed <- installTemporary d fd temporaryName (filenameOf key) data;;
           match installed with
           | Err e => _ <- root_Remove d temporaryName;; mret (Some e)
           | Ok _ => syncRoot d
           end
        end) w1 (writes (writableFile (w_fs w) d (w_entropy w)) w)) as Hgo.
  { intros Hrepl. rewrite <- (calm_fs _ _ H) in *. rewrite <- (calm_entropy _ _ H).
    eapply post_mono; [by eapply replaceStaged_spec; eauto with store|].
    intros r w2 (Hr2 & Hd2 & Hrep & Hok & Hl). unfold writes. rewrite (calm_fs _ _ H) in Hrep, Hok.
    split_and!; [eapply runs_trans; [by apply calm_runs|done]|congruence|done|done|].
    intros Hfl. apply Hl, (calm_faultless _ _ H Hfl). }
  rewrite Hes. destruct (es !! filenameOf key) as [i|] eqn:Hi.
  2:{ cbn [res_of]. apply Hgo. intros i Hi'. congruence. }
  destruct (tree_leads _ Htree _ _ _ _ Hes Hi) as [n Hn]. rewrite (inode_info_at _ _ _ Hn). cbn [res_of].
  destruct (validateRegularFile euid _) as [e|] eqn:Hv.
  - m_step. apply writes_failed; [done..|]. intros _ [_ Hwr]. destruct (Hwr es Hes) as [_ Hx].
    destruct (Hx i Hi) as (c & p & Hn' & Hl). rewrite Hn in Hn'. injection Hn' as ->.
    simpl in Hv. by rewrite validateRegularFile_regular in Hv.
  - apply Hgo. apply validateRegularFile_ok in Hv as (c & p & -> & _). intros j Hj. simplify_eq. eauto.
Qed.
End Replace.

(** What [Write] needs to succeed: a safe data root, a directory of the service's
    or none for the user, a regular file of its own or none for the key, and an
    unused name among the random ones. *)
Record writable (userID : Z) (key data : string) (fs : FileSystem) (entropy : string) : Prop := {
  wr_key : ValidateKey key = None;
  wr_id : 0 < userID;
  wr_size : (len data ≤ MaxConfigBytes)%N;
  wr_abs : IsAbs rootPath = true;
  wr_root : rootReady fs;
  wr_user : userDir fs userID = None ∨ userReady fs userID;
  wr_entropy : (16 ≤ String.length entropy)%nat;
  wr_file : ∀ d, userDir fs userID = Some d → writableFile key fs d entropy;
}.

Lemma writableFile_modes key fs fs' d entropy : modes fs fs' → writableFile key fs d entropy → writableFile key fs' d entropy.
Proof.
  intros Hm [H16 Hw]. split; [done|]. intros es Hes. rewrite <- Hm in Hes. destruct (Hw es Hes) as [Hn Hf].
  split; [done|]. intros i Hi. destruct (Hf i Hi) as (c & p & Hc & Hl).
  pose proof (modes_kind _ _ Hm i) as Hk. pose proof (modes_uid _ _ Hm i) as Hu. rewrite Hc in Hk, Hu.
  destruct (fs_inodes fs' !! i) as [[k p' u]|]; simplify_eq/=. exists c, p'. split; [done|]. by rewrite <- Hm.
Qed.

Lemma Write_spec userID key data w :
  alone w → tree (w_fs w) → userID < 2 ^ 63 →
  post (Write euid rootPath userID key data) w (λ r w',
    writes userID key data (writable userID key data (w_fs w) (w_entropy w)) w r w' ∧
    (r = None → userReady (w_fs w') userID)).
Proof.
  intros Hw Htree Hid. unfold Write.
  destruct (ValidateKey key) eqn:Hkey;
    [m_step; split; [apply writes_failed; [done|eauto with store|done|intros _ []; congruence]|done]|].
  destruct (N.ltb_spec MaxConfigBytes (len data)) as [Hlen|Hlen];
    [m_step; split; [apply writes_failed; [done|eauto with store|done|intros _ []; lia]|done]|].
  m_step. m_use openUserRoot_spec as r w1 (Hf1 & Ht1 & Hs1 & _ & Hm1 & Hrr1 & Hok1 & _ & Hl1).
  destruct r as [d|e].
  - destruct (Hok1 d eq_refl) as (Hpos & Hdir & Hsome & Hready1).
    eapply post_mono; [apply replaceFile_spec; eauto with store|]. cbv beta.
    intros r w2 (Hr2 & Hd2 & (Ht2 & Hex2 & Hc2) & Hok2 & Hl2). rewrite (Hs1 userID key) in Hc2.
    split; [|intros Hn; destruct (Hok2 Hn) as (_ & _ & _ & _ & _ & Hu2); by apply Hu2].
    split_and!; [eapply runs_trans; [apply Hf1|done]|rewrite Hd2; apply Hf1| | |].
    + split_and!; [done|by eapply same_except_from|done].
    + intros Hn. destruct (Hok2 Hn) as (? & ? & ? & ? & Hrr2 & Hu2). split_and!; [done..|by intros ?%Hrr1%Hrr2|by intros _; apply Hu2].
    + intros Hfl []. apply Hl2; [by apply (files_faultless _ _ Hf1)|]. rewrite (files_entropy _ _ Hf1).
      destruct Hm1 as [Hm|(Hnone & d' & Hd' & He)].
      * eapply writableFile_modes; [done|]. apply wr_file0. by rewrite Hm.
      * split; [done|]. intros es Hes. assert (es = ∅) as -> by congruence. split; [done|]. by intros i ?%lookup_empty_Some.
  - m_step. split; [|done]. unfold writes, replaced. split_and!; [apply Hf1|apply Hf1|done| |by left|done|].
    + by intros id k _ _ _.
    + intros Hfl []. discriminate Hl1; try done. destruct wr_user0; auto.
Qed.

(** ** Reading *)

Lemma readable_modes fs fs' userID key data : modes fs fs' → readable fs userID key data → readable fs' userID key data.
Proof.
  intros Hm (d & es & i & p & Hd & Hes & Hi & Hn & Hl).
  pose proof (modes_kind _ _ Hm i) as Hk. pose proof (modes_uid _ _ Hm i) as Hu.
  rewrite Hn in Hk, Hu. destruct (fs_inodes fs' !! i) as [[k p' u]|] eqn:E; simplify_eq/=.
  exists d, es, i, p'. split_and!; [by rewrite <- Hm|by rewrite <- Hm|done|done|by rewrite <- Hm].
Qed.

Lemma validateRegularFile_err info e : validateRegularFile euid info = Some e → errors_Is e ErrNotExist = false.
Proof. unfold validateRegularFile. intros H. by repeat (case_match; simplify_eq/=). Qed.

Lemma openExisting_spec d es key w :
  alone w → tree (w_fs w) → ValidateKey key = None → entries (w_fs w) d = Some es →
  post (openExistingRegularFile euid d (filenameOf key)) w (λ r w', files w w' ∧ modes (w_fs w) (w_fs w') ∧
    (∀ i, r = Ok i → es !! filenameOf key = Some i ∧ is_Some (content (w_fs w) i)) ∧
    (faultless w → ∀ i c p, es !! filenameOf key = Some i → fs_inodes (w_fs w) !! i = Some (mkInode (KFile c) p euid) →
       link_count (w_fs w) i ≤ 1 → r = Ok i) ∧
    (faultless w → es !! filenameOf key = None → r = Err (Sentinel ErrNotExist)) ∧
    (∀ e, r = Err e → errors_Is e ErrNotExist = true → es !! filenameOf key = None)).
Proof.
  intros Hw Htree Hkey Hes. destruct (filename_plain _ Hkey) as [_ Hup].
  assert (∀ e w1, calm w w1 → w_db w1 = w_db w →
    (faultless w → ∀ i c p, es !! filenameOf key = Some i → fs_inodes (w_fs w) !! i = Some (mkInode (KFile c) p euid) →
       link_count (w_fs w) i ≤ 1 → False) →
    (faultless w → es !! filenameOf key = None → e = Sentinel ErrNotExist) →
    (errors_Is e ErrNotExist = true → es !! filenameOf key = None) →
    files w w1 ∧ modes (w_fs w) (w_fs w1) ∧
    (∀ i, (Err e : res Z) = Ok i → es !! filenameOf key = Some i ∧ is_Some (content (w_fs w) i)) ∧
    (faultless w → ∀ i c p, es !! filenameOf key = Some i → fs_inodes (w_fs w) !! i = Some (mkInode (KFile c) p euid) →
       link_count (w_fs w) i ≤ 1 → (Err e : res Z) = Ok i) ∧
    (faultless w → es !! filenameOf key = None → (Err e : res Z) = Err (Sentinel ErrNotExist)) ∧
    (∀ e', (Err e : res Z) = Err e' → errors_Is e' ErrNotExist = true → es !! filenameOf key = None)) as Hfail.
  { intros e w1 Hc Hd Hl Hno Hne. split_and!; [files_chain|by rewrite (calm_fs _ _ Hc)|done| | |by intros ? [= <-]].
    - intros Hfl i c p Hi Hn Hk. by destruct (Hl Hfl i c p).
    - intros Hfl Hn. by rewrite Hno. }
  unfold openExistingRegularFile. m_step. f_step; [apply Hfail; [done|done|fault_absurd|fault_absurd|done]|].
  rewrite Hes. destruct (es !! filenameOf key) as [i|] eqn:Hi; cbn [res_of]; [|by apply Hfail].
  destruct (tree_leads _ Htree _ _ _ _ Hes Hi) as [n Hn]. rewrite (inode_info_at _ _ _ Hn). cbn [res_of].
  destruct (validateRegularFile euid _) as [e|] eqn:Hv.
  { m_step. apply Hfail; [done..| |done|by rewrite (validateRegularFile_err _ _ Hv)]. intros _ j c p [= <-] Hn' Hl. rewrite Hn in Hn'. injection Hn' as ->.
    simpl in Hv. by rewrite validateRegularFile_regular in Hv. }
  pose proof Hv as (c & p & -> & Hl)%validateRegularFile_ok.
  m_step. f_step; [apply Hfail; [calm_chain|congruence|fault_absurd|fault_absurd|done]|].
  rewrite (calm_fs _ _ H), (resolve_in_one _ _ _ es (filenameOf key) i (mkInode (KFile c) p euid)) by done. cbn [res_of].
  assert (calm w w0) as Hc0 by calm_chain.
  m_step. f_step; [apply Hfail; [calm_chain|congruence|fault_absurd|fault_absurd|done]|].
  rewrite (calm_fs _ _ Hc0), (inode_info_at _ _ _ Hn). cbn [res_of]. rewrite Hv.
  unfold SameFile. rewrite Z.eqb_refl. cbn [negb orb].
  assert (calm w w2) as Hc2 by calm_chain.
  m_step. unfold file_Chmod. f_step.
  { split_and!; [files_chain|by rewrite H6, (calm_fs _ _ Hc2)|done|fault_absurd|fault_absurd|by intros ? [= <-]]. }
  rewrite (calm_fs _ _ Hc2) in H6 |- *.
  assert (modes (w_fs w) (w_fs w3)) as Hm by (rewrite H6; apply chmod_modes).
  unfold chmod at 1. rewrite Hn. cbn [fst res_of]. m_step. split_and!; [files_chain|done| |by intros _ ? ? ? [= <-]|done|done].
  intros j [= <-]. split; [done|]. unfold content. rewrite Hn. eauto.
Qed.

(** What a run of [Read] that started in [w] guarantees. *)
Definition reads (userID : Z) (key : string) (w : World) (r : res string) (w' : World) : Prop :=
  files w w' ∧ modes (w_fs w) (w_fs w') ∧
  (∀ data, r = Ok data → config (w_fs w) userID key = Some data ∧ (len data ≤ MaxConfigBytes)%N ∧
     0 < userID ∧ ValidateKey key = None) ∧
  (∀ e, r = Err e → errors_Is e ErrNotExist = true → config (w_fs w) userID key = None) ∧
  (faultless w → ValidateKey key = None → 0 < userID → IsAbs rootPath = true →
   rootReady (w_fs w) → userReady (w_fs w) userID →
   (∀ data, readable (w_fs w) userID key data → (len data ≤ MaxConfigBytes)%N → r = Ok data) ∧
   ((∀ d es, userDir (w_fs w) userID = Some d → entries (w_fs w) d = Some es → es !! filenameOf key = None) →
    r = Err (Sentinel ErrNotExist))).

Lemma Read_spec userID key w : alone w → tree (w_fs w) →
  post (Read euid rootPath userID key) w (reads userID key w).
Proof.
  intros Hw Htree. unfold Read.
  destruct (ValidateKey key) eqn:Hkey.
  { m_step. unfold reads. split_and!; [eauto with store|done|done| |congruence]. intros ? [= <-].
    unfold ValidateKey in Hkey. by repeat (case_match; simplify_eq/=). }
  m_step. m_use openUserRoot_spec as r w1 (Hf1 & Ht1 & Hs1 & Hm1 & _ & Hrr1 & Hok1 & Hno1 & Hl1). specialize (Hm1 eq_refl).
  destruct r as [d|e].
  2:{ unfold reads. split_and!; [done|done|done| |].
      { intros e' [= <-] He. destruct (Hno1 e eq_refl He) as [Hn|[=]]. unfold config. by rewrite Hn. }
      intros Hfl _ Hid Habs Hr Hu.
      specialize (Hl1 Hfl Hid Habs Hr (or_introl Hu)). done. }
  destruct (Hok1 d eq_refl) as (Hpos & Hdir & [es Hes] & _).
  m_step. eapply post_mono; [apply (openExisting_spec d es); eauto with store|]. cbv beta.
  intros r w2 (Hf2 & Hm2 & Hok2 & Hl2 & Hn2 & Hne2).
  assert (modes (w_fs w) (w_fs w2)) as Hm by (by etrans).
  assert (files w w2) as Hf by files_chain.
  assert (faultless w → faultless w1) as Hfl1 by apply (files_faultless _ _ Hf1).
  destruct r as [i|e]; cycle 1.
  { unfold reads. split_and!; [done|done|done| |].
    { intros e' [= <-] He. rewrite <- (Hs1 userID key). unfold config. rewrite Hdir. unfold fileIn. by rewrite Hes, (Hne2 e eq_refl He). }
    intros Hfl _ Hid Habs Hr Hu. split.
    - intros data Hread _. apply (readable_modes _ (w_fs w1)) in Hread; [|done].
      destruct Hread as (d' & es' & i & p & Hd' & Hes' & Hi & Hi' & Hl). simplify_eq.
      specialize (Hl2 (Hfl1 Hfl) i data p Hi Hi' Hl). done.
    - intros Hmiss. assert (es !! filenameOf key = None) as E.
      { apply (Hmiss d es); [by rewrite Hm1|by rewrite Hm1]. }
      by specialize (Hn2 (Hfl1 Hfl) E) as [= ->]. }
  destruct (Hok2 i eq_refl) as (Hi & c & Hc).
  assert (content (w_fs w2) i = Some c) as Hc2 by (by rewrite <- Hm2).
  assert (config (w_fs w) userID key = Some c) as Hconf.
  { rewrite <- (Hs1 userID key). unfold config. rewrite Hdir. unfold fileIn. by rewrite Hes, Hi. }
  assert (∀ data, readable (w_fs w) userID key data → data = c) as Hdata.
  { intros data (d' & es' & j & p & Hd' & Hes' & Hj & Hj' & _). unfold config in Hconf. rewrite Hd' in Hconf.
    unfold fileIn in Hconf. rewrite Hes', Hj in Hconf. unfold content in Hconf. rewrite Hj' in Hconf. by injection Hconf. }
  assert ((∀ d es, userDir (w_fs w) userID = Some d → entries (w_fs w) d = Some es → es !! filenameOf key = None) → False) as Hmiss.
  { intros H. assert (es !! filenameOf key = None) as E by (apply (H d es); [by rewrite Hm1|by rewrite Hm1]). congruence. }
  assert (read_file i (w_fs w2) = inl c) as Hread.
  { unfold read_file. unfold content in Hc2. destruct (fs_inodes (w_fs w2) !! i) as [[[] ? ?]|]; by simplify_eq/=. }
  m_step. f_step.
  { unfold reads. split_and!; [files_chain|by rewrite (calm_fs _ _ H)|done|by intros ? [= <-]|fault_absurd]. }
  rewrite Hread. cbn [res_of].
  assert (∀ n, (N.of_nat n = MaxConfigBytes + 1)%N → (len (take_bytes n c) ≤ MaxConfigBytes)%N → take_bytes n c = c) as Hshort.
  { intros n Hn Hle. apply take_bytes_short. unfold len in Hle. lia. }
  assert (∀ n, (N.of_nat n = MaxConfigBytes + 1)%N → (len c ≤ MaxConfigBytes)%N → take_bytes n c = c) as Hfull.
  { intros n Hn Hle. apply take_bytes_all. unfold len in Hle. lia. }
  assert (N.of_nat (N.to_nat (MaxConfigBytes + 1)) = MaxConfigBytes + 1)%N as Hlim by apply N2Nat.id.
  revert Hlim. generalize (N.to_nat (MaxConfigBytes + 1)). intros n Hlim.
  destruct (N.ltb_spec MaxConfigBytes (len (take_bytes n c))) as [Hlt|Hle]; m_step; unfold reads;
    (split_and!; [files_chain|by rewrite (calm_fs _ _ H)|..]).
  - done.
  - by intros ? [= <-].
  - intros _ _ _ _ _ _. split; [|intros Hx; by destruct (Hmiss Hx)]. intros data ->%Hdata Hle.
    rewrite Hfull in Hlt by done. lia.
  - intros data [= <-]. rewrite Hshort in * by done. done.
  - done.
  - intros _ _ _ _ _ _. split; [|intros Hx; by destruct (Hmiss Hx)]. intros data ->%Hdata Hle'. by rewrite Hfull.
Qed.

(** ** Deleting *)

(** What a run of [Delete] that started in [w] guarantees. *)
Definition deletes (userID : Z) (key : string) (w : World) (r : option goerr) (w' : World) : Prop :=
  files w w' ∧ tree (w_fs w') ∧ same_except userID key (w_fs w) (w_fs w') ∧
  (config (w_fs w') userID key = config (w_fs w) userID key ∨ config (w_fs w') userID key = None) ∧
  (r = None → 0 < userID ∧ ValidateKey key = None ∧
     is_Some (config (w_fs w) userID key) ∧ config (w_fs w') userID key = None) ∧
  (faultless w → ValidateKey key = None → 0 < userID → IsAbs rootPath = true →
   rootReady (w_fs w) → userReady (w_fs w) userID → (∃ data, readable (w_fs w) userID key data) → r = None).

Lemma removeFile_spec userID key d w :
  alone w → tree (w_fs w) → 0 < userID < 2 ^ 63 → ValidateKey key = None →
  userDir (w_fs w) userID = Some d → is_Some (entries (w_fs w) d) →
  post (removeFile euid d (filenameOf key)) w (λ r w',
    files w w' ∧ tree (w_fs w') ∧ same_except userID key (w_fs w) (w_fs w') ∧
    (config (w_fs w') userID key = config (w_fs w) userID key ∨ config (w_fs w') userID key = None) ∧
    (r = None → is_Some (config (w_fs w) userID key) ∧ config (w_fs w') userID key = None) ∧
    (faultless w → (∃ data, readable (w_fs w) userID key data) → r = None)).
Proof.
  intros Hw Htree Hid Hkey Hdir [es Hes].
  assert (∀ e w1, files w w1 → w_fs w1 = w_fs w → (faultless w → (∃ data, readable (w_fs w) userID key data) → False) →
    files w w1 ∧ tree (w_fs w1) ∧ same_except userID key (w_fs w) (w_fs w1) ∧
    (config (w_fs w1) userID key = config (w_fs w) userID key ∨ config (w_fs w1) userID key = None) ∧
    ((Some e : option goerr) = None → is_Some (config (w_fs w) userID key) ∧ config (w_fs w1) userID key = None) ∧
    (faultless w → (∃ data, readable (w_fs w) userID key data) → (Some e : option goerr) = None)) as Hfail.
  { intros e w1 Hf Hs Hl. rewrite Hs. split_and!; [done|done|done|by left|done|]. intros Hfl Hx. by destruct (Hl Hfl Hx). }
  unfold removeFile. m_step. f_step; [m_step; apply Hfail; [files_chain|by apply calm_fs|fault_absurd]|].
  assert (∀ data, readable (w_fs w) userID key data → ∃ i p, es !! filenameOf key = Some i ∧
    fs_inodes (w_fs w) !! i = Some (mkInode (KFile data) p euid) ∧ link_count (w_fs w) i ≤ 1) as Hread.
  { intros data (d' & es' & i & p & ? & ? & ? & ? & ?). simplify_eq. eauto. }
  rewrite Hes. destruct (es !! filenameOf key) as [i|] eqn:Hi; cbn [res_of].
  2:{ m_step. apply Hfail; [files_chain|by apply calm_fs|]. intros _ [data (j & ? & ? & _)%Hread]. congruence. }
  destruct (tree_leads _ Htree _ _ _ _ Hes Hi) as [n Hn]. rewrite (inode_info_at _ _ _ Hn). cbn [res_of].
  destruct (validateRegularFile euid _) as [e|] eqn:Hv.
  { m_step. apply Hfail; [files_chain|by apply calm_fs|]. intros _ [data (j & p & [= <-] & Hn' & Hl)%Hread].
    rewrite Hn in Hn'. injection Hn' as ->. simpl in Hv. by rewrite validateRegularFile_regular in Hv. }
  apply validateRegularFile_ok in Hv as (c & p & -> & _).
  m_step. unfold root_Remove. f_step; [m_step; apply Hfail; [files_chain|by rewrite H2; apply calm_fs|fault_absurd]|].
  rewrite (calm_fs _ _ H) in H2 |- *. pose proof Hes as (perm & uid & Hd)%entries_inode.
  assert (entries (w_fs w) i = None) as Hnodir by (unfold entries; by rewrite Hn).
  unfold remove_name in H2 |- *. rewrite Hes, Hi, Hnodir in H2. rewrite Hes, Hi, Hnodir. cbn [fst snd res_of] in *.
  pose proof (remove_edits _ _ _ _ _ _ _ _ _ _ Hd Hi Hn) as He.
  destruct (edits_configs _ _ _ _ _ userID key Htree He Hdir Hid) as (Ht' & Hd' & Hs' & Hc').
  { intros m Hm _. by rewrite lookup_delete_ne. }
  assert (config (w_fs w) userID key = Some c) as Hold.
  { unfold config. rewrite Hdir. unfold fileIn. rewrite Hes, Hi. unfold content. by rewrite Hn. }
  assert (config (set_entries d (delete (filenameOf key)) (w_fs w)) userID key = None) as Hnew.
  { rewrite Hc'. unfold fileIn. by rewrite (ed_after _ _ _ _ _ He), lookup_delete_eq. }
  rewrite <- H2 in *.
  eapply post_mono; [apply syncRoot_spec; [eauto with store|rewrite (ed_after _ _ _ _ _ He); eauto]|].
  cbv beta. intros r w3 (Hc3 & Hd3 & Hl3). rewrite (calm_fs _ _ Hc3).
  split_and!; [files_chain|done|done|by right|by rewrite Hold; eauto|].
  intros Hfl _. apply Hl3, (files_faultless w); [files_chain|done].
Qed.

Lemma Delete_spec userID key w : alone w → tree (w_fs w) → userID < 2 ^ 63 →
  post (Delete euid rootPath userID key) w (deletes userID key w).
Proof.
  intros Hw Htree Hid. unfold Delete.
  destruct (ValidateKey key) eqn:Hkey.
  { m_step. unfold deletes. split_and!; [eauto with store|done|done|by left|done|congruence]. }
  m_step. m_use openUserRoot_spec as r w1 (Hf1 & Ht1 & Hs1 & Hm1 & _ & Hrr1 & Hok1 & Hno1 & Hl1). specialize (Hm1 eq_refl).
  destruct r as [d|e].
  - destruct (Hok1 d eq_refl) as (Hpos & Hdir & Hsome & Hready1).
    eapply post_mono; [apply (removeFile_spec userID); eauto with store|]. cbv beta.
    intros r w2 (Hf2 & Ht2 & Hex2 & Hc2 & Hok2 & Hl2). rewrite (Hs1 userID key) in Hc2, Hok2. unfold deletes.
    split_and!; [files_chain|done|by eapply same_except_from|done|by intros ?%Hok2|].
    intros Hfl _ _ _ _ _ [data Hread]. apply Hl2; [by apply (files_faultless _ _ Hf1)|].
    exists data. by eapply readable_modes.
  - m_step. unfold deletes. split_and!; [done|done|by intros id k _ _ _|by left|done|].
    intros Hfl _ Hpos Habs Hr Hu _. discriminate (Hl1 Hfl Hpos Habs Hr (or_introl Hu)).
Qed.
End ConfigStore.

(** ** The store as an abstract map *)

(** Requests to the store. *)
Inductive ConfigOp :=
| OpRead (userID : Z) (key : string)
| OpWrite (userID : Z) (key data : string)
| OpDelete (userID : Z) (key : string).

Definition op_user (op : ConfigOp) : Z :=
  match op with OpRead id _ | OpWrite id _ _ | OpDelete id _ => id end.

(** The answer to a request; a write or a deletion answers nothing. *)
Definition runOp (euid : Z) (rootPath : string) (op : ConfigOp) : M (res (option string)) :=
  match op with
  | OpRead id key => r <- Read euid rootPath id key;; mret match r with Ok d => Ok (Some d) | Err e => Err e end
  | OpWrite id key data => r <- Write euid rootPath id key data;; mret match r with None => Ok None | Some e => Err e end
  | OpDelete id key => r <- Delete euid rootPath id key;; mret match r with None => Ok None | Some e => Err e end
  end.

Fixpoint runOps (euid : Z) (rootPath : string) (ops : list ConfigOp) : M (list (res (option string))) :=
  match ops with
  | [] => mret []
  | op :: rest => r <- runOp euid rootPath op;; rs <- runOps euid rootPath rest;; mret (r :: rs)
  end.

(** What a request means for a map from users and keys to bytes. *)
Definition op_effect (op : ConfigOp) (m : gmap (Z * string) string) : gmap (Z * string) string :=
  match op with
  | OpRead _ _ => m
  | OpWrite id key data => <[(id, key) := data]> m
  | OpDelete id key => delete (id, key) m
  end.

Definition op_answer (op : ConfigOp) (m : gmap (Z * string) string) (a : option string) : Prop :=
  match op with
  | OpRead id key => is_Some a ∧ m !! (id, key) = a
  | OpWrite _ _ _ => a = None
  | OpDelete id key => a = None ∧ is_Some (m !! (id, key))
  end.

(** A request that succeeds has its whole effect; one that fails has it or none. *)
Inductive config_step (op : ConfigOp) (m : gmap (Z * string) string) :
    res (option string) → gmap (Z * string) string → Prop :=
| config_ok a : op_answer op m a → config_step op m (Ok a) (op_effect op m)
| config_failed e m' : m' = m ∨ m' = op_effect op m → config_step op m (Err e) m'.

Inductive config_steps : list ConfigOp → gmap (Z * string) string → list (res (option string)) →
    gmap (Z * string) string → Prop :=
| config_done m : config_steps [] m [] m
| config_more op ops m r m1 rs m2 :
    config_step op m r m1 → config_steps ops m1 rs m2 → config_steps (op :: ops) m (r :: rs) m2.

(** The files hold the map [m]. *)
Definition represents (rootPath : string) (fs : FileSystem) (m : gmap (Z * string) string) : Prop :=
  (∀ id key, 0 < id < 2 ^ 63 → ValidateKey key = None → m !! (id, key) = config rootPath fs id key) ∧
  ∀ id key, is_Some (m !! (id, key)) → 0 < id < 2 ^ 63 ∧ ValidateKey key = None.

Section Refines.
Context (euid : Z) (rootPath : string).

(** An update at one place, or none. *)
Lemma represents_update fs fs' m id key (f : option string → option string) :
  represents rootPath fs m → same_except rootPath id key fs fs' → 0 < id < 2 ^ 63 → ValidateKey key = None →
  config rootPath fs' id key = f (config rootPath fs id key) →
  represents rootPath fs' (partial_alter f (id, key) m).
Proof.
  intros [Hm Hdom] Hsame Hid Hk Hnew. split.
  - intros id' key' Hid' Hk'. destruct (decide ((id', key') = (id, key))) as [[= -> ->]|Hne].
    + by rewrite lookup_partial_alter_eq, Hm, Hnew.
    + rewrite lookup_partial_alter_ne, Hm by done. by rewrite Hsame.
  - intros id' key'. destruct (decide ((id', key') = (id, key))) as [[= -> ->]|Hne]; [done|].
    rewrite lookup_partial_alter_ne by done. apply Hdom.
Qed.

Lemma represents_same fs fs' m id key :
  represents rootPath fs m → same_except rootPath id key fs fs' →
  (0 < id < 2 ^ 63 → ValidateKey key = None → config rootPath fs' id key = config rootPath fs id key) →
  represents rootPath fs' m.
Proof.
  intros [Hm Hdom] Hsame Hnew. split; [|done]. intros id' key' Hid' Hk'. rewrite Hm by done. symmetry.
  destruct (decide ((id', key') = (id, key))) as [[= -> ->]|Hne]; [by apply Hnew|by apply Hsame].
Qed.

Lemma runOp_refines op m w : alone w → tree (w_fs w) → op_user op < 2 ^ 63 → represents rootPath (w_fs w) m →
  post (runOp euid rootPath op) w (λ r w', alone w' ∧ tree (w_fs w') ∧ w_db w' = w_db w ∧
    ∃ m', represents rootPath (w_fs w') m' ∧ config_step op m r m').
Proof.
  intros Hw Htree Hid Hm. destruct op as [id key|id key data|id key]; cbn [runOp op_user] in *; m_step.
  - m_use (Read_spec euid rootPath) as r w1 (Hf & Hmodes & Hok & _ & _). m_step.
    split_and!; [eauto with store|by rewrite <- Hmodes|apply Hf|]. exists m. split.
    + apply (represents_same (w_fs w) _ _ id key); [done|by intros ? ? _ _ _; apply config_modes|].
      intros _ _. by apply config_modes.
    + destruct r as [data|e]; [|by constructor; left]. destruct (Hok data eq_refl) as (Hc & _ & Hpos & Hk).
      apply (config_ok (OpRead id key)). split; [eauto|]. destruct Hm as [Hm _]. by rewrite Hm.
  - m_use (Write_spec euid rootPath) as r w1 [(Hr & Hd & (Ht & Hex & Hc) & Hok & _) _]. m_step.
    split_and!; [eauto with store|done|done|]. destruct r as [e|].
    + destruct (decide (0 < id < 2 ^ 63 ∧ ValidateKey key = None ∧ config rootPath (w_fs w1) id key = Some data))
        as [(Hpos & Hk & Hnew)|Hno].
      * exists (<[(id, key) := data]> m). split; [by eapply represents_update|constructor; by right].
      * exists m. split; [|constructor; by left]. eapply represents_same; [done|done|]. intros ? ?. destruct Hc; naive_solver.
    + destruct (Hok eq_refl) as (Hpos & Hk & Hnew & _). exists (<[(id, key) := data]> m).
      split; [by eapply represents_update; [done|done|lia|..]|]. by apply (config_ok (OpWrite id key data)).
  - m_use (Delete_spec euid rootPath) as r w1 (Hf & Ht & Hex & Hc & Hok & _). m_step.
    split_and!; [eauto with store|done|apply Hf|]. destruct r as [e|].
    + destruct (decide (0 < id < 2 ^ 63 ∧ ValidateKey key = None ∧ config rootPath (w_fs w1) id key = None))
        as [(Hpos & Hk & Hnew)|Hno].
      * exists (delete (id, key) m). split; [by eapply represents_update|constructor; by right].
      * exists m. split; [|constructor; by left]. eapply represents_same; [done|done|]. intros ? ?. destruct Hc; naive_solver.
    + destruct (Hok eq_refl) as (Hpos & Hk & Hold & Hnew). exists (delete (id, key) m).
      split; [by eapply represents_update; [done|done|lia|..]|].
      apply (config_ok (OpDelete id key)). split; [done|]. destruct Hm as [Hm _]. by rewrite Hm by (done || lia).
Qed.

Lemma runOps_refines ops : ∀ m w, alone w → tree (w_fs w) → Forall (λ op, op_user op < 2 ^ 63) ops →
  represents rootPath (w_fs w) m →
  post (runOps euid rootPath ops) w (λ rs w', w_db w' = w_db w ∧
    ∃ m', represents rootPath (w_fs w') m' ∧ config_steps ops m rs m').
Proof.
  induction ops as [|op ops IH]; intros m w Hw Htree Hall Hm; cbn [runOps].
  { m_step. split; [done|]. exists m. split; [done|constructor]. }
  apply Forall_cons in Hall as [Hop Hall]. m_step.
  eapply post_mono; [by apply (runOp_refines op m)|]. cbv beta. intros r w1 (Hw1 & Ht1 & Hd1 & m1 & Hm1 & Hstep).
  m_step. eapply post_mono; [by apply (IH m1)|]. cbv beta. intros rs w2 (Hd2 & m2 & Hm2 & Hsteps).
  m_step. split; [congruence|]. exists m2. split; [done|]. by econstructor.
Qed.
End Refines.

(** ** Properties *)

(** C26. The configuration files implement a map from users and keys to bytes: over
    any sequence of reads, writes and deletions, whatever fails on the way, a
    request that succeeds answers and acts as on the map (a read returns exactly
    the bytes last written, a deletion removes an existing entry), one that fails
    has acted completely or not at all, and no request changes the entry of
    another user or key. *)
Theorem config_store_refines (euid : Z) (rootPath : string) (ops : list ConfigOp)
    (m : gmap (Z * string) string) (w : World) :
  alone w → tree (w_fs w) → Forall (λ op, op_user op < 2 ^ 63) ops → represents rootPath (w_fs w) m →
  let run := runOps euid rootPath ops w in
  w_db (snd run) = w_db w ∧
  ∃ m', represents rootPath (w_fs (snd run)) m' ∧ config_steps ops m (fst run) m'.
Proof. intros Hw Ht Hall Hm run. exact (runOps_refines euid rootPath ops m w Hw Ht Hall Hm). Qed.

Lemma varLib_tree : tree varLib.
Proof.
  assert (∀ i es n x, entries varLib i = Some es → es !! n = Some x →
    (i = 1 ∧ n = "var" ∧ x = 2) ∨ (i = 2 ∧ n = "lib" ∧ x = 3)) as H.
  { intros i es n x [[-> ->]|[[-> ->]|[-> ->]]]%varLib_entries Hn; [left|right|by apply lookup_empty_Some in Hn];
      by apply lookup_singleton_Some in Hn as [<- <-]. }
  split.
  - intros d i1 i2 es1 es2 n1 n2 _ H1 Hn1 H2 Hn2. specialize (H _ _ _ _ H1 Hn1) as H1'.
    specialize (H _ _ _ _ H2 Hn2) as H2'. naive_solver lia.
  - intros d es n Hd Hn. specialize (H _ _ _ _ Hd Hn). lia.
  - intros d es n i Hd Hn. destruct (H _ _ _ _ Hd Hn) as [(_ & _ & ->)|(_ & _ & ->)]; vm_compute; eauto.
Qed.

Lemma varLib_empty : represents "/var/lib" varLib ∅.
Proof.
  split; [|by intros id key [? ?%lookup_empty_Some]]. intros id key _ _. rewrite lookup_empty. unfold config, userDir.
  assert (dataRoot "/var/lib" varLib = Some 3) as -> by reflexivity.
  assert (entries varLib 3 = Some ∅) as -> by reflexivity. by rewrite lookup_empty.
Qed.

Definition sampleOps : list ConfigOp :=
  [OpWrite 7 "system" "{}"; OpRead 7 "system"; OpRead 8 "system"; OpDelete 7 "system"].

Lemma config_store_refines_witness :
  fst (runOps 0 "/var/lib" sampleOps varWorld) =
    [Ok None; Ok (Some "{}"); Err (Sentinel ErrNotExist); Ok None] ∧
  ∃ m', config_steps sampleOps ∅ (fst (runOps 0 "/var/lib" sampleOps varWorld)) m'.
Proof.
  split; [vm_compute; reflexivity|].
  destruct (config_store_refines 0 "/var/lib" sampleOps ∅ varWorld (λ n, conj (λ _, eq_refl) (λ _, eq_refl)) varLib_tree)
    as (_ & m' & _ & Hsteps); [repeat constructor|exact varLib_empty|].
  exists m'. exact Hsteps.
Defined.

(** C27. When nothing fails, a write to safe storage succeeds, the next read of the
    same key returns exactly the bytes written, and a deletion then succeeds: on a
    data root that others cannot write, for a user without a directory or with one
    of the service's, and for a key without a file or with a regular one of the
    service's that has no other name. *)
Theorem config_roundtrip (euid : Z) (rootPath : string) (userID : Z) (key data : string) (w : World) :
  alone w → faultless w → tree (w_fs w) → userID < 2 ^ 63 →
  writable euid rootPath userID key data (w_fs w) (w_entropy w) →
  let w1 := snd (Write euid rootPath userID key data w) in
  fst (Write euid rootPath userID key data w) = None ∧
  fst (Read euid rootPath userID key w1) = Ok data ∧
  fst (Delete euid rootPath userID key w1) = None.
Proof.
  intros Hw Hfl Ht Hid Hwr w1.
  destruct (Write_spec euid rootPath userID key data w Hw Ht Hid) as [(Hr & _ & (Ht1 & _) & Hok & Hlive) Hu].
  fold w1 in Hr, Ht1, Hok, Hu. specialize (Hlive Hfl Hwr).
  destruct (Hok Hlive) as (Hpos & Hk & _ & Hread & Hroot & _). specialize (Hu Hlive).
  assert (rootReady euid rootPath (w_fs w1)) as Hroot1 by apply Hroot, (wr_root _ _ _ _ _ _ _ Hwr).
  pose proof (runs_faultless _ _ Hr Hfl) as Hfl1. pose proof (runs_alone _ _ Hr) as Hw1.
  pose proof (wr_abs _ _ _ _ _ _ _ Hwr) as Habs.
  split_and!; [done| |].
  - destruct (Read_spec euid rootPath userID key w1 Hw1 Ht1) as (_ & _ & _ & _ & Hl).
    destruct (Hl Hfl1 Hk Hpos Habs Hroot1 Hu) as [Hl' _]. apply Hl'; [done|]. apply (wr_size _ _ _ _ _ _ _ Hwr).
  - destruct (Delete_spec euid rootPath userID key w1 Hw1 Ht1 Hid) as (_ & _ & _ & _ & _ & Hl). apply Hl; eauto.
Qed.

Lemma config_roundtrip_witness :
  fst (Read 0 "/var/lib" 7 "system" (snd (Write 0 "/var/lib" 7 "system" "{}" varWorld))) = Ok "{}".
Proof.
  apply (config_roundtrip 0 "/var/lib" 7 "system" "{}" varWorld).
  - intros n. split; reflexivity.
  - intros n. reflexivity.
  - exact varLib_tree.
  - reflexivity.
  - split.
    + vm_compute. reflexivity.
    + reflexivity.
    + vm_compute. discriminate.
    + reflexivity.
    + eexists. split; vm_compute; reflexivity.
    + left. vm_compute. reflexivity.
    + vm_compute. repeat constructor.
    + intros d Hd. vm_compute in Hd. discriminate Hd.
Defined.
