(* ===== verification/Sessions.v ===== *)
(** * Sessions, lockout and audit (src/service/session.go)

    Refresh-session rotation with reuse detection, revocation of access tokens,
    credential generations, the login-attempt budget, the audit log and the
    pruning of all of them. Every method takes the receiver [u], nil or not, and
    starts with the source's guard. *)

From stdpp Require Import prelude strings gmap sorting.
From Stdlib Require Import ZArith Lia Ascii.
From S2P Require Import Prelude GoStrings Password FileSystem Tables Store Guarantee AuthSecurity Bootstrap.

Local Open Scope Z_scope.
Local Open Scope m_scope.

Definition loginFailureLimit : Z := 5.
Definition loginLockoutWindow : Z := hour.
Definition loginLockoutLength : Z := 15 * minute.
Definition loginAttemptRetention : Z := 24 * hour.
Definition credentialEventRetention : Z := 180 * 24 * hour.
Definition credentialEventCap : Z := 100.
Definition refreshSessionCap : Z := 256.
Definition revokedAccessCap : Z := 1024.

(** [type userService struct]. *)
Record userService := mkService {
  svc_privateKey : option PrivateKey;
  svc_publicKey : option PublicKey;
  (** [u.db != nil]; the database itself is part of the world. *)
  svc_db : bool;
  svc_initializationState : State;
}.

(** The authenticated session the middleware passes to the handlers. *)
Record AuthenticatedSession := mkAuthenticated {
  (** The identity of the request object. *)
  as_Request : Z;
  as_UserID : Z;
  as_Username : string;
  as_TokenID : string;
  as_Expires : Z;
}.

(** [u == nil || u.db == nil]. *)
Definition unavailable (u : option userService) : bool :=
  match u with Some u => negb (svc_db u) | None => true end.

Definition LoginAttemptKey (namespace value : string) : string := namespace +:+ ":" +:+ value.

(** ** Refresh sessions *)

(** [INSERT INTO o_refresh_sessions]: the identifier is the primary key and the
    digest has a unique index. *)
Definition insertSession (s : RefreshSessionDBModel) : M (res unit) :=
  exec (λ db,
    if bool_decide (is_Some (o_refresh_sessions db !! rs_ID s)) ||
       negb (count_where (λ s', bool_decide (rs_TokenSHA256 s' = rs_TokenSHA256 s))
               (o_refresh_sessions db) =? 0)
    then (Err (StoreError ConstraintFailed), db)
    else (Ok tt, with_sessions <[rs_ID s := s]> db)).

Definition CreateRefreshSession (u : option userService) (userID : Z) (tokenSHA256 : string)
    (issuedAt expiresAt : Z) (sessionID : string) : M (res unit) :=
  if unavailable u then mret (Err (NewError "session store is unavailable"))
  else if (userID <? 1) || bool_decide (tokenSHA256 = "") || bool_decide (sessionID = "")
  then mret (Err (NewError "invalid refresh session"))
  else insertSession (mkSession sessionID userID tokenSHA256 issuedAt expiresAt None "" None "").

(** [WHERE token_sha256 = ? ... First]. *)
Definition findSession (tokenSHA256 : string) : M (res RefreshSessionDBModel) :=
  query (λ db,
    match first_where String.leb (λ s, bool_decide (rs_TokenSHA256 s = tokenSHA256))
            (o_refresh_sessions db) with
    | Some s => Ok s
    | None => Err ErrRecordNotFound
    end).

(** [used_at := now, replaced_by := replacementID]. *)
Definition consumed (now : Z) (replacementID : string) (s : RefreshSessionDBModel) : RefreshSessionDBModel :=
  mkSession (rs_ID s) (rs_UserID s) (rs_TokenSHA256 s) (rs_IssuedAt s) (rs_ExpiresAt s)
    (Some now) replacementID (rs_RevokedAt s) (rs_RevokeReason s).

(** [revoked_at := now, revoke_reason := reason]. *)
Definition revoked (now : Z) (reason : string) (s : RefreshSessionDBModel) : RefreshSessionDBModel :=
  mkSession (rs_ID s) (rs_UserID s) (rs_TokenSHA256 s) (rs_IssuedAt s) (rs_ExpiresAt s)
    (rs_UsedAt s) (rs_ReplacedBy s) (Some now) reason.

(** [UPDATE ... WHERE id = ? AND used_at IS NULL], with the rows affected. *)
Definition consumeSession (id replacementID : string) (now : Z) : M (res Z) :=
  exec (λ db,
    let p := λ s, bool_decide (rs_ID s = id) && isNil (rs_UsedAt s) in
    (Ok (count_where p (o_refresh_sessions db)),
     with_sessions (update_where p (consumed now replacementID)) db)).

(** The closure of [RotateRefreshSession]; the captured value is
    [reusedUserID] when [reused] was set. *)
Definition rotateBody (presentedSHA256 replacementID replacementSHA256 : string)
    (issuedAt expiresAt now : Z) : M (option Z * res RefreshSessionDBModel) :=
  found <- findSession presentedSHA256;;
  match found with
  | Err e =>
     if errors_Is e ErrRecordNotFound then mret (None, Err ErrInvalidRefreshSession)
     else mret (None, Err (Wrap "load refresh session" e))
  | Ok current =>
     if negb (isNil (rs_RevokedAt current)) || negb (now <? rs_ExpiresAt current)
     then mret (None, Err ErrInvalidRefreshSession)
     else if negb (isNil (rs_UsedAt current))
     then mret (Some (rs_UserID current), Err ErrRefreshSessionReused)
     else
       used <- consumeSession (rs_ID current) replacementID now;;
       match used with
       | Err e => mret (None, Err (Wrap "consume refresh session" e))
       | Ok rows =>
          if negb (rows =? 1) then mret (None, Err ErrInvalidRefreshSession)
          else
            created <- insertSession (mkSession replacementID (rs_UserID current) replacementSHA256
                         issuedAt expiresAt None "" None "");;
            match created with
            | Err e => mret (None, Err e)
            | Ok _ => mret (None, Ok (consumed now replacementID current))
            end
       end
  end.

Definition revokeUserSessions (userID now : Z) (reason : string) : M (res unit) :=
  ok _ <- execute (with_sessions (update_where
            (λ s, (rs_UserID s =? userID) && isNil (rs_RevokedAt s)) (revoked now reason)))
    or "revoke user refresh sessions";;
  mret (Ok tt).

(** [token_version := token_version + 1]; gorm sets [updated_at] as well. *)
Definition bumped (now : Z) (u : UserDBModel) : UserDBModel :=
  mkUser (u_Id u) (u_Username u) (u_Password u) (u_Role u) (u_Email u) (u_Nickname u) (u_Avatar u)
    (u_Description u) (u_TokenVersion u + 1) (u_CreatedAt u) now.

Definition findUser (userID : Z) : M (res UserDBModel) :=
  query (λ db,
    match first_where Z.leb (λ u, u_Id u =? userID) (o_users db) with
    | Some u => Ok u
    | None => Err ErrRecordNotFound
    end).

Definition BumpTokenVersion (u : option userService) (userID : Z) : M (res Z) :=
  if unavailable u || (userID <? 1) then mret (Err (NewError "invalid token version bump"))
  else
    transaction None None (
      now <- time_Now;;
      ok _ <- execute (with_users (update_where (λ u, u_Id u =? userID) (bumped now)))
        or "advance user token version";;
      ok user <- findUser userID or "read user token version";;
      mret (Ok (u_TokenVersion user))).

Definition RotateRefreshSession (u : option userService)
    (presentedSHA256 replacementID replacementSHA256 : string)
    (issuedAt expiresAt now : Z) : M (res RefreshSessionDBModel) :=
  if unavailable u || bool_decide (presentedSHA256 = "") || bool_decide (replacementID = "") ||
     bool_decide (replacementSHA256 = "")
  then mret (Err ErrInvalidRefreshSession)
  else
    out <- capturing None
             (rotateBody presentedSHA256 replacementID replacementSHA256 issuedAt expiresAt now);;
    match out with
    | (Some reusedUserID, _) =>
       revokeErr <- revokeUserSessions reusedUserID now "refresh token reuse detected";;
       bumpErr <- BumpTokenVersion u reusedUserID;;
       match errors_Join (error_of revokeErr) (error_of bumpErr) with
       | Some e => mret (Err e)
       | None => mret (Err ErrRefreshSessionReused)
       end
    | (None, r) => mret r
    end.

Definition RevokeRefreshSession (u : option userService) (sessionID reason : string) : M (res unit) :=
  if unavailable u || bool_decide (sessionID = "") then mret (Err (NewError "invalid refresh session"))
  else
    now <- time_Now;;
    execute (with_sessions (update_where
      (λ s, bool_decide (rs_ID s = sessionID) && isNil (rs_RevokedAt s)) (revoked now reason))).

Definition RevokeUserRefreshSession (u : option userService) (userID : Z) (sessionID reason : string)
    : M (res unit) :=
  if unavailable u || (userID <? 1) || bool_decide (sessionID = "")
  then mret (Err (NewError "invalid session revocation"))
  else
    now <- time_Now;;
    execute (with_sessions (update_where
      (λ s, bool_decide (rs_ID s = sessionID) && (rs_UserID s =? userID) && isNil (rs_RevokedAt s))
      (revoked now reason))).

Definition RevokeAllUserSessions (u : option userService) (userID : Z) (reason : string) : M (res unit) :=
  if unavailable u || (userID <? 1) then mret (Err (NewError "invalid user session revocation"))
  else
    now <- time_Now;;
    revokeUserSessions userID now reason.

(** ** Access tokens *)

Definition GetUserTokenVersion (u : option userService) (userID : Z) : M (string * Z * bool) :=
  if unavailable u || (userID <? 1) then mret ("", 0, false)
  else
    found <- findUser userID;;
    match found with
    | Err _ => mret ("", 0, false)
    | Ok user => mret (u_Username user, u_TokenVersion user, true)
    end.

(** [INSERT ... ON CONFLICT (jti) DO NOTHING]. *)
Definition RevokeAccessToken (u : option userService) (tokenID : string) (userID expiresAt : Z)
    : M (res unit) :=
  if unavailable u || bool_decide (tokenID = "") || (userID <? 1)
  then mret (Err (NewError "invalid access token revocation"))
  else
    execute (with_revoked (λ m,
      match m !! tokenID with
      | Some _ => m
      | None => <[tokenID := mkRevoked tokenID userID expiresAt]> m
      end)).

Definition IsAccessTokenRevoked (u : option userService) (tokenID : string) : M (res bool) :=
  if unavailable u || bool_decide (tokenID = "")
  then mret (Err (NewError "access token revocation store is unavailable"))
  else
    ok count <- query (λ db, Ok (count_where (λ r, bool_decide (ra_JTI r = tokenID))
                                   (o_revoked_access_tokens db)));;
    mret (Ok (0 <? count)).

Definition LogoutSession (u : option userService) (userID : Z) (sessionID : string) (accessExpires : Z)
    : M (option goerr) :=
  if unavailable u || (userID <? 1) || bool_decide (sessionID = "")
  then mret (Some (NewError "invalid session logout"))
  else
    revokeErr <- RevokeUserRefreshSession u userID sessionID "logout";;
    accessErr <- RevokeAccessToken u sessionID userID accessExpires;;
    mret (errors_Join (error_of revokeErr) (error_of accessErr)).

Definition LogoutAllSessions (u : option userService) (userID : Z) : M (res unit) :=
  if unavailable u || (userID <? 1) then mret (Err (NewError "invalid session logout"))
  else
    ok _ <- BumpTokenVersion u userID;;
    RevokeAllUserSessions u userID "logout-all".

(** Errors of databases that predate the session tables, recognised by their
    text. *)
Fixpoint mentions_missing (e : goerr) : bool :=
  match e with
  | Sentinel _ => false
  | NewError msg => contains "no such table" msg || contains "no such column" msg
  | StoreError d => bool_decide (d = NoSuchTable) || bool_decide (d = NoSuchColumn)
  | Wrap msg e' => contains "no such table" msg || contains "no such column" msg || mentions_missing e'
  | Join e1 e2 => mentions_missing e1 || mentions_missing e2
  end.

Definition ignoreMissingAuthTable (e : option goerr) : option goerr :=
  match e with
  | None => None
  | Some e => if mentions_missing e then None else Some e
  end.

(** ** The login-attempt budget *)

Definition findAttempt (key : string) : M (res LoginAttemptDBModel) :=
  query (λ db,
    match first_where String.leb (λ a, bool_decide (la_Key a = key)) (o_login_attempts db) with
    | Some a => Ok a
    | None => Err ErrRecordNotFound
    end).

(** [attempt.LockedUntil != nil && now.Before( *attempt.LockedUntil)]. *)
Definition lockedAt (a : LoginAttemptDBModel) (now : Z) : option Z :=
  match la_LockedUntil a with
  | Some until => if now <? until then Some (time_Sub until now) else None
  | None => None
  end.

Definition CheckLoginLockout (u : option userService) (key : string) (now : Z) : M (bool * Z) :=
  if unavailable u || bool_decide (key = "") then mret (false, 0)
  else
    found <- findAttempt key;;
    match found with
    | Err _ => mret (false, 0)
    | Ok attempt =>
       match lockedAt attempt now with
       | Some wait => mret (true, wait)
       | None => mret (false, 0)
       end
    end.

(** The new row and the answer for an attempt that is not locked. *)
Definition countFailure (a : LoginAttemptDBModel) (now : Z) : LoginAttemptDBModel * (bool * Z) :=
  let a := if IsZero (la_WindowStartedAt a) || (loginLockoutWindow <? time_Sub now (la_WindowStartedAt a))
           then mkAttempt (la_Key a) 0 now None else a in
  let failures := la_Failures a + 1 in
  if loginFailureLimit <=? failures
  then (mkAttempt (la_Key a) failures (la_WindowStartedAt a) (Some (now + loginLockoutLength)),
        (true, loginLockoutLength))
  else (mkAttempt (la_Key a) failures (la_WindowStartedAt a) (la_LockedUntil a), (false, 0)).

(** [transaction.Create(&attempt)] and [transaction.Save(&attempt)]. *)
Definition insertAttempt (a : LoginAttemptDBModel) : M (res unit) :=
  exec (λ db,
    if bool_decide (is_Some (o_login_attempts db !! la_Key a))
    then (Err (StoreError ConstraintFailed), db)
    else (Ok tt, with_attempts <[la_Key a := a]> db)).

Definition saveAttempt (a : LoginAttemptDBModel) : M (res unit) :=
  execute (with_attempts <[la_Key a := a]>).

(** The rest of the closure once the row is at hand. *)
Definition countAttempt (attempt : LoginAttemptDBModel) (now : Z) : M (res (bool * Z)) :=
  match lockedAt attempt now with
  | Some wait => mret (Ok (true, wait))
  | None =>
     ok _ <- saveAttempt (countFailure attempt now).1;;
     mret (Ok (countFailure attempt now).2)
  end.

Definition RecordLoginFailure (u : option userService) (key : string) (now : Z) : M (res (bool * Z)) :=
  if unavailable u || bool_decide (key = "") then mret (Err (NewError "login attempt store is unavailable"))
  else
    transaction None None (
      found <- findAttempt key;;
      match found with
      | Err e =>
         if negb (errors_Is e ErrRecordNotFound) then mret (Err e)
         else
           let attempt := mkAttempt key 0 now None in
           ok _ <- insertAttempt attempt;;
           countAttempt attempt now
      | Ok attempt => countAttempt attempt now
      end).

Definition RecordLoginSuccess (u : option userService) (key : string) : M unit :=
  if unavailable u || bool_decide (key = "") then mret tt
  else
    _ <- execute (with_attempts (delete_where (λ a, bool_decide (la_Key a = key))));;
    mret tt.

(** ** The audit log *)

Section Audit.
(** The identifier SQLite assigns to the next audit row. *)
Context (next_audit_id : list CredentialEventDBModel → Z).

Definition appendEvent (at_ : Z) (installationID : string) (actorUserID : Z) (eventType : string)
    (success : bool) (source detail : string) : M (res unit) :=
  execute (with_audit (λ l, l ++ [mkCredentialEvent (next_audit_id l) at_ installationID actorUserID
                                    eventType success source detail])).

Definition LogCredentialEvent (u : option userService) (actorUserID : Z) (eventType : string)
    (success : bool) (source detail : string) : M unit :=
  match u with
  | None => mret tt
  | Some u' =>
     if unavailable u || bool_decide (eventType = "") then mret tt
     else
       now <- time_Now;;
       _ <- appendEvent now (InstallationID (svc_initializationState u')) actorUserID
              eventType success source detail;;
       mret tt
  end.
End Audit.

(** [ORDER BY id DESC]. *)
Definition newestFirst (a b : CredentialEventDBModel) : Prop := ce_ID b ≤ ce_ID a.

#[export] Instance newestFirst_dec : RelDecision newestFirst.
Proof. intros a b. unfold newestFirst. apply _. Defined.

Definition ListCredentialEvents (u : option userService) (actorUserID limit : Z)
    : M (list CredentialEventDBModel) :=
  if unavailable u then mret []
  else
    let limit := if (limit <=? 0) || (credentialEventCap <? limit) then credentialEventCap else limit in
    found <- query (λ db, Ok (take (Z.to_nat limit) (merge_sort newestFirst
               (filter (λ e, (actorUserID <=? 0) || (ce_ActorUserID e =? actorUserID) = true)
                  (o_credential_events db)))));;
    match found with
    | Err _ => mret []
    | Ok events => mret events
    end.

(** ** Pruning *)

Section Prune.
(** How SQLite orders denylist rows of equal expiry. *)
Context (tie : RevokedAccessTokenDBModel → RevokedAccessTokenDBModel → bool).

(** [ORDER BY issued_at DESC, id DESC]: [a] comes before [b]. *)
Definition sessionBefore (a b : RefreshSessionDBModel) : bool :=
  (rs_IssuedAt b <? rs_IssuedAt a) ||
  ((rs_IssuedAt a =? rs_IssuedAt b) && String.ltb (rs_ID b) (rs_ID a)).

(** [ORDER BY expires_at DESC]. *)
Definition revokedBefore (a b : RevokedAccessTokenDBModel) : bool :=
  (ra_ExpiresAt b <? ra_ExpiresAt a) || ((ra_ExpiresAt a =? ra_ExpiresAt b) && tie a b).

(** [DELETE ... WHERE id NOT IN (SELECT id ... WHERE same user ORDER BY ...
    LIMIT cap)]: the rows that at least [cap] rows of the same user precede. *)
Definition capRows {V : Type} (owner : V → Z) (before : V → V → bool) (cap : Z)
    (m : gmap string V) : gmap string V :=
  delete_where (λ v, cap <=? count_where (λ v', (owner v' =? owner v) && before v' v) m) m.

Definition PruneAuthState (u : option userService) (now : Z) : M unit :=
  if unavailable u then mret tt
  else
    _ <- execute (with_revoked (delete_where (λ r, ra_ExpiresAt r <? now)));;
    _ <- execute (with_sessions (delete_where (λ s, rs_ExpiresAt s <? now)));;
    _ <- execute (with_attempts (delete_where (λ a,
           (la_WindowStartedAt a <? now - loginAttemptRetention) &&
           match la_LockedUntil a with None => true | Some until => until <? now end)));;
    _ <- execute (with_audit (filter (λ e, now - credentialEventRetention ≤ ce_OccurredAt e)));;
    _ <- execute (with_sessions (capRows rs_UserID sessionBefore refreshSessionCap));;
    _ <- execute (with_revoked (capRows ra_UserID revokedBefore revokedAccessCap));;
    mret tt.
End Prune.

(** ** The store invariant *)

(** Primary keys and the digest index are respected, and sessions carry a digest
    and an identifier. *)
Record store_ok (db : Database) : Prop := {
  ok_keys : keys_agree db;
  ok_digests : digests_unique db;
  ok_sessions k s : o_refresh_sessions db !! k = Some s →
    rs_TokenSHA256 s ≠ "" ∧ rs_ID s ≠ "";
}.

Definition keeps (I : Database → Prop) (db db' : Database) : Prop := I db → I db'.

#[export] Instance keeps_preorder I : PreOrder (keeps I).
Proof. split; [by intros ? ?|]. intros x y z Hxy Hyz Hx. by apply Hyz, Hxy. Qed.

(** The other requests keep the invariant as well, and leave files alone. *)
Definition others_keep (I : Database → Prop) : Rely := mkRely (keeps I) eq (λ fs, eq_refl).

#[export] Instance keeps_guarantee I : Guarantee (others_keep I) (keeps I).
Proof. split; [apply _|done]. Qed.

(** Rewriting sessions in place keeps the invariant when identity is kept. *)
Definition same_session (f : RefreshSessionDBModel → RefreshSessionDBModel) : Prop :=
  ∀ s, rs_ID (f s) = rs_ID s ∧ rs_UserID (f s) = rs_UserID s ∧ rs_TokenSHA256 (f s) = rs_TokenSHA256 s.

Lemma consumed_same now r : same_session (consumed now r).
Proof. by intros s. Qed.
Lemma revoked_same now r : same_session (revoked now r).
Proof. by intros s. Qed.

Lemma store_ok_update p f db :
  same_session f → store_ok db → store_ok (with_sessions (update_where p f) db).
Proof.
  intros Hf [[Hu Hs Ha Hr] Hd Hv].
  assert (∀ k s, o_refresh_sessions (with_sessions (update_where p f) db) !! k = Some s →
    ∃ s0, o_refresh_sessions db !! k = Some s0 ∧ rs_ID s = rs_ID s0 ∧ rs_UserID s = rs_UserID s0 ∧
          rs_TokenSHA256 s = rs_TokenSHA256 s0) as Hback.
  { intros k s. simpl. rewrite lookup_update_where. intros (s0 & -> & E)%fmap_Some.
    exists s0. destruct (p s0); subst; destruct (Hf s0) as (? & ? & ?); auto. }
  split.
  - split; try done. intros k s (s0 & H0 & -> & _)%Hback. by apply Hs.
  - intros k1 k2 s1 s2 (t1 & H1 & _ & _ & E1)%Hback (t2 & H2 & _ & _ & E2)%Hback E.
    rewrite E1, E2 in E. by eapply Hd.
  - intros k s (s0 & H0 & -> & _ & ->)%Hback. by eapply Hv.
Qed.

Lemma store_ok_insert s db :
  o_refresh_sessions db !! rs_ID s = None →
  (∀ k s', o_refresh_sessions db !! k = Some s' → rs_TokenSHA256 s' ≠ rs_TokenSHA256 s) →
  rs_TokenSHA256 s ≠ "" → rs_ID s ≠ "" →
  store_ok db → store_ok (with_sessions <[rs_ID s := s]> db).
Proof.
  intros Hnew Hdig H2 H3 [[Hu Hs Ha Hr] Hd Hv]. split.
  - split; try done. intros k s0. simpl. rewrite lookup_insert_Some. intros [[<- <-]|[_ H0]]; [done|by apply Hs].
  - intros k1 k2 s1 s2. simpl. rewrite !lookup_insert_Some.
    intros [[<- <-]|[_ E1]] [[<- <-]|[_ E2]] E; [done| | |by eapply Hd].
    + by destruct (Hdig _ _ E2).
    + by destruct (Hdig _ _ E1).
  - intros k s0. simpl. rewrite lookup_insert_Some. intros [[_ <-]|[_ H0]]; [done|by eapply Hv].
Qed.

Lemma store_ok_delete p db : store_ok db → store_ok (with_sessions (delete_where p) db).
Proof.
  intros [[Hu Hs Ha Hr] Hd Hv]. split.
  - split; try done. intros k s [H _]%lookup_delete_where. by apply Hs.
  - intros k1 k2 s1 s2 [H1 _]%lookup_delete_where [H2 _]%lookup_delete_where. by eapply Hd.
  - intros k s [H _]%lookup_delete_where. by eapply Hv.
Qed.

(** Statements on the other tables. *)
Lemma store_ok_bump p now db : store_ok db → store_ok (with_users (update_where p (bumped now)) db).
Proof.
  intros [[Hu Hs Ha Hr] Hd Hv]. split; try done. split; try done.
  intros k u. simpl. rewrite lookup_update_where. intros (u0 & H0 & ->)%fmap_Some.
  destruct (p u0); by apply Hu in H0.
Qed.

Lemma store_ok_audit f db : store_ok db → store_ok (with_audit f db).
Proof. intros [[] ? ?]. split; [by split|done|done]. Qed.

Lemma store_ok_attempts f db :
  (∀ k a, f (o_login_attempts db) !! k = Some a → la_Key a = k) →
  store_ok db → store_ok (with_attempts f db).
Proof. intros Hf [[] ? ?]. split; [by split|done|done]. Qed.

Lemma store_ok_revoked f db :
  (∀ k r, f (o_revoked_access_tokens db) !! k = Some r → ra_JTI r = k) →
  store_ok db → store_ok (with_revoked f db).
Proof. intros Hf [[] ? ?]. split; [by split|done|done]. Qed.

Lemma store_ok_attempts_delete p db : store_ok db → store_ok (with_attempts (delete_where p) db).
Proof.
  intros H. apply store_ok_attempts; [|done]. intros k a [Ha _]%lookup_delete_where.
  by apply (attempts_keyed db (ok_keys _ H)).
Qed.

Lemma store_ok_revoked_delete p db : store_ok db → store_ok (with_revoked (delete_where p) db).
Proof.
  intros H. apply store_ok_revoked; [|done]. intros k a [Ha _]%lookup_delete_where.
  by apply (revoked_keyed db (ok_keys _ H)).
Qed.

Lemma store_ok_attempts_insert a db : store_ok db → store_ok (with_attempts <[la_Key a := a]> db).
Proof.
  intros H. apply store_ok_attempts; [|done]. intros k a'. rewrite lookup_insert_Some.
  intros [[<- <-]|[_ Ha]]; [done|]. by apply (attempts_keyed db (ok_keys _ H)).
Qed.

#[export] Hint Resolve store_ok_update store_ok_delete store_ok_bump store_ok_audit consumed_same
  revoked_same store_ok_attempts_delete store_ok_revoked_delete store_ok_attempts_insert : store_ok.
#[export] Hint Unfold keeps : store_ok.

(** Every operation of the component, as a value. *)
Inductive Call :=
| CallCreate (userID : Z) (tokenSHA256 : string) (issuedAt expiresAt : Z) (sessionID : string)
| CallRotate (presentedSHA256 replacementID replacementSHA256 : string) (issuedAt expiresAt now : Z)
| CallRevoke (sessionID reason : string)
| CallRevokeUser (userID : Z) (sessionID reason : string)
| CallRevokeAll (userID : Z) (reason : string)
| CallLogout (userID : Z) (sessionID : string) (accessExpires : Z)
| CallLogoutAll (userID : Z)
| CallBump (userID : Z)
| CallRevokeAccess (tokenID : string) (userID expiresAt : Z)
| CallFailure (key : string) (now : Z)
| CallSuccess (key : string)
| CallLog (actorUserID : Z) (eventType : string) (success : bool) (source detail : string)
| CallPrune (now : Z).

Section Calls.
Context (next_audit_id : list CredentialEventDBModel → Z)
        (tie : RevokedAccessTokenDBModel → RevokedAccessTokenDBModel → bool)
        (u : option userService).

Definition perform (c : Call) : M unit :=
  match c with
  | CallCreate a b c d e => _ <- CreateRefreshSession u a b c d e;; mret tt
  | CallRotate a b c d e f => _ <- RotateRefreshSession u a b c d e f;; mret tt
  | CallRevoke a b => _ <- RevokeRefreshSession u a b;; mret tt
  | CallRevokeUser a b c => _ <- RevokeUserRefreshSession u a b c;; mret tt
  | CallRevokeAll a b => _ <- RevokeAllUserSessions u a b;; mret tt
  | CallLogout a b c => _ <- LogoutSession u a b c;; mret tt
  | CallLogoutAll a => _ <- LogoutAllSessions u a;; mret tt
  | CallBump a => _ <- BumpTokenVersion u a;; mret tt
  | CallRevokeAccess a b c => _ <- RevokeAccessToken u a b c;; mret tt
  | CallFailure a b => _ <- RecordLoginFailure u a b;; mret tt
  | CallSuccess a => RecordLoginSuccess u a
  | CallLog a b c d e => LogCredentialEvent next_audit_id u a b c d e
  | CallPrune a => PruneAuthState tie u a
  end.

Fixpoint performAll (cs : list Call) : M unit :=
  match cs with
  | [] => mret tt
  | c :: cs' => _ <- perform c;; performAll cs'
  end.
End Calls.

Section Invariant.
Context (next_audit_id : list CredentialEventDBModel → Z)
        (tie : RevokedAccessTokenDBModel → RevokedAccessTokenDBModel → bool)
        (u : option userService).

Abbreviation R := (others_keep store_ok).
Abbreviation G := (keeps store_ok).

Lemma insertSession_ok s :
  rs_TokenSHA256 s ≠ "" → rs_ID s ≠ "" → within R G (insertSession s).
Proof.
  intros H1 H2. unfold insertSession. within_solve. intros db Hdb.
  destruct (_ || _) eqn:E; simpl; [done|]. bool_split. apply store_ok_insert; try done.
  - by apply eq_None_not_Some.
  - intros k s' Hk E. apply Z.eqb_eq in H0. apply (proj1 (count_where_0 _ _) H0) in Hk.
    by apply bool_decide_eq_false in Hk.
Qed.

Lemma revokeUserSessions_ok userID now reason : within R G (revokeUserSessions userID now reason).
Proof. unfold revokeUserSessions. within_solve. auto with store_ok. Qed.

Lemma BumpTokenVersion_ok userID : within R G (BumpTokenVersion u userID).
Proof. unfold BumpTokenVersion, findUser. within_solve. auto with store_ok. Qed.

Lemma rotateBody_ok p rid rsha i e now :
  rid ≠ "" → rsha ≠ "" → within R G (rotateBody p rid rsha i e now).
Proof.
  intros H1 H2. unfold rotateBody, findSession, consumeSession. within_solve.
  all: try (intros db Hdb; simpl; by auto with store_ok).
  by apply insertSession_ok.
Qed.

Hint Resolve insertSession_ok revokeUserSessions_ok BumpTokenVersion_ok rotateBody_ok : within.

Lemma RotateRefreshSession_ok a b c d e f : within R G (RotateRefreshSession u a b c d e f).
Proof. unfold RotateRefreshSession. within_solve. bool_split. by apply rotateBody_ok. Qed.

Lemma RevokeUserRefreshSession_ok a b c : within R G (RevokeUserRefreshSession u a b c).
Proof. unfold RevokeUserRefreshSession. within_solve. auto with store_ok. Qed.

Lemma RevokeAllUserSessions_ok a b : within R G (RevokeAllUserSessions u a b).
Proof. unfold RevokeAllUserSessions. within_solve. Qed.

Lemma RevokeAccessToken_ok a b c : within R G (RevokeAccessToken u a b c).
Proof.
  unfold RevokeAccessToken. within_solve. intros db Hdb. apply store_ok_revoked; [|done].
  pose proof (revoked_keyed db (ok_keys _ Hdb)) as Hk. intros k r.
  destruct (_ !! a); [apply Hk|]. rewrite lookup_insert_Some. intros [[<- <-]|[_ ?]]; auto.
Qed.

Lemma countAttempt_ok a now : within R G (countAttempt a now).
Proof. unfold countAttempt, saveAttempt. within_solve. auto with store_ok. Qed.

Hint Resolve RotateRefreshSession_ok RevokeUserRefreshSession_ok RevokeAllUserSessions_ok
  RevokeAccessToken_ok countAttempt_ok : within.

Lemma RecordLoginFailure_ok key now : within R G (RecordLoginFailure u key now).
Proof.
  unfold RecordLoginFailure, findAttempt, insertAttempt. within_solve.
  intros db Hdb. destruct (bool_decide (is_Some _)); [exact Hdb|]. by apply (store_ok_attempts_insert (mkAttempt key 0 now None)).
Qed.

Lemma store_ok_cap_sessions cap db :
  store_ok db → store_ok (with_sessions (capRows rs_UserID sessionBefore cap) db).
Proof.
  exact (store_ok_delete (λ v, cap <=? count_where (λ v', (rs_UserID v' =? rs_UserID v) &&
    sessionBefore v' v) (o_refresh_sessions db)) db).
Qed.

Lemma store_ok_cap_revoked cap db :
  store_ok db → store_ok (with_revoked (capRows ra_UserID (revokedBefore tie) cap) db).
Proof.
  exact (store_ok_revoked_delete (λ v, cap <=? count_where (λ v', (ra_UserID v' =? ra_UserID v) &&
    revokedBefore tie v' v) (o_revoked_access_tokens db)) db).
Qed.

Hint Resolve store_ok_cap_sessions store_ok_cap_revoked : store_ok.

Lemma perform_ok c : within R G (perform next_audit_id tie u c).
Proof.
  destruct c; simpl; repeat (within_step; try exact _).
  all: unfold CreateRefreshSession, RevokeRefreshSession, LogoutSession, LogoutAllSessions,
    RecordLoginSuccess, LogCredentialEvent, appendEvent, PruneAuthState.
  all: within_solve; auto using RecordLoginFailure_ok with store_ok.
  all: try (by bool_split; apply insertSession_ok).
Qed.
End Invariant.

Lemma performAll_within R G `{!Guarantee R G} next_audit_id tie u cs :
  Forall (λ c, within R G (perform next_audit_id tie u c)) cs →
  within R G (performAll next_audit_id tie u cs).
Proof. induction 1; simpl; [apply within_ret; exact _|]. apply (within_bind R G); auto. Qed.

(** C10. The store invariant under interference: whatever sequence of session
    operations a request performs, whichever of their statements fail, and however
    other requests that keep the invariant run between them, primary keys and the
    digest index stay consistent and every session has an identifier and a
    digest. *)
Theorem session_store_invariant (next_audit_id : list CredentialEventDBModel → Z)
    (tie : RevokedAccessTokenDBModel → RevokedAccessTokenDBModel → bool)
    (u : option userService) (cs : list Call) (w : World) :
  rely (others_keep store_ok) w →
  store_ok (w_db w) →
  store_ok (w_db (snd (performAll next_audit_id tie u cs w))).
Proof.
  intros Hw Hok.
  assert (within (others_keep store_ok) (keeps store_ok) (performAll next_audit_id tie u cs)) as H.
  { apply performAll_within; [exact _|]. apply Forall_forall. intros c _. apply perform_ok. }
  by apply (moved_db _ _ _ _ (H w Hw)).
Qed.

Lemma store_ok_empty : store_ok emptyDatabase.
Proof.
  split.
  - split; intros k x H; discriminate H.
  - intros k1 k2 s1 s2 H. discriminate H.
  - intros k s H. discriminate H.
Qed.

Definition liveService : userService :=
  mkService (Some toyPrivate) (Some toyKey) true (mkState "30313233-3435-4637-b839-616263646566" StatusInitialized).

Definition countIDs (l : list CredentialEventDBModel) : Z := Z.of_nat (length l) + 1.
Definition byJTI (a b : RevokedAccessTokenDBModel) : bool := String.ltb (ra_JTI a) (ra_JTI b).

(** Other requests that log out everybody between any two statements. *)
Definition busyWorld (db : Database) : World :=
  mkWorld db emptyFS (2000 * hour)
    (λ _, mkSched (with_sessions (update_where (λ _, true) (revoked 1 "elsewhere"))) id None 5) false "" [].

Lemma busyWorld_keeps db : rely (others_keep store_ok) (busyWorld db).
Proof.
  intros n. split; [|done]. intros db' H. apply store_ok_update; [apply revoked_same|done].
Qed.

Lemma session_store_invariant_witness :
  store_ok (w_db (snd (performAll countIDs byJTI (Some liveService)
    [CallCreate 7 "d1" 5 (9000 * hour) "s1"; CallRotate "d1" "s2" "d2" 6 (9000 * hour) 7; CallPrune 8]
    (busyWorld emptyDatabase)))).
Proof.
  apply (session_store_invariant countIDs byJTI (Some liveService)
    [CallCreate 7 "d1" 5 (9000 * hour) "s1"; CallRotate "d1" "s2" "d2" 6 (9000 * hour) 7; CallPrune 8]
    (busyWorld emptyDatabase)).
  - apply busyWorld_keeps.
  - apply store_ok_empty.
Defined.
