(* ===== verification/Rotation.v ===== *)
(** * Rotation of refresh sessions

    What [RotateRefreshSession] of src/service/session.go guarantees: rotation
    consumes one live session and creates its replacement or changes nothing, a
    consumed session never rotates again, and a replay is contained. *)

From stdpp Require Import prelude strings gmap.
From Stdlib Require Import ZArith Lia Ascii.
From S2P Require Import Prelude GoStrings Password FileSystem Tables Store Guarantee AuthSecurity Bootstrap Sessions.

Local Open Scope Z_scope.
Local Open Scope m_scope.

(** A session that can still be rotated at time [now]. *)
Definition live (s : RefreshSessionDBModel) (now : Z) : Prop :=
  rs_RevokedAt s = None ∧ rs_UsedAt s = None ∧ now < rs_ExpiresAt s.

(** A consumed session whose token is presented again. *)
Definition replayed (s : RefreshSessionDBModel) (now : Z) : Prop :=
  rs_RevokedAt s = None ∧ rs_UsedAt s ≠ None ∧ now < rs_ExpiresAt s.

(** The row the digest selects. *)
Definition presents (db : Database) (digest : string) (s : RefreshSessionDBModel) : Prop :=
  o_refresh_sessions db !! rs_ID s = Some s ∧ rs_TokenSHA256 s = digest.

Definition replacement (old : RefreshSessionDBModel) (id digest : string) (issuedAt expiresAt : Z)
    : RefreshSessionDBModel :=
  mkSession id (rs_UserID old) digest issuedAt expiresAt None "" None "".

(** The effect of a successful rotation on the table. *)
Definition rotated (old : RefreshSessionDBModel) (new : RefreshSessionDBModel) (now : Z)
    (m : gmap string RefreshSessionDBModel) : gmap string RefreshSessionDBModel :=
  <[rs_ID new := new]> (<[rs_ID old := consumed now (rs_ID new) old]> m).

(** No other row has this identifier or this digest. *)
Definition fresh (db : Database) (id digest : string) : Prop :=
  o_refresh_sessions db !! id = None ∧
  ∀ k s, o_refresh_sessions db !! k = Some s → rs_TokenSHA256 s ≠ digest.

Lemma presents_unique db d s1 s2 : store_ok db → presents db d s1 → presents db d s2 → s1 = s2.
Proof.
  intros Hok [H1 E1] [H2 E2]. assert (rs_ID s1 = rs_ID s2) as E.
  { eapply (ok_digests _ Hok); [exact H1|exact H2|congruence]. }
  rewrite E in H1. congruence.
Qed.

Lemma findSession_row db d :
  store_ok db →
  match first_where String.leb (λ s, bool_decide (rs_TokenSHA256 s = d)) (o_refresh_sessions db) with
  | Some s => presents db d s
  | None => ∀ s, ¬ presents db d s
  end.
Proof.
  intros Hok. destruct (first_where _ _ _) as [s|] eqn:E.
  - apply first_where_Some in E as (k & Hk & Hd). apply bool_decide_eq_true in Hd.
    split; [|done]. by rewrite (sessions_keyed _ (ok_keys _ Hok) _ _ Hk).
  - intros s [Hs Hd]. eapply (proj1 (first_where_None _ _ _) E) in Hs.
    by apply bool_decide_eq_false in Hs.
Qed.

Lemma consume_row db s now rid :
  store_ok db → o_refresh_sessions db !! rs_ID s = Some s → rs_UsedAt s = None →
  let p := λ s', bool_decide (rs_ID s' = rs_ID s) && isNil (rs_UsedAt s') in
  count_where p (o_refresh_sessions db) = 1 ∧
  update_where p (consumed now rid) (o_refresh_sessions db)
  = <[rs_ID s := consumed now rid s]> (o_refresh_sessions db).
Proof.
  intros Hok Hs Hu p.
  assert (∀ k' v', o_refresh_sessions db !! k' = Some v' → p v' = true → k' = rs_ID s) as Hkey.
  { intros k' v' Hk' [Hid%bool_decide_eq_true _]%andb_prop.
    by rewrite <- (sessions_keyed _ (ok_keys _ Hok) _ _ Hk'). }
  assert (p s = true) as Hp by (unfold p; by rewrite bool_decide_eq_true_2, Hu).
  split.
  - rewrite (count_where_key _ _ (rs_ID s)) by done. by rewrite Hs, Hp.
  - by apply update_where_key.
Qed.

Lemma insertSession_spec s w : alone w →
  post (insertSession s) w (λ r w', calm w w' ∧
    match r with
    | Ok _ => fresh (w_db w) (rs_ID s) (rs_TokenSHA256 s) ∧
              w_db w' = with_sessions <[rs_ID s := s]> (w_db w)
    | Err e => w_db w' = w_db w ∧ (∃ d, e = StoreError d) ∧ (faultless w → ¬ fresh (w_db w) (rs_ID s) (rs_TokenSHA256 s))
    end).
Proof.
  intros Hw. unfold insertSession. m_step; [split_and!; eauto with store; done|].
  split; [done|]. destruct (bool_decide _ || _) eqn:E; simpl in *.
  - split_and!; [done|eauto|]. intros _ [H1 H2]. apply orb_true_iff in E as [E|E]; bool_split.
    + rewrite H1 in E. by destruct E.
    + apply Z.eqb_neq in E. apply E, count_where_0. intros k s' Hk.
      apply bool_decide_eq_false. by eapply H2.
  - bool_split. split; [|done]. split; [by apply eq_None_not_Some|].
    intros k s' Hk Hd. apply Z.eqb_eq in H2.
    apply (proj1 (count_where_0 _ _) H2), bool_decide_eq_false in Hk. done.
Qed.

(** Consuming a row neither frees nor takes identifiers and digests. *)
Lemma fresh_consumed db old now by_ rid rsha :
  o_refresh_sessions db !! rs_ID old = Some old →
  fresh (with_sessions <[rs_ID old := consumed now by_ old]> db) rid rsha ↔ fresh db rid rsha.
Proof.
  intros Hat. unfold fresh. simpl. rewrite lookup_insert_None. split.
  - intros [[H4 H5] H6]. split; [done|]. intros k s Hk. destruct (decide (k = rs_ID old)) as [->|Hne].
    + rewrite Hat in Hk. injection Hk as <-.
      apply (H6 (rs_ID old) (consumed now by_ old)). by rewrite lookup_insert_eq.
    + apply (H6 k). by rewrite lookup_insert_ne.
  - intros [H4 H6]. split; [split; [done|intros E; congruence]|].
    intros k s. rewrite lookup_insert_Some. intros [[<- <-]|[_ Hk]]; [by apply (H6 _ _ Hat)|by eapply H6].
Qed.

(** What the closure of the rotation did. *)
Definition rotate_outcome (db : Database) (presented rid rsha : string) (i e now : Z)
    (no_fault : Prop) (out : option Z * res RefreshSessionDBModel) (db' : Database) : Prop :=
  match out with
  | (Some userID, r) => r = Err ErrRefreshSessionReused ∧
      ∃ old, presents db presented old ∧ replayed old now ∧ userID = rs_UserID old
  | (None, Ok s) => ∃ old, presents db presented old ∧ live old now ∧ fresh db rid rsha ∧
      s = consumed now rid old ∧
      db' = with_sessions (rotated old (replacement old rid rsha i e) now) db
  | (None, Err err) => errors_Is err ErrRefreshSessionReused = false ∧
      (no_fault → ∀ old, presents db presented old →
         ¬ replayed old now ∧ (live old now → ¬ fresh db rid rsha))
  end.

Lemma rotateBody_spec presented rid rsha i e now w :
  alone w → store_ok (w_db w) →
  post (rotateBody presented rid rsha i e now) w (λ out w', calm w w' ∧
    rotate_outcome (w_db w) presented rid rsha i e now (faultless w) out (w_db w')).
Proof.
  intros Hw Hok. unfold rotateBody, findSession. m_step. m_step.
  { simpl. m_step. split; [done|]. by split. }
  pose proof (findSession_row (w_db w) presented Hok) as Hrow.
  destruct (first_where _ _ _) as [old|].
  2:{ simpl. m_step. split; [done|]. split; [done|]. intros _ old Hp. by destruct (Hrow old). }
  assert (∀ P : RefreshSessionDBModel → Prop, P old → ∀ old', presents (w_db w) presented old' → P old') as Huniq.
  { intros P HP old' Hp. by rewrite (presents_unique _ _ _ _ Hok Hp Hrow). }
  assert (w_db w1 = w_db w) as Hd by done.
  destruct (rs_RevokedAt old) as [t|] eqn:Hr.
  { simpl. m_step. split; [done|]. split; [done|]. intros _. apply Huniq.
    unfold replayed, live. rewrite Hr. by split; intros (? & _). }
  destruct (Z.ltb_spec now (rs_ExpiresAt old)) as [He|He].
  2:{ simpl. m_step. split; [done|]. split; [done|]. intros _. apply Huniq.
      split; intros (_ & _ & ?); lia. }
  destruct (rs_UsedAt old) as [t|] eqn:Hu; simpl.
  { m_step. split; [done|]. split; [done|]. exists old. unfold replayed. by rewrite Hu. }
  destruct Hrow as [Hat Hdig].
  destruct (consume_row (w_db w) old now rid Hok Hat Hu) as [Hone Hupd].
  unfold consumeSession. m_step. m_step.
  { simpl. m_step. split; [eauto with store|]. split; [done|].
    intros Hf. by destruct H3; apply (calm_faultless _ _ H). }
  cbn [fst snd] in *. rewrite Hd, Hone. simpl. rewrite Hd in H2.
  assert (w_db w0 = with_sessions <[rs_ID old := consumed now rid old]> (w_db w)) as Hd0.
  { rewrite H2. unfold with_sessions. by rewrite Hupd. }
  assert (calm w w0) as Hc0 by eauto with store.
  m_step. m_use insertSession_spec as r w2 (Hc2 & Hr2). cbn [rs_ID rs_TokenSHA256] in Hr2.
  assert (calm w w2) as Hc by eauto with store.
  pose proof (fresh_consumed (w_db w) old now rid rid rsha Hat) as Hfresh. rewrite <- Hd0 in Hfresh.
  destruct r as [[]|err]; m_step; (split; [done|]).
  - destruct Hr2 as [Hf%Hfresh Hd2]. exists old. split_and!; try done. by rewrite Hd2, Hd0.
  - destruct Hr2 as (_ & [d ->] & Hnf). split; [done|]. intros Hf. apply Huniq. unfold replayed, live.
    rewrite Hu. split; [by intros (_ & ? & _)|]. intros _. rewrite <- Hfresh. by apply Hnf, (calm_faultless _ _ Hc0).
Qed.

Lemma revokeUserSessions_spec userID now reason w : alone w →
  post (revokeUserSessions userID now reason) w (λ r w', calm w w' ∧
    match r with
    | Ok _ => w_db w' = with_sessions (update_where
        (λ s, (rs_UserID s =? userID) && isNil (rs_RevokedAt s)) (revoked now reason)) (w_db w)
    | Err e => w_db w' = w_db w ∧ ¬ faultless w ∧ errors_Is e ErrRefreshSessionReused = false
    end).
Proof. intros Hw. unfold revokeUserSessions. repeat m_step; split_and!; eauto with store. Qed.

(** What advancing the generation of [userID] does to the users. *)
Definition bump_users (userID now : Z) : gmap Z UserDBModel → gmap Z UserDBModel :=
  update_where (λ u, u_Id u =? userID) (bumped now).

Lemma findUser_row db userID :
  keys_agree db →
  first_where Z.leb (λ u, u_Id u =? userID) (o_users db) = o_users db !! userID.
Proof.
  intros Hk. assert (∀ k u, o_users db !! k = Some u → (u_Id u =? userID) = true → k = userID) as Hkey.
  { intros k u Hu E%Z.eqb_eq. by rewrite <- (users_keyed _ Hk _ _ Hu). }
  destruct (o_users db !! userID) as [u|] eqn:E.
  - apply (first_where_unique _ _ _ userID); [done| |done].
    apply Z.eqb_eq. by apply (users_keyed _ Hk).
  - apply first_where_None. intros k u Hu. destruct (u_Id u =? userID) eqn:Ei; [|done].
    pose proof (Hkey _ _ Hu Ei). congruence.
Qed.

Lemma findUser_spec userID w : alone w → keys_agree (w_db w) →
  post (findUser userID) w (λ r w', calm w w' ∧ w_db w' = w_db w ∧
    match r with
    | Ok u => o_users (w_db w) !! userID = Some u
    | Err e => (faultless w → o_users (w_db w) !! userID = None) ∧
               errors_Is e ErrRefreshSessionReused = false
    end).
Proof.
  intros Hw Hk. unfold findUser. m_step; [split_and!; eauto with store; done|].
  split_and!; [done..|]. rewrite findUser_row by done.
  by destruct (o_users (w_db w) !! userID).
Qed.

Lemma keys_agree_bump userID now db :
  keys_agree db → keys_agree (with_users (bump_users userID now) db).
Proof.
  intros [Hu ? ? ?]. split; try done. intros k u. simpl. unfold bump_users. rewrite lookup_update_where.
  intros (u0 & H0 & ->)%fmap_Some. destruct (_ =? _); by apply Hu in H0.
Qed.

Lemma bump_users_at userID now m u :
  m !! userID = Some u → u_Id u = userID → bump_users userID now m !! userID = Some (bumped now u).
Proof.
  intros Hm Hid. unfold bump_users. rewrite lookup_update_where, Hm. simpl.
  by rewrite Hid, Z.eqb_refl.
Qed.

Lemma BumpTokenVersion_spec u userID w : alone w → keys_agree (w_db w) →
  post (BumpTokenVersion u userID) w (λ r w', calm w w' ∧
    match r with
    | Ok v => ∃ now user, w_db w' = with_users (bump_users userID now) (w_db w) ∧
        o_users (w_db w) !! userID = Some user ∧ v = u_TokenVersion user + 1
    | Err e => w_db w' = w_db w ∧ errors_Is e ErrRefreshSessionReused = false ∧
        (faultless w → unavailable u = false → 1 ≤ userID → o_users (w_db w) !! userID = None)
    end).
Proof.
  intros Hw Hk. unfold BumpTokenVersion. m_step.
  { m_step. split_and!; eauto with store. intros _ Hu Hid. rewrite Hu in Heqb. simpl in Heqb.
    bool_split. lia. }
  apply transaction_solo; [done| |].
  - intros w0 H0 _ Hd0 _ Hf0 _ _ _. m_step. m_step. m_step. m_step.
    { split; [done|]. intros w3 Hc3 Hd3. split_and!; try done. by intros Hf%Hf0. }
    m_step. m_use findUser_spec as r w2 (Hc2 & Hd2 & Hr2).
    { rewrite H1, Hd0. by apply keys_agree_bump. }
    assert (calm w0 w2) as Hc by eauto with store. destruct r as [user|e].
    + m_step. split; [done|]. intros w3 Hc3 Hd3. split; [done|].
      rewrite Hd3, Hd2, H1, Hd0 in *. simpl in Hr2. unfold bump_users in *.
      rewrite lookup_update_where in Hr2. apply fmap_Some in Hr2 as (u0 & Hu0 & ->).
      exists (w_clock w0), u0. split_and!; try done.
      rewrite (users_keyed _ Hk _ _ Hu0), Z.eqb_refl. done.
    + split; [done|]. intros w3 Hc3 Hd3. destruct Hr2 as [Hn He]. split_and!; try done.
      intros Hf _ _. rewrite H1, Hd0 in Hn. simpl in Hn.
      rewrite lookup_update_where in Hn. apply fmap_None in Hn; [done|].
      apply (calm_faultless _ _ H), Hf0, Hf.
  - intros e w1 Hp Hc Hd Hf. split_and!; try done.
Qed.

(** The containment of a replay: every session of the user that was not revoked
    is, and the user's credential generation advances. *)
Definition contained (userID now at_ : Z) (db : Database) : Database :=
  with_users (bump_users userID at_) (with_sessions (update_where
    (λ s, (rs_UserID s =? userID) && isNil (rs_RevokedAt s))
    (revoked now "refresh token reuse detected")) db).

(** The containment steps after a replay was detected. *)
Lemma contain_spec u userID now w : alone w → keys_agree (w_db w) →
  post (revokeErr <- revokeUserSessions userID now "refresh token reuse detected";;
        bumpErr <- BumpTokenVersion u userID;;
        match errors_Join (error_of revokeErr) (error_of bumpErr) with
        | Some e => mret (Err e)
        | None => mret (Err ErrRefreshSessionReused)
        end : M (res RefreshSessionDBModel)) w (λ r w', calm w w' ∧ ∃ e, r = Err e ∧
    (errors_Is e ErrRefreshSessionReused = true → ∃ at_, w_db w' = contained userID now at_ (w_db w)) ∧
    (faultless w → unavailable u = false → 1 ≤ userID → o_users (w_db w) !! userID ≠ None →
       e = ErrRefreshSessionReused)).
Proof.
  intros Hw Hk. m_step. m_use revokeUserSessions_spec as r1 w1 (Hc1 & Hr1). m_step.
  assert (keys_agree (w_db w1) ∧ o_users (w_db w1) = o_users (w_db w)) as [Hk1 Hu1].
  { destruct r1; [|by destruct Hr1 as [-> _]]. rewrite Hr1. split; [|done]. destruct Hk. split; try done.
    intros k s. simpl. rewrite lookup_update_where. intros (s0 & H0 & ->)%fmap_Some.
    apply sessions_keyed in H0. by destruct (_ && _). }
  m_use BumpTokenVersion_spec as r2 w2 (Hc2 & Hr2).
  assert (calm w w2) as Hc by eauto with store.
  destruct r1 as [[]|e1], r2 as [v|e2]; simpl; m_step; (split; [done|]); eexists; (split; [done|]).
  - split; [|done]. intros _. destruct Hr2 as (at_ & user & -> & _). exists at_. by rewrite Hr1.
  - destruct Hr2 as (_ & He & Hn). rewrite He. split; [done|].
    intros Hf Hu Hid Hx. destruct Hx. rewrite <- Hu1. apply Hn; [by apply (calm_faultless _ _ Hc1)|done..].
  - destruct Hr1 as (_ & Hf & ->). split; [done|]. intros Hf'. by destruct Hf.
  - destruct Hr1 as (_ & Hf & He), Hr2 as (_ & He2 & _). simpl. rewrite He, He2.
    split; [done|]. intros Hf'. by destruct Hf.
Qed.

Definition usable (u : option userService) (args : list string) : Prop :=
  unavailable u = false ∧ Forall (λ s, s ≠ "") args.

Lemma RotateRefreshSession_spec u presented rid rsha i e now w :
  usable u [presented; rid; rsha] → alone w → store_ok (w_db w) →
  post (RotateRefreshSession u presented rid rsha i e now) w (λ r w', calm w w' ∧
    match r with
    | Ok s => ∃ old, presents (w_db w) presented old ∧ live old now ∧ fresh (w_db w) rid rsha ∧
        s = consumed now rid old ∧
        w_db w' = with_sessions (rotated old (replacement old rid rsha i e) now) (w_db w)
    | Err err =>
        (w_db w' = w_db w ∧ errors_Is err ErrRefreshSessionReused = false ∧
         (faultless w → ∀ old, presents (w_db w) presented old →
            ¬ replayed old now ∧ (live old now → ¬ fresh (w_db w) rid rsha))) ∨
        (∃ old, presents (w_db w) presented old ∧ replayed old now ∧
         (errors_Is err ErrRefreshSessionReused = true →
            ∃ at_, w_db w' = contained (rs_UserID old) now at_ (w_db w)) ∧
         (faultless w → 1 ≤ rs_UserID old → o_users (w_db w) !! rs_UserID old ≠ None →
            err = ErrRefreshSessionReused))
    end).
Proof.
  intros [Hu Hargs] Hw Hok. unfold RotateRefreshSession. rewrite Hu.
  rewrite !Forall_cons in Hargs. destruct Hargs as (H1 & H2 & H3 & _).
  rewrite !bool_decide_eq_false_2 by done. cbn [orb]. m_step.
  eapply (post_mono _ _ (λ out w', calm w w' ∧
    (w_db w' = w_db w ∨ ∃ s, out = (None, Ok s)) ∧
    rotate_outcome (w_db w) presented rid rsha i e now (faultless w) out (w_db w'))).
  - apply capturing_solo; [done| |].
    + intros w0 H0 Hd0 _ Hf0. rewrite <- Hd0 in Hok. m_use rotateBody_spec as out w2 (Hc2 & Ho).
      rewrite Hd0 in Ho. split; [done|]. destruct out as [x [s|err]].
      * split.
        -- intros err w3 Hp Hc3 Hd3 Hf. split_and!; [done|by left|]. destruct x; [by destruct Ho|].
           split; [apply Hp|]. intros Hf'. by destruct Hf.
        -- intros w3 Hc3 Hd3. destruct x; [by destruct Ho|]. split_and!; [done|by right; eauto|].
           by rewrite Hd3.
      * intros w3 Hc3 Hd3. split_and!; [done|by left|]. destruct x; simpl in *; [done|].
        destruct Ho as [He Hn]. split; [done|]. auto.
    + intros err w1 Hp Hc1 Hd1 Hf. split_and!; [done|by left|]. split; [apply Hp|].
      intros Hf'. by destruct Hf.
  - intros [[userID|] r] w1 (Hc1 & Hdb & Ho).
    + destruct Ho as [-> (old & Hp & Hr & ->)]. destruct Hdb as [Hd1|[? ?]]; [|done].
      eapply post_mono; [apply contain_spec; [eauto with store|rewrite Hd1; apply Hok]|].
      intros r w2 (Hc2 & err & -> & Hcont & Hlive). split; [eauto with store|]. right.
      rewrite Hd1 in *. exists old. split_and!; try done. intros Hf Hid Hown.
      apply Hlive; [by apply (calm_faultless _ _ Hc1)|done..].
    + m_step. split; [done|]. destruct r as [s|err]; [done|]. left. destruct Ho as [He Hn].
      split_and!; try done. by destruct Hdb as [|[? ?]].
Qed.

(** ** Properties *)

Definition rotateSession (id digest : string) (user : Z) (used : option Z) : RefreshSessionDBModel :=
  mkSession id user digest (1990 * hour) (2100 * hour) used "" None "".

(** Two users; one session of user 7 is live, one has been consumed. *)
Definition rotateDatabase : Database := mkDatabase
  {[7 := mkUser 7 "ann" "" "user" "" "" "" "" 2 1 1; 8 := mkUser 8 "bob" "" "user" "" "" "" "" 0 1 1]}
  (Some None)
  {["s1" := rotateSession "s1" "d1" 7 None; "s0" := rotateSession "s0" "d0" 7 (Some (1995 * hour));
    "t1" := rotateSession "t1" "e1" 8 None]} ∅ [] ∅ ∅.

Lemma rotateDatabase_ok : store_ok rotateDatabase.
Proof.
  split.
  - split; intros k x H; simpl in H; try discriminate H;
      repeat (apply lookup_insert_Some in H as [[<- <-]|[_ H]]; [reflexivity|]);
      apply lookup_singleton_Some in H as [<- <-]; reflexivity.
  - intros k1 k2 s1 s2 H1 H2. simpl in *.
    repeat (apply lookup_insert_Some in H1 as [[<- <-]|[_ H1]]); try apply lookup_singleton_Some in H1 as [<- <-];
    repeat (apply lookup_insert_Some in H2 as [[<- <-]|[_ H2]]); try apply lookup_singleton_Some in H2 as [<- <-];
    intros E; (reflexivity || discriminate E).
  - intros k s H. simpl in H.
    repeat (apply lookup_insert_Some in H as [[<- <-]|[_ H]]; [by split|]).
    apply lookup_singleton_Some in H as [<- <-]. by split.
Qed.

(** C11. Rotation is exact: when it succeeds the presented digest selected a live
    session, which is now consumed in favour of the new one, and nothing else
    changed; when it fails, on whatever fault schedule, either the session was a
    replay or the database is as it was; and without faults a live session with a
    fresh replacement always rotates. *)
Theorem rotate_exact (u : option userService) (presented rid rsha : string) (i e now : Z) (w : World) :
  usable u [presented; rid; rsha] → alone w → store_ok (w_db w) →
  let run := RotateRefreshSession u presented rid rsha i e now w in
  match fst run with
  | Ok s => ∃ old, presents (w_db w) presented old ∧ live old now ∧ s = consumed now rid old ∧
      w_db (snd run) = with_sessions (rotated old (replacement old rid rsha i e) now) (w_db w)
  | Err _ => w_db (snd run) = w_db w ∨ ∃ old, presents (w_db w) presented old ∧ replayed old now
  end ∧
  (faultless w → ∀ old, presents (w_db w) presented old → live old now → fresh (w_db w) rid rsha →
   is_Ok (fst run) = true).
Proof.
  intros Hu Hw Hok run.
  pose proof (RotateRefreshSession_spec u presented rid rsha i e now w Hu Hw Hok) as [_ Hspec].
  fold run in Hspec. destruct (fst run) as [s|err].
  - split; [|done]. destruct Hspec as (old & ? & ? & _ & ? & ?). eauto.
  - split.
    + destruct Hspec as [(? & _ & _)|(old & ? & ? & _)]; eauto.
    + intros Hf old Hp Hl Hfr. destruct Hspec as [(_ & _ & Hn)|(old' & Hp' & (_ & Hused & _) & _)].
      * by destruct (Hn Hf old Hp) as [_ []].
      * rewrite (presents_unique _ _ _ _ Hok Hp' Hp) in Hused. by destruct Hl as (_ & ? & _).
Qed.

Lemma rotate_exact_witness :
  is_Ok (fst (RotateRefreshSession (Some liveService) "d1" "s2" "d2" (2000 * hour) (2168 * hour)
    (2000 * hour) (quietWorld rotateDatabase ""))) = true.
Proof.
  eapply (rotate_exact (Some liveService) "d1" "s2" "d2" (2000 * hour) (2168 * hour) (2000 * hour)
    (quietWorld rotateDatabase "")).
  - split; [reflexivity|]. repeat constructor; discriminate.
  - apply quietWorld_alone.
  - apply rotateDatabase_ok.
  - intros n. reflexivity.
  - instantiate (1 := rotateSession "s1" "d1" 7 None). split; vm_compute; reflexivity.
  - split_and!; vm_compute; reflexivity.
  - split; [vm_compute; reflexivity|]. intros k s H. simpl in H.
    repeat (apply lookup_insert_Some in H as [[<- <-]|[_ H]]; [discriminate|]).
    apply lookup_singleton_Some in H as [<- <-]. discriminate.
Defined.

(** C12. A replayed refresh token is contained: presenting a consumed session
    reports the reuse, revokes every session of its owner that was still
    unrevoked, advances the owner's credential generation, and touches nothing
    else. *)
Theorem rotate_replay_contained (u : option userService) (presented rid rsha : string)
    (i e now : Z) (old : RefreshSessionDBModel) (owner : UserDBModel) (w : World) :
  usable u [presented; rid; rsha] → alone w → faultless w → store_ok (w_db w) →
  presents (w_db w) presented old → replayed old now →
  1 ≤ rs_UserID old → o_users (w_db w) !! rs_UserID old = Some owner →
  let run := RotateRefreshSession u presented rid rsha i e now w in
  fst run = Err ErrRefreshSessionReused ∧
  (∃ at_, w_db (snd run) = contained (rs_UserID old) now at_ (w_db w)) ∧
  (∀ k s, o_refresh_sessions (w_db (snd run)) !! k = Some s → rs_UserID s = rs_UserID old →
     rs_RevokedAt s ≠ None) ∧
  (∃ owner', o_users (w_db (snd run)) !! rs_UserID old = Some owner' ∧
     u_TokenVersion owner' = u_TokenVersion owner + 1).
Proof.
  intros Hu Hw Hf Hok Hp Hr Hid Hown run.
  pose proof (RotateRefreshSession_spec u presented rid rsha i e now w Hu Hw Hok) as [_ Hspec].
  fold run in Hspec. destruct (fst run) as [s|err].
  { destruct Hspec as (old' & Hp' & (_ & Hused & _) & _). rewrite (presents_unique _ _ _ _ Hok Hp' Hp) in Hused.
    by destruct Hr as (_ & [] & _). }
  destruct Hspec as [(_ & _ & Hn)|(old' & Hp' & _ & Hcont & Herr)].
  { by destruct (Hn Hf old Hp) as [[] _]. }
  rewrite (presents_unique _ _ _ _ Hok Hp' Hp) in *.
  rewrite (Herr Hf Hid ltac:(congruence)) in *. destruct (Hcont eq_refl) as [at_ Hdb].
  split_and!; [done|by exists at_| |].
  - rewrite Hdb. intros k s. simpl. rewrite lookup_update_where. intros (s0 & _ & ->)%fmap_Some.
    destruct (rs_UserID s0 =? rs_UserID old) eqn:E; simpl.
    + destruct (rs_RevokedAt s0) eqn:E0; simpl; [by rewrite E0|done].
    + intros E'. apply Z.eqb_neq in E. done.
  - rewrite Hdb. exists (bumped at_ owner). split; [|done]. simpl. apply bump_users_at; [done|].
    by apply (users_keyed _ (ok_keys _ Hok)).
Qed.

Lemma rotate_replay_contained_witness :
  fst (RotateRefreshSession (Some liveService) "d0" "s2" "d2" (2000 * hour) (2168 * hour)
    (2000 * hour) (quietWorld rotateDatabase "")) = Err ErrRefreshSessionReused.
Proof.
  eapply (rotate_replay_contained (Some liveService) "d0" "s2" "d2" (2000 * hour) (2168 * hour) (2000 * hour)
    (rotateSession "s0" "d0" 7 (Some (1995 * hour))) (mkUser 7 "ann" "" "user" "" "" "" "" 2 1 1)
    (quietWorld rotateDatabase "")).
  - split; [reflexivity|]. repeat constructor; discriminate.
  - apply quietWorld_alone.
  - intros n. reflexivity.
  - apply rotateDatabase_ok.
  - split; vm_compute; reflexivity.
  - split_and!; vm_compute; [reflexivity|discriminate|reflexivity].
  - vm_compute. discriminate.
  - vm_compute. reflexivity.
Defined.

(** ** A consumed session stays consumed *)

(** No session with digest [d] can be rotated. *)
Definition spent (d : string) (db : Database) : Prop :=
  ∀ k s, o_refresh_sessions db !! k = Some s → rs_TokenSHA256 s = d →
    rs_UsedAt s ≠ None ∨ rs_RevokedAt s ≠ None.

(** The digest a call gives to a new session. *)
Definition createdDigest (c : Call) : option string :=
  match c with
  | CallCreate _ d _ _ _ => Some d
  | CallRotate _ _ d _ _ _ => Some d
  | _ => None
  end.

Section Spent.
Context (next_audit_id : list CredentialEventDBModel → Z)
        (tie : RevokedAccessTokenDBModel → RevokedAccessTokenDBModel → bool)
        (u : option userService) (d : string).

Abbreviation R := (others_keep (spent d)).
Abbreviation G := (keeps (spent d)).

Lemma spent_same_sessions db db' :
  o_refresh_sessions db' = o_refresh_sessions db → G db db'.
Proof. intros E H k s. rewrite E. apply H. Qed.

Lemma spent_update p f db :
  (∀ s, rs_TokenSHA256 (f s) = rs_TokenSHA256 s ∧
        (rs_UsedAt (f s) ≠ None ∨ rs_RevokedAt (f s) ≠ None)) →
  G db (with_sessions (update_where p f) db).
Proof.
  intros Hf H k s. simpl. rewrite lookup_update_where. intros (s0 & H0 & ->)%fmap_Some.
  destruct (Hf s0) as [E ?]. destruct (p s0); [by rewrite E|by eapply H].
Qed.

Lemma spent_consumed p now r db : G db (with_sessions (update_where p (consumed now r)) db).
Proof. apply spent_update. intros s. split; [done|by left]. Qed.

Lemma spent_revoked p now r db : G db (with_sessions (update_where p (revoked now r)) db).
Proof. apply spent_update. intros s. split; [done|by right]. Qed.

Lemma spent_delete p db : G db (with_sessions (delete_where p) db).
Proof. intros H k s [H0 _]%lookup_delete_where. by eapply H. Qed.

Lemma spent_cap cap db : G db (with_sessions (capRows rs_UserID sessionBefore cap) db).
Proof.
  exact (spent_delete (λ v, cap <=? count_where (λ v', (rs_UserID v' =? rs_UserID v) &&
    sessionBefore v' v) (o_refresh_sessions db)) db).
Qed.

Lemma insertSession_spent s : rs_TokenSHA256 s ≠ d → within R G (insertSession s).
Proof.
  intros Hd. unfold insertSession. within_solve. intros db.
  destruct (_ || _); simpl; [done|]. intros H k s0. simpl. rewrite lookup_insert_Some.
  intros [[_ <-]|[_ H0]]; [done|by eapply H].
Qed.

Hint Resolve spent_consumed spent_revoked spent_delete spent_cap insertSession_spent : within.
Hint Extern 3 (keeps (spent _) _ _) => (apply spent_same_sessions; reflexivity) : within.

Lemma perform_spent c : createdDigest c ≠ Some d → within R G (perform next_audit_id tie u c).
Proof.
  intros Hc. destruct c; simpl in Hc; unfold perform, CreateRefreshSession, RotateRefreshSession,
    rotateBody, findSession, consumeSession, RevokeRefreshSession, RevokeUserRefreshSession,
    RevokeAllUserSessions, LogoutSession, LogoutAllSessions, RevokeUserRefreshSession,
    RevokeAllUserSessions, BumpTokenVersion, RevokeAccessToken, findUser, RecordLoginFailure,
    findAttempt, insertAttempt, countAttempt, saveAttempt, RecordLoginSuccess, LogCredentialEvent,
    appendEvent, PruneAuthState, revokeUserSessions.
  all: repeat first
    [ progress within_step
    | apply insertSession_spent; simpl; congruence
    | intros ?; solve [eauto with within]
    | intros ?; apply spent_same_sessions; simpl; by case_match ].
Qed.

(** While the digest is spent, presenting it never succeeds. *)
Lemma rotate_spent rid rsha i e now w :
  rely R w → spent d (w_db w) →
  post (RotateRefreshSession u d rid rsha i e now) w (λ r _, is_Ok r = false).
Proof.
  intros Hw Hs. unfold RotateRefreshSession. m_step; [by m_step|]. m_step.
  eapply (post_mono _ _ (λ out _, is_Ok out.2 = false)).
  - eapply (post_capturing _ _ R); [done|done|]. intros w0 H0.
    assert (spent d (w_db w0)) as Hs0.
    { destruct H0. destruct (w_isolated w); [by rewrite begun_meets|by apply begun_meets]. }
    destruct H0. unfold rotateBody, findSession. m_step. eapply post_query; [done| |].
    { intros w1 err [] _. simpl. m_step. split; [congruence|done]. }
    intros w1 [].
    assert (spent d (w_db w1)) as Hs1.
    { rewrite begun_isolated in after_meets. by rewrite after_meets. }
    destruct (first_where _ _ _) as [s|] eqn:E; simpl.
    + apply first_where_Some in E as (k & Hk & Hd%bool_decide_eq_true).
      destruct (Hs1 k s Hk Hd) as [Hu|Hr].
      * destruct (rs_UsedAt s); [|done]. simpl. repeat m_step; split; try done; congruence.
      * destruct (rs_RevokedAt s); [|done]. simpl. m_step. split; [congruence|done].
    + m_step. split; [congruence|done].
  - intros [[userID|] r] w1 Hr; [|by m_step]. unfold post, mbind.
    destruct (revokeUserSessions _ _ _ w1) as [r1 w2], (BumpTokenVersion u userID w2) as [r2 w3].
    by destruct (errors_Join _ _).
Qed.
End Spent.

(** C13. A refresh token is single-use: after a rotation of digest [d] succeeded,
    then after any sequence of session operations that does not issue that digest
    again, with any faults and with other requests doing the same in between,
    presenting [d] never succeeds. *)
Theorem rotate_single_use (next_audit_id : list CredentialEventDBModel → Z)
    (tie : RevokedAccessTokenDBModel → RevokedAccessTokenDBModel → bool)
    (u : option userService) (d rid rsha rid' rsha' : string) (i e now i' e' now' : Z)
    (s : RefreshSessionDBModel) (cs : list Call) (w w1 w2 : World) :
  usable u [d; rid; rsha] → alone w → store_ok (w_db w) →
  RotateRefreshSession u d rid rsha i e now w = (Ok s, w1) →
  w_db w2 = w_db w1 → rely (others_keep (spent d)) w2 →
  Forall (λ c, createdDigest c ≠ Some d) cs →
  let w3 := snd (performAll next_audit_id tie u cs w2) in
  is_Ok (fst (RotateRefreshSession u d rid' rsha' i' e' now' w3)) = false.
Proof.
  intros Hu Hw Hok Hrun Hdb Hrely Hcs w3.
  destruct (post_run _ _ _ (RotateRefreshSession_spec u d rid rsha i e now w Hu Hw Hok) _ _ Hrun)
    as (_ & old & [Hat Hdig] & Hlive & [_ Hfr] & _ & Hdb1).
  assert (spent d (w_db w2)) as Hspent.
  { rewrite Hdb, Hdb1. intros k s0. simpl. unfold rotated. simpl. rewrite lookup_insert_Some.
    intros [[_ <-]|[_ H0]]; simpl; [intros ->; by destruct (Hfr _ _ Hat)|].
    apply lookup_insert_Some in H0 as [[_ <-]|[Hne H0]]; simpl; [by left|]. intros Hd.
    destruct Hne. by eapply (ok_digests _ Hok); [exact Hat|exact H0|congruence]. }
  assert (within (others_keep (spent d)) (keeps (spent d)) (performAll next_audit_id tie u cs)) as Hcalls.
  { apply performAll_within; [exact _|]. eapply Forall_impl; [exact Hcs|].
    intros c Hc. by apply perform_spent. }
  destruct (Hcalls w2 Hrely) as [Hrely3 _ _ _ Hkeep].
  apply rotate_spent; [exact Hrely3|]. by apply Hkeep.
Qed.

Abbreviation rotateRun := (RotateRefreshSession (Some liveService) "d1" "s2" "d2" (2000 * hour)
  (2168 * hour) (2000 * hour) (quietWorld rotateDatabase "")).

Lemma busyWorld_db db : w_db (busyWorld db) = db.
Proof. reflexivity. Qed.

Lemma rotate_single_use_witness :
  is_Ok (fst (RotateRefreshSession (Some liveService) "d1" "s3" "d3" (2001 * hour) (2169 * hour) (2001 * hour)
    (snd (performAll countIDs byJTI (Some liveService) [CallPrune (2001 * hour); CallRotate "d2" "s4" "d4"
       (2001 * hour) (2169 * hour) (2001 * hour)] (busyWorld (w_db (snd rotateRun))))))) = false.
Proof.
  eapply (rotate_single_use countIDs byJTI (Some liveService) "d1" "s2" "d2" "s3" "d3"
    (2000 * hour) (2168 * hour) (2000 * hour) (2001 * hour) (2169 * hour) (2001 * hour) _ _
    (quietWorld rotateDatabase "") (snd rotateRun)).
  - split; [reflexivity|]. repeat constructor; discriminate.
  - apply quietWorld_alone.
  - apply rotateDatabase_ok.
  - apply run_pair. vm_compute. reflexivity.
  - apply busyWorld_db.
  - intros n. split; [|reflexivity]. intros db. apply spent_revoked.
  - repeat constructor; discriminate.
Defined.

(** ** Containment under concurrency *)

(** What concurrent requests may do while a replay is being contained: sessions
    keep their owner and are not created under the presented digest, credential
    generations never go back, users are not created. *)
Record advances (d : string) (db db' : Database) : Prop := {
  adv_ok : store_ok db → store_ok db';
  adv_owner k s' : o_refresh_sessions db' !! k = Some s' → rs_TokenSHA256 s' = d →
    ∃ s, o_refresh_sessions db !! k = Some s ∧ rs_TokenSHA256 s = d ∧ rs_UserID s = rs_UserID s';
  adv_version id u' : o_users db' !! id = Some u' →
    ∃ u, o_users db !! id = Some u ∧ u_TokenVersion u ≤ u_TokenVersion u';
}.

#[export] Instance advances_preorder d : PreOrder (advances d).
Proof.
  split.
  - intros db. split; eauto with lia.
  - intros x y z [Ho1 Hs1 Hv1] [Ho2 Hs2 Hv2]. split; [auto| |].
    + intros k s3 H3 Hd3. destruct (Hs2 _ _ H3 Hd3) as (s2 & H2 & Hd2 & E2).
      destruct (Hs1 _ _ H2 Hd2) as (s1 & H1 & Hd1 & E1). exists s1. by rewrite E1.
    + intros id u3 H3. destruct (Hv2 _ _ H3) as (u2 & H2 & E2). destruct (Hv1 _ _ H2) as (u1 & H1 & E1).
      exists u1. split; [done|lia].
Qed.

Definition advancing (d : string) : Rely := mkRely (advances d) eq (λ fs, eq_refl).

#[export] Instance advances_guarantee d : Guarantee (advancing d) (advances d).
Proof. split; [apply _|done]. Qed.

(** A fixed account, whose generation is never seen to go back. *)
Lemma advances_version d db db' id u u' :
  advances d db db' → o_users db !! id = Some u → o_users db' !! id = Some u' →
  u_TokenVersion u ≤ u_TokenVersion u'.
Proof. intros [_ _ Hv] H H'. destruct (Hv _ _ H') as (u0 & H0 & ?). congruence. Qed.

Section Concurrent.
Context (d : string).
Abbreviation R := (advancing d).
Abbreviation G := (advances d).

Lemma advances_sessions f db :
  (store_ok db → store_ok (with_sessions f db)) →
  (∀ k s', f (o_refresh_sessions db) !! k = Some s' → rs_TokenSHA256 s' = d →
     ∃ s, o_refresh_sessions db !! k = Some s ∧ rs_TokenSHA256 s = d ∧ rs_UserID s = rs_UserID s') →
  G db (with_sessions f db).
Proof. intros Hok Hs. split; [done|done|]. intros id u' H. exists u'. simpl in H. split; [done|lia]. Qed.

Lemma advances_bump userID now db : G db (with_users (bump_users userID now) db).
Proof.
  split; [apply store_ok_bump|by eauto|].
  intros id u'. simpl. unfold bump_users. rewrite lookup_update_where.
  intros (u0 & -> & ->)%fmap_Some. exists u0. split; [done|]. destruct (_ =? _); simpl; lia.
Qed.

(** The statement of [insertSession]. *)
Lemma insert_advances s db : rs_TokenSHA256 s ≠ "" → rs_ID s ≠ "" → rs_TokenSHA256 s ≠ d →
  G db (if bool_decide (is_Some (o_refresh_sessions db !! rs_ID s)) ||
           negb (count_where (λ s', bool_decide (rs_TokenSHA256 s' = rs_TokenSHA256 s))
                   (o_refresh_sessions db) =? 0)
        then (Err (StoreError ConstraintFailed), db)
        else (Ok tt, with_sessions <[rs_ID s := s]> db)).2.
Proof.
  intros H1 H2 H3. destruct (_ || _) eqn:E; simpl; [done|]. bool_split. apply advances_sessions.
  - apply store_ok_insert; try done; [by apply eq_None_not_Some|].
    intros k s' Hk Hd. apply Z.eqb_eq in H0. apply (proj1 (count_where_0 _ _) H0) in Hk.
    by apply bool_decide_eq_false in Hk.
  - intros k s'. rewrite lookup_insert_Some. intros [[_ <-]|[_ Hk]] Hd; [done|by eauto].
Qed.

Lemma revokeUserSessions_advances userID now reason : within R G (revokeUserSessions userID now reason).
Proof.
  unfold revokeUserSessions. within_solve. intros db. apply advances_sessions.
  - apply store_ok_update, revoked_same.
  - intros k s'. rewrite lookup_update_where. intros (s & -> & ->)%fmap_Some.
    intros Hd. exists s. by destruct (_ && _).
Qed.

Lemma plain_not_reused err : plain err → err ≠ ErrRefreshSessionReused.
Proof. intros Hp ->. by specialize (Hp ErrRefreshSessionReused). Qed.

(** A successful bump advances the generation of its user past every value it
    had before. *)
Lemma BumpTokenVersion_advances u userID w :
  rely R w → store_ok (w_db w) →
  post (BumpTokenVersion u userID) w (λ r w', moved R G w w' ∧
    match r with
    | Ok _ => ∀ user user', o_users (w_db w) !! userID = Some user →
        o_users (w_db w') !! userID = Some user' → u_TokenVersion user < u_TokenVersion user'
    | Err err => err ≠ ErrRefreshSessionReused
    end).
Proof.
  intros Hw Hok. unfold BumpTokenVersion. m_step.
  { m_step. split; [by apply (moved_refl R G)|done]. }
  eapply (post_transaction _ _ _ R); [done| |].
  { intros w1 err Hp Ha _. split; [by eapply (after_moved R G)|by apply plain_not_reused]. }
  intros w0 H0. pose proof (begun_moved R G _ _ H0) as HG. destruct H0.
  m_step. m_step. m_step. eapply (post_execute _ R); [done| |].
  { intros w1 dd [] _. simpl. split; [congruence|]. intros w3 [] Hd3. split; [|done].
    constructor; [by auto|by auto|done|lia|by rewrite Hd3]. }
  intros db0 w1 Ha1 Hd1. destruct Ha1.
  rewrite begun_isolated in after_meets. subst db0.
  assert (G (w_db w) (w_db w1)) as HG1 by (rewrite Hd1; etrans; [done|apply advances_bump]).
  m_step. unfold findUser. eapply (post_query _ R); [done| |].
  { intros w2 dd [] _. simpl. split; [congruence|]. intros w3 [] Hd3. split; [|done].
    constructor; [by auto|by auto|done|lia|by rewrite Hd3]. }
  intros w2 Ha2. destruct Ha2.
  rewrite after_isolated, begun_isolated in after_meets.
  assert (∀ w3, closed R w w2 w3 → w_db w3 = w_db w0 → moved R G w w3) as Hrolled.
  { intros w3 [] Hd3. constructor; [by auto|by auto|done|lia|by rewrite Hd3]. }
  destruct (first_where _ _ _) as [user0|]; simpl.
  2:{ split; [congruence|]. intros w3 Hc Hd3. split; [by apply Hrolled|done]. }
  m_step. split; [congruence|]. split.
  { intros err w3 Hp Hc _ Hd3. split; [by apply Hrolled|by apply plain_not_reused]. }
  intros w3 [] Hd3. rewrite after_meets, Hd1 in Hd3. split.
  { constructor; [by auto|by auto|done|lia|]. rewrite Hd3, <- Hd1. done. }
  intros user user' Huser Huser'. rewrite Hd3 in Huser'. simpl in Huser'.
  unfold bump_users in Huser'. rewrite lookup_update_where in Huser'.
  apply fmap_Some in Huser' as (u0 & Hu0 & ->).
  pose proof (advances_version _ _ _ _ _ _ HG Huser Hu0).
  rewrite (users_keyed _ (ok_keys _ (adv_ok _ _ _ HG Hok)) _ _ Hu0), Z.eqb_refl. simpl. lia.
Qed.

(** The closure under interference: it stays within [G], and the reuse flag is
    set, with the owner of the presented session, exactly when the reuse error is
    returned. *)
Lemma rotateBody_advances rid rsha i e now w :
  rely R w → w_isolated w = true → rid ≠ "" → rsha ≠ "" → rsha ≠ d →
  post (rotateBody d rid rsha i e now) w (λ out w', moved R G w w' ∧
    match out with
    | (Some userID, r) => r = Err ErrRefreshSessionReused ∧
        ∃ k s, o_refresh_sessions (w_db w) !! k = Some s ∧ rs_TokenSHA256 s = d ∧ rs_UserID s = userID
    | (None, Err err) => err ≠ ErrRefreshSessionReused
    | (None, Ok _) => True
    end).
Proof.
  intros Hw Hi H1 H2 H3. unfold rotateBody, findSession. m_step. eapply (post_query _ R); [done| |].
  { intros w1 dd Ha _. simpl. m_step. split; [by eapply (after_moved R G)|done]. }
  intros w1 Ha. assert (moved R G w w1) as Hm1 by (by eapply (after_moved R G)).
  assert (w_db w1 = w_db w) as Hd1 by (destruct Ha; by rewrite Hi in after_meets).
  destruct (first_where _ _ _) as [s|] eqn:E; simpl; [|by m_step].
  apply first_where_Some in E as (k & Hk & Hdig%bool_decide_eq_true). rewrite Hd1 in Hk.
  m_step; [by m_step|]. m_step; [m_step; eauto 10|].
  unfold consumeSession. m_step. eapply (post_exec _ R); [apply Hm1| |].
  { intros w2 dd Ha2 _. simpl. m_step. split; [|done].
    eapply (moved_trans R G); [done|]. by eapply (after_moved R G). }
  intros db0 w2 Ha2 Hd2. assert (moved R G w w2) as Hm2.
  { eapply (moved_trans R G); [done|]. eapply (after_moved R G); [done|]. rewrite Hd2. simpl.
    apply advances_sessions; [by apply store_ok_update, consumed_same|].
    intros k' s'. rewrite lookup_update_where. intros (s0 & -> & ->)%fmap_Some.
    intros Hd'. exists s0. by destruct (_ && _). }
  simpl. m_step; [by m_step|].
  m_step. unfold insertSession. eapply (post_exec _ R); [apply Hm2| |].
  { intros w3 dd Ha3 _. simpl. m_step. split; [|done].
    eapply (moved_trans R G); [done|]. by eapply (after_moved R G). }
  intros db1 w3 Ha3 Hd3. assert (moved R G w w3) as Hm3.
  { eapply (moved_trans R G); [done|]. eapply (after_moved R G); [done|]. rewrite Hd3.
    apply insert_advances; done. }
  destruct (bool_decide (is_Some _) || _); simpl; by m_step.
Qed.
End Concurrent.

(** Containment under concurrency: when a rotation reports a reuse, then,
    whatever statements failed or were interleaved by other requests (which may
    rotate, revoke and create sessions, but neither re-issue the presented digest
    nor turn generations back), the owner's credential generation is strictly past
    the one the request started with, so every token minted before it is
    rejected. *)
Theorem replay_outruns_rotation (u : option userService) (d rid rsha : string) (i e now : Z)
    (old : RefreshSessionDBModel) (owner owner' : UserDBModel) (w w' : World) :
  rely (advancing d) w → store_ok (w_db w) → rsha ≠ d →
  presents (w_db w) d old →
  RotateRefreshSession u d rid rsha i e now w = (Err ErrRefreshSessionReused, w') →
  o_users (w_db w) !! rs_UserID old = Some owner →
  o_users (w_db w') !! rs_UserID old = Some owner' →
  u_TokenVersion owner < u_TokenVersion owner'.
Proof.
  intros Hw Hok Hne [Hat Hdig] Hrun Howner Howner'.
  cut (post (RotateRefreshSession u d rid rsha i e now) w (λ r w', r = Err ErrRefreshSessionReused →
    ∀ owner', o_users (w_db w') !! rs_UserID old = Some owner' → u_TokenVersion owner < u_TokenVersion owner')).
  { intros Hpost. by eapply (post_run _ _ _ Hpost _ _ Hrun). }
  clear w' Hrun Howner'. unfold RotateRefreshSession. m_step; [by m_step|]. bool_split. m_step.
  eapply (post_mono _ _ (λ out w', moved (advancing d) (advances d) w w' ∧
    match out with
    | (Some userID, _) => userID = rs_UserID old
    | (None, r) => r ≠ Err ErrRefreshSessionReused
    end)).
  - eapply (post_capturing _ _ (advancing d)); [done| |].
    { intros w1 err Hp Ha _. split; [by eapply (after_moved (advancing d) (advances d))|].
      intros [= ->]. by apply plain_not_reused in Hp. }
    intros w0 Hb. pose proof (begun_moved (advancing d) (advances d) _ _ Hb) as HG. destruct Hb.
    eapply post_mono; [by apply rotateBody_advances|]. intros [x r] w2 [[] Hout].
    split; [congruence|].
    assert (∀ w3, closed (advancing d) w w2 w3 → w_db w3 = w_db w0 ∨ w_db w3 = w_db w2 →
      moved (advancing d) (advances d) w w3) as Hend.
    { intros w3 [] Hdb. constructor; [by auto|by auto|done|lia|]. destruct Hdb as [->| ->]; [done|by etrans]. }
    destruct x as [userID|].
    + destruct Hout as [-> (k & s & Hk & Hd & <-)]. intros w3 Hc Hd3. split; [by auto|].
      destruct (adv_owner _ _ _ HG _ _ Hk Hd) as (s0 & Hs0 & Hd0 & <-).
      assert (k = rs_ID old) as -> by (eapply (ok_digests _ Hok); [exact Hs0|exact Hat|congruence]).
      rewrite Hat in Hs0. by injection Hs0 as <-.
    + destruct r as [s|err]; [split|]; [intros err w3 Hp Hc _ Hd3|intros w3 Hc Hd3|intros w3 Hc Hd3];
        (split; [by auto|]); [intros [= ->]; by apply plain_not_reused in Hp|done|congruence].
  - intros [[userID|] r] w1 [Hm Hout]; [subst userID|by m_step]. m_step.
    eapply post_mono; [apply (revokeUserSessions_advances d), Hm|]. intros r1 w2 Hm2. m_step.
    pose proof (moved_trans _ _ _ _ _ Hm Hm2) as Hm02.
    eapply post_mono; [apply (BumpTokenVersion_advances d); [apply Hm02|by apply Hm02]|].
    intros r2 w3 [Hm3 Hr2].
    destruct r2 as [v|err].
    + destruct (error_of r1) as [err1|] eqn:E1; simpl; m_step.
      all: intros Hres o' Ho'; destruct (adv_version _ _ _ (moved_db _ _ _ _ Hm3) _ _ Ho') as (o2 & Ho2 & _);
        pose proof (advances_version _ _ _ _ _ _ (moved_db _ _ _ _ Hm02) Howner Ho2);
        pose proof (Hr2 _ _ Ho2 Ho'); lia.
    + destruct (error_of r1) as [err1|] eqn:E1; simpl; m_step; [done|congruence].
Qed.

Lemma advancing_quiet d db entropy : rely (advancing d) (quietWorld db entropy).
Proof. intros n. split; [|done]. intros db'. change (advances d db' db'). reflexivity. Qed.

Abbreviation replayRun := (RotateRefreshSession (Some liveService) "d0" "s2" "d2" (2000 * hour)
  (2168 * hour) (2000 * hour) (quietWorld rotateDatabase "")).

Lemma replay_outruns_rotation_witness :
  2 < u_TokenVersion (mkUser 7 "ann" "" "user" "" "" "" "" 3 1 (2000 * hour)).
Proof.
  apply (replay_outruns_rotation (Some liveService) "d0" "s2" "d2" (2000 * hour) (2168 * hour) (2000 * hour)
    (rotateSession "s0" "d0" 7 (Some (1995 * hour))) (mkUser 7 "ann" "" "user" "" "" "" "" 2 1 1)
    (mkUser 7 "ann" "" "user" "" "" "" "" 3 1 (2000 * hour)) (quietWorld rotateDatabase "") (snd replayRun)).
  - apply advancing_quiet.
  - apply rotateDatabase_ok.
  - discriminate.
  - split; vm_compute; reflexivity.
  - apply run_pair. vm_compute. reflexivity.
  - vm_compute. reflexivity.
  - vm_compute. reflexivity.
Defined.
