(* ===== verification/Lockout.v ===== *)
(** * The login-attempt budget

    What [CheckLoginLockout], [RecordLoginFailure] and [RecordLoginSuccess] of
    src/service/session.go guarantee: the transaction refines a pure step on one
    row, a lock is never extended, and guessing is bounded. *)

From stdpp Require Import prelude strings gmap sorting.
From Stdlib Require Import ZArith Lia Ascii.
From S2P Require Import Prelude GoStrings Password FileSystem Tables Store Guarantee AuthSecurity Bootstrap Sessions.

Local Open Scope Z_scope.
Local Open Scope m_scope.

(** ** The abstract budget of one key *)

(** The row after a failure at [now], and the answer; [None]: no row yet. *)
Definition budget_step (row : option LoginAttemptDBModel) (key : string) (now : Z)
    : LoginAttemptDBModel * (bool * Z) :=
  let a := default (mkAttempt key 0 now None) row in
  match lockedAt a now with
  | Some wait => (a, (true, wait))
  | None => countFailure a now
  end.

(** The attempt is evaluated: the key is not locked. *)
Definition open_at (row : option LoginAttemptDBModel) (now : Z) : Prop :=
  ∀ a, row = Some a → lockedAt a now = None.

Lemma countFailure_key a now : la_Key (countFailure a now).1 = la_Key a.
Proof. unfold countFailure. by repeat case_match. Qed.

Lemma budget_step_key row key now :
  (∀ a, row = Some a → la_Key a = key) → la_Key (budget_step row key now).1 = key.
Proof.
  intros Hk. unfold budget_step. destruct row as [a|]; simpl.
  - destruct (lockedAt a now); simpl; rewrite ?countFailure_key; auto.
  - by rewrite countFailure_key.
Qed.

(** ** Refinement *)

Lemma findAttempt_row db key :
  keys_agree db →
  first_where String.leb (λ a, bool_decide (la_Key a = key)) (o_login_attempts db)
  = o_login_attempts db !! key.
Proof.
  intros Hk. assert (∀ k a, o_login_attempts db !! k = Some a → bool_decide (la_Key a = key) = true → k = key) as Hkey.
  { intros k a Ha E%bool_decide_eq_true. by rewrite <- (attempts_keyed _ Hk _ _ Ha). }
  destruct (o_login_attempts db !! key) as [a|] eqn:E.
  - apply (first_where_unique _ _ _ key); [done| |done].
    apply bool_decide_eq_true. by apply (attempts_keyed _ Hk).
  - apply first_where_None. intros k a Ha. destruct (bool_decide _) eqn:Ei; [|done].
    pose proof (Hkey _ _ Ha Ei). congruence.
Qed.

Lemma findAttempt_spec key w : alone w → keys_agree (w_db w) →
  post (findAttempt key) w (λ r w', calm w w' ∧ w_db w' = w_db w ∧
    match r with
    | Ok a => o_login_attempts (w_db w) !! key = Some a
    | Err e => (¬ faultless w ∧ plain e) ∨ e = ErrRecordNotFound ∧ o_login_attempts (w_db w) !! key = None
    end).
Proof.
  intros Hw Hk. unfold findAttempt. m_step; [split_and!; [done..|left; by split]|].
  split_and!; [done..|]. rewrite findAttempt_row by done.
  destruct (o_login_attempts (w_db w) !! key); eauto.
Qed.

(** The closure once the row is at hand. *)
Lemma countAttempt_spec a now w : alone w →
  post (countAttempt a now) w (λ r w', calm w w' ∧
    match r with
    | Ok ans => ans = (budget_step (Some a) (la_Key a) now).2 ∧
        (w_db w' = with_attempts <[la_Key a := (budget_step (Some a) (la_Key a) now).1]> (w_db w) ∨
         lockedAt a now ≠ None ∧ w_db w' = w_db w)
    | Err e => ¬ faultless w ∧ w_db w' = w_db w
    end).
Proof.
  intros Hw. unfold countAttempt, budget_step, saveAttempt. simpl. m_step.
  - m_step. split; [eauto with store|]. split; [done|right]. done.
  - m_step. m_step; [by split_and!|]. m_step. split; [done|]. split; [done|left].
    rewrite countFailure_key in *. done.
Qed.

Lemma with_attempts_twice k (a b : LoginAttemptDBModel) db :
  with_attempts <[k := a]> (with_attempts <[k := b]> db) = with_attempts <[k := a]> db.
Proof. destruct db. unfold with_attempts. simpl. by rewrite insert_insert_eq. Qed.

Lemma with_attempts_same k (a : LoginAttemptDBModel) db :
  o_login_attempts db !! k = Some a → with_attempts <[k := a]> db = db.
Proof. destruct db. unfold with_attempts. simpl. intros. by rewrite insert_id. Qed.

(** [RecordLoginFailure] makes exactly one abstract step on the row of its key, or
    changes nothing and reports an error. *)
Lemma RecordLoginFailure_spec u key now w :
  unavailable u = false → key ≠ "" → alone w → store_ok (w_db w) →
  post (RecordLoginFailure u key now) w (λ r w', calm w w' ∧
    match r with
    | Ok ans => ans = (budget_step (o_login_attempts (w_db w) !! key) key now).2 ∧
        w_db w' = with_attempts <[key := (budget_step (o_login_attempts (w_db w) !! key) key now).1]> (w_db w)
    | Err e => ¬ faultless w ∧ w_db w' = w_db w
    end).
Proof.
  intros Hu Hkey Hw Hok. unfold RecordLoginFailure. rewrite Hu, bool_decide_eq_false_2 by done. cbn [orb].
  apply transaction_solo; [done| |by intros e w1 _ Hc Hd Hf].
  intros w0 H0 _ Hd0 _ Hf0 _ _ _. rewrite <- Hd0 in *.
  m_step. m_use findAttempt_spec as r w1 (Hc1 & Hd1 & Hr1); [apply Hok|].
  destruct r as [a|e].
  - eapply post_mono; [apply countAttempt_spec; eauto with store|]. intros r w2 [Hc2 Hr2].
    assert (la_Key a = key) as <- by (by apply (attempts_keyed _ (ok_keys _ Hok))).
    split; [eauto with store|]. rewrite Hd1 in Hr2. destruct r as [ans|e]; intros w3 Hc3 Hd3.
    + destruct Hr2 as [-> Hdb]. rewrite Hr1. split_and!; [done..|]. rewrite Hd3.
      destruct Hdb as [->|[Hl ->]]; [done|]. unfold budget_step. simpl.
      destruct (lockedAt a now); [|done]. simpl. by rewrite with_attempts_same.
    + split_and!; [done| |done]. intros Hf. destruct Hr2 as [[] _].
      by apply (calm_faultless _ _ Hc1), Hf0.
  - destruct Hr1 as [[Hf Hp]|[-> Hnone]].
    { rewrite Hp. simpl. m_step. split; [done|]. intros w3 Hc3 Hd3. split_and!; try done.
      intros Hf'. by apply Hf, Hf0. }
    simpl. m_step. unfold insertAttempt. m_step.
    { split; [eauto with store|]. intros w3 Hc3 Hd3. split_and!; try done. intros Hf'.
      match goal with H : ¬ faultless w1 |- _ => by destruct H; apply (calm_faultless _ _ Hc1), Hf0 end. }
    cbn [la_Key] in *. rewrite Hd1, Hnone in H1 |- *.
    rewrite bool_decide_eq_false_2 in H1 |- * by (by intros []). cbn [fst snd] in H1 |- *.
    assert (calm w0 w2) as Hc02 by eauto with store.
    eapply post_mono; [apply countAttempt_spec; eauto with store|]. intros r w3 [Hc3 Hr3].
    split; [eauto with store|]. destruct r as [ans|e]; intros w4 Hc4 Hd4.
    + destruct Hr3 as [-> Hdb]. split_and!; [done..|]. rewrite Hd4. simpl in *.
      destruct Hdb as [->|[[] _]]; [|done]. rewrite H1. apply with_attempts_twice.
    + split_and!; [done| |done]. intros Hf. destruct Hr3 as [[] _].
      by apply (calm_faultless _ _ H), (calm_faultless _ _ Hc1), Hf0.
Qed.

(** ** Evaluated guesses *)

Lemma CheckLoginLockout_spec u key now w :
  unavailable u = false → key ≠ "" → alone w → faultless w → store_ok (w_db w) →
  post (CheckLoginLockout u key now) w (λ r w', calm w w' ∧ w_db w' = w_db w ∧
    r = match o_login_attempts (w_db w) !! key with
        | Some a => match lockedAt a now with Some wait => (true, wait) | None => (false, 0) end
        | None => (false, 0)
        end).
Proof.
  intros Hu Hkey Hw Hf Hok. unfold CheckLoginLockout. rewrite Hu, bool_decide_eq_false_2 by done. cbn [orb].
  m_step. m_use findAttempt_spec as r w1 (Hc1 & Hd1 & Hr1); [apply Hok|].
  destruct r as [a|e].
  - rewrite Hr1. repeat m_step; by split_and!.
  - m_step. destruct Hr1 as [[Hn _]|[_ ->]]; [by destruct Hn|by split_and!].
Qed.

(** The abstract run of evaluated guesses. *)
Fixpoint evaluated (row : option LoginAttemptDBModel) (key : string) (ts : list Z) : Prop :=
  match ts with
  | [] => True
  | t :: ts' => open_at row t ∧ evaluated (Some (budget_step row key t).1) key ts'
  end.

(** ** The bound on guessing *)

Lemma lockedAt_None a t : lockedAt a t = None ↔ ∀ until, la_LockedUntil a = Some until → until ≤ t.
Proof.
  unfold lockedAt. destruct (la_LockedUntil a) as [until|]; [|naive_solver].
  destruct (Z.ltb_spec t until); split; try done; [|intros _ ? [= <-]; lia].
  intros H'. specialize (H' _ eq_refl). lia.
Qed.

(** One evaluated failure: the window is restarted, or the count advances; five
    failures lock. *)
Lemma countFailure_cases a t :
  0 < la_WindowStartedAt a → la_WindowStartedAt a ≤ t →
  let a' := (countFailure a t).1 in
  (la_WindowStartedAt a + loginLockoutWindow < t ∧ la_Failures a' = 1 ∧ la_WindowStartedAt a' = t) ∨
  (la_Failures a' = la_Failures a + 1 ∧ la_WindowStartedAt a' = la_WindowStartedAt a ∧
   (5 ≤ la_Failures a' → la_LockedUntil a' = Some (t + loginLockoutLength))).
Proof.
  intros Hws Ht a'. unfold a', countFailure. clear a'.
  assert (IsZero (la_WindowStartedAt a) = false) as -> by (apply Z.eqb_neq; lia). simpl.
  destruct (Z.ltb_spec loginLockoutWindow (time_Sub t (la_WindowStartedAt a))) as [Hr|Hr]; simpl.
  - left. unfold time_Sub, loginLockoutWindow, hour, minute, second in *. split_and!; [lia|done|done].
  - right. destruct (Z.leb_spec loginFailureLimit (la_Failures a + 1)) as [Hl|Hl]; simpl; split_and!; try done.
    unfold loginFailureLimit in Hl. lia.
Qed.

Definition later (t0 : Z) (ts : list Z) : Prop := ∃ t, t ∈ ts ∧ t0 + loginLockoutLength ≤ t.

(** The steps both phases share: an evaluated guess of a row that was not locked. *)
Lemma evaluated_step a key t ts :
  evaluated (Some a) key (t :: ts) →
  lockedAt a t = None ∧ evaluated (Some (countFailure a t).1) key ts.
Proof. intros [Ho He]. unfold budget_step in He. simpl in He. by rewrite (Ho a eq_refl) in *. Qed.

(** The guess after a locking one comes a quarter of an hour later. *)
Lemma evaluated_locked a key t ts :
  la_LockedUntil a = Some (t + loginLockoutLength) → ts ≠ [] → evaluated (Some a) key ts → later t ts.
Proof.
  intros Hl Hne He. destruct ts as [|t' ts]; [done|]. apply evaluated_step in He as [Ho _].
  exists t'. split; [by left|]. by apply (proj1 (lockedAt_None _ _) Ho).
Qed.

Lemma later_cons t0 t ts : later t0 ts → later t0 (t :: ts).
Proof. intros (t' & ? & ?). exists t'. split; [by right|done]. Qed.

Lemma later_mono t0 t1 ts : t0 ≤ t1 → later t1 ts → later t0 ts.
Proof. intros Hle (t' & ? & ?). exists t'. split; [done|lia]. Qed.

(** From a fresh window, the sixth evaluated guess is a quarter of an hour after
    the first. *)
Lemma fresh_window key ts : ∀ a,
  0 < la_WindowStartedAt a → 1 ≤ la_Failures a ≤ 4 →
  Forall (λ t, la_WindowStartedAt a ≤ t) ts → 6 - la_Failures a ≤ Z.of_nat (length ts) →
  evaluated (Some a) key ts → later (la_WindowStartedAt a) ts.
Proof.
  induction ts as [|t ts IH]; intros a Hws Hf Hge Hlen He; [simpl in Hlen; lia|].
  apply Forall_cons in Hge as [Ht Hge]. apply evaluated_step in He as [_ He].
  destruct (countFailure_cases a t Hws Ht) as [(Hlate & _)|(Hf' & Hws' & Hlock)].
  - exists t. split; [by left|]. unfold loginLockoutWindow, loginLockoutLength, hour, minute, second in *. lia.
  - simpl in Hlen. destruct (decide (5 ≤ la_Failures (countFailure a t).1)) as [H5|H5].
    + apply later_cons, (later_mono _ t); [done|]. eapply evaluated_locked; [by apply Hlock| |done].
      intros ->. simpl in Hlen. lia.
    + apply later_cons. rewrite <- Hws'. apply IH; rewrite ?Hws'; try done; lia.
Qed.

(** From any stored row, nine evaluated guesses take a quarter of an hour. *)
Lemma stored_window key ts : ∀ a t0,
  0 < la_WindowStartedAt a → 1 ≤ la_Failures a →
  0 < t0 → Forall (λ t, t0 ≤ t) ts → Forall (λ t, la_WindowStartedAt a ≤ t) ts → Sorted Z.le ts →
  5 + Z.max 1 (5 - la_Failures a) ≤ Z.of_nat (length ts) →
  evaluated (Some a) key ts → later t0 ts.
Proof.
  induction ts as [|t ts IH]; intros a t0 Hws Hf Ht0 Hge0 Hge Hsort Hlen He; [simpl in Hlen; lia|].
  apply Forall_cons in Hge as [Ht Hge]. apply Forall_cons in Hge0 as [Ht0' Hge0].
  apply Sorted_StronglySorted in Hsort; [|intros ???; lia]. apply StronglySorted_inv in Hsort as [Hsort Hall].
  apply evaluated_step in He as [_ He]. simpl in Hlen. apply later_cons.
  destruct (countFailure_cases a t Hws Ht) as [(_ & Hf' & Hws')|(Hf' & Hws' & Hlock)].
  - apply (later_mono _ t); [done|]. rewrite <- Hws'.
    apply (fresh_window key); rewrite ?Hws', ?Hf'; try done; try lia.
  - destruct (decide (5 ≤ la_Failures (countFailure a t).1)) as [H5|H5].
    + apply (later_mono _ t); [done|]. eapply evaluated_locked; [by apply Hlock| |done].
      intros ->. simpl in Hlen. lia.
    + apply (IH (countFailure a t).1); rewrite ?Hws'; try done; try lia. by apply StronglySorted_Sorted.
Qed.

(** Stored rows hold at least one failure, in a window that began at a real time. *)
Definition row_ok (row : option LoginAttemptDBModel) (t0 : Z) : Prop :=
  ∀ a, row = Some a → 1 ≤ la_Failures a ∧ 0 < la_WindowStartedAt a ≤ t0.

Lemma guesses_spread row key t ts :
  row_ok row t → 0 < t → Sorted Z.le (t :: ts) → (8 ≤ length ts)%nat →
  evaluated row key (t :: ts) → later t ts.
Proof.
  intros Hrow Ht Hsort Hlen He.
  pose proof Hsort as Hss. apply Sorted_StronglySorted in Hss; [|intros ???; lia].
  apply StronglySorted_inv in Hss as [Hss Hall].
  destruct row as [a|].
  - destruct (Hrow a eq_refl) as [Hf [Hws Hle]]. apply evaluated_step in He as [_ He].
    destruct (countFailure_cases a t Hws Hle) as [(_ & Hf' & Hws')|(Hf' & Hws' & Hlock)].
    + rewrite <- Hws' at 1. apply (fresh_window key); rewrite ?Hws', ?Hf'; try done; lia.
    + apply (stored_window key _ (countFailure a t).1); rewrite ?Hws'; try done; try lia.
      * eapply Forall_impl; [exact Hall|]. simpl. lia.
      * by apply StronglySorted_Sorted.
  - destruct He as [_ He].
    assert ((budget_step None key t).1 = mkAttempt key 1 t None) as E.
    { unfold budget_step, countFailure, lockedAt. simpl. unfold IsZero, time_Sub.
      rewrite (proj2 (Z.eqb_neq t 0)) by lia. rewrite Z.sub_diag. done. }
    rewrite E in He. apply (fresh_window key _ (mkAttempt key 1 t None)); simpl; try done; lia.
Qed.

(** In a sorted list the last time is as late as any. *)
Lemma later_last t0 ts : StronglySorted Z.le ts → later t0 ts →
  ∃ l, list.last ts = Some l ∧ t0 + loginLockoutLength ≤ l.
Proof.
  intros Hs (t & Hin & Hle). destruct (list.last ts) as [l|] eqn:El.
  2:{ apply last_None in El. subst ts. by apply not_elem_of_nil in Hin. }
  exists l. split; [done|]. apply last_Some in El as [ts' ->].
  apply elem_of_app in Hin as [Hin|Hin%list_elem_of_singleton]; [|lia].
  enough (t ≤ l) by lia. eapply (StronglySorted_app_1_elem_of _ ts' [l]); [done|done|by left].
Qed.

(** ** Properties *)

(** [RecordLoginFailure] refines the budget: on whatever fault schedule it
    either makes exactly one step of the abstract budget on the row of its key and
    answers accordingly, or changes nothing and reports an error; and while the key
    is locked the step changes nothing, so a lock is never extended. *)
Theorem record_failure_refines (u : option userService) (key : string) (now : Z) (w : World) :
  unavailable u = false → key ≠ "" → alone w → store_ok (w_db w) →
  let row := o_login_attempts (w_db w) !! key in
  let run := RecordLoginFailure u key now w in
  match fst run with
  | Ok answer => answer = (budget_step row key now).2 ∧
      w_db (snd run) = with_attempts <[key := (budget_step row key now).1]> (w_db w)
  | Err _ => ¬ faultless w ∧ w_db (snd run) = w_db w
  end ∧
  (∀ a until, row = Some a → la_LockedUntil a = Some until → now < until →
     w_db (snd run) = w_db w ∧ ∀ answer, fst run = Ok answer → answer = (true, time_Sub until now)).
Proof.
  intros Hu Hkey Hw Hok row run.
  pose proof (RecordLoginFailure_spec u key now w Hu Hkey Hw Hok) as [_ Hspec].
  fold run row in Hspec. split; [by destruct (fst run)|].
  intros a until Hrow Hl Hlt.
  assert (lockedAt a now = Some (time_Sub until now)) as Hlock.
  { unfold lockedAt. by rewrite Hl, (proj2 (Z.ltb_lt _ _) Hlt). }
  assert (budget_step row key now = (a, (true, time_Sub until now))) as Hstep.
  { rewrite Hrow. unfold budget_step. simpl. by rewrite Hlock. }
  rewrite Hstep in Hspec. destruct (fst run) as [ans|e].
  - destruct Hspec as [-> Hdb]. simpl in Hdb. rewrite with_attempts_same in Hdb by done.
    split; [done|]. by intros ? [= <-].
  - destruct Hspec as [_ Hdb]. by split.
Qed.

Definition lockedRow : LoginAttemptDBModel := mkAttempt "login:ann" 5 (1999 * hour) (Some (2000 * hour + 600)).

Definition lockedDatabase : Database := with_attempts <["login:ann" := lockedRow]> emptyDatabase.

Lemma lockedDatabase_ok : store_ok lockedDatabase.
Proof. exact (store_ok_attempts_insert lockedRow _ store_ok_empty). Qed.

Lemma record_failure_refines_witness :
  w_db (snd (RecordLoginFailure (Some liveService) "login:ann" (2000 * hour) (quietWorld lockedDatabase "")))
  = lockedDatabase.
Proof.
  eapply (record_failure_refines (Some liveService) "login:ann" (2000 * hour) (quietWorld lockedDatabase "")).
  - reflexivity.
  - discriminate.
  - apply quietWorld_alone.
  - apply lockedDatabase_ok.
  - instantiate (1 := lockedRow). vm_compute. reflexivity.
  - reflexivity.
  - vm_compute. reflexivity.
Defined.
