(* ===== verification/Retention.v ===== *)
(** * Logout and retention

    What [LogoutSession], [LogoutAllSessions] and [PruneAuthState] of
    src/service/session.go guarantee: logging out retires exactly what it names,
    and pruning drops expired rows and bounds what one user can accumulate without
    touching what another user relies on. *)

From stdpp Require Import prelude strings gmap.
From Stdlib Require Import ZArith Lia Ascii.
From S2P Require Import Prelude GoStrings Password FileSystem Tables Store Guarantee AuthSecurity Bootstrap Sessions Rotation.

Local Open Scope Z_scope.
Local Open Scope m_scope.

(** ** Ranked deletion *)

Section Cap.
Context {V : Type} (owner : V → Z) (before : V → V → bool).

(** [before] orders the rows of a table strictly and totally. *)
Record ranks (m : gmap string V) : Prop := {
  ranks_trans k1 k2 k3 a b c : m !! k1 = Some a → m !! k2 = Some b → m !! k3 = Some c →
    before a b = true → before b c = true → before a c = true;
  ranks_total k1 k2 a b : m !! k1 = Some a → m !! k2 = Some b → k1 ≠ k2 →
    before a b = true ∨ before b a = true;
}.

Lemma ranks_subseteq m m' : m' ⊆ m → ranks m → ranks m'.
Proof.
  intros Hsub [Ht Ho]. split.
  - intros k1 k2 k3 a b c H1 H2 H3. eapply Ht; by eapply lookup_weaken.
  - intros k1 k2 a b H1 H2. eapply Ho; by eapply lookup_weaken.
Qed.

(** A non-empty table has a last row. *)
Lemma ranks_last m : ranks m → m ≠ ∅ →
  ∃ k v, m !! k = Some v ∧ ∀ k' v', m !! k' = Some v' → k' ≠ k → before v' v = true.
Proof.
  induction m as [|k v m Hk IH] using map_ind; [done|]. intros Hr _.
  destruct (decide (m = ∅)) as [->|Hne].
  { exists k, v. split; [by rewrite lookup_insert_eq|]. intros k' v' Hk' Hne.
    rewrite lookup_insert_ne in Hk' by done. done. }
  destruct IH as (k1 & v1 & H1 & Hlast); [|done|].
  { eapply ranks_subseteq; [|done]. by apply insert_subseteq. }
  assert (k ≠ k1) as Hkk1 by congruence.
  assert (<[k:=v]> m !! k1 = Some v1) as H1' by (by rewrite lookup_insert_ne).
  assert (<[k:=v]> m !! k = Some v) as Hk' by apply lookup_insert_eq.
  destruct (ranks_total _ Hr k k1 v v1 Hk' H1' Hkk1) as [Hb|Hb].
  - exists k1, v1. split; [done|]. intros k' v' Hk'' Hne'.
    apply lookup_insert_Some in Hk'' as [[_ <-]|[_ Hk'']]; [done|by eapply Hlast].
  - exists k, v. split; [done|]. intros k' v' Hk'' Hne'.
    assert (m !! k' = Some v') as Hm by (by rewrite lookup_insert_ne in Hk'').
    destruct (decide (k' = k1)) as [->|Hne'']; [congruence|].
    by eapply (ranks_trans _ Hr k' k1 k); [..|eapply Hlast|].
Qed.

Lemma capRows_subseteq cap m : capRows owner before cap m ⊆ m.
Proof. apply map_subseteq_spec. intros k v [? _]%lookup_delete_where. done. Qed.

(** At most [cap] rows of one owner survive. *)
Lemma capRows_bound cap m id :
  0 ≤ cap → ranks m → count_where (λ v, owner v =? id) (capRows owner before cap m) ≤ cap.
Proof.
  intros Hcap Hr. unfold count_where. set (kept := filter _ (capRows owner before cap m)).
  destruct (decide (kept = ∅)) as [->|Hne]; [by rewrite map_size_empty|].
  assert (kept ⊆ m) as Hsub.
  { etrans; [apply map_filter_subseteq|apply capRows_subseteq]. }
  destruct (ranks_last kept) as (k & v & Hk & Hlast); [by eapply ranks_subseteq|done|].
  pose proof Hk as Hk0. apply map_lookup_filter_Some in Hk as [Hk Hown]. apply Z.eqb_eq in Hown. simpl in Hown.
  apply lookup_delete_where in Hk as [Hk Hrank]. apply Z.leb_gt in Hrank.
  enough (Z.of_nat (size kept) - 1 ≤ count_where (λ v', (owner v' =? owner v) && before v' v) m) by lia.
  unfold count_where. assert (size (delete k kept) = (size kept - 1)%nat) as Hsize.
  { rewrite map_size_delete_Some by (by exists v). lia. }
  enough (delete k kept ⊆ filter (λ kv, (owner kv.2 =? owner v) && before kv.2 v = true) m) as Hin.
  { apply map_subseteq_size in Hin. rewrite Hsize in Hin. lia. }
  apply map_subseteq_spec. intros k' v' [Hne' Hk']%lookup_delete_Some.
  apply map_lookup_filter_Some. split; [by eapply lookup_weaken|]. simpl.
  rewrite (Hlast k' v') by done. rewrite andb_true_r, Hown.
  by apply map_lookup_filter_Some in Hk' as [_ ?].
Qed.

(** A row with fewer than [cap] rows of its owner before it survives. *)
Lemma capRows_keeps cap m k v :
  m !! k = Some v → count_where (λ v', (owner v' =? owner v) && before v' v) m < cap →
  capRows owner before cap m !! k = Some v.
Proof. intros Hk Hc. apply lookup_delete_where. split; [done|]. by apply Z.leb_gt. Qed.
End Cap.

Lemma count_where_mono {V} (p : V → bool) (m m' : gmap string V) :
  m' ⊆ m → count_where p m' ≤ count_where p m.
Proof.
  intros Hsub. unfold count_where. apply inj_le, map_subseteq_size, map_subseteq_spec.
  intros k v [H Hp]%map_lookup_filter_Some. apply map_lookup_filter_Some. split; [|done].
  by eapply lookup_weaken.
Qed.

(** ** Order of strings *)

Lemma string_compare_trans a b c :
  String.compare a b = Lt → String.compare b c = Lt → String.compare a c = Lt.
Proof.
  revert b c. induction a as [|x a IH]; intros [|y b] [|z c]; simpl; try done.
  unfold Ascii.compare. 
  destruct (N.compare_spec (N_of_ascii x) (N_of_ascii y)) as [E1|E1|E1]; try done;
  destruct (N.compare_spec (N_of_ascii y) (N_of_ascii z)) as [E2|E2|E2]; try done;
  destruct (N.compare_spec (N_of_ascii x) (N_of_ascii z)) as [E3|E3|E3]; try done; try lia.
  apply IH.
Qed.

Lemma string_ltb_lt a b : String.ltb a b = true ↔ String.compare a b = Lt.
Proof. unfold String.ltb. by destruct (String.compare a b). Qed.

Lemma string_ltb_total a b : a ≠ b → String.ltb a b = true ∨ String.ltb b a = true.
Proof.
  intros Hne. rewrite !string_ltb_lt. destruct (String.compare a b) eqn:E; [|by left|right].
  - by apply String.compare_eq_iff in E.
  - by rewrite String.compare_antisym, E.
Qed.

Lemma sessions_rank db : keys_agree db → ranks sessionBefore (o_refresh_sessions db).
Proof.
  intros Hk. unfold sessionBefore. split.
  - intros k1 k2 k3 a b c _ _ _. rewrite !orb_true_iff, !andb_true_iff, !Z.ltb_lt, !Z.eqb_eq, !string_ltb_lt.
    intros [H1|[H1 S1]] [H2|[H2 S2]]; [left; lia|left; lia|left; lia|right].
    split; [lia|]. by eapply string_compare_trans.
  - intros k1 k2 a b H1 H2 Hne. rewrite !orb_true_iff, !andb_true_iff, !Z.ltb_lt, !Z.eqb_eq.
    destruct (Z.lt_trichotomy (rs_IssuedAt a) (rs_IssuedAt b)) as [?|[E|?]]; [by auto| |by auto].
    assert (rs_ID a ≠ rs_ID b) as Hid.
    { rewrite (sessions_keyed _ Hk _ _ H1), (sessions_keyed _ Hk _ _ H2). done. }
    destruct (string_ltb_total _ _ Hid); auto.
Qed.

(** ** Logout *)

(** The row a logout of session [sid] of user [userID] addresses. *)
Definition addressed (userID : Z) (sid : string) (s : RefreshSessionDBModel) : bool :=
  bool_decide (rs_ID s = sid) && (rs_UserID s =? userID) && isNil (rs_RevokedAt s).

(** A step that was carried out, or not. *)
Definition done_if {A} (b : bool) (f : A → A) : A → A := if b then f else id.

(** The denylist with the access token [sid] of [userID] on it. *)
Definition denied (userID : Z) (sid : string) (expires : Z) (m : gmap string RevokedAccessTokenDBModel)
    : gmap string RevokedAccessTokenDBModel :=
  match m !! sid with
  | Some _ => m
  | None => <[sid := mkRevoked sid userID expires]> m
  end.

(** All [LogoutSession] does: it revokes the row and denies the token, either of
    which may fail, and reports success when both were done. *)
Lemma LogoutSession_spec u userID sid expires w : alone w →
  post (LogoutSession u userID sid expires) w (λ r w', ∃ row token now,
    w_db w' = with_revoked (done_if token (denied userID sid expires))
      (with_sessions (done_if row (update_where (addressed userID sid) (revoked now "logout"))) (w_db w)) ∧
    (r = None ↔ row = true ∧ token = true) ∧
    (unavailable u = false → 1 ≤ userID → sid ≠ "" → faultless w → row = true ∧ token = true)).
Proof.
  intros Hw. unfold LogoutSession. m_step.
  { m_step. exists false, false, 0. split_and!; [by destruct (w_db w)|naive_solver|].
    intros Hu ? Hs _. rewrite Hu, bool_decide_eq_false_2, orb_false_r in Heqb by done. simpl in Heqb. lia. }
  unfold RevokeUserRefreshSession, RevokeAccessToken. do 2 apply orb_false_elim in Heqb as [Heqb ?].
  rewrite Heqb, H, H0. cbn [orb]. do 3 m_step; m_step; m_step; m_step.
  1: exists false, false, 0. 2: exists false, true, 0. 3: exists true, false, (w_clock w). 4: exists true, true, (w_clock w).
  all: unfold mret; cbn [fst snd]; split_and!;
    [by repeat match goal with H : w_db _ = _ |- _ => rewrite H; clear H end; destruct (w_db w)|naive_solver|].
  all: intros _ _ _ Hf; try done; exfalso; eauto using calm_faultless.
Qed.

(** The session is retired: its refresh row, if it belongs to the user, is revoked
    and its access token is on the denylist. *)
Definition retired (userID : Z) (sid : string) (db : Database) : Prop :=
  (∀ s, o_refresh_sessions db !! sid = Some s → rs_UserID s = userID → rs_RevokedAt s ≠ None) ∧
  is_Some (o_revoked_access_tokens db !! sid).

Lemma both_retired userID sid expires now db : store_ok db →
  retired userID sid (with_revoked (denied userID sid expires)
    (with_sessions (update_where (addressed userID sid) (revoked now "logout")) db)).
Proof.
  intros Hok. split; simpl.
  - intros s. rewrite lookup_update_where. intros (s0 & H0 & ->)%fmap_Some. unfold addressed.
    rewrite (sessions_keyed _ (ok_keys _ Hok) _ _ H0), bool_decide_eq_true_2 by done. simpl.
    destruct (rs_UserID s0 =? userID) eqn:E; simpl; [|by intros ?; apply Z.eqb_neq in E].
    destruct (rs_RevokedAt s0) eqn:E0; simpl; [by rewrite E0|done].
  - unfold denied. destruct (o_revoked_access_tokens db !! sid) eqn:E; [by rewrite E|].
    rewrite lookup_insert_eq. eauto.
Qed.

(** Every session of the user that is not revoked, as logging out everywhere
    addresses them. *)
Definition live_of (userID : Z) (s : RefreshSessionDBModel) : bool :=
  (rs_UserID s =? userID) && isNil (rs_RevokedAt s).

Lemma bump_users_row userID now m user : (∀ k v, m !! k = Some v → u_Id v = k) →
  m !! userID = Some user → bump_users userID now m = <[userID := bumped now user]> m.
Proof.
  intros Hk Hu. apply map_eq. intros k. unfold bump_users. rewrite lookup_update_where.
  destruct (decide (k = userID)) as [->|Hne].
  - rewrite lookup_insert_eq, Hu. simpl. by rewrite (Hk _ _ Hu), Z.eqb_refl.
  - rewrite lookup_insert_ne by done. destruct (m !! k) as [v|] eqn:E; simpl; [|done].
    by rewrite (Hk _ _ E), (proj2 (Z.eqb_neq k userID)).
Qed.

(** All [LogoutAllSessions] does: nothing, or the generation of the user advances
    and then, in what was reported as success, its live sessions are revoked. *)
Lemma LogoutAllSessions_spec u userID w : alone w → store_ok (w_db w) →
  post (LogoutAllSessions u userID) w (λ r w',
    w_db w' = w_db w ∧ is_Ok r = false ∨
    ∃ user now at_, o_users (w_db w) !! userID = Some user ∧
      w_db w' = with_sessions (done_if (is_Ok r) (update_where (live_of userID) (revoked at_ "logout-all")))
        (with_users <[userID := bumped now user]> (w_db w))).
Proof.
  intros Hw Hok. unfold LogoutAllSessions. m_step; [m_step; by left|]. m_step.
  m_use BumpTokenVersion_spec as r w1 (Hc1 & Hr1); [apply Hok|].
  destruct r as [v|e]; [|destruct Hr1 as [-> _]; by left].
  destruct Hr1 as (now & user & Hdb1 & Hrow & _). unfold with_users in Hdb1.
  rewrite (bump_users_row _ _ _ user) in Hdb1 by (done || apply (users_keyed _ (ok_keys _ Hok))).
  unfold RevokeAllUserSessions. m_step; [m_step|m_step; m_step; m_use revokeUserSessions_spec as r w2 (Hc2 & Hr2)];
    right; exists user, now, (w_clock w1); (split; [done|]).
  - by rewrite Hdb1.
  - destruct r as [[]|e]; [by rewrite Hr2, Hdb1|]. destruct Hr2 as [-> _]. by rewrite Hdb1.
Qed.

(** A session that was revoked, and an account of the next generation, column by
    column. *)
Definition marked (at_ : Z) (reason : string) (s : RefreshSessionDBModel) : RefreshSessionDBModel :=
  mkSession (rs_ID s) (rs_UserID s) (rs_TokenSHA256 s) (rs_IssuedAt s) (rs_ExpiresAt s) (rs_UsedAt s) (rs_ReplacedBy s)
    (Some at_) reason.

Definition advanced (now : Z) (u : UserDBModel) : UserDBModel :=
  mkUser (u_Id u) (u_Username u) (u_Password u) (u_Role u) (u_Email u) (u_Nickname u) (u_Avatar u) (u_Description u)
    (u_TokenVersion u + 1) (u_CreatedAt u) now.

(** C15. Logging out, as a request on its own, retires what it says and nothing else. Logging out one
    session: its refresh row, if it is the user's and live, is revoked and its
    access token is put on the denylist; each of the two may fail, success is
    reported exactly when both were done, and the session is then retired; no other
    row and no other table changes. Logging out everywhere changes nothing and
    fails, or advances the credential generation of the user (with it only the time
    of the last update of that row) and then revokes every live session of the
    user, the latter exactly when it reports success, after which every session of
    the user is revoked; no other row, the denylist included, and no other table
    changes. *)
Theorem logout_complete (u : option userService) (userID : Z) (w : World) :
  alone w → store_ok (w_db w) →
  let db := w_db w in
  (∀ sid expires,
     let run := LogoutSession u userID sid expires w in
     let db' := w_db (snd run) in
     (∃ row token now,
        db' = with_revoked (done_if token (denied userID sid expires))
          (with_sessions (done_if row (update_where (addressed userID sid) (marked now "logout"))) db) ∧
        (fst run = None ↔ row = true ∧ token = true) ∧
        (unavailable u = false → 1 ≤ userID → sid ≠ "" → faultless w → row = true ∧ token = true)) ∧
     (fst run = None → retired userID sid db')) ∧
  (let run := LogoutAllSessions u userID w in
   let db' := w_db (snd run) in
   (db' = db ∧ is_Ok (fst run) = false ∨
    ∃ user now at_, o_users db !! userID = Some user ∧
      db' = with_sessions (done_if (is_Ok (fst run)) (update_where (live_of userID) (marked at_ "logout-all")))
        (with_users <[userID := advanced now user]> db)) ∧
   (is_Ok (fst run) = true →
      ∀ k s, o_refresh_sessions db' !! k = Some s → rs_UserID s = userID → rs_RevokedAt s ≠ None)).
Proof.
  intros Hw Hok db. split.
  - intros sid expires run db'. pose proof (LogoutSession_spec u userID sid expires w Hw) as Hs. split; [exact Hs|].
    destruct Hs as (row & token & now & Hdb & Hr & _). intros Hnil. unfold db', run. rewrite Hdb.
    destruct (proj1 Hr Hnil) as [-> ->]. by apply both_retired.
  - intros run db'. pose proof (LogoutAllSessions_spec u userID w Hw Hok) as Hs. split; [exact Hs|].
    intros Hr k s. destruct Hs as [[_ Hn]|(user & now & at_ & _ & Hdb)]; [unfold run in Hr; congruence|].
    unfold db', run in *. rewrite Hdb, Hr. simpl. rewrite lookup_update_where.
    intros (s0 & _ & ->)%fmap_Some. unfold live_of. destruct (rs_UserID s0 =? userID) eqn:E; simpl;
      [|by intros ?; apply Z.eqb_neq in E]. destruct (rs_RevokedAt s0) eqn:E0; simpl; [by rewrite E0|done].
Qed.

Lemma logout_complete_witness :
  is_Some (o_revoked_access_tokens (w_db (snd
    (LogoutSession (Some liveService) 7 "s1" (2003 * hour) (quietWorld rotateDatabase "")))) !! "s1") ∧
  ∃ user, o_users rotateDatabase !! 7 = Some user ∧
    u_TokenVersion <$> o_users (w_db (snd (LogoutAllSessions (Some liveService) 7 (quietWorld rotateDatabase "")))) !! 7
    = Some (u_TokenVersion user + 1).
Proof.
  destruct (logout_complete (Some liveService) 7 (quietWorld rotateDatabase "") (quietWorld_alone _ _)
    rotateDatabase_ok) as [Hone [Hall _]]. split.
  - destruct (Hone "s1" (2003 * hour)) as [_ H]. apply H. vm_compute. reflexivity.
  - destruct Hall as [[_ H]|(user & now & at_ & Hu & Hdb)]; [vm_compute in H; discriminate H|].
    exists user. split; [exact Hu|]. rewrite Hdb. cbn. by rewrite lookup_insert_eq.
Defined.

(** ** Pruning *)

(** What remains of the tables when every statement of [PruneAuthState] runs. *)
Definition prunedSessions (now : Z) (m : gmap string RefreshSessionDBModel) : gmap string RefreshSessionDBModel :=
  capRows rs_UserID sessionBefore refreshSessionCap (delete_where (λ s, rs_ExpiresAt s <? now) m).

Definition prunedDenylist (tie : RevokedAccessTokenDBModel → RevokedAccessTokenDBModel → bool) (now : Z)
    (m : gmap string RevokedAccessTokenDBModel) : gmap string RevokedAccessTokenDBModel :=
  capRows ra_UserID (revokedBefore tie) revokedAccessCap (delete_where (λ r, ra_ExpiresAt r <? now) m).

(** The tables only lose rows. *)
Definition shrinks (db db' : Database) : Prop :=
  o_users db' = o_users db ∧ o_bootstrap_state db' = o_bootstrap_state db ∧ events db' = events db ∧
  o_refresh_sessions db' ⊆ o_refresh_sessions db ∧
  o_login_attempts db' ⊆ o_login_attempts db ∧
  o_revoked_access_tokens db' ⊆ o_revoked_access_tokens db ∧
  o_credential_events db' ⊆ o_credential_events db.

#[export] Instance shrinks_preorder : PreOrder shrinks.
Proof.
  split; [by intros db; split_and!|].
  intros x y z (? & ? & ? & ? & ? & ? & ?) (? & ? & ? & ? & ? & ? & ?).
  split_and!; [congruence|congruence|congruence|by etrans..].
Qed.

#[export] Instance shrinks_guarantee : Guarantee solo shrinks.
Proof. split; [apply _|]. intros db db' ->. done. Qed.

Lemma delete_where_subseteq {V} p (m : gmap string V) : delete_where p m ⊆ m.
Proof. apply map_filter_subseteq. Qed.

Lemma PruneAuthState_shrinks tie u now : within solo shrinks (PruneAuthState tie u now).
Proof.
  unfold PruneAuthState. within_solve; intros db; split_and!; try done; simpl;
    try apply delete_where_subseteq; try apply capRows_subseteq.
  intros e [_ ?]%list_elem_of_filter. done.
Qed.

Lemma PruneAuthState_spec tie u now w :
  unavailable u = false → alone w → faultless w →
  post (PruneAuthState tie u now) w (λ _ w',
    o_refresh_sessions (w_db w') = prunedSessions now (o_refresh_sessions (w_db w)) ∧
    o_revoked_access_tokens (w_db w') = prunedDenylist tie now (o_revoked_access_tokens (w_db w))).
Proof.
  intros Hu Hw Hf. unfold PruneAuthState. rewrite Hu.
  do 6 (m_step; m_step;
    [exfalso; match goal with H : ¬ faultless ?w1 |- _ => apply H end;
     repeat match goal with Hc : calm _ ?w1 |- faultless ?w1 => apply (calm_faultless _ _ Hc) end; exact Hf|]).
  m_step. repeat match goal with H : w_db _ = _ |- _ => rewrite H; clear H end. done.
Qed.

(** Pruning sessions: whatever fails, pruning only removes rows and touches
    neither users nor the bootstrap state; when every statement runs, no user is
    left with more than 256 sessions, none of them expired, and an unexpired
    session, consumed or not, is dropped only when 256 newer ones of the same user
    exist. *)
Lemma prune_sessions (tie : RevokedAccessTokenDBModel → RevokedAccessTokenDBModel → bool)
    (u : option userService) (now : Z) (w : World) :
  unavailable u = false → alone w → store_ok (w_db w) →
  let db := w_db w in
  let db' := w_db (snd (PruneAuthState tie u now w)) in
  shrinks db db' ∧
  (faultless w →
     (∀ id, count_where (λ s, rs_UserID s =? id) (o_refresh_sessions db') ≤ refreshSessionCap) ∧
     (∀ k s, o_refresh_sessions db' !! k = Some s → now ≤ rs_ExpiresAt s) ∧
     (∀ k s, o_refresh_sessions db !! k = Some s → now ≤ rs_ExpiresAt s →
        count_where (λ s', (rs_UserID s' =? rs_UserID s) && sessionBefore s' s) (o_refresh_sessions db)
          < refreshSessionCap →
        o_refresh_sessions db' !! k = Some s)).
Proof.
  intros Hu Hw Hok db db'. split; [apply (PruneAuthState_shrinks tie u now w Hw)|].
  intros Hf. destruct (PruneAuthState_spec tie u now w Hu Hw Hf) as [Hs _].
  change (o_refresh_sessions db' = prunedSessions now (o_refresh_sessions db)) in Hs. rewrite Hs.
  split_and!.
  - intros id. apply capRows_bound; [done|]. eapply ranks_subseteq; [apply delete_where_subseteq|].
    apply sessions_rank, Hok.
  - intros k s Hk. eapply lookup_weaken in Hk; [|apply capRows_subseteq].
    apply lookup_delete_where in Hk as [_ ?%Z.ltb_ge]. done.
  - intros k s Hk Hexp Hrank. apply capRows_keeps.
    + apply lookup_delete_where. split; [done|]. by apply Z.ltb_ge.
    + eapply Z.le_lt_trans; [apply count_where_mono, delete_where_subseteq|done].
Qed.

(** A revocation still in force that the cap does not reach. *)
Definition protected (tie : RevokedAccessTokenDBModel → RevokedAccessTokenDBModel → bool) (now : Z)
    (m : gmap string RevokedAccessTokenDBModel) (r : RevokedAccessTokenDBModel) : Prop :=
  now ≤ ra_ExpiresAt r ∧
  count_where (λ r', (ra_UserID r' =? ra_UserID r) && revokedBefore tie r' r) m < revokedAccessCap.

(** What is assumed of the order SQLite puts rows of equal expiry in: it is one. *)
Record orders (tie : RevokedAccessTokenDBModel → RevokedAccessTokenDBModel → bool) : Prop := {
  orders_trans a b c : tie a b = true → tie b c = true → tie a c = true;
  orders_total a b : ra_JTI a ≠ ra_JTI b → tie a b = true ∨ tie b a = true;
}.

Lemma byJTI_orders : orders byJTI.
Proof.
  split; intros a b; unfold byJTI; [intros c; rewrite !string_ltb_lt; apply string_compare_trans|].
  apply string_ltb_total.
Qed.

Lemma revoked_rank tie db : orders tie → keys_agree db → ranks (revokedBefore tie) (o_revoked_access_tokens db).
Proof.
  intros [Ht Ho] Hk. unfold revokedBefore. split.
  - intros k1 k2 k3 a b c _ _ _. rewrite !orb_true_iff, !andb_true_iff, !Z.ltb_lt, !Z.eqb_eq.
    intros [H1|[H1 S1]] [H2|[H2 S2]]; [left; lia|left; lia|left; lia|right]. split; [lia|eauto].
  - intros k1 k2 a b H1 H2 Hne. rewrite !orb_true_iff, !andb_true_iff, !Z.ltb_lt, !Z.eqb_eq.
    destruct (Z.lt_trichotomy (ra_ExpiresAt a) (ra_ExpiresAt b)) as [?|[E|?]]; [by auto| |by auto].
    destruct (Ho a b) as [?|?]; [|by auto|by auto].
    by rewrite (revoked_keyed _ Hk _ _ H1), (revoked_keyed _ Hk _ _ H2).
Qed.

(** Pruning the denylist cannot resurrect a logged-out token of anyone who
    has not logged out a thousand later ones: without faults, a revocation that
    has not expired survives unless 1024 revocations of the same user precede it in
    expiry order, whatever other users revoke, and no expired one is kept. *)
Lemma prune_denylist (tie : RevokedAccessTokenDBModel → RevokedAccessTokenDBModel → bool)
    (u : option userService) (now : Z) (w : World) :
  unavailable u = false → alone w → faultless w → store_ok (w_db w) →
  let before := o_revoked_access_tokens (w_db w) in
  let after := o_revoked_access_tokens (w_db (snd (PruneAuthState tie u now w))) in
  (orders tie → ∀ id, count_where (λ r, ra_UserID r =? id) after ≤ revokedAccessCap) ∧
  (∀ k r, before !! k = Some r → protected tie now before r → after !! k = Some r) ∧
  (∀ k r, after !! k = Some r → before !! k = Some r ∧ now ≤ ra_ExpiresAt r).
Proof.
  intros Hu Hw Hf Hok before after.
  destruct (PruneAuthState_spec tie u now w Hu Hw Hf) as [_ Hs].
  change (after = prunedDenylist tie now before) in Hs. rewrite Hs. split_and!.
  - intros Htie id. apply capRows_bound; [done|]. eapply ranks_subseteq; [apply delete_where_subseteq|].
    apply revoked_rank; [done|apply Hok].
  - intros k r Hk [Hexp Hrank]. apply capRows_keeps.
    + apply lookup_delete_where. split; [done|]. by apply Z.ltb_ge.
    + eapply Z.le_lt_trans; [apply count_where_mono, delete_where_subseteq|done].
  - intros k r Hk. eapply lookup_weaken in Hk; [|apply capRows_subseteq].
    by apply lookup_delete_where in Hk as [? ?%Z.ltb_ge].
Qed.

Definition denylistDatabase : Database :=
  with_revoked (λ _, {["j1" := mkRevoked "j1" 7 (2003 * hour); "j2" := mkRevoked "j2" 8 (1999 * hour)]})
    rotateDatabase.

(** The order in which rows of one user are kept: later issued, or later expiring. *)
Definition newer (a b : RefreshSessionDBModel) : bool :=
  (rs_IssuedAt b <? rs_IssuedAt a) || ((rs_IssuedAt a =? rs_IssuedAt b) && String.ltb (rs_ID b) (rs_ID a)).

Definition outlasts (tie : RevokedAccessTokenDBModel → RevokedAccessTokenDBModel → bool) (a b : RevokedAccessTokenDBModel) : bool :=
  (ra_ExpiresAt b <? ra_ExpiresAt a) || ((ra_ExpiresAt a =? ra_ExpiresAt b) && tie a b).

(** C16. Pruning, on its own, bounds what one user accumulates and keeps what is in force.
    Whatever fails, it only removes rows, and touches neither users, events nor the
    bootstrap state. When every statement runs, no user is left with more than 256
    sessions or, SQLite ordering the rows of equal expiry in some way, with more
    than 1024 revocations, and none of either has expired; an unexpired session,
    consumed or not, is dropped only when 256 of the same user come before it; and
    an unexpired revocation is dropped only when 1024 of the same user come before
    it, whatever other users revoke, so that pruning resurrects no logged-out token
    below that number. *)
Theorem prune_retention (tie : RevokedAccessTokenDBModel → RevokedAccessTokenDBModel → bool)
    (u : option userService) (now : Z) (w : World) :
  unavailable u = false → alone w → store_ok (w_db w) →
  let db := w_db w in
  let db' := w_db (snd (PruneAuthState tie u now w)) in
  shrinks db db' ∧
  (faultless w →
     (∀ id, count_where (λ s, rs_UserID s =? id) (o_refresh_sessions db') ≤ 256) ∧
     (orders tie → ∀ id, count_where (λ r, ra_UserID r =? id) (o_revoked_access_tokens db') ≤ 1024) ∧
     (∀ k s, o_refresh_sessions db' !! k = Some s → now ≤ rs_ExpiresAt s) ∧
     (∀ k s, o_refresh_sessions db !! k = Some s → now ≤ rs_ExpiresAt s →
        count_where (λ s', (rs_UserID s' =? rs_UserID s) && newer s' s) (o_refresh_sessions db) < 256 →
        o_refresh_sessions db' !! k = Some s) ∧
     (∀ k r, o_revoked_access_tokens db' !! k = Some r →
        o_revoked_access_tokens db !! k = Some r ∧ now ≤ ra_ExpiresAt r) ∧
     (∀ k r, o_revoked_access_tokens db !! k = Some r → now ≤ ra_ExpiresAt r →
        count_where (λ r', (ra_UserID r' =? ra_UserID r) && outlasts tie r' r) (o_revoked_access_tokens db)
          < 1024 →
        o_revoked_access_tokens db' !! k = Some r)).
Proof.
  intros Hu Hw Hok db db'. destruct (prune_sessions tie u now w Hu Hw Hok) as [Hs Hl]. split; [exact Hs|].
  intros Hf. destruct (Hl Hf) as (H1 & H2 & H3). destruct (prune_denylist tie u now w Hu Hw Hf Hok) as (H4 & H5 & H6).
  split_and!; try assumption. intros k r Hk He Hc. by apply H5.
Qed.

Lemma denylistDatabase_ok : store_ok denylistDatabase.
Proof.
  destruct rotateDatabase_ok as [[Hu Hs Ha Hr] Hd Hv]. split; [|exact Hd|exact Hv]. split; [exact Hu|exact Hs|exact Ha|].
  intros k r H.
  change (({["j1" := mkRevoked "j1" 7 (2003 * hour); "j2" := mkRevoked "j2" 8 (1999 * hour)]}
    : gmap string RevokedAccessTokenDBModel) !! k = Some r) in H.
  apply lookup_insert_Some in H as [[<- <-]|[_ H]]; [reflexivity|].
  apply lookup_singleton_Some in H as [<- <-]. reflexivity.
Qed.

Abbreviation prunedWorld :=
  (w_db (snd (PruneAuthState byJTI (Some liveService) (2000 * hour) (quietWorld denylistDatabase "")))).

Lemma prune_retention_witness :
  o_refresh_sessions prunedWorld !! "s0" = Some (rotateSession "s0" "d0" 7 (Some (1995 * hour))) ∧
  o_revoked_access_tokens prunedWorld !! "j1" = Some (mkRevoked "j1" 7 (2003 * hour)) ∧
  count_where (λ r, ra_UserID r =? 7) (o_revoked_access_tokens prunedWorld) ≤ 1024.
Proof.
  destruct (prune_retention byJTI (Some liveService) (2000 * hour) (quietWorld denylistDatabase "") eq_refl
    (quietWorld_alone _ _) denylistDatabase_ok) as [_ H].
  destruct H as (_ & Hcap & _ & Hs & _ & Hr); [intros n; reflexivity|]. split_and!.
  - apply Hs; [vm_compute; reflexivity|vm_compute; discriminate|vm_compute; reflexivity].
  - apply Hr; [vm_compute; reflexivity|vm_compute; discriminate|vm_compute; reflexivity].
  - apply Hcap, byJTI_orders.
Defined.
