(* ===== verification/Issue.v ===== *)
(** * Issuing sessions (src/service/session_issue.go)

    Login sessions and refresh: token minting, session bookkeeping and the lockout
    composed as the service composes them. *)

From stdpp Require Import prelude strings gmap sorting.
From Stdlib Require Import ZArith Lia Ascii.
From S2P Require Import Prelude GoStrings Password FileSystem Tables Store Guarantee AuthSecurity Sha256 Bootstrap Sessions Rotation Lockout Retention.

Local Open Scope Z_scope.
Local Open Scope m_scope.

Record IssuedSession := mkIssued {
  is_User : UserDBModel;
  is_SessionID : string;
  is_AccessToken : string;
  is_RefreshToken : string;
  is_IssuedAt : Z;
  is_ExpiresAt : Z;
}.

(** What the closure [publicKeyFunc] returns when it is called. *)
Definition publicKeyFunc (u : option userService) : res (option PublicKey) :=
  match u with
  | Some u' =>
     match svc_publicKey u' with
     | Some key => Ok (Some key)
     | None => Err (NewError "signing key is unavailable")
     end
  | None => Err (NewError "signing key is unavailable")
  end.

Definition privateKeyOf (u : option userService) : option PrivateKey :=
  match u with Some u' => svc_privateKey u' | None => None end.

(** Any minting error is reported as a signing failure. *)
Definition signing {A} (m : M (res A)) : M (res A) :=
  r <- m;;
  mret match r with Ok a => Ok a | Err _ => Err ErrRefreshSigning end.

Section Issue.
Context (J : JWT SessionClaims)
        (tie : RevokedAccessTokenDBModel → RevokedAccessTokenDBModel → bool).

Definition issueSessionPair (u : option userService) (user : UserDBModel) (now : Z)
    : M (res IssuedSession) :=
  ok sessionID <- NewTokenID;;
  ok access <- signing (MintAccessToken J (u_Username user) (u_Id user) (u_TokenVersion user)
                          sessionID (privateKeyOf u));;
  ok refresh <- signing (MintRefreshToken J (u_Username user) (u_Id user) (u_TokenVersion user)
                           sessionID (privateKeyOf u));;
  let expiresAt := now + RefreshTokenLifetime in
  ok _ <- CreateRefreshSession u (u_Id user) (TokenSHA256 refresh) now expiresAt sessionID;;
  mret (Ok (mkIssued user sessionID access refresh now (now + AccessTokenLifetime))).

Definition IssueLoginSession (u : option userService) (userID now : Z) : M (res IssuedSession) :=
  if unavailable u || (userID <? 1) then mret (Err (NewError "invalid login session request"))
  else
    ok user <- findUser userID or "load user for session issuance";;
    ok issued <- issueSessionPair u user now;;
    _ <- PruneAuthState tie u now;;
    mret (Ok issued).

(** A refresh that fails its checks is counted against the user's budget. *)
Definition rejectRefresh (u : option userService) (lockKey : string) (now : Z) : M (res IssuedSession) :=
  recorded <- RecordLoginFailure u lockKey now;;
  match recorded with
  | Err recordErr => mret (Err recordErr)
  | Ok _ => mret (Err ErrInvalidRefreshSession)
  end.

Definition IssueRefreshedTokens (u : option userService) (presented : string) (now : Z)
    : M (res IssuedSession) :=
  match u with
  | None => mret (Err ErrInvalidRefreshSession)
  | Some u' =>
     if negb (svc_db u') || bool_decide (presented = "") then mret (Err ErrInvalidRefreshSession)
     else if isNil (svc_privateKey u') || isNil (svc_publicKey u') then mret (Err ErrRefreshSigning)
     else
       validated <- ValidateSessionRefreshToken J presented (Some (publicKeyFunc u));;
       match validated with
       | Err _ => mret (Err ErrInvalidRefreshSession)
       | Ok claims =>
          let lockKey := LoginAttemptKey "refresh" (Itoa (sc_UserID claims)) in
          lock <- CheckLoginLockout u lockKey now;;
          if (lock : bool * Z).1 then mret (Err ErrRateLimitLocked)
          else
            found <- findUser (sc_UserID claims);;
            match found with
            | Err _ => rejectRefresh u lockKey now
            | Ok user =>
               if negb (bool_decide (u_Username user = sc_Username claims)) ||
                  negb (u_TokenVersion user =? sc_TokenVersion claims)
               then rejectRefresh u lockKey now
               else
                 newID <- NewTokenID;;
                 match newID with
                 | Err _ => mret (Err ErrInvalidRefreshSession)
                 | Ok replacementID =>
                    ok replacementRefresh <- signing (MintRefreshToken J (u_Username user) (u_Id user)
                      (u_TokenVersion user) replacementID (svc_privateKey u'));;
                    ok replacementAccess <- signing (MintAccessToken J (u_Username user) (u_Id user)
                      (u_TokenVersion user) replacementID (svc_privateKey u'));;
                    rotated <- RotateRefreshSession u (TokenSHA256 presented) replacementID
                      (TokenSHA256 replacementRefresh) now (now + RefreshTokenLifetime) now;;
                    match rotated with
                    | Err e =>
                       if errors_Is e ErrRefreshSessionReused then mret (Err ErrRefreshSessionReused)
                       else if errors_Is e ErrInvalidRefreshSession then rejectRefresh u lockKey now
                       else mret (Err e)
                    | Ok _ =>
                       _ <- RecordLoginSuccess u lockKey;;
                       _ <- PruneAuthState tie u now;;
                       mret (Ok (mkIssued user replacementID replacementAccess replacementRefresh now
                                   (now + AccessTokenLifetime)))
                    end
                 end
            end
       end
  end.
End Issue.

(** ** What minting and issuing establish *)

(** The identity a token carries. *)
Definition carries (decode : string → option (SigningMethod * SessionClaims)) (token issuer sessionID : string)
    (user : UserDBModel) : Prop :=
  ∃ c, decode token = Some (SigningMethodES256, c) ∧ wellFormed issuer c ∧
    jti (sc_Registered c) = sessionID ∧ sc_UserID c = u_Id user ∧
    sc_Username c = u_Username user ∧ sc_TokenVersion c = u_TokenVersion user.

(** The account's fields survive the token encoding. *)
Record encodableUser (user : UserDBModel) : Prop := {
  eu_name : ascii_text (u_Username user) = true;
  eu_id : int64 (u_Id user);
  eu_version : int64 (u_TokenVersion user);
}.

(** The clock is within the range of the token's dates. *)
Definition datable (now : Z) : Prop := 0 ≤ now < 2 ^ 62 * second.

Lemma datable_le t1 t2 : 0 ≤ t1 → t1 ≤ t2 → datable t2 → datable t1.
Proof. unfold datable. lia. Qed.

(** A request on its own satisfies every rely condition on invariants. *)
Lemma alone_keeps I w : alone w → rely (others_keep I) w.
Proof. intros Hw n. destruct (Hw n) as [Hdb Hfs]. split; [|apply Hfs]. intros db. by rewrite <- Hdb. Qed.

Section IssueFacts.
Context (J : JWT SessionClaims) (decode : string → option (SigningMethod * SessionClaims))
        (genuine : PublicKey → string → Prop) `{!JWTSpec J decode genuine}.
Context (tie : RevokedAccessTokenDBModel → RevokedAccessTokenDBModel → bool).

Lemma date_whole t : 0 ≤ t < 2 ^ 63 * second → whole_second (Some (NewNumericDate J t)).
Proof.
  intros Ht. destruct (jwt_date t) as (s & -> & Hs); [lia|]. exists s. split; [done|].
  unfold int64, second in *. lia.
Qed.

Lemma minted_encodable user sessionID issuer lifetime now :
  encodableUser user → ascii_text sessionID = true → ascii_text issuer = true → datable now →
  0 ≤ lifetime < 2 ^ 62 * second →
  encodable (mintedClaims J (u_Username user) (u_Id user) (u_TokenVersion user) sessionID issuer lifetime now).
Proof.
  intros [] Hs Hi Hn Hl. unfold datable, second in *. split; simpl; try done; try (apply date_whole; unfold second; lia).
  by rewrite Hs, Hi, eu_name0.
Qed.

Lemma signing_mint_spec user sessionID issuer lifetime key w :
  alone w → ascii_text sessionID = true → ascii_text issuer = true →
  0 ≤ lifetime < 2 ^ 62 * second →
  post (signing (mintSessionToken J (u_Username user) (u_Id user) (u_TokenVersion user) sessionID
          issuer lifetime key)) w (λ r w',
    runs w w' ∧ w_db w' = w_db w ∧ w_clock w' = w_clock w ∧
    match r with
    | Ok t => datable (w_clock w) → encodableUser user → carries decode t issuer sessionID user
    | Err e => e = ErrRefreshSigning
    end).
Proof.
  intros Hw Hs Hi Hl. unfold signing. m_step.
  m_use mintSessionToken_spec as r w1 (Hr & Hd & Hf & Hc & Ht).
  m_step. split_and!; try done. destruct r as [t|e]; [|done]. intros Hn Hu.
  destruct (Ht t eq_refl) as (k & -> & Hname & Hid & Hjti & Hver & Henc).
  destruct Henc as [Hdec Hgen]; [by apply minted_encodable|].
  eexists. split_and!; done.
Qed.

Lemma ascii_access : ascii_text AccessTokenIssuer = true. Proof. done. Qed.
Lemma ascii_refresh : ascii_text RefreshTokenIssuer = true. Proof. done. Qed.
Lemma access_life : 0 ≤ AccessTokenLifetime < 2 ^ 62 * second. Proof. done. Qed.
Lemma refresh_life : 0 ≤ RefreshTokenLifetime < 2 ^ 62 * second. Proof. done. Qed.

(** The bookkeeping after a rotation keeps the consumed digest consumed. *)
Lemma bookkeeping_spent u key now d w :
  alone w → spent d (w_db w) →
  post (_ <- RecordLoginSuccess u key;; PruneAuthState tie u now) w (λ _ w',
    w_clock w ≤ w_clock w' ∧ spent d (w_db w')).
Proof.
  intros Hw Hs. assert (within (others_keep (spent d)) (keeps (spent d))
    (performAll countIDs tie u [CallSuccess key; CallPrune now])) as H.
  { apply performAll_within; [exact _|]. apply Forall_cons; split; [|apply Forall_cons; split; [|done]];
    by apply perform_spent. }
  specialize (H w (alone_keeps _ _ Hw)). simpl in H. unfold post, mbind in *.
  destruct (RecordLoginSuccess u key w) as [[] w1], (PruneAuthState tie u now w1) as [[] w2].
  destruct H. simpl in *. auto.
Qed.

(** Success of a refresh, from the end backwards. *)
Definition refreshed (u : userService) (presented : string) (now : Z) (db : Database) (issued : IssuedSession)
    : Prop :=
  ∃ key claims old,
    svc_publicKey u = Some key ∧ genuine key presented ∧ usableKey (Some key) = true ∧
    decode presented = Some (SigningMethodES256, claims) ∧ wellFormed RefreshTokenIssuer claims ∧
    o_users db !! sc_UserID claims = Some (is_User issued) ∧
    u_Username (is_User issued) = sc_Username claims ∧
    u_TokenVersion (is_User issued) = sc_TokenVersion claims ∧
    presents db (TokenSHA256 presented) old ∧ live old now.

Lemma TokenSHA256_nonempty t : TokenSHA256 t ≠ "".
Proof.
  intros E. apply (f_equal String.length) in E. unfold TokenSHA256 in E.
  rewrite hex_encode_length, sha256_length in E. discriminate E.
Qed.

Lemma CheckLoginLockout_calm u key now w : alone w →
  post (CheckLoginLockout u key now) w (λ _ w', calm w w' ∧ w_db w' = w_db w).
Proof.
  intros Hw. unfold CheckLoginLockout, findAttempt. m_step; [m_step; eauto with store|].
  do 2 m_step; [m_step; eauto with store|]. repeat case_match; m_step; eauto with store.
Qed.

Lemma RotateRefreshSession_spent u d rid rsha i e now w :
  alone w → store_ok (w_db w) → rid ≠ "" → rsha ≠ "" → d ≠ "" → unavailable u = false →
  post (RotateRefreshSession u d rid rsha i e now) w (λ r w', calm w w' ∧
    ∀ s, r = Ok s → spent d (w_db w') ∧ ∃ old, presents (w_db w) d old ∧ live old now).
Proof.
  intros Hw Hok H1 H2 H3 Hu. assert (usable u [d; rid; rsha]) as Hus by (split; [done|by repeat constructor]).
  m_use RotateRefreshSession_spec as r w' [Hc Hr]. split; [done|]. intros s ->.
  destruct Hr as (old & [Hat Hdig] & Hlive & [_ Hfr] & _ & ->). split; [|by exists old].
  intros k s0. simpl. unfold rotated. simpl. rewrite lookup_insert_Some.
  intros [[_ <-]|[_ H0]]; simpl; [intros ->; by destruct (Hfr _ _ Hat)|].
  apply lookup_insert_Some in H0 as [[_ <-]|[Hne H0]]; simpl; [by left|]. intros Hd.
  destruct Hne. by eapply (ok_digests _ Hok); [exact Hat|exact H0|congruence].
Qed.

Lemma validate_post token issuer publicKey w :
  post (validateSessionToken J token issuer publicKey) w (λ r w', w' = w ∧ ∀ c, r = Ok c →
    wellFormed issuer c ∧ decode token = Some (SigningMethodES256, c) ∧
    token ≠ "" ∧ (len token ≤ maxTokenSize)%N ∧ in_force (sc_Registered c) (w_clock w) ∧
    ∃ key, publicKey = Some (Ok (Some key)) ∧ usableKey (Some key) = true ∧ genuine key token).
Proof.
  split; [|intros c; by apply validateSessionToken_sound].
  unfold validateSessionToken. repeat case_match; try done. unfold mbind, time_Now. by case_match.
Qed.

Lemma reject_never u key now w (Q : IssuedSession → World → Prop) :
  post (rejectRefresh u key now) w (λ r w', ∀ issued, r = Ok issued → Q issued w').
Proof. unfold post, rejectRefresh, mbind. by destruct (RecordLoginFailure u key now w) as [[] ?]. Qed.

Lemma refresh_spec u presented now w :
  alone w → store_ok (w_db w) → 0 ≤ w_clock w →
  post (IssueRefreshedTokens J tie (Some u) presented now) w (λ r w', ∀ issued, r = Ok issued →
    refreshed u presented now (w_db w) issued ∧ spent (TokenSHA256 presented) (w_db w') ∧
    (datable (w_clock w') → encodableUser (is_User issued) →
     carries decode (is_AccessToken issued) AccessTokenIssuer (is_SessionID issued) (is_User issued) ∧
     carries decode (is_RefreshToken issued) RefreshTokenIssuer (is_SessionID issued) (is_User issued))).
Proof.
  intros Hw Hok H0. unfold IssueRefreshedTokens. do 2 (m_step; [by m_step|]). bool_split. m_step.
  eapply post_mono; [apply validate_post|]. intros r w0 [-> Hval]. destruct r as [claims|e]; [|by m_step].
  destruct (Hval claims eq_refl) as (Hwf & Hdec & _ & _ & _ & key & Hkey & Huse & Hgen). clear Hval.
  unfold publicKeyFunc in Hkey. destruct (svc_publicKey u) as [key'|] eqn:Hpk; [|done].
  injection Hkey as ->. m_step. m_use CheckLoginLockout_calm as lock w1 [Hc1 Hd1]. m_step; [by m_step|].
  rewrite <- Hd1 in Hok. m_step. m_use findUser_spec as r w2 (Hc2 & Hd2 & Hr2); [apply Hok|].
  destruct r as [user|e]; [|by apply reject_never].
  m_step; [by apply reject_never|].
  match goal with H : negb _ || _ = false |- _ => apply orb_false_elim in H as [Hname Hver] end.
  apply negb_false_iff, bool_decide_eq_true in Hname. apply negb_false_iff, Z.eqb_eq in Hver.
  m_step. m_use NewTokenID_spec as r w3 (Hr3 & Hd3 & _ & Hcl3 & Hid).
  destruct r as [rid|e]; [|by m_step]. destruct Hid as [Hlen Hascii].
  m_step. m_use signing_mint_spec as r w4 (Hr4 & Hd4 & Hcl4 & Ht4); [done..|].
  destruct r as [refresh|e]; [|done].
  m_step. m_use signing_mint_spec as r w5 (Hr5 & Hd5 & Hcl5 & Ht5); [done..|].
  destruct r as [access|e]; [|done].
  assert (w_db w5 = w_db w1) as Hdb5 by congruence. rewrite <- Hdb5 in Hok.
  m_step. eapply post_mono; [apply RotateRefreshSession_spent; eauto using TokenSHA256_nonempty with store|].
  { by intros ->. }
  { simpl. by rewrite H2. }
  intros r w6 [Hc6 Hr6]. destruct r as [s|e].
  2:{ repeat case_match; (by apply reject_never) || by m_step. }
  destruct (Hr6 s eq_refl) as [Hspent (old & Hpres & Hlive)]. rewrite Hdb5, Hd1 in Hpres.
  assert (∀ A (m1 : M A) B (m2 : M B) C (r : C) Q, post (_ <- m1;; m2) w6 (λ _ w', Q r w') →
    post (_ <- m1;; _ <- m2;; mret r) w6 Q) as Hassoc.
  { intros A m1 B m2 C r Q. unfold post, mbind. destruct (m1 w6). by destruct (m2 w0). }
  apply Hassoc. eapply post_mono; [apply (bookkeeping_spent (Some u)); [eauto with store|exact Hspent]|].
  intros _ w7 [Hcl7 Hsp7] issued [= <-]. simpl. split_and!; [|done|].
  { exists key, claims, old. rewrite <- Hd1 at 1. split_and!; done. }
  intros Hdate Henc.
  assert (datable (w_clock w2)) as Hdate2.
  { eapply datable_le; [..|exact Hdate]; destruct Hc1, Hc2, Hc6, Hr3; lia. }
  rewrite Hcl4, Hcl3 in Ht5. rewrite Hcl3 in Ht4. auto.
Qed.

Lemma insertSession_created s w : alone w →
  post (insertSession s) w (λ r w', calm w w' ∧ ∀ a, r = Ok a →
    fresh (w_db w) (rs_ID s) (rs_TokenSHA256 s) ∧ w_db w' = with_sessions <[rs_ID s := s]> (w_db w)).
Proof. intros Hw. m_use insertSession_spec as r w' [Hc Hr]. split; [done|]. intros a ->. done. Qed.

Lemma login_spec u userID now w :
  alone w → store_ok (w_db w) → 0 ≤ w_clock w →
  post (IssueLoginSession J tie u userID now) w (λ r w', ∀ issued, r = Ok issued →
    0 ≤ w_clock w' ∧
    o_users (w_db w) !! userID = Some (is_User issued) ∧
    (∃ s, s = mkSession (is_SessionID issued) (u_Id (is_User issued)) (TokenSHA256 (is_RefreshToken issued))
                now (now + RefreshTokenLifetime) None "" None "" ∧
       fresh (w_db w) (rs_ID s) (rs_TokenSHA256 s) ∧
       shrinks (with_sessions <[rs_ID s := s]> (w_db w)) (w_db w')) ∧
    (datable (w_clock w') → encodableUser (is_User issued) →
     carries decode (is_AccessToken issued) AccessTokenIssuer (is_SessionID issued) (is_User issued) ∧
     carries decode (is_RefreshToken issued) RefreshTokenIssuer (is_SessionID issued) (is_User issued))).
Proof.
  intros Hw Hok H0. unfold IssueLoginSession. m_step; [by m_step|].
  m_step. m_use findUser_spec as r w1 (Hc1 & Hd1 & Hr1); [apply Hok|]. destruct r as [user|e]; [|done].
  m_step. unfold issueSessionPair. m_step. m_use NewTokenID_spec as r w2 (Hr2 & Hd2 & _ & Hcl2 & Hid).
  destruct r as [sid|e]; [|done]. destruct Hid as [Hlen Hascii].
  m_step. m_use signing_mint_spec as r w3 (Hr3 & Hd3 & Hcl3 & Ht3); [done..|].
  destruct r as [access|e]; [|done].
  m_step. m_use signing_mint_spec as r w4 (Hr4 & Hd4 & Hcl4 & Ht4); [done..|].
  destruct r as [refresh|e]; [|done].
  assert (w_db w4 = w_db w) as Hdb4 by congruence.
  m_step. unfold CreateRefreshSession. do 2 (m_step; [by m_step|]).
  m_use insertSession_created as r w5 [Hc5 Hr5]. destruct r as [a|e]; [|done].
  destruct (Hr5 a eq_refl) as [Hfresh Hdb5]. rewrite Hdb4 in *. do 2 m_step.
  eapply post_mono; [apply (PruneAuthState_shrinks tie u now w5); eauto with store|].
  intros _ w6 [_ _ _ Hcl6 Hsh]. m_step. intros issued [= <-]. simpl. split_and!; [destruct Hc1, Hc5; lia|done| |].
  { eexists. split; [done|]. split; [exact Hfresh|]. rewrite <- Hdb5. exact Hsh. }
  intros Hdate Henc. assert (datable (w_clock w1)) as Hdate1.
  { eapply datable_le; [..|exact Hdate]; destruct Hc1, Hc5; lia. }
  rewrite Hcl3, Hcl2 in Ht4. rewrite Hcl2 in Ht3. auto.
Qed.
End IssueFacts.

(** ** Properties *)

(** C17. A refresh is authorised and single-use: when [IssueRefreshedTokens]
    returns a session, on whatever fault schedule, the presented token was a
    well-formed refresh token signed under the service's usable key, its user
    exists with the name and the credential generation the token carries, its
    digest selected a live session, that digest can never be rotated again, and the
    new access and refresh tokens carry exactly that user, generation and the new
    session's identifier, each in its own class. *)
Theorem refresh_sound (J : JWT SessionClaims) (decode : string → option (SigningMethod * SessionClaims))
    (genuine : PublicKey → string → Prop)
    (tie : RevokedAccessTokenDBModel → RevokedAccessTokenDBModel → bool)
    (u : userService) (presented : string) (now : Z) (issued : IssuedSession) (w w' : World) :
  JWTSpec J decode genuine → alone w → store_ok (w_db w) → 0 ≤ w_clock w →
  IssueRefreshedTokens J tie (Some u) presented now w = (Ok issued, w') →
  refreshed decode genuine u presented now (w_db w) issued ∧
  spent (TokenSHA256 presented) (w_db w') ∧
  (datable (w_clock w') → encodableUser (is_User issued) →
   carries decode (is_AccessToken issued) AccessTokenIssuer (is_SessionID issued) (is_User issued) ∧
   carries decode (is_RefreshToken issued) RefreshTokenIssuer (is_SessionID issued) (is_User issued)).
Proof.
  intros HJ Hw Hok H0 Hrun.
  exact (post_run _ _ _ (refresh_spec J decode genuine tie u presented now w Hw Hok H0) _ _ Hrun issued eq_refl).
Qed.

Definition ann : UserDBModel := mkUser 7 "ann" "" "user" "" "" "" "" 2 1 1.

(** The refresh token of a session of [ann]. *)
Definition annRefresh : string :=
  ToyJWT.encode toyKey (mintedClaims ToyJWT.jwt "ann" 7 2 "s1" RefreshTokenIssuer RefreshTokenLifetime (1990 * hour)).

Definition annSession : RefreshSessionDBModel :=
  mkSession "s1" 7 (TokenSHA256 annRefresh) (1990 * hour) (2158 * hour) None "" None "".

Definition annDatabase : Database :=
  with_sessions <["s1" := annSession]> (with_users <[7 := ann]> emptyDatabase).

Lemma annDatabase_ok : store_ok annDatabase.
Proof.
  apply (store_ok_insert annSession).
  - reflexivity.
  - intros k s H. discriminate H.
  - apply TokenSHA256_nonempty.
  - discriminate.
  - split.
    + split; intros k x H; simpl in H; try discriminate H.
      apply lookup_insert_Some in H as [[<- <-]|[_ H]]; [reflexivity|discriminate H].
    + intros k1 k2 s1 s2 H. discriminate H.
    + intros k s H. discriminate H.
Qed.

Abbreviation refreshRun := (IssueRefreshedTokens ToyJWT.jwt byJTI (Some liveService) annRefresh (2000 * hour)
  (quietWorld annDatabase sixteen)).

Definition issuedOr (d : IssuedSession) (r : res IssuedSession) : IssuedSession :=
  match r with Ok i => i | Err _ => d end.

Definition noSession : IssuedSession := mkIssued ann "" "" "" 0 0.

Lemma refreshRun_ok :
  refreshRun = (Ok (issuedOr noSession (fst refreshRun)), snd refreshRun).
Proof. apply run_pair. vm_compute. reflexivity. Qed.

Lemma refresh_sound_witness :
  spent (TokenSHA256 annRefresh) (w_db (snd refreshRun)).
Proof.
  eapply (refresh_sound ToyJWT.jwt ToyJWT.decode ToyJWT.genuine byJTI liveService annRefresh (2000 * hour)
    (issuedOr noSession (fst refreshRun)) (quietWorld annDatabase sixteen) (snd refreshRun)).
  - apply ToyJWT.jwt_spec.
  - apply quietWorld_alone.
  - apply annDatabase_ok.
  - vm_compute. discriminate.
  - apply refreshRun_ok.
Defined.

(** A login session is issued for the current account: when
    [IssueLoginSession] succeeds, the user exists, the refresh token's digest was
    recorded as a new session of that user expiring in seven days (with nothing
    else added to any table), and both tokens carry the user's present name and
    credential generation and the session's identifier, each in its own class. *)
Theorem login_session_sound (J : JWT SessionClaims) (decode : string → option (SigningMethod * SessionClaims))
    (genuine : PublicKey → string → Prop)
    (tie : RevokedAccessTokenDBModel → RevokedAccessTokenDBModel → bool)
    (u : option userService) (userID now : Z) (issued : IssuedSession) (w w' : World) :
  JWTSpec J decode genuine → alone w → store_ok (w_db w) → 0 ≤ w_clock w →
  IssueLoginSession J tie u userID now w = (Ok issued, w') →
  o_users (w_db w) !! userID = Some (is_User issued) ∧
  (∃ s, s = mkSession (is_SessionID issued) (u_Id (is_User issued)) (TokenSHA256 (is_RefreshToken issued))
              now (now + RefreshTokenLifetime) None "" None "" ∧
     fresh (w_db w) (rs_ID s) (rs_TokenSHA256 s) ∧
     shrinks (with_sessions <[rs_ID s := s]> (w_db w)) (w_db w')) ∧
  (datable (w_clock w') → encodableUser (is_User issued) →
   carries decode (is_AccessToken issued) AccessTokenIssuer (is_SessionID issued) (is_User issued) ∧
   carries decode (is_RefreshToken issued) RefreshTokenIssuer (is_SessionID issued) (is_User issued)).
Proof.
  intros HJ Hw Hok H0 Hrun.
  apply (post_run _ _ _ (login_spec J decode genuine tie u userID now w Hw Hok H0) _ _ Hrun issued eq_refl).
Qed.

Abbreviation loginRun := (IssueLoginSession ToyJWT.jwt byJTI (Some liveService) 7 (2000 * hour)
  (quietWorld annDatabase sixteen)).

Lemma loginRun_ok : loginRun = (Ok (issuedOr noSession (fst loginRun)), snd loginRun).
Proof. apply run_pair. vm_compute. reflexivity. Qed.

Lemma login_session_sound_witness :
  o_users annDatabase !! 7 = Some (is_User (issuedOr noSession (fst loginRun))).
Proof.
  eapply (login_session_sound ToyJWT.jwt ToyJWT.decode ToyJWT.genuine byJTI (Some liveService) 7 (2000 * hour)
    (issuedOr noSession (fst loginRun)) (quietWorld annDatabase sixteen) (snd loginRun)).
  - apply ToyJWT.jwt_spec.
  - apply quietWorld_alone.
  - apply annDatabase_ok.
  - vm_compute. discriminate.
  - apply loginRun_ok.
Defined.
