(* ===== verification/Users.v ===== *)
(** * Accounts (src/service/user.go)

    Authentication with verifier upgrades, password changes, account deletion and
    updates, lookups, the local administrator bootstrap and the offline password
    resets. *)

From stdpp Require Import prelude strings gmap.
From Stdlib Require Import ZArith Lia Ascii.
From S2P Require Import Prelude GoStrings Password FileSystem Tables Store Guarantee AuthSecurity Bootstrap Sessions.

Local Open Scope Z_scope.
Local Open Scope m_scope.

(** ** Input policies *)

(** [^[A-Za-z0-9][A-Za-z0-9._-]{0,63}$]; [$] without flags is the end of text. *)
Definition is_alnum (a : ascii) : bool := is_letter a || is_digit a.

Definition is_name_byte (a : ascii) : bool :=
  is_alnum a || bool_decide (a = "."%char) || bool_decide (a = "_"%char) || bool_decide (a = "-"%char).

Definition usernamePattern (s : string) : bool :=
  match s with
  | EmptyString => false
  | String a s' => is_alnum a && all_bytes is_name_byte s' && (len s' <=? 63)%N
  end.

Definition is_forbidden (a : ascii) : bool :=
  bool_decide (a = byte_NUL) || bool_decide (a = byte_CR) || bool_decide (a = byte_LF).

Definition validResetUsername (username : string) : bool :=
  if (len username =? 0)%N || (256 <? len username)%N then false
  else negb (contains_byte byte_NUL username || contains_byte byte_CR username ||
             contains_byte byte_LF username).

Definition ValidateNewPassword (plaintext : string) : option goerr :=
  if (len plaintext <? 12)%N || (1024 <? len plaintext)%N then Some (Sentinel ErrWeakPassword)
  else if all_bytes (λ a, negb (is_forbidden a)) plaintext then None
  else Some (Sentinel ErrWeakPassword).

(** ** Row updates *)

Definition set_password (now : Z) (hash : string) (u : UserDBModel) : UserDBModel :=
  mkUser (u_Id u) (u_Username u) hash (u_Role u) (u_Email u) (u_Nickname u) (u_Avatar u)
    (u_Description u) (u_TokenVersion u) (u_CreatedAt u) now.

(** A struct passed to gorm's [Updates] changes the non-zero fields. *)
Definition nonzero (new old : string) : string := if bool_decide (new = "") then old else new.

Definition merge_profile (now : Z) (m u : UserDBModel) : UserDBModel :=
  mkUser (u_Id u) (nonzero (u_Username m) (u_Username u)) (u_Password u) (u_Role u)
    (nonzero (u_Email m) (u_Email u)) (nonzero (u_Nickname m) (u_Nickname u))
    (nonzero (u_Avatar m) (u_Avatar u)) (nonzero (u_Description m) (u_Description u))
    (u_TokenVersion u) (u_CreatedAt u) now.

(** [Select("username", "id", "role", "nickname", "description", "avatar", "email")]. *)
Definition public_profile (u : UserDBModel) : UserDBModel :=
  mkUser (u_Id u) (u_Username u) "" (u_Role u) (u_Email u) (u_Nickname u) (u_Avatar u)
    (u_Description u) 0 0 0.

(** [Select("username")]. *)
Definition only_username (u : UserDBModel) : UserDBModel :=
  mkUser 0 (u_Username u) "" "" "" "" "" "" 0 0 0.

(** ** Lookups *)

Definition findUserWhere (p : UserDBModel → bool) : M (res UserDBModel) :=
  query (λ db, match first_where Z.leb p (o_users db) with
               | Some u => Ok u
               | None => Err ErrRecordNotFound
               end).

(** A lookup that ignores its error leaves the zero value. *)
Definition orZero (m : M (res UserDBModel)) : M UserDBModel :=
  r <- m;; mret match r with Ok u => u | Err _ => zeroUser end.

Definition named (username : string) (u : UserDBModel) : bool := bool_decide (u_Username u = username).

Section Users.
(** [argon2.IDKey]. *)
Context (IDKey : string → string → N → N → N → N → string).
(** SQLite's comparison of the integer column [id] with a text argument. *)
Context (id_matches : string → Z → bool).
Context (next_audit_id : list CredentialEventDBModel → Z).
Context (next_rowid : gmap Z UserDBModel → Z).

Definition with_id (id : string) (u : UserDBModel) : bool := id_matches id (u_Id u).

Definition GetUserAllInfoById (id : string) : M UserDBModel := orZero (findUserWhere (with_id id)).

Definition GetUserAllInfoByName (userName : string) : M UserDBModel :=
  orZero (findUserWhere (named userName)).

Definition GetUserInfoById (id : string) : M UserDBModel :=
  u <- orZero (findUserWhere (with_id id));; mret (public_profile u).

Definition GetUserInfoByUserName (userName : string) : M UserDBModel :=
  u <- orZero (findUserWhere (named userName));; mret (public_profile u).

Definition GetAllUserName : M (list UserDBModel) :=
  r <- query (λ db, Ok (only_username <$> (map_to_list (o_users db)).*2));;
  mret match r with Ok l => l | Err _ => [] end.

Definition GetInitializationState (u : userService) : res State := Ok (svc_initializationState u).

Definition GetKeyPair (u : userService) : option PrivateKey * option PublicKey :=
  (svc_privateKey u, svc_publicKey u).

(** [NewUserService]: [generated] is the result of the key generator. *)
Definition NewUserService (generated : res (PrivateKey * PublicKey)) (initializationState : State)
    : option userService :=
  match generated with
  | Err _ => None
  | Ok (privateKey, publicKey) =>
     Some (mkService (Some privateKey) (Some publicKey) true initializationState)
  end.

(** ** Deletion and profile updates *)

Definition DeleteAllUser : res unit := Err ErrLastAdmin.

Definition is_admin (u : UserDBModel) : bool := bool_decide (u_Role u = "admin").

Definition deleteBody (id : string) : M (res unit) :=
  loaded <- query (λ db, match first_where Z.leb (with_id id) (o_users db) with
                         | Some u => Ok (u_Role u)
                         | None => Err ErrNoRows
                         end);;
  match loaded with
  | Err e => if errors_Is e ErrNoRows then mret (Err ErrUserNotFound)
             else mret (Err (Wrap "load user for deletion" e))
  | Ok role =>
     ok administratorCount <-
       (if bool_decide (role = "admin")
        then ok count <- query (λ db, Ok (count_where is_admin (o_users db))) or "count administrators";;
             mret (Ok (Some count))
        else mret (Ok None));;
     if match administratorCount with Some count => count <=? 1 | None => false end
     then mret (Err ErrLastAdmin)
     else
       ok rows <- exec (λ db, (Ok (count_where (with_id id) (o_users db)),
                               with_users (delete_where (with_id id)) db)) or "delete user";;
       if negb (rows =? 1) then mret (Err ErrUserNotFound) else mret (Ok tt)
  end.

(** [db.DB()] and [db.Conn]. *)
Definition acquire (msg : string) : M (res unit) :=
  ok _ <- db_Conn "access user database pool";;
  db_Conn msg.

Definition DeleteUserById (u : option userService) (id : string) : M (res unit) :=
  ok _ <- acquire "acquire user deletion connection";;
  ok _ <- transaction (Some "begin user deletion transaction") (Some "commit user deletion") (deleteBody id);;
  match Atoi id with
  | Some userID => _ <- RevokeAllUserSessions u userID "account deleted";; mret (Ok tt)
  | None => mret (Ok tt)
  end.

(** [u.db.Model(&m).Omit("password", "role", "token_version").Updates(&m)]: without
    a primary key gorm refuses, and a taken username violates its index; the error
    is dropped. *)
Definition UpdateUser (m : UserDBModel) : M unit :=
  now <- time_Now;;
  _ <- exec (λ db,
    if u_Id m =? 0 then (Err ErrMissingWhereClause, db)
    else if negb (bool_decide (u_Username m = "")) &&
            negb (count_where (λ u, named (u_Username m) u && negb (u_Id u =? u_Id m)) (o_users db) =? 0)
    then (Err (StoreError ConstraintFailed), db)
    else (Ok tt, with_users (update_where (λ u, u_Id u =? u_Id m) (merge_profile now m)) db));;
  mret tt.

(** ** Passwords *)

Definition hashPassword (plaintext : string) : M (res string) :=
  raw <- rand_Read (N.to_nat DefaultSaltLength);;
  spend (Hash IDKey plaintext (λ _, raw)).

Definition verifyPassword (encoded plaintext : string) : M (option goerr) :=
  spend (Verify IDKey encoded plaintext).

Definition consumeUnknown (plaintext : string) : M unit := spend (tt, ConsumeUnknownUser plaintext).

(** [UPDATE o_users SET password = ? WHERE id = ? AND password = ?], with the rows
    affected. *)
Definition swapPassword (id : Z) (old new : string) : M (res Z) :=
  now <- time_Now;;
  exec (λ db,
    let p := λ u, (u_Id u =? id) && bool_decide (u_Password u = old) in
    (Ok (count_where p (o_users db)), with_users (update_where p (set_password now new)) db)).

(** The verifier upgrade at the end of [AuthenticateUser]. *)
Definition upgradeVerifier (user : UserDBModel) (plaintext : string) : M (res UserDBModel) :=
  ok newHash <- hashPassword plaintext or "upgrade password hash";;
  ok rows <- swapPassword (u_Id user) (u_Password user) newHash or "store upgraded password hash";;
  if rows =? 0 then
    found <- findUser (u_Id user);;
    match found with
    | Err _ => mret (Err ErrInvalidCredentials)
    | Ok current =>
       verified <- verifyPassword (u_Password current) plaintext;;
       match verified with
       | Some _ => mret (Err ErrInvalidCredentials)
       | None => mret (Ok current)
       end
    end
  else
    mret (Ok (mkUser (u_Id user) (u_Username user) newHash (u_Role user) (u_Email user) (u_Nickname user)
                (u_Avatar user) (u_Description user) (u_TokenVersion user) (u_CreatedAt user)
                (u_UpdatedAt user))).

Definition AuthenticateUser (username plaintext : string) : M (res UserDBModel) :=
  if (len username =? 0)%N || (256 <? len username)%N || (len plaintext =? 0)%N || (1024 <? len plaintext)%N
  then
    _ <- consumeUnknown "invalid-login-input";;
    mret (Err ErrInvalidCredentials)
  else
    found <- findUserWhere (named username);;
    match found with
    | Err e =>
       if errors_Is e ErrRecordNotFound then
         _ <- consumeUnknown plaintext;;
         mret (Err ErrInvalidCredentials)
       else mret (Err (Wrap "load user for authentication" e))
    | Ok user =>
       verified <- verifyPassword (u_Password user) plaintext;;
       match verified with
       | Some e =>
          if errors_Is e ErrPassword || errors_Is e ErrInvalidHash
          then mret (Err ErrInvalidCredentials)
          else mret (Err (Wrap "verify password" e))
       | None =>
          if NeedsRehash (u_Password user) then upgradeVerifier user plaintext
          else mret (Ok user)
       end
    end.

(** [password := hash, token_version := token_version + 1]. *)
Definition change_password (now : Z) (hash : string) (u : UserDBModel) : UserDBModel :=
  bumped now (set_password now hash u).

Definition ChangeUserPassword (u : option userService) (id oldPassword newPassword : string) : M (res unit) :=
  match ValidateNewPassword newPassword with
  | Some e => mret (Err e)
  | None =>
     if (len oldPassword =? 0)%N || (1024 <? len oldPassword)%N then mret (Err ErrInvalidCredentials)
     else
       found <- findUserWhere (with_id id);;
       match found with
       | Err e =>
          if errors_Is e ErrRecordNotFound then mret (Err ErrInvalidCredentials)
          else mret (Err (Wrap "load user for password change" e))
       | Ok user =>
          verified <- verifyPassword (u_Password user) oldPassword;;
          match verified with
          | Some _ =>
             _ <- LogCredentialEvent next_audit_id u (u_Id user) CredentialEventPasswordChanged false
                    "password-change" "";;
             mret (Err ErrInvalidCredentials)
          | None =>
             ok newHash <- hashPassword newPassword or "hash new password";;
             now <- time_Now;;
             ok rows <- exec (λ db,
               let p := λ u, (u_Id u =? u_Id user) && bool_decide (u_Password u = u_Password user) in
               (Ok (count_where p (o_users db)),
                with_users (update_where p (change_password now newHash)) db)) or "store new password";;
             if negb (rows =? 1) then mret (Err ErrPasswordChanged)
             else
               at_ <- time_Now;;
               _ <- revokeUserSessions (u_Id user) at_ "password change";;
               _ <- LogCredentialEvent next_audit_id u (u_Id user) CredentialEventPasswordChanged true
                      "password-change" "";;
               mret (Ok tt)
          end
       end
  end.

(** ** Local bootstrap and resets *)

Definition BootstrapAdmin (seal : option Seal) (username plaintext : string)
    (beforeCommit : option (Z → M (option goerr))) : M (res Z) :=
  if negb (usernamePattern username) then mret (Err ErrInvalidUsername)
  else match ValidateNewPassword plaintext with
  | Some e => mret (Err e)
  | None =>
     ok hash <- hashPassword plaintext or "hash bootstrap password";;
     ok _ <- db_Conn "access user database pool";;
     ok userID <- CreateAdmin next_rowid seal username hash beforeCommit;;
     installationID <- match seal with
                       | None => mret ""
                       | Some seal =>
                          loaded <- Load seal;;
                          mret match loaded with Ok (Some id) => id | _ => "" end
                       end;;
     now <- time_Now;;
     _ <- appendEvent next_audit_id now installationID userID CredentialEventBootstrapCreated true "bootstrap" "";;
     mret (Ok userID)
  end.

(** [SELECT id, role, password FROM o_users WHERE username = ? LIMIT 2]. *)
Definition queryNamed (username : string) : M (res (list UserDBModel)) :=
  query (λ db, Ok (take 2 (filter (λ u, named username u = true) (map_to_list (o_users db)).*2))).

Definition loadUniqueAdministrator (username : string) : M (res (Z * string)) :=
  ok rows <- queryNamed username or "inspect local reset target";;
  match rows with
  | [] => mret (Err ErrUserNotFound)
  | [u] => if negb (is_admin u) then mret (Err ErrNotAdministrator)
           else mret (Ok (u_Id u, u_Password u))
  | _ => mret (Err ErrInvalidResetTarget)
  end.

Definition loadUniqueNonAdministrator (username : string) : M (res (Z * string * string)) :=
  ok rows <- queryNamed username or "inspect local reset target";;
  match rows with
  | [] => mret (Err ErrUserNotFound)
  | [u] => if is_admin u then mret (Err ErrResetTargetIsAdministrator)
           else mret (Ok (u_Id u, u_Role u, u_Password u))
  | _ => mret (Err ErrInvalidResetTarget)
  end.

Definition bootstrapStateTableExists : M (res bool) :=
  ok has <- query (λ db, Ok match o_bootstrap_state db with Some _ => true | None => false end)
    or "inspect bootstrap state schema";;
  mret (Ok has).

(** [db.AutoMigrate(&model.BootstrapStateDBModel{})]. *)
Definition createStateTable (msg : string) : M (res unit) :=
  ok _ <- execute (λ db, match o_bootstrap_state db with
                         | None => with_bootstrap (Some None) db
                         | Some _ => db
                         end) or msg;;
  mret (Ok tt).

(** The marker a reset finds: none beside a seal, a status other than initialised
    or another installation's seal ask for recovery. *)
Definition checkMarker (sealed : option string) (who : string) : M (res unit) :=
  marker <- query (λ db, match o_bootstrap_state db with
                         | None => Err (StoreError NoSuchTable)
                         | Some _ => match marker_of db with
                                     | Some m => Ok m
                                     | None => Err ErrNoRows
                                     end
                         end);;
  mret match marker with
       | Err e =>
          if errors_Is e ErrNoRows
          then (if isNil sealed then Ok tt else Err ErrRecoveryRequired)
          else Err (Wrap ("inspect " +:+ who +:+ " reset state") e)
       | Ok m =>
          if negb (bool_decide (status m = StatusInitialized)) then Err ErrRecoveryRequired
          else match sealed with
               | Some sealID => if bool_decide (InstallationID m = sealID) then Ok tt
                                else Err ErrRecoveryRequired
               | None => Ok tt
               end
       end.

(** The reconciliation, and the seal it must have left. *)
Definition reconcileForReset (seal : Seal) : M (res State) :=
  reconciled <- ReconcileState (Some seal);;
  match reconciled with
  | (_, Some e) => mret (Err e)
  | (state, None) =>
     if negb (bool_decide (status state = StatusInitialized)) then mret (Err ErrRecoveryRequired)
     else
       again <- Load seal;;
       match again with
       | Ok (Some sealID) =>
          if bool_decide (sealID = InstallationID state) then mret (Ok state)
          else mret (Err ErrRecoveryRequired)
       | _ => mret (Err ErrRecoveryRequired)
       end
  end.

(** The checks both resets make before they open their transaction: the seal, the
    state table, the marker, a reconciliation and the seal again. [target] is the
    lookup of the account; [who] distinguishes the messages. The result is the
    reconciled state. *)
Definition resetPreconditions {T} (seal : option Seal) (target : M (res T)) (who : string) : M (res State) :=
  match seal with
  | None => mret (Err ErrRecoveryRequired)
  | Some seal' =>
     ok _ <- db_Conn "access user database pool";;
     loaded <- Load seal';;
     match loaded with
     | Err _ => mret (Err ErrRecoveryRequired)
     | Ok sealed =>
        ok hasStateTable <- bootstrapStateTableExists;;
        ok _ <- target;;
        ok _ <- (if hasStateTable then mret (Ok tt)
                 else if isNil sealed
                 then createStateTable ("create bootstrap state for legacy " +:+ who +:+ " reset")
                 else mret (Err ErrRecoveryRequired));;
        ok _ <- checkMarker sealed who;;
        reconcileForReset seal'
     end
  end.

(** The marker check inside the transaction: any failure is recovery. *)
Definition markerStillMatches (installationID : string) : M (res unit) :=
  marker <- query (λ db, match marker_of db with Some m => Ok m | None => Err ErrNoRows end);;
  mret match marker with
       | Ok m => if bool_decide (InstallationID m = installationID) &&
                    bool_decide (status m = StatusInitialized)
                 then Ok tt else Err ErrRecoveryRequired
       | Err _ => Err ErrRecoveryRequired
       end.

(** A best-effort statement: errors of databases that predate the table or column
    are dropped. *)
Definition tolerant (m : M (res unit)) (msg : string) : M (res unit) :=
  r <- m;;
  mret match r with
       | Ok _ => Ok tt
       | Err e => match ignoreMissingAuthTable (Some e) with
                  | None => Ok tt
                  | Some _ => Err (Wrap msg e)
                  end
       end.

(** The statements that follow the verifier's replacement. *)
Definition retireCredentials (userID : Z) (who : string) : M (res unit) :=
  ok _ <- tolerant (execute (with_users (update_where (λ u, u_Id u =? userID)
            (λ u, bumped (u_UpdatedAt u) u)))) ("advance token version on " +:+ who +:+ " reset");;
  tolerant (execute (with_sessions (delete_where (λ s, rs_UserID s =? userID))))
    ("revoke sessions on " +:+ who +:+ " reset").

(** [CURRENT_TIMESTAMP] has the precision of a second. *)
Definition CURRENT_TIMESTAMP (now : Z) : Z := now / second * second.

(** [UPDATE o_users SET password = ?, updated_at = CURRENT_TIMESTAMP WHERE p], with
    the rows affected. *)
Definition replaceVerifier (p : UserDBModel → bool) (newHash msg : string) : M (res unit) :=
  now <- time_Now;;
  ok rows <- exec (λ db, (Ok (count_where p (o_users db)),
                          with_users (update_where p (set_password (CURRENT_TIMESTAMP now) newHash)) db)) or msg;;
  if negb (rows =? 1) then mret (Err ErrPasswordChanged) else mret (Ok tt).

Definition logReset (userID : Z) (source : string) : M (res unit) :=
  now <- time_Now;;
  _ <- appendEvent next_audit_id now "" userID CredentialEventPasswordReset true source "";;
  mret (Ok tt).

(** The [WHERE] of the administrator's compare-and-set. *)
Definition adminTarget (userID : Z) (username oldHash : string) (u : UserDBModel) : bool :=
  (u_Id u =? userID) && named username u && is_admin u && bool_decide (u_Password u = oldHash).

Definition resetAdminBody (installationID username newHash : string) : M (res Z) :=
  ok _ <- markerStillMatches installationID;;
  ok target <- loadUniqueAdministrator username;;
  let '(userID, oldHash) := (target : Z * string) in
  ok _ <- replaceVerifier (adminTarget userID username oldHash) newHash
            "store replacement administrator password";;
  ok _ <- retireCredentials userID "administrator";;
  mret (Ok userID).

Definition ResetAdminPassword (seal : option Seal) (username plaintext : string) : M (res unit) :=
  if negb (validResetUsername username) then mret (Err ErrInvalidResetTarget)
  else match ValidateNewPassword plaintext with
  | Some e => mret (Err e)
  | None =>
     ok newHash <- hashPassword plaintext or "hash replacement administrator password";;
     ok state <- resetPreconditions seal (loadUniqueAdministrator username) "administrator";;
     ok _ <- db_Conn "acquire administrator reset connection";;
     ok userID <- transaction (Some "begin administrator reset transaction")
                    (Some "commit administrator reset")
                    (resetAdminBody (InstallationID state) username newHash);;
     logReset userID "admin-reset"
  end.

Definition userTarget (userID : Z) (username role oldHash : string) (u : UserDBModel) : bool :=
  (u_Id u =? userID) && named username u && bool_decide (u_Role u = role) && negb (is_admin u) &&
  bool_decide (u_Password u = oldHash).

Definition resetUserBody (installationID username newHash : string) : M (res Z) :=
  ok _ <- markerStillMatches installationID;;
  ok target <- loadUniqueNonAdministrator username;;
  let '(userID, role, oldHash) := (target : Z * string * string) in
  ok _ <- replaceVerifier (userTarget userID username role oldHash) newHash
            "store replacement user password";;
  ok _ <- retireCredentials userID "user";;
  mret (Ok userID).

Definition ResetUserPassword (seal : option Seal) (username plaintext : string) : M (res unit) :=
  if negb (validResetUsername username) then mret (Err ErrInvalidResetTarget)
  else match ValidateNewPassword plaintext with
  | Some e => mret (Err e)
  | None =>
     ok newHash <- hashPassword plaintext or "hash replacement user password";;
     ok state <- resetPreconditions seal (loadUniqueNonAdministrator username) "user";;
     ok _ <- db_Conn "acquire user reset connection";;
     ok userID <- transaction (Some "begin user reset transaction") (Some "commit user reset")
                    (resetUserBody (InstallationID state) username newHash);;
     logReset userID "user-reset"
  end.
End Users.
