(* ===== verification/Accounts.v ===== *)
(** * What the account operations guarantee

    Theorems about [AuthenticateUser] of src/service/user.go. *)

From stdpp Require Import prelude strings gmap.
From Stdlib Require Import ZArith Lia Ascii.
From S2P Require Import Prelude GoStrings Password FileSystem Tables Store Guarantee AuthSecurity Bootstrap Sessions Rotation Users.

Local Open Scope Z_scope.
Local Open Scope m_scope.

(** No assumption on the other requests at all. *)
Definition anything : Rely := mkRely (λ _ _, True) (λ _ _, True) (λ _, I).

Lemma rely_anything w : rely anything w.
Proof. done. Qed.

(** The plaintext is accepted by the verifier. *)
Definition accepts (IDKey : string → string → N → N → N → N → string) (verifier plaintext : string) : Prop :=
  fst (Verify IDKey verifier plaintext) = None.

(** What the code relies on of Argon2: the key has the requested length. *)
Definition IDKey_sized (IDKey : string → string → N → N → N → N → string) : Prop :=
  ∀ pw s t m p k, len (IDKey pw s t m p k) = k.

(** A verifier [Hash] produces accepts its plaintext and needs no upgrade. *)
Lemma Hash_accepts IDKey plaintext raw h :
  IDKey_sized IDKey → (∀ s, raw = Some s → String.length s = 16%nat) →
  fst (Hash IDKey plaintext (λ _, raw)) = Ok h →
  accepts IDKey h plaintext ∧ NeedsRehash h = false ∧ IsArgon2id h = true.
Proof.
  intros Hlen Hraw. unfold Hash, hashWithReader.
  change (validateParameters defaultParameters) with (@None goerr). cbv iota.
  destruct raw as [s|]; [|done]. cbn [fst]. intros E.
  assert (h = formatHash defaultParameters s (deriveKey IDKey plaintext s defaultParameters
    (KeyLength defaultParameters))) as -> by congruence. clear E.
  assert (len s = SaltLength defaultParameters) as Hs.
  { unfold len. by rewrite (Hraw s eq_refl). }
  assert (len (deriveKey IDKey plaintext s defaultParameters (KeyLength defaultParameters))
    = KeyLength defaultParameters) as Hd by (unfold deriveKey; by rewrite Hlen).
  pose proof (parse_format defaultParameters s _ bounded_default Hs Hd) as Hp.
  split_and!.
  - apply Verify_Ok. eexists. split; [exact Hp|]. cbn [salt parameters digest]. by rewrite Hd.
  - unfold NeedsRehash. rewrite Hp. reflexivity.
  - unfold IsArgon2id. by rewrite Hp.
Qed.

(** ** Steps that only draw bytes or derive keys *)

Lemma post_hashPassword IDKey plaintext w (Q : res string → World → Prop) :
  IDKey_sized IDKey →
  (∀ r w1, w_db w1 = w_db w → w_sched w1 = w_sched w → w_isolated w1 = w_isolated w →
     w_clock w1 = w_clock w → w_fs w1 = w_fs w →
     (∃ calls, w_derived w1 = w_derived w ++ calls ∧ (length calls ≤ 1)%nat) →
     (∀ h, r = Ok h → accepts IDKey h plaintext ∧ NeedsRehash h = false ∧ IsArgon2id h = true) →
     Q r w1) →
  post (hashPassword IDKey plaintext) w Q.
Proof.
  intros Hlen HQ. unfold hashPassword. m_step. unfold post, rand_Read.
  destruct (Nat.leb_spec (N.to_nat DefaultSaltLength) (String.length (w_entropy w))) as [Hl|Hl];
    cbn [fst snd spend]; apply HQ; try done.
  - simpl. eexists. split; [done|simpl; lia].
  - intros h Hh. eapply Hash_accepts; [done| |exact Hh]. intros s Hs.
    replace s with (take_bytes (N.to_nat DefaultSaltLength) (w_entropy w)) by congruence.
    by apply take_bytes_length.
  - simpl. eexists. split; [done|simpl; lia].
Qed.

Lemma post_verifyPassword IDKey encoded plaintext w (Q : option goerr → World → Prop) :
  (∀ w1 call, w_db w1 = w_db w → w_sched w1 = w_sched w → w_isolated w1 = w_isolated w →
     w_clock w1 = w_clock w → w_fs w1 = w_fs w → w_entropy w1 = w_entropy w →
     w_derived w1 = w_derived w ++ [call] → bounded (dc_parameters call) →
     Q (fst (Verify IDKey encoded plaintext)) w1) →
  post (verifyPassword IDKey encoded plaintext) w Q.
Proof.
  intros HQ. unfold post, verifyPassword, spend. simpl.
  destruct (Verify_calls IDKey encoded plaintext) as (s & p & k & E & Hb & _).
  eapply HQ; try done; simpl; [by rewrite E|done].
Qed.

(** ** Authentication *)

Section Authenticate.
Context (IDKey : string → string → N → N → N → N → string) (sized : IDKey_sized IDKey).

(** Whatever runs in between, the account that is returned has a verifier that
    accepts the plaintext. *)
Lemma upgradeVerifier_accepts user plaintext w :
  post (upgradeVerifier IDKey user plaintext) w (λ r _, ∀ u, r = Ok u → accepts IDKey (u_Password u) plaintext).
Proof.
  unfold upgradeVerifier. m_step. apply post_hashPassword; [done|].
  intros r w1 _ _ _ _ _ _ Hh. destruct r as [h|e]; [|done]. destruct (Hh h eq_refl) as (Hacc & _).
  m_step. unfold swapPassword. do 2 m_step. eapply (post_exec _ anything); [apply rely_anything|done|].
  intros db0 w2 _ _. cbn [fst]. m_step.
  - m_step. unfold findUser. eapply (post_query _ anything); [apply rely_anything|intros; by m_step|].
    intros w3 _. destruct (first_where _ _ _) as [current|]; [|by m_step].
    m_step. apply post_verifyPassword. intros w4 call _ _ _ _ _ _ _ _.
    destruct (fst (Verify IDKey (u_Password current) plaintext)) eqn:E; m_step; [done|].
    by intros u [= <-].
  - m_step. by intros u [= <-].
Qed.

Lemma AuthenticateUser_accepts username plaintext w :
  post (AuthenticateUser IDKey username plaintext) w (λ r _, ∀ u, r = Ok u →
    accepts IDKey (u_Password u) plaintext ∧
    (1 ≤ len username ≤ 256)%N ∧ (1 ≤ len plaintext ≤ 1024)%N).
Proof.
  unfold AuthenticateUser. m_step; [m_step; by unfold post|].
  apply orb_false_elim in Heqb as [Heqb H4%N.ltb_ge]. apply orb_false_elim in Heqb as [Heqb H3%N.eqb_neq].
  apply orb_false_elim in Heqb as [H1%N.eqb_neq H2%N.ltb_ge].
  assert ((1 ≤ len username ≤ 256)%N ∧ (1 ≤ len plaintext ≤ 1024)%N) as Hlens by lia.
  m_step. unfold findUserWhere. eapply (post_query _ anything); [apply rely_anything| |].
  { intros w1 d _ _. by simpl. }
  intros w1 _. destruct (first_where _ _ _) as [user|]; simpl; [|m_step; by unfold post].
  m_step. apply post_verifyPassword. intros w2 call _ _ _ _ _ _ _ _.
  destruct (fst (Verify IDKey (u_Password user) plaintext)) eqn:E.
  { repeat m_step; done. }
  m_step.
  - eapply post_mono; [apply upgradeVerifier_accepts|]. cbv beta. intros r w3 Hr u Hu. split; [by apply Hr|done].
  - m_step. by intros u [= <-].
Qed.

(** The account a login name selects. *)
Definition selects (db : Database) (username : string) (u : UserDBModel) : Prop :=
  first_where Z.leb (named username) (o_users db) = Some u.

(** The row with another verifier, as [AuthenticateUser] returns it. *)
Definition with_verifier (h : string) (u : UserDBModel) : UserDBModel :=
  mkUser (u_Id u) (u_Username u) h (u_Role u) (u_Email u) (u_Nickname u) (u_Avatar u) (u_Description u)
    (u_TokenVersion u) (u_CreatedAt u) (u_UpdatedAt u).

(** A login of a request on its own. On success the account of that name accepts
    the plaintext, and its outdated verifier has been replaced. On failure nothing
    is written, and a rejection derives exactly one key, with admissible
    parameters, whether or not the account exists. *)
Lemma AuthenticateUser_solo username plaintext w :
  alone w → keys_agree (w_db w) →
  post (AuthenticateUser IDKey username plaintext) w (λ r w',
    match r with
    | Ok u => ∃ row, selects (w_db w) username row ∧ accepts IDKey (u_Password row) plaintext ∧
        (if NeedsRehash (u_Password row)
         then ∃ now h, accepts IDKey h plaintext ∧ NeedsRehash h = false ∧ u = with_verifier h row ∧
           w_db w' = with_users <[u_Id row := set_password now h row]> (w_db w)
         else u = row ∧ w_db w' = w_db w)
    | Err e => w_db w' = w_db w ∧
        (e = ErrInvalidCredentials → ∃ call, w_derived w' = w_derived w ++ [call] ∧ bounded (dc_parameters call))
    end).
Proof.
  intros Hw Hk. unfold AuthenticateUser. m_step.
  { m_step. unfold post. simpl. split; [done|]. intros _. eexists. split; [done|apply bounded_default]. }
  m_step. unfold findUserWhere. m_step; [simpl; m_step; by split|].
  destruct (first_where _ _ _) as [user|] eqn:Hrow; simpl.
  2:{ m_step. unfold post. simpl. split; [done|]. intros _. destruct H. eexists.
      split; [by rewrite calm_derived|apply bounded_default]. }
  m_step. apply post_verifyPassword. intros w2 call Hd2 Hs2 Hi2 Hc2 Hf2 He2 Hder Hb.
  destruct (fst (Verify IDKey (u_Password user) plaintext)) as [e|] eqn:E.
  { apply Verify_errors in E as [-> | ->]; simpl; m_step; (split; [congruence|]); intros _;
      exists call; destruct H; by rewrite Hder, calm_derived. }
  assert (alone w2) as Hw2 by (intros n; rewrite Hs2; apply (calm_alone _ _ H)).
  assert (w_db w2 = w_db w) as Hdb2 by congruence.
  assert (selects (w_db w) username user) as Hsel by done.
  m_step.
  2:{ m_step. exists user. by rewrite Heqb0. }
  pose proof Hrow as Hat. apply first_where_Some in Hat as (k & Hat & _).
  pose proof (users_keyed _ Hk _ _ Hat) as <-.
  unfold upgradeVerifier. m_step. apply post_hashPassword; [done|].
  intros r w3 Hd3 Hs3 Hi3 Hc3 Hf3 _ Hh. destruct r as [h|e].
  2:{ split; [congruence|]. done. }
  destruct (Hh h eq_refl) as (Hacc & Hre & _).
  assert (alone w3) as Hw3 by (intros n; rewrite Hs3; apply Hw2).
  assert (w_db w3 = w_db w) as Hdb3 by congruence.
  m_step. unfold swapPassword. do 2 m_step. m_step; [by split; [congruence|]|].
  set (p := λ u, (u_Id u =? u_Id user) && bool_decide (u_Password u = u_Password user)) in *.
  assert (p user = true) as Hp by (unfold p; by rewrite Z.eqb_refl, bool_decide_eq_true_2).
  assert (∀ k' v', o_users (w_db w) !! k' = Some v' → p v' = true → k' = u_Id user) as Hkey.
  { intros k' v' Hk' [Hid%Z.eqb_eq _]%andb_prop. by rewrite <- (users_keyed _ Hk _ _ Hk'). }
  cbn [fst snd] in *. rewrite Hdb3, (count_where_key _ _ (u_Id user)), Hat, Hp by done. simpl.
  m_step. exists user. rewrite Heqb0. split_and!; try done. exists (w_clock w3), h. split_and!; try done.
  rewrite H2, Hdb3. unfold with_users. by rewrite (update_where_key _ _ _ (u_Id user) user).
Qed.

(** With sixteen random bytes at hand a verifier is always produced. *)
Lemma hashPassword_total plaintext w : (16 ≤ String.length (w_entropy w))%nat →
  is_Ok (fst (hashPassword IDKey plaintext w)) = true.
Proof.
  intros Hl. unfold hashPassword, mbind, rand_Read. change (N.to_nat DefaultSaltLength) with 16%nat.
  by rewrite (proj2 (Nat.leb_le _ _) Hl).
Qed.

(** The right password is let in when nothing fails. *)
Lemma AuthenticateUser_right username plaintext row w :
  alone w → faultless w → keys_agree (w_db w) → (16 ≤ String.length (w_entropy w))%nat →
  (1 ≤ len username ≤ 256)%N → (1 ≤ len plaintext ≤ 1024)%N →
  selects (w_db w) username row → accepts IDKey (u_Password row) plaintext →
  post (AuthenticateUser IDKey username plaintext) w (λ r _, is_Ok r = true).
Proof.
  intros Hw Hf Hk Hent Hul Hpl Hsel Hacc. unfold AuthenticateUser. m_step.
  { exfalso. revert Heqb. rewrite !orb_true_iff, !N.eqb_eq, !N.ltb_lt. lia. }
  m_step. unfold findUserWhere. m_step; [done|]. unfold selects in Hsel. rewrite Hsel. simpl.
  m_step. apply post_verifyPassword. intros w2 call Hd2 Hs2 _ _ _ He2 _ _. unfold accepts in Hacc. rewrite Hacc.
  m_step; [|by m_step]. apply first_where_Some in Hsel as (k & Hat & _). pose proof (users_keyed _ Hk _ _ Hat) as <-.
  assert (post (hashPassword IDKey plaintext) w2 (λ r w3,
    is_Ok r = true ∧ w_db w3 = w_db w ∧ w_sched w3 = w_sched w2)) as Hh.
  { apply post_and.
    - apply hashPassword_total. rewrite He2. by rewrite (calm_entropy _ _ H).
    - apply post_hashPassword; [done|]. intros r w3 Hd3 Hs3 _ _ _ _ _. split; congruence. }
  unfold upgradeVerifier. m_step. eapply post_mono; [exact Hh|]. cbv beta. intros r w3 (Hr & Hd3 & Hs3).
  destruct r as [h|e]; [|done].
  assert (alone w3) as Hw3 by (intros n; rewrite Hs3, Hs2; apply (calm_alone _ _ H)).
  assert (faultless w3) as Hf3 by (intros n; rewrite Hs3, Hs2; by apply (calm_faultless _ _ H)).
  m_step. unfold swapPassword. do 2 m_step. m_step; [done|]. cbn [fst snd]. rewrite Hd3.
  rewrite (count_where_key _ _ (u_Id row)), Hat.
  - by rewrite Z.eqb_refl, bool_decide_eq_true_2.
  - intros k' v' Hk' [Hid%Z.eqb_eq _]%andb_prop. by rewrite <- (users_keyed _ Hk _ _ Hk').
Qed.
End Authenticate.

(** ** A login never grants access *)

(** The plaintext is not the password of account [k]. *)
Definition refuses (IDKey : string → string → N → N → N → N → string) (k : Z) (plaintext : string)
    (db : Database) : Prop :=
  ∀ u, o_users db !! k = Some u → ¬ accepts IDKey (u_Password u) plaintext.

Lemma within_verify {B} R G `{!Guarantee R G} IDKey encoded plaintext (k : option goerr → M B) :
  within R G (k (fst (Verify IDKey encoded plaintext))) →
  within R G (mbind (verifyPassword IDKey encoded plaintext) k).
Proof.
  intros Hk w Hw. m_step. apply post_verifyPassword.
  intros w1 call Hd Hs Hi Hc _ _ _ _.
  assert (moved R G w w1) as Hm.
  { constructor; [intros n; rewrite Hs; apply Hw|intros Hf n; rewrite Hs; apply Hf|done|lia|by rewrite Hd]. }
  eapply post_mono; [apply Hk, Hm|]. intros b w2 Hm2. by eapply (moved_trans R G).
Qed.

Lemma AuthenticateUser_refuses IDKey k username plaintext :
  within (others_keep (refuses IDKey k plaintext)) (keeps (refuses IDKey k plaintext))
    (AuthenticateUser IDKey username plaintext).
Proof.
  unfold AuthenticateUser, consumeUnknown, findUserWhere.
  repeat lazymatch goal with
  | |- within _ _ (mbind (verifyPassword _ _ _) _) => fail
  | |- _ => within_step
  end.
  apply within_verify; [exact _|].
  destruct (fst (Verify IDKey (u_Password _) plaintext)) eqn:E; [within_solve|]. within_step; [|within_solve].
  unfold upgradeVerifier, hashPassword, swapPassword, findUser, verifyPassword. within_solve.
  intros db Hdb u'. simpl. rewrite lookup_update_where. intros (u0 & H0 & ->)%fmap_Some.
  destruct (_ && _) eqn:Hp; [|by apply Hdb].
  apply andb_prop in Hp as [_ Hp%bool_decide_eq_true]. exfalso. apply (Hdb u0 H0).
  unfold accepts. by rewrite Hp.
Qed.

(** ** Properties *)

(** An account whose verifier uses weaker parameters, so that a login upgrades it. *)
Definition weakVerifier : string := formatHash (mkParameters 20000 2 1 16 32) sixteen
  (deriveKey toyIDKey "correct horse" sixteen (mkParameters 20000 2 1 16 32) 32%N).

Definition bob : UserDBModel := mkUser 8 "bob" weakVerifier "user" "" "" "" "" 0 1 1.

Definition bobDatabase : Database := with_users (λ _, {[8 := bob]}) emptyDatabase.

Abbreviation bobLogin := (AuthenticateUser toyIDKey "bob" "correct horse" (quietWorld bobDatabase sixteen)).

Definition userOr (r : res UserDBModel) : UserDBModel := match r with Ok u => u | Err _ => zeroUser end.

Lemma bobLogin_ok : bobLogin = (Ok (userOr (fst bobLogin)), snd bobLogin).
Proof. apply run_pair. vm_compute. reflexivity. Qed.

(** The row with another verifier, as it is stored. *)
Definition renewed (now : Z) (h : string) (u : UserDBModel) : UserDBModel :=
  mkUser (u_Id u) (u_Username u) h (u_Role u) (u_Email u) (u_Nickname u) (u_Avatar u) (u_Description u)
    (u_TokenVersion u) (u_CreatedAt u) now.

(** C18. Authentication by a request on its own, on whatever fault schedule:
    success means the account of that name accepts the plaintext; an outdated
    verifier has then been replaced in its row by a current one of the same
    plaintext, with which the account is returned, and a current one is left as it
    is, nothing else of the database changing. Failure writes nothing; and a
    rejected login derives exactly one key with admissible parameters, whether the
    account exists, the verifier is unusable or the password is wrong. Inputs within
    their bounds that the account accepts are let in when no statement fails and
    there are random bytes for a salt. *)
Theorem authenticate_exact (IDKey : string → string → N → N → N → N → string)
    (username plaintext : string) (w : World) :
  IDKey_sized IDKey → alone w → keys_agree (w_db w) →
  let run := AuthenticateUser IDKey username plaintext w in
  match fst run with
  | Ok u => ∃ row, selects (w_db w) username row ∧ accepts IDKey (u_Password row) plaintext ∧
      (if NeedsRehash (u_Password row)
       then ∃ now h, accepts IDKey h plaintext ∧ NeedsRehash h = false ∧ u = with_verifier h row ∧
         w_db (snd run) = with_users <[u_Id row := renewed now h row]> (w_db w)
       else u = row ∧ w_db (snd run) = w_db w)
  | Err e => w_db (snd run) = w_db w ∧
      (e = ErrInvalidCredentials → ∃ call, w_derived (snd run) = w_derived w ++ [call] ∧
         bounded (dc_parameters call))
  end ∧
  (∀ row, faultless w → (16 ≤ String.length (w_entropy w))%nat →
     (1 ≤ len username ≤ 256)%N → (1 ≤ len plaintext ≤ 1024)%N →
     selects (w_db w) username row → accepts IDKey (u_Password row) plaintext → is_Ok (fst run) = true).
Proof.
  intros Hs Hw Hk run. split; [exact (AuthenticateUser_solo IDKey Hs username plaintext w Hw Hk)|].
  intros row Hf He Hul Hpl Hsel Hacc. by apply (AuthenticateUser_right IDKey Hs username plaintext row w).
Qed.

Lemma keys_agree_users m : (∀ k u, m !! k = Some u → u_Id u = k) →
  keys_agree (with_users (λ _, m) emptyDatabase).
Proof. intros Hm. split; try (intros k x H; discriminate H). exact Hm. Qed.

Lemma bobDatabase_ok : keys_agree bobDatabase.
Proof.
  apply (keys_agree_users {[8 := bob]}). intros k u H.
  apply lookup_singleton_Some in H as [<- <-]. reflexivity.
Qed.

Abbreviation strangerLogin := (AuthenticateUser toyIDKey "eve" "guess" (quietWorld bobDatabase sixteen)).

Lemma authenticate_exact_witness :
  (∃ call, w_derived (snd strangerLogin) = [] ++ [call] ∧ bounded (dc_parameters call)) ∧
  is_Ok (fst bobLogin) = true ∧
  ∃ now h, NeedsRehash h = false ∧ o_users (w_db (snd bobLogin)) !! 8 = Some (renewed now h bob).
Proof.
  assert (∀ username plaintext, _) as H by (intros username plaintext;
    exact (authenticate_exact toyIDKey username plaintext (quietWorld bobDatabase sixteen)
      (λ pw s t m p k, toyIDKey_length pw s t m p k) (quietWorld_alone _ _) bobDatabase_ok)). cbv zeta in H. split_and!.
  - destruct (H "eve" "guess") as [Hr _].
    assert (fst strangerLogin = Err ErrInvalidCredentials) as E by (vm_compute; reflexivity).
    rewrite E in Hr. destruct Hr as [_ Hr]. exact (Hr eq_refl).
  - destruct (H "bob" "correct horse") as [_ Hr].
    apply (Hr bob); [intros n; reflexivity|vm_compute; lia|vm_compute; split; discriminate|vm_compute; split; discriminate
      |vm_compute; reflexivity|vm_compute; reflexivity].
  - destruct (H "bob" "correct horse") as [Hr _]. rewrite (f_equal fst bobLogin_ok) in Hr. cbn [fst] in Hr.
    destruct Hr as (row & Hsel & _ & Hif).
    assert (Some row = Some bob) as Er by (rewrite <- Hsel; vm_compute; reflexivity). injection Er as ->.
    change (NeedsRehash (u_Password bob)) with true in Hif. destruct Hif as (now & h & _ & Hre & _ & Hdb).
    exists now, h. split; [exact Hre|]. rewrite Hdb. exact (lookup_insert_eq _ 8 _).
Defined.

(** C19. Authentication is sound and never grants access, under any interference.
    Whatever other requests do to the database between its statements and whichever
    statements fail, the account [AuthenticateUser] returns has a verifier that
    accepts the presented plaintext, and the inputs were within their bounds. And if
    the plaintext is not the password of an account, and the other requests do not
    make it so, then no attempt with it, under any name, makes it so; in particular
    the verifier upgrade never undoes a concurrent password change. *)
Theorem login_never_grants (IDKey : string → string → N → N → N → N → string)
    (username plaintext : string) (w : World) :
  IDKey_sized IDKey →
  let run := AuthenticateUser IDKey username plaintext w in
  (∀ user, fst run = Ok user →
     accepts IDKey (u_Password user) plaintext ∧
     (1 ≤ len username ≤ 256)%N ∧ (1 ≤ len plaintext ≤ 1024)%N) ∧
  (∀ k, rely (others_keep (refuses IDKey k plaintext)) w → refuses IDKey k plaintext (w_db w) →
     refuses IDKey k plaintext (w_db (snd run))).
Proof.
  intros Hs run. split.
  - intros user Hu. exact (AuthenticateUser_accepts IDKey Hs username plaintext w user Hu).
  - intros k Hw Hr. by apply (AuthenticateUser_refuses IDKey k username plaintext w Hw).
Qed.

Lemma login_never_grants_witness :
  refuses toyIDKey 8 "guess" (w_db (snd (AuthenticateUser toyIDKey "bob" "guess" (quietWorld bobDatabase sixteen)))).
Proof.
  apply (login_never_grants toyIDKey "bob" "guess" (quietWorld bobDatabase sixteen)
    (λ pw s t m p k, toyIDKey_length pw s t m p k)).
  - intros n. split; [|reflexivity]. intros db H. exact H.
  - intros u H. change (({[8 := bob]} : gmap Z UserDBModel) !! 8 = Some u) in H.
    apply lookup_singleton_Some in H as [_ <-]. vm_compute. discriminate.
Defined.
