(* ===== verification/Administration.v ===== *)
(** * What changing, deleting and updating accounts guarantees

    Theorems about [ChangeUserPassword], [DeleteUserById] and [UpdateUser] of
    src/service/user.go. *)

From stdpp Require Import prelude strings gmap.
From Stdlib Require Import ZArith Lia Ascii.
From S2P Require Import Prelude GoStrings Password FileSystem Tables Store Guarantee AuthSecurity Bootstrap Sessions Rotation Retention Users Accounts.

Local Open Scope Z_scope.
Local Open Scope m_scope.

(** ** Changing a password *)

Lemma appendEvent_spec next at_ inst u t b src d w : alone w →
  post (appendEvent next at_ inst u t b src d) w (λ _ w', calm w w' ∧ ∃ f, w_db w' = with_audit f (w_db w)).
Proof.
  intros Hw. unfold appendEvent. m_step; (split; [done|]).
  - exists id. rewrite H0. by destruct (w_db w).
  - by eexists.
Qed.

(** Recording an event touches the audit table only. *)
Lemma LogCredentialEvent_audit next u a t b s d w : alone w →
  post (LogCredentialEvent next u a t b s d) w (λ _ w', calm w w' ∧ ∃ f, w_db w' = with_audit f (w_db w)).
Proof.
  intros Hw. assert (∃ f, w_db w = with_audit f (w_db w)) as Hid by (exists id; by destruct (w_db w)).
  unfold LogCredentialEvent. m_step; [|m_step; eauto with store].
  m_step; [m_step; eauto with store|]. do 3 m_step. m_use appendEvent_spec as r w1 H. by m_step.
Qed.

(** [revokeUserSessions] revokes the live sessions of the user, or does nothing
    because its statement failed. *)
Lemma revokeUserSessions_done userID now reason w : alone w →
  post (revokeUserSessions userID now reason) w (λ _ w', calm w w' ∧ ∃ done,
    w_db w' = with_sessions (done_if done (update_where (live_of userID) (revoked now reason))) (w_db w) ∧
    (faultless w → done = true)).
Proof.
  intros Hw. m_use revokeUserSessions_spec as r w1 (Hc & Hr). split; [done|].
  destruct r as [[]|e]; [by exists true|]. destruct Hr as (-> & Hn & _). exists false. split; [by destruct (w_db w)|done].
Qed.

(** Afterwards the user has no unrevoked session. *)
Lemma live_of_revoked userID now reason (m : gmap string RefreshSessionDBModel) k s :
  update_where (live_of userID) (revoked now reason) m !! k = Some s → rs_UserID s = userID → rs_RevokedAt s ≠ None.
Proof.
  rewrite lookup_update_where. intros (s0 & _ & ->)%fmap_Some. unfold live_of.
  destruct (rs_UserID s0 =? userID) eqn:Eu; simpl; [|by intros ?; apply Z.eqb_neq in Eu].
  destruct (rs_RevokedAt s0) eqn:E0; simpl; [by rewrite E0|done].
Qed.

(** The row a condition on the identifier singles out. *)
Lemma one_row db p row f :
  keys_agree db → o_users db !! u_Id row = Some row → p row = true →
  (∀ u, p u = true → u_Id u = u_Id row) →
  count_where p (o_users db) = 1 ∧ update_where p f (o_users db) = <[u_Id row := f row]> (o_users db).
Proof.
  intros Hk Hat Hp Hid.
  assert (∀ k' v', o_users db !! k' = Some v' → p v' = true → k' = u_Id row) as Hkey.
  { intros k' v' Hk' Hp'. rewrite <- (users_keyed _ Hk _ _ Hk'). by apply Hid. }
  split; [|by apply update_where_key]. rewrite (count_where_key _ _ (u_Id row)) by done. by rewrite Hat, Hp.
Qed.

(** The database after a change of the password of [row]; [swept] says whether the
    sessions could be revoked. *)
Definition password_changed (row : UserDBModel) (h : string) (now at_ : Z) (swept : bool)
    (f : list CredentialEventDBModel → list CredentialEventDBModel) (db : Database) : Database :=
  with_audit f (with_sessions
    (done_if swept (update_where (live_of (u_Id row)) (marked at_ "password change")))
    (with_users <[u_Id row := advanced now (renewed now h row)]> db)).

Section Change.
Context (IDKey : string → string → N → N → N → N → string) (sized : IDKey_sized IDKey)
        (id_matches : string → Z → bool) (next : list CredentialEventDBModel → Z).

Lemma ChangeUserPassword_spec u id old new w :
  alone w → keys_agree (w_db w) →
  post (ChangeUserPassword IDKey id_matches next u id old new) w (λ r w',
    match r with
    | Ok _ => ∃ row h now at_ swept f,
        first_where Z.leb (with_id id_matches id) (o_users (w_db w)) = Some row ∧
        accepts IDKey (u_Password row) old ∧ ValidateNewPassword new = None ∧
        accepts IDKey h new ∧ NeedsRehash h = false ∧ (faultless w → swept = true) ∧
        w_db w' = password_changed row h now at_ swept f (w_db w)
    | Err e => w_db w' = w_db w ∨ e = ErrInvalidCredentials ∧ (∃ f, w_db w' = with_audit f (w_db w)) ∧
        ∃ row, first_where Z.leb (with_id id_matches id) (o_users (w_db w)) = Some row ∧
          ¬ accepts IDKey (u_Password row) old
    end).
Proof.
  intros Hw Hk. unfold ChangeUserPassword. destruct (ValidateNewPassword new) eqn:Hnew; [m_step; by left|].
  m_step; [m_step; by left|]. m_step. unfold findUserWhere. m_step; [simpl; m_step; by left|].
  destruct (first_where _ _ _) as [row|] eqn:Hrow; simpl; [|m_step; by left].
  m_step. apply post_verifyPassword. intros w2 call Hd2 Hs2 Hi2 Hc2 Hf2 He2 _ _.
  assert (alone w2) as Hw2 by (intros n; rewrite Hs2; apply (calm_alone _ _ H)).
  assert (w_db w2 = w_db w) as Hdb2 by congruence.
  destruct (fst (Verify IDKey (u_Password row) old)) as [e|] eqn:E.
  { m_step. m_use LogCredentialEvent_audit as a w3 (_ & f & Hf). m_step. right. split; [done|]. rewrite Hf, Hdb2.
    split; [by exists f|]. exists row. split; [done|]. unfold accepts. by rewrite E. }
  m_step. apply post_hashPassword; [done|]. intros r w3 Hd3 Hs3 Hi3 Hc3 Hf3 _ Hh.
  assert (w_db w3 = w_db w) as Hdb3 by congruence.
  destruct r as [h|e]; [|by left]. destruct (Hh h eq_refl) as (Hacc & Hre & _).
  assert (alone w3) as Hw3 by (intros n; rewrite Hs3; apply Hw2).
  pose proof Hrow as Hat. apply first_where_Some in Hat as (k & Hat & _).
  pose proof (users_keyed _ Hk _ _ Hat) as <-.
  destruct (one_row (w_db w) (λ u, (u_Id u =? u_Id row) && bool_decide (u_Password u = u_Password row)) row
    (change_password (w_clock w3) h) Hk Hat) as [Hone Hupd].
  { by rewrite Z.eqb_refl, bool_decide_eq_true_2. }
  { by intros v [?%Z.eqb_eq _]%andb_prop. }
  do 2 m_step. m_step. m_step; [left; by rewrite H2, Hdb3|].
  cbn [fst snd] in *. rewrite Hdb3, Hone. simpl. unfold with_users in H2. rewrite Hdb3, Hupd in H2.
  do 2 m_step. m_step. m_use revokeUserSessions_done as r w4 (Hc4 & swept & Hd4 & Hs4).
  m_step. m_use LogCredentialEvent_audit as a w5 (_ & f & Hd5). m_step.
  exists row, h, (w_clock w3), (w_clock w0), swept, f. split_and!; try done.
  - intros Hf. apply Hs4, (calm_faultless _ _ H1). intros n. rewrite Hs3, Hs2. by apply (calm_faultless _ _ H).
  - by rewrite Hd5, Hd4, H2.
Qed.
End Change.


(** SQLite compares a decimal text with an integer column by value. *)
Definition decimal_id (id : string) (k : Z) : bool := bool_decide (Atoi id = Some k).

Abbreviation bobChange := (ChangeUserPassword toyIDKey decimal_id countIDs (Some liveService) "8" "correct horse"
  "a longer secret" (quietWorld bobDatabase sixteen)).

Abbreviation bobMistakes := (ChangeUserPassword toyIDKey decimal_id countIDs (Some liveService) "8" "guess"
  "a longer secret" (quietWorld bobDatabase sixteen)).


(** ** Deleting an account *)

(** A failing statement contradicts a faultless schedule. *)
Ltac no_fault :=
  intros; exfalso; match goal with H : ¬ faultless _ |- _ => apply H; eauto 8 using calm_faultless end.

(** Some account is an administrator. *)
Definition administered (db : Database) : Prop := 1 ≤ count_where is_admin (o_users db).

Section Delete.
Context (id_matches : string → Z → bool).

Lemma deleteBody_keeps_admin id w :
  rely (others_keep administered) w → w_isolated w = true →
  post (deleteBody id_matches id) w (λ r w', inside (others_keep administered) w w' ∧
    ∀ a, r = Ok a → keeps administered (w_db w) (w_db w')).
Proof.
  intros Hw Hi. unfold deleteBody. m_step.
  apply (query_inside (others_keep administered)); [done|done|intros w1 d H1; by m_step|].
  intros w1 H1 E1. destruct (first_where _ _ _) as [row|] eqn:Hrow; [|by m_step].
  assert (∀ w2, inside (others_keep administered) w w2 → w_db w2 = w_db w →
    (is_admin row = true → 2 ≤ count_where is_admin (o_users (w_db w))) →
    post (ok rows <- exec (λ db, (Ok (count_where (with_id id_matches id) (o_users db)),
                          with_users (delete_where (with_id id_matches id)) db)) or "delete user";;
          if negb (rows =? 1) then mret (Err ErrUserNotFound) else mret (Ok tt)) w2
      (λ r w', inside (others_keep administered) w w' ∧
         ∀ a, r = Ok a → keeps administered (w_db w) (w_db w'))) as Hdelete.
  { intros w2 H2 E2 Hadm. m_step. apply (exec_inside (others_keep administered)); [apply H2|apply H2| |].
    { intros w3 d H3. split; [by eapply inside_trans|done]. }
    intros w3 H3 E3. cbn [fst snd] in *. rewrite E2 in *.
    assert (inside (others_keep administered) w w3) by by eapply inside_trans.
    destruct (count_where _ _ =? 1) eqn:Hone; cbn [negb]; m_step; (split; [done|]); [|done].
    intros _ _ Hpre. apply Z.eqb_eq in Hone.
    destruct (delete_where_one Z.leb _ _ _ Hone Hrow) as (k & Hk & _ & Hdel).
    unfold administered in *. rewrite E3. unfold with_users. cbn [o_users].
    rewrite Hdel, (count_where_delete _ _ _ _ Hk). destruct (is_admin row); [specialize (Hadm eq_refl)|]; lia. }
  m_step. destruct (bool_decide (u_Role row = "admin")) eqn:Hrole.
  - m_step. apply (query_inside (others_keep administered)); [apply H1|apply H1| |].
    { intros w2 d H2. split; [by eapply inside_trans|done]. }
    intros w2 H2 E2. m_step. rewrite E1.
    assert (inside (others_keep administered) w w2) by by eapply inside_trans.
    destruct (_ <=? 1) eqn:Hc; [by m_step|]. apply Hdelete; [done|congruence|]. intros _. lia.
  - m_step. apply Hdelete; [done|done|]. unfold is_admin. congruence.
Qed.

Lemma DeleteUserById_administered u id :
  within (others_keep administered) (keeps administered) (DeleteUserById id_matches u id).
Proof.
  unfold DeleteUserById, acquire, db_Conn, RevokeAllUserSessions, revokeUserSessions.
  within_step; [within_solve|]. within_step; [|within_solve; by intros db Hdb].
  apply (within_atomic (others_keep administered) (keeps administered)).
  intros w Hw Hi. by apply deleteBody_keeps_admin.
Qed.

(** The answer to a deletion request on a working store. *)
Definition deletion (db : Database) (id : string) : res unit :=
  match first_where Z.leb (with_id id_matches id) (o_users db) with
  | None => Err ErrUserNotFound
  | Some row =>
     if is_admin row && (count_where is_admin (o_users db) <=? 1) then Err ErrLastAdmin
     else if count_where (with_id id_matches id) (o_users db) =? 1 then Ok tt else Err ErrUserNotFound
  end.

Lemma deleteBody_spec id w : alone w →
  post (deleteBody id_matches id) w (λ r w', calm w w' ∧
    (faultless w → r = deletion (w_db w) id) ∧
    ∀ a, r = Ok a → ∃ k row,
      first_where Z.leb (with_id id_matches id) (o_users (w_db w)) = Some row ∧
      o_users (w_db w) !! k = Some row ∧ w_db w' = with_users (delete k) (w_db w)).
Proof.
  intros Hw. unfold deleteBody, deletion. m_step. m_step; [by m_step|].
  destruct (first_where _ _ _) as [row|] eqn:Hrow; [|by m_step]. unfold is_admin.
  assert (∀ w2, calm w w2 → w_db w2 = w_db w →
    post (ok rows <- exec (λ db, (Ok (count_where (with_id id_matches id) (o_users db)),
                          with_users (delete_where (with_id id_matches id)) db)) or "delete user";;
          if negb (rows =? 1) then mret (Err ErrUserNotFound) else mret (Ok tt)) w2
      (λ r w', calm w w' ∧
         (faultless w → r = if count_where (with_id id_matches id) (o_users (w_db w)) =? 1
                            then Ok tt else Err ErrUserNotFound) ∧
         ∀ a, r = Ok a → ∃ k row0, Some row = Some row0 ∧ o_users (w_db w) !! k = Some row0 ∧
           w_db w' = with_users (delete k) (w_db w))) as Hdelete.
  { intros w2 H2 E2. m_step. apply exec_solo; [by eauto with store| |].
    { intros w3 d H3 _ Hn. split; [by eapply calm_trans|]. split; [no_fault|done]. }
    intros w3 H3 E3. cbn [fst snd] in *. rewrite E2 in *. assert (calm w w3) by by eapply calm_trans.
    destruct (_ =? 1) eqn:Hone; cbn [negb]; m_step; (split; [done|]); (split; [done|]); [|done].
    intros _ _. apply Z.eqb_eq in Hone. destruct (delete_where_one Z.leb _ _ _ Hone Hrow) as (k & Hk & _ & Hdel).
    exists k, row. split_and!; try done. rewrite E3. unfold with_users. by rewrite Hdel. }
  m_step. m_step.
  - m_step. m_step.
    { split; [by eapply calm_trans|]. split; [|done]. no_fault. }
    m_step. rewrite H0. simpl. m_step; [m_step; split; [by eapply calm_trans|done]|].
    apply Hdelete; [by eapply calm_trans|congruence].
  - m_step. by apply Hdelete.
Qed.

(** What the service relies on of SQLite: a decimal text is compared with an
    integer column by value. *)
Definition reads_decimals : Prop := ∀ id n k, Atoi id = Some n → id_matches id k = true → k = n.

(** What a deletion does to a database no other request touches. *)
Lemma DeleteUserById_spec u id w :
  reads_decimals → alone w → keys_agree (w_db w) →
  post (DeleteUserById id_matches u id) w (λ r w',
    (faultless w → r = deletion (w_db w) id) ∧
    match r with
    | Ok _ => ∃ row at_ swept,
        first_where Z.leb (with_id id_matches id) (o_users (w_db w)) = Some row ∧
        w_db w' = with_sessions (done_if swept (update_where (live_of (u_Id row)) (revoked at_ "account deleted")))
          (with_users (delete (u_Id row)) (w_db w)) ∧
        (Atoi id = None → swept = false) ∧
        (Atoi id ≠ None → 1 ≤ u_Id row → unavailable u = false → faultless w → swept = true)
    | Err _ => w_db w' = w_db w
    end).
Proof.
  intros Hdec Hw Hkeys. unfold DeleteUserById, acquire, db_Conn.
  repeat (m_step; try (split; [no_fault|congruence])).
  assert (calm w w0) as Hc0 by by eapply calm_trans. assert (w_db w0 = w_db w) as E0 by congruence.
  apply transaction_solo; [by eauto with store| |].
  2:{ intros e w2 _ H2' E Hn. split; [no_fault|congruence]. }
  intros w2 Hw2 _ E2 _ Hf2 _ _ _. m_use deleteBody_spec as r w3 (Hc3 & Hr & Hd). split; [done|].
  rewrite E2, E0 in *. destruct r as [[]|e].
  2:{ intros w4 _ E4. split; [|done]. intros Hf. apply Hr, Hf2. by apply (calm_faultless _ _ Hc0). }
  intros w4 Hc4 E4. destruct (Hd tt eq_refl) as (k & row & Hrow & Hk & Hdb).
  pose proof (users_keyed _ Hkeys _ _ Hk) as <-.
  assert (faultless w → Ok tt = deletion (w_db w) id) as Hres.
  { intros Hf. apply Hr, Hf2. by apply (calm_faultless _ _ Hc0). }
  assert (w_db w4 = with_sessions (λ m, m) (with_users (delete (u_Id row)) (w_db w))) as E4' by (by rewrite E4, Hdb).
  destruct (Atoi id) as [n|] eqn:Hn.
  2:{ m_step. split; [done|]. exists row, 0, false. by split_and!. }
  assert (n = u_Id row) as ->.
  { symmetry. apply (Hdec id); [done|]. by apply first_where_Some in Hrow as (? & _ & ?). }
  m_step. unfold RevokeAllUserSessions. m_step.
  - do 2 m_step. split; [done|]. exists row, 0, false. split_and!; try done. intros _ ? Hav.
    rewrite Hav in *. simpl in *. lia.
  - do 2 m_step. m_use revokeUserSessions_done as r w5 (_ & swept & Hd5 & Hs5). m_step. split; [done|].
    exists row, (w_clock w4), swept. split_and!; try done; [by rewrite Hd5, E4'|].
    intros _ _ _ Hf. apply Hs5. eauto using calm_faultless.
Qed.
End Delete.

Definition alice : UserDBModel := mkUser 7 "alice" weakVerifier "admin" "" "" "" "" 0 1 1.

Definition householdDatabase : Database :=
  with_users <[7 := alice]> (with_sessions <["s" := mkSession "s" 8 "d" 1 9 None "" None ""]> bobDatabase).

Lemma householdDatabase_ok : keys_agree householdDatabase.
Proof.
  split; intros k x H; [| |discriminate H..].
  - change ((<[7 := alice]> {[8 := bob]} : gmap Z UserDBModel) !! k = Some x) in H.
    apply lookup_insert_Some in H as [[<- <-]|[_ H]]; [reflexivity|].
    apply lookup_singleton_Some in H as [<- <-]. reflexivity.
  - change ((<["s" := mkSession "s" 8 "d" 1 9 None "" None ""]> ∅ : gmap string RefreshSessionDBModel) !! k = Some x) in H.
    apply lookup_insert_Some in H as [[<- <-]|[_ H]]; [reflexivity|discriminate H].
Qed.

(** C21. The last administrator survives, and a deletion does what it says. While
    the other requests keep an administrator, a deletion of any identifier text does
    so too, however requests interleave and statements fail. On its own, with SQLite
    reading decimal texts by value: on a working store the answer is that of
    [deletion] (no such account, the last administrator, done); success removes
    exactly the account the identifier selects and, where the identifier is a
    decimal text and the statement does not fail, revokes the live sessions of that
    account, after which none is left unrevoked; an identifier that SQLite reads as
    a number and strconv.Atoi does not leaves the sessions as they are. Nothing else
    changes, and any error leaves the database as it was. *)
Theorem last_admin_survives (id_matches : string → Z → bool) (u : option userService) (id : string) (w : World) :
  let run := DeleteUserById id_matches u id w in
  let db := w_db w in
  let db' := w_db (snd run) in
  (rely (others_keep administered) w → administered db → administered db') ∧
  (reads_decimals id_matches → alone w → keys_agree db →
   (faultless w → fst run = deletion id_matches db id) ∧
   match fst run with
   | Ok _ => ∃ row at_ swept,
       first_where Z.leb (with_id id_matches id) (o_users db) = Some row ∧
       db' = with_sessions (done_if swept (update_where (live_of (u_Id row)) (marked at_ "account deleted")))
         (with_users (delete (u_Id row)) db) ∧
       (Atoi id = None → swept = false) ∧
       (Atoi id ≠ None → 1 ≤ u_Id row → unavailable u = false → faultless w → swept = true) ∧
       (swept = true → ∀ k s, o_refresh_sessions db' !! k = Some s →
          rs_UserID s = u_Id row → rs_RevokedAt s ≠ None)
   | Err _ => db' = db
   end).
Proof.
  intros run db db'. split.
  - intros Hw H. by apply (DeleteUserById_administered id_matches u id w Hw).
  - intros Hdec Hw Hk. destruct (DeleteUserById_spec id_matches u id w Hdec Hw Hk) as [Hr H]. split; [exact Hr|].
    fold run db db' in H. destruct (fst run) as [[]|e]; [|exact H].
    destruct H as (row & at_ & swept & H1 & H2 & H3 & H4). exists row, at_, swept. split_and!; try done.
    intros -> k s. rewrite H2. apply live_of_revoked.
Qed.

Lemma decimal_id_reads : reads_decimals decimal_id.
Proof. intros id n k Hn [= E]%bool_decide_eq_true. congruence. Qed.

Abbreviation bobGone := (DeleteUserById decimal_id (Some liveService) "8" (quietWorld householdDatabase "")).

Lemma quietWorld_faultless db e : faultless (quietWorld db e).
Proof. intros n. reflexivity. Qed.

Lemma last_admin_survives_witness :
  administered (w_db (snd (DeleteUserById decimal_id (Some liveService) "7" (quietWorld householdDatabase "")))) ∧
  o_users (w_db (snd bobGone)) !! 8 = None ∧
  ∀ s, o_refresh_sessions (w_db (snd bobGone)) !! "s" = Some s → rs_UserID s = 8 → rs_RevokedAt s ≠ None.
Proof.
  split.
  - destruct (last_admin_survives decimal_id (Some liveService) "7" (quietWorld householdDatabase "")) as [H _].
    apply H.
    + intros n. split; [|reflexivity]. intros db Hdb. exact Hdb.
    + vm_compute. discriminate.
  - destruct (last_admin_survives decimal_id (Some liveService) "8" (quietWorld householdDatabase "")) as [_ Hd].
    cbv zeta in Hd. destruct (Hd decimal_id_reads (quietWorld_alone _ _) householdDatabase_ok) as [_ Hb].
    assert (fst bobGone = Ok tt) as E by (vm_compute; reflexivity). rewrite E in Hb.
    destruct Hb as (row & at_ & swept & Hrow & Hdb & _ & Hswept & Hs).
    assert (Some row = Some bob) as Er by (rewrite <- Hrow; vm_compute; reflexivity). injection Er as ->.
    split; [rewrite Hdb; exact (lookup_delete_eq _ 8)|]. intros s. apply Hs.
    apply Hswept; [vm_compute; discriminate|vm_compute; discriminate|reflexivity|apply quietWorld_faultless].
Defined.

(** An identifier SQLite reads and [strconv.Atoi] does not: the account goes and its
    sessions stay. *)
Definition numeric_id (id : string) (k : Z) : bool :=
  decimal_id id k || decimal_id (match split_on "." id with [n; "0"] => n | _ => "" end) k.

Lemma decimal_point_keeps_sessions :
  o_users (w_db (snd (DeleteUserById numeric_id (Some liveService) "8.0" (quietWorld householdDatabase "")))) !! 8 = None ∧
  o_refresh_sessions (w_db (snd (DeleteUserById numeric_id (Some liveService) "8.0" (quietWorld householdDatabase ""))))
  = o_refresh_sessions householdDatabase.
Proof. split; vm_compute; reflexivity. Qed.

(** ** Updating a profile *)

(** The columns a profile update must not reach. *)
Definition credentials (u : UserDBModel) : Z * string * string * Z * Z :=
  (u_Id u, u_Password u, u_Role u, u_TokenVersion u, u_CreatedAt u).

(** [username] carries a unique index. *)
Definition usernames_unique (db : Database) : Prop :=
  ∀ k1 k2 u1 u2, o_users db !! k1 = Some u1 → o_users db !! k2 = Some u2 →
    u_Username u1 = u_Username u2 → k1 = k2.

Lemma merge_username now m u :
  u_Username (merge_profile now m u) = if bool_decide (u_Username m = "") then u_Username u else u_Username m.
Proof. done. Qed.

(** A merge that takes no name of another account keeps names unique. *)
Lemma merge_unique now m db :
  keys_agree db → usernames_unique db →
  (u_Username m ≠ "" → ∀ k u, o_users db !! k = Some u → u_Username u = u_Username m → u_Id u = u_Id m) →
  usernames_unique (with_users (update_where (λ u, u_Id u =? u_Id m) (merge_profile now m)) db).
Proof.
  intros Hk Hun Hfree k1 k2 u1 u2. unfold with_users. cbn [o_users].
  rewrite !lookup_update_where. intros (v1 & H1 & ->)%fmap_Some (v2 & H2 & ->)%fmap_Some.
  pose proof (users_keyed _ Hk _ _ H1) as <-. pose proof (users_keyed _ Hk _ _ H2) as <-.
  pose proof (Hun _ _ _ _ H1 H2) as Hsame.
  destruct (Z.eqb_spec (u_Id v1) (u_Id m)), (Z.eqb_spec (u_Id v2) (u_Id m)); rewrite ?merge_username;
    repeat case_bool_decide; intros E; try congruence; auto.
  - symmetry in E. pose proof (Hfree ltac:(done) _ _ H2 E). congruence.
  - pose proof (Hfree ltac:(done) _ _ H1 E). congruence.
Qed.

Lemma UpdateUser_spec m w :
  alone w →
  post (UpdateUser m) w (λ _ w', w_db w' = w_db w ∨
    (u_Id m ≠ 0 ∧
     (u_Username m ≠ "" → ∀ k u, o_users (w_db w) !! k = Some u → u_Username u = u_Username m → u_Id u = u_Id m) ∧
     ∃ now, w_db w' = with_users (update_where (λ u, u_Id u =? u_Id m) (merge_profile now m)) (w_db w))).
Proof.
  intros Hw. unfold UpdateUser. m_step. m_step. m_step. m_step; [m_step; by left|].
  m_step. revert H0. destruct (Z.eqb_spec (u_Id m) 0); [by left|].
  destruct (_ && _) eqn:E; [by left|]. intros ->. right. split; [done|]. split; [|by eexists].
  intros Hne k u Hk Hname. apply andb_false_iff in E as [E|E]; apply negb_false_iff in E.
  { by apply bool_decide_eq_true in E. }
  apply Z.eqb_eq, count_where_0 with (k := k) (v := u) in E; [|done].
  apply andb_false_iff in E as [E|E].
  - by apply bool_decide_eq_false in E.
  - by apply negb_false_iff, Z.eqb_eq in E.
Qed.

(** A profile update stays a profile update: on any fault schedule it changes
    no account's identifier, verifier, role, credential generation or creation
    time, changes no account but the one it names and no other table, and keeps
    usernames unique. *)
Theorem update_user_frame (m : UserDBModel) (w : World) :
  alone w → keys_agree (w_db w) →
  let db' := w_db (snd (UpdateUser m w)) in
  credentials <$> o_users db' = credentials <$> o_users (w_db w) ∧
  (∀ k, k ≠ u_Id m → o_users db' !! k = o_users (w_db w) !! k) ∧
  with_users (λ _, o_users (w_db w)) db' = w_db w ∧
  (usernames_unique (w_db w) → usernames_unique db').
Proof.
  intros Hw Hk db'. assert (∀ db, with_users (λ _, o_users db) db = db) as Hid by by intros [].
  destruct (UpdateUser_spec m w Hw) as [E|(_ & Hfree & now & E)]; fold db' in E; rewrite E.
  { by split_and!. }
  split_and!.
  - unfold with_users. cbn [o_users]. apply map_eq. intros k. rewrite !lookup_fmap, lookup_update_where.
    destruct (o_users (w_db w) !! k) as [u|]; [|done]. simpl. by destruct (_ =? _).
  - intros k Hne. unfold with_users. cbn [o_users]. rewrite lookup_update_where.
    destruct (o_users (w_db w) !! k) as [u|] eqn:Hu; [|done]. simpl.
    rewrite (users_keyed _ Hk _ _ Hu). by destruct (Z.eqb_spec k (u_Id m)).
  - unfold with_users. cbn [o_users]. by destruct (w_db w).
  - intros Hun. by apply merge_unique.
Qed.

Lemma update_user_frame_witness :
  let db' := w_db (snd (UpdateUser (mkUser 8 "robert" "x" "admin" "" "" "" "" 9 0 0) (quietWorld bobDatabase ""))) in
  credentials <$> o_users db' = credentials <$> o_users bobDatabase.
Proof.
  apply (update_user_frame (mkUser 8 "robert" "x" "admin" "" "" "" "" 9 0 0) (quietWorld bobDatabase "")
    (quietWorld_alone _ _) bobDatabase_ok).
Defined.
