(* ===== verification/Resets.v ===== *)
(** * What the local bootstrap and the offline resets guarantee

    Theorems about [ResetAdminPassword], [ResetUserPassword] and [BootstrapAdmin]
    of src/service/user.go, against the interface [SealSpec] of the seal. *)

From stdpp Require Import prelude strings gmap.
From Stdlib Require Import ZArith Lia Ascii.
From S2P Require Import Prelude GoStrings Password FileSystem Tables Store Guarantee AuthSecurity Bootstrap Sessions Rotation Users Accounts Administration.

Local Open Scope Z_scope.
Local Open Scope m_scope.

(** ** The account a reset is for *)

(** Exactly one account has the name. *)
Definition sole_account (db : Database) (username : string) (row : UserDBModel) : Prop :=
  o_users db !! u_Id row = Some row ∧ u_Username row = username ∧
  ∀ k u, o_users db !! k = Some u → u_Username u = username → u = row.

Definition rows_named (db : Database) (username : string) : list UserDBModel :=
  filter (λ u, named username u = true) (map_to_list (o_users db)).*2.

Lemma elem_of_rows_named db username u :
  u ∈ rows_named db username ↔ (∃ k, o_users db !! k = Some u) ∧ u_Username u = username.
Proof.
  unfold rows_named. rewrite list_elem_of_filter, list_elem_of_fmap. unfold named.
  rewrite bool_decide_eq_true. split.
  - intros [-> ([k v] & -> & Hin%elem_of_map_to_list)]. eauto.
  - intros [[k Hk] <-]. split; [done|]. exists (k, u). by rewrite elem_of_map_to_list.
Qed.

Lemma sole_row db username u :
  keys_agree db → take 2 (rows_named db username) = [u] → sole_account db username u.
Proof.
  intros Hk Ht. assert (rows_named db username = [u]) as Hl.
  { destruct (rows_named db username) as [|a [|b l]]; simpl in *; congruence. }
  assert (u ∈ rows_named db username) as Hu by (rewrite Hl; by left).
  apply elem_of_rows_named in Hu as [[k Hat] Hname]. pose proof (users_keyed _ Hk _ _ Hat) as <-.
  split_and!; [done..|]. intros k v Hv Hvn.
  assert (v ∈ rows_named db username) as Hin by (apply elem_of_rows_named; eauto).
  rewrite Hl in Hin. by apply list_elem_of_singleton in Hin.
Qed.

Lemma loadUniqueAdministrator_spec username w : alone w →
  post (loadUniqueAdministrator username) w (λ r w', calm w w' ∧ w_db w' = w_db w ∧
    ∀ t, r = Ok t → keys_agree (w_db w) →
      ∃ row, sole_account (w_db w) username row ∧ is_admin row = true ∧ t = (u_Id row, u_Password row)).
Proof.
  intros Hw. unfold loadUniqueAdministrator, queryNamed. m_step. m_step; [done|].
  fold (rows_named (w_db w) username).
  destruct (take 2 _) as [|u [|]] eqn:Ht; [m_step; by split_and!| |m_step; by split_and!].
  destruct (is_admin u) eqn:Ha; cbn [negb]; m_step; (split; [done|]); (split; [done|]); [|done].
  intros t [= <-] Hk. exists u. split_and!; [by apply sole_row|done..].
Qed.

Lemma loadUniqueNonAdministrator_spec username w : alone w →
  post (loadUniqueNonAdministrator username) w (λ r w', calm w w' ∧ w_db w' = w_db w ∧
    ∀ t, r = Ok t → keys_agree (w_db w) →
      ∃ row, sole_account (w_db w) username row ∧ is_admin row = false ∧
        t = (u_Id row, u_Role row, u_Password row)).
Proof.
  intros Hw. unfold loadUniqueNonAdministrator, queryNamed. m_step. m_step; [done|].
  fold (rows_named (w_db w) username).
  destruct (take 2 _) as [|u [|]] eqn:Ht; [m_step; by split_and!| |m_step; by split_and!].
  destruct (is_admin u) eqn:Ha; m_step; (split; [done|]); (split; [done|]); [done|].
  intros t [= <-] Hk. exists u. split_and!; [by apply sole_row|done..].
Qed.

(** ** The checks before the transaction *)

(** What the resets require of marker and seal before they touch anything: no
    marker and no seal (a legacy installation), or an initialised marker whose
    seal, if present, is its own. *)
Definition resettable (a : Abs) : Prop :=
  match a_marker a with
  | None => a_seal a = None
  | Some m => status m = StatusInitialized ∧ (a_seal a = None ∨ a_seal a = Some (InstallationID m))
  end.

(** A lookup of the target that leaves the database alone. *)
Definition inspects {T} (target : M (res T)) : Prop :=
  ∀ w, alone w → post target w (λ _ w', calm w w' ∧ w_db w' = w_db w).

Section Preconditions.
Context (seal : Seal) (view : FileSystem → option string) `{!SealSpec seal view}.

Lemma createStateTable_spec msg w : alone w →
  post (createStateTable msg) w (λ _ w', calm w w' ∧ only_marker (w_db w) (w_db w') ∧
    marker_of (w_db w') = marker_of (w_db w)).
Proof.
  intros Hw. unfold createStateTable. m_step. m_step.
  - split_and!; [done|by apply only_marker_eq|congruence].
  - m_step. rewrite H0. destruct (o_bootstrap_state (w_db w)) eqn:E; split_and!; eauto with store.
    unfold marker_of. by rewrite E.
Qed.

Lemma checkMarker_spec sealed who w : alone w →
  post (checkMarker sealed who) w (λ r w', calm w w' ∧ w_db w' = w_db w ∧
    (r = Ok tt → resettable (mkAbs (marker_of (w_db w)) (o_users (w_db w)) sealed))).
Proof.
  intros Hw. unfold checkMarker, resettable. m_step. m_step; m_step; (split; [done|]); (split; [done|]); [done|].
  simpl. destruct (o_bootstrap_state (w_db w)); [|done].
  destruct (marker_of (w_db w)) as [m|]; simpl; [|by destruct sealed].
  case_bool_decide; simpl; [|done]. destruct sealed; [|by eauto]. case_bool_decide; [|done]. subst. eauto.
Qed.

Lemma reconcileForReset_spec w : alone w →
  post (reconcileForReset seal) w (λ r w', runs w w' ∧ only_marker (w_db w) (w_db w') ∧
    ∀ st, r = Ok st → healthy (abs_of view w') st ∧ status st = StatusInitialized).
Proof.
  intros Hw. unfold reconcileForReset. m_step.
  m_use (ReconcileState_healthy seal view) as [st [e|]] w1 (Hr & Ho & Hh); [by m_step|].
  specialize (Hh eq_refl). simpl in Hh. destruct (bool_decide _) eqn:Hst; cbn [negb]; [|by m_step].
  apply bool_decide_eq_true in Hst. m_step. m_use (seal_load (seal := seal) (view := view)) as r w2 (Hc & Hd & _).
  assert (runs w w2) by eauto with store. assert (only_marker (w_db w) (w_db w2)) by by rewrite Hd.
  assert (healthy (abs_of view w2) st) by by rewrite (abs_of_calm view w1 w2).
  repeat m_step; split_and!; try done; by intros ? [= <-].
Qed.

Lemma resetPreconditions_spec {T} (target : M (res T)) who w : alone w → inspects target →
  post (resetPreconditions (Some seal) target who) w (λ r w',
    runs w w' ∧ only_marker (w_db w) (w_db w') ∧
    ∀ st, r = Ok st → resettable (abs_of view w) ∧ healthy (abs_of view w') st ∧
      status st = StatusInitialized).
Proof.
  intros Hw Ht. unfold resetPreconditions, bootstrapStateTableExists. m_step.
  m_use db_Conn_spec as [[]|e] w1 (Hc1 & Hd1 & _); [|split_and!; eauto with store; done].
  m_step. m_use (seal_load (seal := seal) (view := view)) as r w2 (Hc2 & Hd2 & Hv).
  assert (calm w w2) as Hc by eauto with store. assert (w_db w2 = w_db w) as Hd by congruence.
  destruct r as [sealed|e]; [|m_step; split_and!; eauto with store; done].
  specialize (Hv _ eq_refl). rewrite (calm_fs _ _ Hc1) in Hv. clear Hc1 Hd1 Hc2 Hd2.
  do 2 m_step. m_step; [split_and!; eauto with store; done|]. do 2 m_step.
  assert (calm w w0) as Hc0 by eauto with store. assert (w_db w0 = w_db w) as Hd0 by congruence.
  eapply post_mono; [apply Ht; eauto with store|]. cbv beta. intros r w3 [Hc3 Hd3].
  assert (calm w w3) as Hc3' by eauto with store. assert (w_db w3 = w_db w) as Hd3' by congruence.
  destruct r as [t|e]; [|split_and!; eauto with store; done].
  m_step. eapply (post_mono _ _ (λ _ w', calm w w' ∧ only_marker (w_db w) (w_db w') ∧
    marker_of (w_db w') = marker_of (w_db w))).
  { m_step; [m_step; split_and!; eauto with store|]. m_step; [|m_step; split_and!; eauto with store].
    m_use createStateTable_spec as r w4 (Hc4 & Ho4 & Hm4). rewrite Hd3' in *. split_and!; eauto with store. }
  intros r w4 (Hc4 & Ho4 & Hm4). destruct r as [[]|e]; [|split_and!; eauto with store; done].
  m_step. m_use checkMarker_spec as r w5 (Hc5 & Hd5 & Hr5).
  destruct r as [[]|e]; [|split_and!; [eauto with store|by rewrite Hd5|done]].
  m_use reconcileForReset_spec as r w6 (Hr6 & Ho6 & Hst).
  assert (calm w w5) as Hcw by eauto with store.
  split_and!; [by eapply runs_trans; [apply calm_runs|]|eapply only_marker_trans; [done|by rewrite <- Hd5]|].
  intros st Hst'. split; [|by apply Hst]. specialize (Hr5 eq_refl).
  unfold resettable, abs_of in *. simpl in *. by rewrite Hm4, Hv in Hr5.
Qed.
End Preconditions.

(** ** The transaction *)

(** The row after a reset: the verifier is replaced, and the credential
    generation advances unless the schema predates it. *)
Definition reset_row (h : string) (row row' : UserDBModel) : Prop :=
  u_Password row' = h ∧
  (u_TokenVersion row' = u_TokenVersion row + 1 ∨ u_TokenVersion row' = u_TokenVersion row) ∧
  (u_Id row', u_Username row', u_Role row', u_Email row', u_Nickname row', u_Avatar row', u_Description row',
   u_CreatedAt row')
  = (u_Id row, u_Username row, u_Role row, u_Email row, u_Nickname row, u_Avatar row, u_Description row,
     u_CreatedAt row).

(** What a committed reset of [row] made of the database; [clean] when no
    statement failed. *)
Record reset_done (h : string) (row : UserDBModel) (clean : Prop) (db db' : Database) : Prop := {
  reset_users : ∃ row', reset_row h row row' ∧ o_users db' = <[u_Id row := row']> (o_users db) ∧
    (clean → u_TokenVersion row' = u_TokenVersion row + 1);
  reset_sessions : ∀ k s, o_refresh_sessions db' !! k = Some s → o_refresh_sessions db !! k = Some s ∧
    (clean → rs_UserID s ≠ u_Id row);
}.

Lemma reset_done_mono h row (c c' : Prop) db db' :
  (c' → c) → reset_done h row c db db' → reset_done h row c' db db'.
Proof.
  intros Hc [(row' & Hr & Hu & Hv) Hs]. split; [by exists row'; eauto|].
  intros k s Hks. destruct (Hs k s Hks). eauto.
Qed.

(** The marker row and table stay. *)
Abbreviation same_marker db db' := (o_bootstrap_state db' = o_bootstrap_state db).

Lemma tolerant_spec f msg w : alone w →
  post (tolerant (execute f) msg) w (λ r w', calm w w' ∧
    match r with
    | Ok _ => w_db w' = f (w_db w) ∨ w_db w' = w_db w ∧ ¬ faultless w
    | Err _ => ¬ faultless w
    end).
Proof. intros Hw. unfold tolerant. do 2 m_step; m_step; (split; [done|]); [by repeat case_match; eauto|by left]. Qed.

Lemma retireCredentials_spec h row row1 who w db :
  alone w → reset_row h row row1 → u_TokenVersion row1 = u_TokenVersion row →
  keys_agree db → o_users db !! u_Id row = Some row →
  w_db w = with_users <[u_Id row := row1]> db →
  post (retireCredentials (u_Id row) who) w (λ r w', calm w w' ∧
    (r = Ok tt → reset_done h row (faultless w) db (w_db w') ∧ same_marker db (w_db w'))).
Proof.
  intros Hw Hrow Htv Hk Hat Hdb. unfold retireCredentials. m_step.
  m_use tolerant_spec as r w1 (Hc1 & H1). destruct r as [[]|e]; [|done].
  eapply post_mono; [apply tolerant_spec; eauto with store|]. cbv beta. intros r w2 (Hc2 & H2).
  assert (calm w w2) as Hc by eauto with store. split; [done|].
  assert (¬ faultless w1 → ¬ faultless w) as Hf by (intros Hn Hf; by apply Hn, (calm_faultless _ _ Hc1)).
  intros ->.
  assert (∃ row2, reset_row h row row2 ∧ w_db w1 = with_users <[u_Id row := row2]> db ∧
    (faultless w → u_TokenVersion row2 = u_TokenVersion row + 1)) as (row2 & Hrow2 & Hdb1 & Hv2).
  { destruct H1 as [H1|[H1 Hn]].
    - exists (bumped (u_UpdatedAt row1) row1). rewrite H1, Hdb. unfold reset_row, bumped in *. simpl.
      destruct Hrow as (? & ? & E). split_and!; [done|left; lia|done| |intros; lia].
      injection E as E1 _ _ _ _ _ _ _. unfold with_users. simpl. f_equal.
      rewrite (update_where_key _ _ _ (u_Id row) row1).
      + by rewrite insert_insert_eq.
      + by rewrite lookup_insert_eq.
      + by apply Z.eqb_eq.
      + intros k' v'. destruct (decide (k' = u_Id row)) as [|Hne]; [done|]. rewrite lookup_insert_ne by done.
        intros Hv Hid%Z.eqb_eq. by rewrite <- (users_keyed _ Hk _ _ Hv).
    - exists row1. split_and!; [done|congruence|done]. }
  assert (∀ w', w_db w' = with_sessions (delete_where (λ s, rs_UserID s =? u_Id row)) (w_db w1) ∨
    w_db w' = w_db w1 ∧ ¬ faultless w →
    reset_done h row (faultless w) db (w_db w') ∧ same_marker db (w_db w')) as Hdone.
  { intros w' Hw'. split; [split|].
    - exists row2. split_and!; [done| |done]. destruct Hw' as [->|[-> _]]; by rewrite Hdb1.
    - intros k s. destruct Hw' as [->|[-> Hn]]; rewrite Hdb1; simpl.
      + intros [Hs Hu]%lookup_delete_where. split; [done|]. intros _. by apply Z.eqb_neq.
      + done.
    - destruct Hw' as [->|[-> _]]; by rewrite Hdb1. }
  apply Hdone. destruct H2 as [->|[-> Hn]]; eauto.
Qed.

(** The compare-and-set and what follows it, for a condition only [row] meets. *)
Lemma replace_and_retire p h row msg who w :
  alone w → keys_agree (w_db w) → o_users (w_db w) !! u_Id row = Some row → p row = true →
  (∀ u, p u = true → u_Id u = u_Id row) →
  post (ok _ <- replaceVerifier p h msg;; ok _ <- retireCredentials (u_Id row) who;; mret (Ok (u_Id row))) w
    (λ r w', calm w w' ∧ ∀ n, r = Ok n → n = u_Id row ∧
       reset_done h row (faultless w) (w_db w) (w_db w') ∧ same_marker (w_db w) (w_db w')).
Proof.
  intros Hw Hk Hat Hp Hid. destruct (one_row (w_db w) p row (set_password (CURRENT_TIMESTAMP (w_clock w)) h)
    Hk Hat Hp Hid) as [Hone Hupd].
  unfold replaceVerifier. m_step. do 3 m_step. m_step; [done|]. cbn [fst snd] in *. rewrite Hone. simpl. m_step.
  m_step. eapply post_mono; [apply (retireCredentials_spec h row
    (set_password (CURRENT_TIMESTAMP (w_clock w)) h row) who _ (w_db w)); try done; eauto with store|].
  - unfold reset_row. simpl. split_and!; [done|by right|done].
  - rewrite H0. unfold with_users. by rewrite Hupd.
  - cbv beta. intros r w2 (Hc2 & Hr). destruct r as [[]|e]; [|split; [eauto with store|done]].
    m_step. split; [eauto with store|]. intros n [= <-]. split; [done|]. destruct (Hr eq_refl) as [Hd Hm].
    split; [|done]. eapply reset_done_mono; [|done]. apply (calm_faultless _ _ H).
Qed.

Lemma markerStillMatches_spec id w : alone w →
  post (markerStillMatches id) w (λ _ w', calm w w' ∧ w_db w' = w_db w).
Proof. intros Hw. unfold markerStillMatches. m_step. m_step; by m_step. Qed.

Lemma resetAdminBody_spec id username h w : alone w → keys_agree (w_db w) →
  post (resetAdminBody id username h) w (λ r w', calm w w' ∧ ∀ n, r = Ok n →
    ∃ row, sole_account (w_db w) username row ∧ is_admin row = true ∧ n = u_Id row ∧
      reset_done h row (faultless w) (w_db w) (w_db w') ∧ same_marker (w_db w) (w_db w')).
Proof.
  intros Hw Hk. unfold resetAdminBody. m_step. m_use markerStillMatches_spec as r w1 [Hc1 Hd1].
  destruct r as [[]|e]; [|done]. m_step. m_use loadUniqueAdministrator_spec as r w2 (Hc2 & Hd2 & Hr).
  assert (calm w w2) as Hc by eauto with store. rewrite Hd1 in *.
  destruct r as [t|e]; [|done]. destruct (Hr t eq_refl Hk) as (row & (Hat & Hname & Honly) & Ha & ->).
  eapply post_mono; [apply (replace_and_retire _ h row); rewrite ?Hd2; eauto with store|].
  - unfold adminTarget, named. by rewrite Z.eqb_refl, Ha, !bool_decide_eq_true_2.
  - unfold adminTarget. intros u Hu. repeat apply andb_prop in Hu as [Hu _]. by apply Z.eqb_eq.
  - cbv beta. rewrite Hd2. intros r w3 [Hc3 Hn]. split; [eauto with store|]. intros n Hr'.
    destruct (Hn n Hr') as (-> & Hdone & Hm). exists row. split_and!; try done.
    eapply reset_done_mono; [|done]. apply (calm_faultless _ _ Hc).
Qed.

Lemma resetUserBody_spec id username h w : alone w → keys_agree (w_db w) →
  post (resetUserBody id username h) w (λ r w', calm w w' ∧ ∀ n, r = Ok n →
    ∃ row, sole_account (w_db w) username row ∧ is_admin row = false ∧ n = u_Id row ∧
      reset_done h row (faultless w) (w_db w) (w_db w') ∧ same_marker (w_db w) (w_db w')).
Proof.
  intros Hw Hk. unfold resetUserBody. m_step. m_use markerStillMatches_spec as r w1 [Hc1 Hd1].
  destruct r as [[]|e]; [|done]. m_step. m_use loadUniqueNonAdministrator_spec as r w2 (Hc2 & Hd2 & Hr).
  assert (calm w w2) as Hc by eauto with store. rewrite Hd1 in *.
  destruct r as [t|e]; [|done]. destruct (Hr t eq_refl Hk) as (row & (Hat & Hname & Honly) & Ha & ->).
  eapply post_mono; [apply (replace_and_retire _ h row); rewrite ?Hd2; eauto with store|].
  - unfold userTarget, named. by rewrite Z.eqb_refl, Ha, !bool_decide_eq_true_2.
  - unfold userTarget. intros u Hu. repeat apply andb_prop in Hu as [Hu _]. by apply Z.eqb_eq.
  - cbv beta. rewrite Hd2. intros r w3 [Hc3 Hn]. split; [eauto with store|]. intros n Hr'.
    destruct (Hn n Hr') as (-> & Hdone & Hm). exists row. split_and!; try done.
    eapply reset_done_mono; [|done]. apply (calm_faultless _ _ Hc).
Qed.

(** ** The resets *)

Lemma only_marker_sessions db db' : only_marker db db' → o_refresh_sessions db' = o_refresh_sessions db.
Proof. unfold only_marker. by intros <-. Qed.

Lemma keys_agree_marker db db' : only_marker db db' → keys_agree db → keys_agree db'.
Proof. unfold only_marker. intros <- []. by split. Qed.

Section Reset.
Context (IDKey : string → string → N → N → N → N → string) (sized : IDKey_sized IDKey)
        (next : list CredentialEventDBModel → Z)
        (seal : Seal) (view : FileSystem → option string) `{!SealSpec seal view}.

(** What a reset of the accounts that satisfy [kind] promises. *)
Definition reset_result (kind : UserDBModel → Prop) (username plaintext : string) (w w' : World) (r : res unit) : Prop :=
  match r with
  | Ok _ => ∃ row h st,
      sole_account (w_db w) username row ∧ kind row ∧
      accepts IDKey h plaintext ∧ NeedsRehash h = false ∧
      reset_done h row (faultless w) (w_db w) (w_db w') ∧
      resettable (abs_of view w) ∧ healthy (abs_of view w') st ∧ status st = StatusInitialized
  | Err _ => only_marker (w_db w) (w_db w')
  end.

Lemma logReset_spec userID source w : alone w →
  post (logReset next userID source) w (λ r w', r = Ok tt ∧ calm w w' ∧ ∃ f, w_db w' = with_audit f (w_db w)).
Proof.
  intros Hw. unfold logReset. do 3 m_step. m_use appendEvent_spec as r w1 (Hc & Hf). by m_step.
Qed.

Lemma reset_run {T} (kind : UserDBModel → Prop) (target : M (res T)) (body : string → string → M (res Z))
    username plaintext who m0 m1 mb mc source w :
  alone w → keys_agree (w_db w) → inspects target →
  (∀ id h w, alone w → keys_agree (w_db w) →
     post (body id h) w (λ r w', calm w w' ∧ ∀ n, r = Ok n →
       ∃ row, sole_account (w_db w) username row ∧ kind row ∧ n = u_Id row ∧
         reset_done h row (faultless w) (w_db w) (w_db w') ∧ same_marker (w_db w) (w_db w'))) →
  post (ok newHash <- hashPassword IDKey plaintext or m0;;
        ok state <- resetPreconditions (Some seal) target who;;
        ok _ <- db_Conn m1;;
        ok userID <- transaction mb mc (body (InstallationID state) newHash);;
        logReset next userID source) w
    (λ r w', alone w' ∧ reset_result kind username plaintext w w' r).
Proof.
  intros Hw Hk Ht Hbody. m_step. apply post_hashPassword; [done|].
  intros r w1 Hd1 Hs1 Hi1 Hc1 Hf1 _ Hh. assert (alone w1) as Hw1 by (intros n; rewrite Hs1; apply Hw).
  destruct r as [h|e]; [|split; [done|by apply only_marker_eq]]. destruct (Hh h eq_refl) as (Hacc & Hre & _).
  m_step. m_use (resetPreconditions_spec seal view) as r w2 (Hr2 & Ho2 & Hst). rewrite Hd1 in *.
  destruct r as [st|e]; [|split; [by eapply runs_alone|done]]. destruct (Hst st eq_refl) as (Hres & Hheal & Hinit).
  assert (abs_of view w1 = abs_of view w) as Ha1 by (unfold abs_of; by rewrite Hd1, Hf1). rewrite Ha1 in Hres.
  m_step. m_use db_Conn_spec as [[]|e] w3 (Hc3 & Hd3 & _); [|split; [eauto with store|by rewrite <- Hd3 in Ho2]].
  m_step. apply transaction_solo; [eauto with store| |].
  2:{ intros e w4 _ Hc4 Hd4 _. split; [eauto with store|]. simpl. by rewrite Hd4, Hd3. }
  intros w4 Hw4 _ Hd4 Hf4 Hfl4 _ _ _. rewrite Hd3 in *.
  assert (o_users (w_db w4) = o_users (w_db w)) as Hu4 by (rewrite Hd4; by apply only_marker_users).
  assert (o_refresh_sessions (w_db w4) = o_refresh_sessions (w_db w)) as Hs4
    by (rewrite Hd4; by apply only_marker_sessions).
  eapply post_mono; [apply Hbody; [done|by apply (keys_agree_marker (w_db w)); [rewrite Hd4|]]|].
  cbv beta. intros r w5 [Hc5 Hr5]. split; [done|]. destruct r as [n|e].
  2:{ intros w6 Hc6 Hd6. split; [eauto with store|]. simpl. by rewrite Hd6. }
  intros w6 Hc6 Hd6. destruct (Hr5 n eq_refl) as (row & Hsole & Hkind & -> & Hdone & Hm).
  m_use logReset_spec as r w7 (-> & Hc7 & f & Hd7). split; [eauto with store|]. exists row, h, st. split_and!; try done.
  - unfold sole_account in *. by rewrite Hu4 in Hsole.
  - destruct Hdone as [(row' & Hr & Hu & Hv) Hss]. rewrite Hu4 in Hu.
    assert (faultless w → faultless w4) as Hfl.
    { intros Hf. apply Hfl4, (calm_faultless _ _ Hc3), (runs_faultless _ _ Hr2). intros n. rewrite Hs1. apply Hf. }
    split.
    + exists row'. split_and!; [done| |by auto]. by rewrite Hd7, <- Hu, Hd6.
    + intros k s. rewrite Hd7. simpl. rewrite Hd6. intros Hks. destruct (Hss k s Hks) as [Hold Hne].
      rewrite Hs4 in Hold. auto.
  - destruct Hdone as [(row' & Hr & Hu & Hv) Hss].
    assert (marker_of (w_db w7) = marker_of (w_db w2)) as Hm7.
    { unfold marker_of. rewrite Hd7. simpl. by rewrite Hd6, Hm, Hd4. }
    assert (view (w_fs w7) = view (w_fs w2)) as Hv7.
    { by rewrite (calm_fs _ _ Hc7), (calm_fs _ _ Hc6), (calm_fs _ _ Hc3). }
    destruct Hheal as (Hmark & Hvalid & Hcase). unfold healthy, abs_of in *. simpl in *.
    rewrite Hm7, Hv7. split_and!; [done..|]. right.
    destruct Hcase as [(Hp & _)|(_ & _ & Hsl)]; [by rewrite Hinit in Hp|]. split_and!; [done| |done].
    rewrite Hd7. simpl. rewrite Hd6, Hu. apply insert_non_empty.
Qed.

Lemma inspects_admin username : inspects (loadUniqueAdministrator username).
Proof. intros w Hw. m_use loadUniqueAdministrator_spec as r w' (H1 & H2 & _). done. Qed.

Lemma inspects_user username : inspects (loadUniqueNonAdministrator username).
Proof. intros w Hw. m_use loadUniqueNonAdministrator_spec as r w' (H1 & H2 & _). done. Qed.

Lemma ResetAdminPassword_spec username plaintext w : alone w → keys_agree (w_db w) →
  post (ResetAdminPassword IDKey next (Some seal) username plaintext) w (λ r w',
    alone w' ∧ reset_result (λ row, is_admin row = true) username plaintext w w' r ∧
    (r = Ok tt → validResetUsername username = true ∧ ValidateNewPassword plaintext = None)).
Proof.
  intros Hw Hk. unfold ResetAdminPassword.
  destruct (validResetUsername username) eqn:Hu; cbn [negb]; [|m_step; split_and!; [done|by apply only_marker_refl|done]].
  destruct (ValidateNewPassword plaintext) eqn:Hp; [m_step; split_and!; [done|by apply only_marker_refl|done]|].
  eapply post_mono; [eapply (reset_run (λ row, is_admin row = true) _
    (λ id h, resetAdminBody id username h)); eauto using inspects_admin, resetAdminBody_spec|].
  by intros r w' [? ?].
Qed.

Lemma ResetUserPassword_spec username plaintext w : alone w → keys_agree (w_db w) →
  post (ResetUserPassword IDKey next (Some seal) username plaintext) w (λ r w',
    alone w' ∧ reset_result (λ row, is_admin row = false) username plaintext w w' r ∧
    (r = Ok tt → validResetUsername username = true ∧ ValidateNewPassword plaintext = None)).
Proof.
  intros Hw Hk. unfold ResetUserPassword.
  destruct (validResetUsername username) eqn:Hu; cbn [negb]; [|m_step; split_and!; [done|by apply only_marker_refl|done]].
  destruct (ValidateNewPassword plaintext) eqn:Hp; [m_step; split_and!; [done|by apply only_marker_refl|done]|].
  eapply post_mono; [eapply (reset_run (λ row, is_admin row = false) _
    (λ id h, resetUserBody id username h)); eauto using inspects_user, resetUserBody_spec|].
  by intros r w' [? ?].
Qed.

(** Accounts of the other kind stay as they are, however the reset ends. *)
Lemma reset_untouched kind username plaintext w w' r :
  reset_result kind username plaintext w w' r →
  ∀ k u, o_users (w_db w) !! k = Some u → ¬ kind u → o_users (w_db w') !! k = Some u.
Proof.
  intros Hr k u Hk Hn. destruct r as [[]|e]; simpl in Hr.
  - destruct Hr as (row & h & st & (Hat & _) & Hkind & _ & _ & [(row' & _ & Hu & _) _] & _).
    rewrite Hu, lookup_insert_ne; [done|]. intros <-. congruence.
  - by rewrite (only_marker_users _ _ Hr).
Qed.
End Reset.

(** ** The local bootstrap *)

Section BootstrapPolicy.
Context (IDKey : string → string → N → N → N → N → string) (sized : IDKey_sized IDKey)
        (next : list CredentialEventDBModel → Z) (next_rowid : gmap Z UserDBModel → Z)
        (seal : Seal) (view : FileSystem → option string) `{!SealSpec seal view}
        (beforeCommit : option (Z → M (option goerr)))
        (Hcb : ∀ cb id w0, beforeCommit = Some cb → alone w0 →
           post (cb id) w0 (λ _ w', runs w0 w' ∧ w_db w' = w_db w0)).

(** An administrator appears only when setup was open, with a well-formed username
    and a password that meets the policy, and as the only account, holding a current
    verifier of that password, and success finds the marker initialised and the seal
    of that installation published; otherwise the accounts are untouched. *)
Definition enrolled (username plaintext : string) (w : World) (r : res Z) (w' : World) : Prop :=
  match r with
  | Ok userID => usernamePattern username = true ∧ ValidateNewPassword plaintext = None ∧
      setup_open (abs_of view w) ∧ 1 ≤ userID ∧
      ∃ h id now, accepts IDKey h plaintext ∧ NeedsRehash h = false ∧
        o_users (w_db w') = {[userID := newAdmin userID username h now]} ∧
        marker_of (w_db w') = Some (mkState id StatusInitialized) ∧ view (w_fs w') = Some id
  | Err _ => o_users (w_db w') = o_users (w_db w) ∨
      usernamePattern username = true ∧ ValidateNewPassword plaintext = None ∧
      setup_open (abs_of view w) ∧ ∃ userID h now, accepts IDKey h plaintext ∧
        o_users (w_db w') = {[userID := newAdmin userID username h now]}
  end.

Lemma BootstrapAdmin_spec username plaintext w : alone w →
  post (BootstrapAdmin IDKey next next_rowid (Some seal) username plaintext beforeCommit) w
    (λ r w', enrolled username plaintext w r w').
Proof.
  intros Hw. unfold BootstrapAdmin.
  destruct (usernamePattern username) eqn:Hu; cbn [negb]; [|m_step; by left].
  destruct (ValidateNewPassword plaintext) eqn:Hp; [m_step; by left|].
  m_step. apply post_hashPassword; [done|]. intros r w1 Hd1 Hs1 Hi1 Hc1 Hf1 _ Hh.
  assert (alone w1) as Hw1 by (intros n; rewrite Hs1; apply Hw).
  destruct r as [h|e]; [|left; by rewrite Hd1]. destruct (Hh h eq_refl) as (Hacc & Hre & _).
  m_step. m_use db_Conn_spec as [[]|e] w2 (Hc2 & Hd2 & _); [|left; by rewrite Hd2, Hd1].
  assert (abs_of view w2 = abs_of view w) as Ha2 by (unfold abs_of; by rewrite Hd2, Hd1, (calm_fs _ _ Hc2), Hf1).
  m_step. eapply post_mono; [apply (CreateAdmin_enrols seal view next_rowid beforeCommit); [done|eauto with store]|].
  cbv beta. rewrite Ha2. intros r w3 (Hr3 & HP). destruct r as [userID|e].
  - destruct HP as (Hopen & Hid & id & now & Hm3 & Hv3 & Hu3). simpl in Hm3, Hv3, Hu3.
    m_step. m_step. m_use (seal_load (seal := seal) (view := view)) as r w4 (Hc4 & Hd4 & _). do 4 m_step.
    m_use appendEvent_spec as r5 w5 (Hc5 & f & Hd5). m_step.
    split_and!; try done. exists h, id, now. rewrite Hd5, Hd4, (calm_fs _ _ Hc5), (calm_fs _ _ Hc4). by split_and!.
  - destruct HP as [HP|[Hopen (userID & now & Hus)]]; [by left|right]. split_and!; [done|done|done|].
    by exists userID, h, now.
Qed.
End BootstrapPolicy.

(** ** Properties *)

(** An installation with its marker, for the reset of [alice]. *)
Definition sealedDatabase : Database :=
  with_bootstrap (Some (Some (mkBootstrapState "30313233-3435-4637-b839-616263646566" StatusInitialized
    (Some 7) (Some 1) 1 1))) householdDatabase.

Lemma sealedDatabase_ok : keys_agree sealedDatabase.
Proof. apply (keys_agree_marker householdDatabase); [apply only_marker_with|apply householdDatabase_ok]. Qed.

