(* ===== verification/Middleware.v ===== *)
(** * The authentication boundary (src/route/auth.go, src/route/v2.go)

    From the Authorization header to the authenticated context the handlers see:
    header parsing, the access-token middleware and the second check the v2 router
    makes before its handlers. *)

From stdpp Require Import prelude strings gmap.
From Stdlib Require Import ZArith Lia Ascii.
From S2P Require Import Prelude GoStrings Password FileSystem Tables Store Guarantee AuthSecurity Bootstrap Sessions Rotation Issue Users Accounts Administration.

Local Open Scope Z_scope.
Local Open Scope m_scope.

(** ** Requests *)

(** The parts of an HTTP request the service reads. [rq_ref] is the identity of
    the object, what comparing two pointers to it compares. *)
Record Request := mkRequest {
  rq_ref : Z;
  rq_Authorization : list string;
  rq_user_id : string;
  rq_Param : string → string;
  rq_Query : string → string;
  rq_Body : string;
}.

Record Context := mkContext {
  cx_Request : option Request;
  cx_Session : option AuthenticatedSession;
}.

(** [Header.Set("user_id", v)]. *)
Definition set_user_id (v : string) (r : Request) : Request :=
  mkRequest (rq_ref r) (rq_Authorization r) v (rq_Param r) (rq_Query r) (rq_Body r).

(** ** The Authorization header *)

Definition maxAuthorizationHeaderBytes : N := 8 * 1024.

(** [strings.EqualFold(s, t)] for a [t] of letters other than k and s, whose only
    foldings are ASCII. *)
Definition equal_fold (s t : string) : bool := bool_decide (map_bytes to_lower s = map_bytes to_lower t).

Definition is_token_byte (a : ascii) : bool :=
  is_letter a || is_digit a || bool_decide (a = "-"%char) || bool_decide (a = "_"%char) ||
  bool_decide (a = "."%char).

Definition errInvalidAuthorizationHeader : goerr := NewError "invalid authorization header".

(** What follows an accepted scheme. *)
Definition checkToken (token : string) : res string :=
  if bool_decide (token = "") || (maxAuthorizationHeaderBytes <? len token)%N ||
     negb (count_byte "." token =? 2)%nat || contains_any (String " " (String "009" "")) token
  then Err errInvalidAuthorizationHeader
  else if all_bytes is_token_byte token then Ok token
  else Err errInvalidAuthorizationHeader.

Definition authorizationToken (request : option Request) : res string :=
  match request with
  | None => Err errInvalidAuthorizationHeader
  | Some request =>
     match rq_Authorization request with
     | [raw] =>
        if (len raw =? 0)%N || (maxAuthorizationHeaderBytes <? len raw)%N || negb (bool_decide (TrimSpace raw = raw)) ||
           contains_any (String "," (String "013" (String "010" (String "000" "")))) raw
        then Err errInvalidAuthorizationHeader
        else if (6 <=? len raw)%N && equal_fold (take_bytes 6 raw) "Bearer" then
          if (len raw <=? 7)%N || negb (bool_decide (String.get 6 raw = Some " "%char))
          then Err errInvalidAuthorizationHeader
          else checkToken (drop_bytes 7 raw)
        else checkToken raw
     | _ => Err errInvalidAuthorizationHeader
     end
  end.

(** ** The middleware *)

(** The context the next handler gets. *)
Definition authenticated (request : Request) (claims : SessionClaims) : Context :=
  mkContext (Some (set_user_id (Itoa (sc_UserID claims)) request))
    (Some (mkAuthenticated (rq_ref request) (sc_UserID claims) (sc_Username claims)
             (jti (sc_Registered claims)) (default 0 (ExpiresAt (sc_Registered claims))))).

(** [None] is [echo.ErrUnauthorized]. [sessions] is the credential store, [None]
    when the service is unavailable. *)
Definition accessTokenMiddleware {A} (J : JWT SessionClaims) (publicKey : res (option PublicKey))
    (sessions : option (option userService)) (next : Context → M A) (ctx : Context) : M (option A) :=
  match authorizationToken (cx_Request ctx), cx_Request ctx with
  | Ok token, Some request =>
     validated <- ValidateSessionAccessToken J token (Some publicKey);;
     match validated with
     | Err _ => mret None
     | Ok claims =>
        match sessions with
        | None => mret None
        | Some u =>
           found <- GetUserTokenVersion u (sc_UserID claims);;
           let '(username, version, exists_) := (found : string * Z * bool) in
           if negb exists_ || negb (bool_decide (username = sc_Username claims)) ||
              negb (version =? sc_TokenVersion claims)
           then mret None
           else
             revoked <- IsAccessTokenRevoked u (jti (sc_Registered claims));;
             match revoked with
             | Ok false => a <- next (authenticated request claims);; mret (Some a)
             | _ => mret None
             end
        end
     end
  | _, _ => mret None
  end.

(** [userAccessTokenMiddleware]: [MyService] is the repository's user service,
    [None] before the service is built. *)
Definition userAccessTokenMiddleware {A} (J : JWT SessionClaims) (MyService : option userService)
    (next : Context → M A) (ctx : Context) : M (option A) :=
  accessTokenMiddleware J
    match MyService with
    | None => Err (NewError "user service is unavailable")
    | Some u => Ok (GetKeyPair u).2
    end
    match MyService with None => None | Some u => Some (Some u) end next ctx.

(** ** The second check of the v2 router *)

Record SecurityScheme := mkScheme { ss_Type : string; ss_In : string; ss_Name : string }.

(** [openapi3filter.AuthenticationInput]; the outer option of [ai_Request] is the
    validation input, the inner one its request. *)
Record AuthenticationInput := mkAuthInput {
  ai_Request : option (option Z);
  ai_SchemeName : string;
  ai_Scheme : option SecurityScheme;
  ai_Scopes : list string;
}.

Definition v2OpenAPISecuritySchemeName : string := "access_token".

(** [true] is a nil error; [echoContext] is what [GetEchoContext] finds. *)
Definition v2OpenAPIAuthentication (echoContext : option Context) (input : option AuthenticationInput) : bool :=
  match input with
  | Some (mkAuthInput (Some (Some validated)) name (Some scheme) scopes) =>
     if negb (bool_decide (name = v2OpenAPISecuritySchemeName)) ||
        negb (bool_decide (ss_Type scheme = "apiKey")) || negb (bool_decide (ss_In scheme = "header")) ||
        negb (bool_decide (ss_Name scheme = "Authorization")) || negb (bool_decide (scopes = []))
     then false
     else
       match echoContext with
       | Some (mkContext (Some request) session) =>
          if negb (rq_ref request =? validated) then false
          else match session with
               | Some authentication => as_Request authentication =? rq_ref request
               | None => false
               end
       | _ => false
       end
  | _ => false
  end.

(** ** Who is admitted *)

(** The claims [c] admit the request at time [now]: its header carries a token of
    the right shape that decodes to them and verifies under the key, they are
    complete, in force and of the access class, they name an existing account with
    its current name and generation, and the token is not on the denylist. *)
Record admitted (decode : string → option (SigningMethod * SessionClaims))
    (genuine : PublicKey → string → Prop) (key : PublicKey) (request : Request) (now : Z) (db : Database)
    (c : SessionClaims) : Prop := {
  ad_token : ∃ token, authorizationToken (Some request) = Ok token ∧
    decode token = Some (SigningMethodES256, c) ∧ genuine key token;
  ad_wellFormed : wellFormed AccessTokenIssuer c;
  ad_force : in_force (sc_Registered c) now;
  ad_account : ∃ row, o_users db !! sc_UserID c = Some row ∧
    u_Username row = sc_Username c ∧ u_TokenVersion row = sc_TokenVersion c;
  ad_live : ∀ k r, o_revoked_access_tokens db !! k = Some r → ra_JTI r ≠ jti (sc_Registered c);
}.

Lemma checkToken_ok t token : checkToken t = Ok token → token = t ∧ token ≠ "" ∧ (len token ≤ maxTokenSize)%N.
Proof.
  unfold checkToken. destruct (_ || _) eqn:E; [done|]. destruct (all_bytes _ _); [|done]. intros [= <-].
  bool_split. split_and!; try done. by apply N.ltb_ge.
Qed.

Lemma authorizationToken_ok request token :
  authorizationToken request = Ok token → token ≠ "" ∧ (len token ≤ maxTokenSize)%N.
Proof.
  unfold authorizationToken. destruct request as [r|]; [|done].
  destruct (rq_Authorization r) as [|raw [|]]; try done. repeat case_match; try done;
  by intros (_ & ? & ?)%checkToken_ok.
Qed.

Section Facts.
Context (J : JWT SessionClaims) (decode : string → option (SigningMethod * SessionClaims))
        (genuine : PublicKey → string → Prop) `{!JWTSpec J decode genuine}.

Lemma validate_pure token issuer pk w :
  snd (validateSessionToken J token issuer pk w) = w.
Proof.
  unfold validateSessionToken, mbind, time_Now. destruct pk as [pk|]; [|done].
  destruct (bool_decide (token = "") || _); [done|].
  match goal with |- context [if ?b then _ else _] => by destruct b end.
Qed.

Lemma post_validate token issuer pk w (Q : res SessionClaims → World → Prop) :
  Q (fst (validateSessionToken J token issuer pk w)) w → post (validateSessionToken J token issuer pk) w Q.
Proof. unfold post. by rewrite validate_pure. Qed.

Lemma GetUserTokenVersion_spec u userID w : alone w → keys_agree (w_db w) →
  unavailable u = false → 1 ≤ userID →
  post (GetUserTokenVersion u userID) w (λ r w', calm w w' ∧ w_db w' = w_db w ∧
    match r with
    | (name, version, true) => ∃ row, o_users (w_db w) !! userID = Some row ∧
        u_Username row = name ∧ u_TokenVersion row = version
    | (_, _, false) => faultless w → o_users (w_db w) !! userID = None
    end).
Proof.
  intros Hw Hk Hu Hid. unfold GetUserTokenVersion. rewrite Hu, (proj2 (Z.ltb_ge _ _) Hid). simpl. m_step.
  m_use findUser_spec as r w1 (Hc & Hd & Hr). destruct r as [row|e]; m_step; split_and!; try done; [by exists row|].
  apply Hr.
Qed.

Lemma IsAccessTokenRevoked_spec u tokenID w : alone w → unavailable u = false → tokenID ≠ "" →
  post (IsAccessTokenRevoked u tokenID) w (λ r w', calm w w' ∧ w_db w' = w_db w ∧
    match r with
    | Ok false => ∀ k r, o_revoked_access_tokens (w_db w) !! k = Some r → ra_JTI r ≠ tokenID
    | Ok true => ∃ k r, o_revoked_access_tokens (w_db w) !! k = Some r ∧ ra_JTI r = tokenID
    | Err _ => ¬ faultless w
    end).
Proof.
  intros Hw Hu Hne. unfold IsAccessTokenRevoked. rewrite Hu, bool_decide_eq_false_2 by done. simpl. m_step.
  m_step; [done|]. m_step. split_and!; [done..|].
  set (p := λ r, bool_decide (ra_JTI r = tokenID)). destruct (Z.ltb_spec 0 (count_where p (o_revoked_access_tokens (w_db w)))) as [Hc|Hc].
  - destruct (first_where String.leb p (o_revoked_access_tokens (w_db w))) as [r|] eqn:E.
    + apply first_where_Some in E as (k & Hk & Hp%bool_decide_eq_true). eauto.
    + rewrite first_where_None in E. apply count_where_0 in E. lia.
  - intros k r Hk E. assert (count_where p (o_revoked_access_tokens (w_db w)) = 0) as H1
      by (pose proof (count_where_nonneg p (o_revoked_access_tokens (w_db w))); lia).
    rewrite count_where_0 in H1. specialize (H1 k r Hk). by apply bool_decide_eq_false in H1.
Qed.

(** The request is turned away. *)
Definition turned_away (publicKey : res (option PublicKey)) (ctx : Context) (w w' : World) : Prop :=
  calm w w' ∧ w_db w' = w_db w ∧
  (faultless w → ∀ request key c, cx_Request ctx = Some request → publicKey = Ok (Some key) →
     usableKey (Some key) = true → ¬ admitted decode genuine key request (w_clock w) (w_db w) c).

(** The request reaches [next], in a world [w1] with the database unchanged. *)
Definition passed_on {A} (publicKey : res (option PublicKey)) (next : Context → M A) (ctx : Context)
    (w : World) (run : option A * World) : Prop :=
  ∃ request key c w1, cx_Request ctx = Some request ∧ publicKey = Ok (Some key) ∧
    usableKey (Some key) = true ∧ admitted decode genuine key request (w_clock w) (w_db w) c ∧
    calm w w1 ∧ w_db w1 = w_db w ∧
    run = (Some (fst (next (authenticated request c) w1)), snd (next (authenticated request c) w1)).

Lemma accessTokenMiddleware_spec {A} publicKey u (next : Context → M A) ctx w :
  alone w → keys_agree (w_db w) → unavailable u = false →
  post (accessTokenMiddleware J publicKey (Some u) next ctx) w (λ r w',
    r = None ∧ turned_away publicKey ctx w w' ∨ passed_on publicKey next ctx w (r, w')).
Proof.
  intros Hw Hk Hu. unfold accessTokenMiddleware.
  assert (∀ w1, calm w w1 → w_db w1 = w_db w →
    (∀ request key c, cx_Request ctx = Some request → publicKey = Ok (Some key) → usableKey (Some key) = true →
       faultless w → ¬ admitted decode genuine key request (w_clock w) (w_db w) c) →
    post (mret (None : option A)) w1 (λ r w', r = None ∧ turned_away publicKey ctx w w' ∨
      passed_on publicKey next ctx w (r, w'))) as Hno.
  { intros w1 Hc Hd Hna. m_step. left. unfold turned_away. split_and!; try done. intros Hf request key c. eauto. }
  destruct (authorizationToken (cx_Request ctx)) as [token|e] eqn:Htok.
  2:{ apply Hno; [eauto with store|done|]. intros request key c Hr _ _ _ [(t & Ht & _) _ _ _ _]. congruence. }
  destruct (cx_Request ctx) as [request|] eqn:Hreq; [|by simpl in Htok].
  destruct (authorizationToken_ok _ _ Htok) as [Hne Hlen].
  m_step. apply post_validate.
  destruct (fst (validateSessionToken _ _ _ _ w)) as [c|e] eqn:Hval.
  2:{ apply Hno; [eauto with store|done|]. intros r key c [= <-] -> Hkey _ [(t & Ht & Hdec & Hgen) Hwf Hforce _ _].
      replace t with token in * by congruence.
      rewrite (validateSessionToken_complete J decode genuine token AccessTokenIssuer key w c) in Hval by done.
      done. }
  destruct (validateSessionToken_sound J decode genuine _ _ _ _ _ Hval) as (Hwf & Hdec & _ & _ & Hforce & key & Hpk & Hkey & Hgen).
  injection Hpk as ->.
  assert (∀ request0 key0 c0, Some request = Some request0 → Ok (Some key) = Ok (Some key0) →
    admitted decode genuine key0 request0 (w_clock w) (w_db w) c0 → c0 = c) as Hsame.
  { intros ? ? c0 Hr0 _ [(t & Ht & Hdec0 & _) _ _ _ _]. congruence. }
  m_step. m_use GetUserTokenVersion_spec as [[name version] ex] w1 (Hc1 & Hd1 & Hr1); [apply Hwf|].
  destruct (negb ex || _ || _) eqn:Hcheck.
  { apply Hno; [done|done|]. intros r0 key0 c0 Hr0 Hk0 _ Hf Had. pose proof (Hsame _ _ _ Hr0 Hk0 Had) as ->.
    destruct Had as [_ _ _ (row & Hrow & Hname & Hver) _]. destruct ex.
    - destruct Hr1 as (row' & Hrow' & <- & <-). replace row' with row in * by congruence.
      rewrite bool_decide_eq_true_2, Hver, Z.eqb_refl in Hcheck by done. done.
    - specialize (Hr1 Hf). congruence. }
  bool_split. subst ex. destruct Hr1 as (row & Hrow & <- & <-). apply Z.eqb_eq in H0.
  m_step. m_use IsAccessTokenRevoked_spec as r w2 (Hc2 & Hd2 & Hr2); [apply Hwf|].
  assert (calm w w2) as Hc by eauto with store. assert (w_db w2 = w_db w) as Hd by congruence. rewrite Hd1 in Hr2.
  destruct r as [[]|e].
  - apply Hno; [done|done|]. intros r0 key0 c0 Hr0 Hk0 _ Hf Had. pose proof (Hsame _ _ _ Hr0 Hk0 Had) as ->.
    destruct Hr2 as (k & r & Hkr & E). by apply (ad_live _ _ _ _ _ _ _ Had k r Hkr).
  - right. unfold post, mbind, mret. exists request, key, c, w2. split_and!; try done.
    + split; try done; [by exists token|]. by exists row.
    + by destruct (next _ w2).
  - apply Hno; [done|done|]. intros r0 key0 c0 _ _ _ Hf _. by apply Hr2, (calm_faultless _ _ Hc1).
Qed.

(** ** Retired tokens *)

(** The token is on the denylist. *)
Definition denied (tokenID : string) (db : Database) : Prop :=
  ∃ k r, o_revoked_access_tokens db !! k = Some r ∧ ra_JTI r = tokenID.

(** No account has the name and the generation of the claims. *)
Definition outdated (c : SessionClaims) (db : Database) : Prop :=
  ∀ k row, o_users db !! k = Some row → u_Id row = sc_UserID c →
    u_Username row ≠ sc_Username c ∨ u_TokenVersion row ≠ sc_TokenVersion c.

Lemma after_keeps I w db0 w1 : after (others_keep I) w db0 w1 → I (w_db w) → I db0.
Proof. intros [] HI. destruct (w_isolated w); [by subst|by apply after_meets]. Qed.

Lemma outdated_version u c w : rely (others_keep (outdated c)) w → outdated c (w_db w) →
  post (GetUserTokenVersion u (sc_UserID c)) w (λ r _,
    let '(name, version, ex) := r in
    negb ex || negb (bool_decide (name = sc_Username c)) || negb (version =? sc_TokenVersion c) = true).
Proof.
  intros Hw Ho. unfold GetUserTokenVersion. m_step; [by m_step|]. m_step. unfold findUser.
  eapply post_query; [exact Hw|intros; by m_step|]. intros w1 Ha. pose proof (after_keeps _ _ _ _ Ha Ho) as Ho1.
  destruct (first_where _ _ _) as [row|] eqn:E; m_step; [|done].
  apply first_where_Some in E as (k & Hk & Hid%Z.eqb_eq).
  destruct (Ho1 k row Hk Hid) as [Hn|Hv]; [by rewrite bool_decide_eq_false_2|].
  destruct (Z.eqb_spec (u_TokenVersion row) (sc_TokenVersion c)); [done|]. by rewrite orb_true_r.
Qed.

Lemma denied_revoked u tokenID w : rely (others_keep (denied tokenID)) w → denied tokenID (w_db w) →
  post (IsAccessTokenRevoked u tokenID) w (λ r _, r ≠ Ok false).
Proof.
  intros Hw Ho. unfold IsAccessTokenRevoked. m_step; [by m_step|]. m_step.
  eapply post_query; [exact Hw|by intros|]. intros w1 Ha. destruct (after_keeps _ _ _ _ Ha Ho) as (k & r & Hk & E).
  m_step. destruct (Z.ltb_spec 0 (count_where (λ r, bool_decide (ra_JTI r = tokenID)) (o_revoked_access_tokens (w_db w1)))) as [Hc|Hc]; [done|].
  assert (count_where (λ r, bool_decide (ra_JTI r = tokenID)) (o_revoked_access_tokens (w_db w1)) = 0) as H0.
  { match goal with |- ?x = 0 => assert (0 ≤ x) by apply count_where_nonneg end. lia. }
  rewrite count_where_0 in H0. specialize (H0 k r Hk). by apply bool_decide_eq_false in H0.
Qed.

Lemma GetUserTokenVersion_keeps I u userID w : rely (others_keep I) w → I (w_db w) →
  post (GetUserTokenVersion u userID) w (λ _ w', rely (others_keep I) w' ∧ I (w_db w')).
Proof.
  intros Hw HI. assert (within (others_keep I) (keeps I) (GetUserTokenVersion u userID)) as Hwi.
  { unfold GetUserTokenVersion, findUser. within_solve. }
  eapply post_mono; [by apply Hwi|]. intros r w1 []. auto.
Qed.

Lemma accessTokenMiddleware_retired {A} I publicKey sessions (next : Context → M A) ctx token m c w :
  I = denied (jti (sc_Registered c)) ∨ I = outdated c →
  rely (others_keep I) w → I (w_db w) →
  authorizationToken (cx_Request ctx) = Ok token → decode token = Some (m, c) →
  post (accessTokenMiddleware J publicKey sessions next ctx) w (λ r _, r = None).
Proof.
  intros Hcase Hw HI Htok Hdec. unfold accessTokenMiddleware. rewrite Htok.
  destruct (cx_Request ctx) as [request|]; [|by m_step]. m_step. apply post_validate.
  destruct (fst (validateSessionToken _ _ _ _ w)) as [c'|e] eqn:Hval; [|by m_step].
  destruct (validateSessionToken_sound J decode genuine _ _ _ _ _ Hval) as (_ & Hdec' & _).
  replace c' with c in * by congruence. destruct sessions as [u|]; [|by m_step]. m_step.
  destruct Hcase as [-> | ->].
  - eapply post_mono; [by apply GetUserTokenVersion_keeps|]. intros [[name version] ex] w1 [Hw1 HI1].
    m_step; [by m_step|]. m_step. eapply post_mono; [by apply denied_revoked|].
    intros [[]|e] w2 Hne; [by m_step|done|by m_step].
  - eapply post_mono; [by apply outdated_version|]. intros [[name version] ex] w1 ->. by m_step.
Qed.
End Facts.

(** ** Properties *)

(** The middleware admits exactly the admissible: on any fault schedule it
    either answers unauthorized, leaving the database alone, or runs the next
    handler on a context that carries the verified identity; it never runs it
    otherwise, and when no statement fails every admissible request gets through. *)
Theorem middleware_exact {A : Type} (J : JWT SessionClaims)
    (decode : string → option (SigningMethod * SessionClaims)) (genuine : PublicKey → string → Prop)
    (u : userService) (next : Context → M A) (ctx : Context) (w : World) :
  JWTSpec J decode genuine → alone w → keys_agree (w_db w) → svc_db u = true →
  let run := userAccessTokenMiddleware J (Some u) next ctx w in
  fst run = None ∧ turned_away decode genuine (Ok (svc_publicKey u)) ctx w (snd run) ∨
  passed_on decode genuine (Ok (svc_publicKey u)) next ctx w run.
Proof.
  intros HJ Hw Hk Hu run.
  assert (post (userAccessTokenMiddleware J (Some u) next ctx) w (λ r w',
    r = None ∧ turned_away decode genuine (Ok (svc_publicKey u)) ctx w w' ∨
    passed_on decode genuine (Ok (svc_publicKey u)) next ctx w (r, w'))) as H.
  { apply accessTokenMiddleware_spec; [done..|]. simpl. by rewrite Hu. }
  unfold post in H. fold run in H. by rewrite <- (surjective_pairing run) in H.
Qed.

(** The account, its token in the raw and in the Bearer form, and a handler that
    reports whom it serves. *)
Definition annRequest (header : string) : Context :=
  mkContext (Some (mkRequest 1 [header] "9" (λ _, "") (λ _, "") "")) None.

Definition whoami (ctx : Context) : M (option string) := mret (rq_user_id <$> cx_Request ctx).

Definition annWorld (db : Database) : World := mkWorld db emptyFS (2002 * hour) (λ _, quietEvent) false "" [].

Abbreviation annVisit := (userAccessTokenMiddleware ToyJWT.jwt (Some liveService) whoami
  (annRequest ("Bearer " +:+ toyToken)) (annWorld annDatabase)).

Lemma annDatabase_keys : keys_agree annDatabase.
Proof.
  split; intros k x H; [| |discriminate H..].
  - change (({[7 := ann]} : gmap Z UserDBModel) !! k = Some x) in H.
    apply lookup_singleton_Some in H as [<- <-]. reflexivity.
  - change (({["s1" := annSession]} : gmap string RefreshSessionDBModel) !! k = Some x) in H.
    apply lookup_singleton_Some in H as [<- <-]. reflexivity.
Qed.

Lemma middleware_exact_witness :
  fst annVisit = Some (Some "7") ∧
  passed_on ToyJWT.decode ToyJWT.genuine (Ok (Some toyKey)) whoami (annRequest ("Bearer " +:+ toyToken))
    (annWorld annDatabase) annVisit.
Proof.
  assert (fst annVisit = Some (Some "7")) as E by (vm_compute; reflexivity).
  destruct (middleware_exact ToyJWT.jwt ToyJWT.decode ToyJWT.genuine liveService whoami
    (annRequest ("Bearer " +:+ toyToken)) (annWorld annDatabase) ToyJWT.jwt_spec
    (λ n, conj (λ _, eq_refl) (λ _, eq_refl)) annDatabase_keys eq_refl) as [[H _]|H].
  - rewrite E in H. discriminate H.
  - split; [exact E|exact H].
Defined.

(** A retired token opens nothing: while a token's identifier stays on the
    denylist, or while no account has the name and generation it carries (the
    account is gone, renamed, or its generation advanced by a logout everywhere, a
    password change or a reset), the middleware turns the request away, whatever
    the other requests do besides, whichever statements fail, and under any key. *)
Theorem retired_token_rejected {A : Type} (J : JWT SessionClaims)
    (decode : string → option (SigningMethod * SessionClaims)) (genuine : PublicKey → string → Prop)
    (I : Database → Prop) (MyService : option userService) (next : Context → M A) (ctx : Context)
    (token : string) (m : SigningMethod) (c : SessionClaims) (w : World) :
  JWTSpec J decode genuine →
  authorizationToken (cx_Request ctx) = Ok token → decode token = Some (m, c) →
  I = denied (jti (sc_Registered c)) ∨ I = outdated c →
  rely (others_keep I) w → I (w_db w) →
  fst (userAccessTokenMiddleware J MyService next ctx w) = None.
Proof.
  intros HJ Htok Hdec Hcase Hw HI.
  exact (accessTokenMiddleware_retired J decode genuine I _ _ next ctx token m c w Hcase Hw HI Htok Hdec).
Qed.

(** [ann] has changed the password since: the generation is 3. *)
Definition movedOn : Database := with_users (λ _, {[7 := bumped 1 ann]}) emptyDatabase.

Lemma retired_token_rejected_witness :
  fst (userAccessTokenMiddleware ToyJWT.jwt (Some liveService) whoami (annRequest toyToken) (annWorld movedOn)) = None.
Proof.
  eapply (retired_token_rejected ToyJWT.jwt ToyJWT.decode ToyJWT.genuine (outdated
    (mintedClaims ToyJWT.jwt "ann" 7 2 "aabb" AccessTokenIssuer AccessTokenLifetime (2000 * hour)))
    (Some liveService) whoami (annRequest toyToken) toyToken).
  - apply ToyJWT.jwt_spec.
  - vm_compute. reflexivity.
  - vm_compute. reflexivity.
  - right. reflexivity.
  - intros n. split; [|reflexivity]. intros db H. exact H.
  - intros k row H _. right. change (({[7 := bumped 1 ann]} : gmap Z UserDBModel) !! k = Some row) in H.
    apply lookup_singleton_Some in H as [_ <-]. vm_compute. discriminate.
Defined.
