(* ===== verification/Router.v ===== *)
(** * The routers (src/route/v1.go, src/route/v2.go)

    Which handler a request reaches and through which checks: the v1 routes as they
    are registered, public ones and the group behind the access-token middleware,
    and the v2 chain of middleware, OpenAPI validation and handler. echo's choice
    among the registered routes is a parameter, [Find]. *)

From stdpp Require Import prelude strings gmap.
From Stdlib Require Import ZArith Lia Ascii.
From S2P Require Import Prelude GoStrings Routes FileSystem Tables Store AuthSecurity Sessions Issue Users Middleware.

Local Open Scope Z_scope.
Local Open Scope m_scope.

(** ** The table of v1 *)

(** The handlers of src/route/v1/user.go that are registered. *)
Inductive Endpoint :=
| at_PostUserRegister | at_PostUserLogin | at_PostUserRefreshToken | at_GetUserImage | at_GetUserStatus
| at_GetUserInfo | at_PutUserInfo | at_PutUserPassword
| at_GetUserCustomConf | at_PostUserCustomConf | at_DeleteUserCustomConf
| at_PostUserUploadImage | at_PutUserImage | at_DeleteUserImage
| at_PutUserAvatar | at_GetUserAvatar | at_GetUserAllUsername
| at_PostUserLogout | at_PostUserLogoutAll | at_GetCredentialEvents
| at_DeleteUser | at_GetUserInfoByUsername | at_DeleteUserAll.

#[export] Instance Endpoint_eq_dec : EqDecision Endpoint.
Proof. solve_decision. Defined.

(** A route leads to a handler, behind [userAccessTokenMiddleware] or not. *)
Abbreviation Route := (Routes.Route (Endpoint * bool)).
Definition rt_Handler (r : Route) : Endpoint := (rt_Target r).1.
Definition rt_Guarded (r : Route) : bool := (rt_Target r).2.

(** [group.METHOD(path, handler)] in a group with a prefix and a middleware or
    none. *)
Definition register (prefix : string) (guarded : bool) (r : string * string * Endpoint) : Route :=
  mkRoute r.1.1 (prefix +:+ r.1.2) (r.2, guarded).

Definition publicRoutes : list Route := register "" false <$>
  [("POST", "/v1/users/register", at_PostUserRegister);
   ("POST", "/v1/users/login", at_PostUserLogin);
   ("POST", "/v1/users/refresh", at_PostUserRefreshToken);
   ("GET", "/v1/users/image", at_GetUserImage);
   ("GET", "/v1/users/status", at_GetUserStatus)].

Definition v1UsersGroup : list Route := register ("/v1" +:+ "/users") true <$>
  [("GET", "/current", at_GetUserInfo);
   ("PUT", "/current", at_PutUserInfo);
   ("PUT", "/current/password", at_PutUserPassword);
   ("GET", "/current/custom/:key", at_GetUserCustomConf);
   ("POST", "/current/custom/:key", at_PostUserCustomConf);
   ("DELETE", "/current/custom/:key", at_DeleteUserCustomConf);
   ("POST", "/current/image/:key", at_PostUserUploadImage);
   ("PUT", "/current/image/:key", at_PutUserImage);
   ("DELETE", "/current/image", at_DeleteUserImage);
   ("PUT", "/avatar", at_PutUserAvatar);
   ("GET", "/avatar", at_GetUserAvatar);
   ("GET", "/name", at_GetUserAllUsername);
   ("POST", "/logout", at_PostUserLogout);
   ("POST", "/logout-all", at_PostUserLogoutAll);
   ("GET", "/credential-events", at_GetCredentialEvents);
   ("DELETE", "/:id", at_DeleteUser);
   ("GET", "/:username", at_GetUserInfoByUsername);
   ("DELETE", "", at_DeleteUserAll)].

(** [InitRouter]. *)
Definition v1Routes : list Route := publicRoutes ++ v1UsersGroup.

(** How a request ends. *)
Inductive Outcome (A : Type) := NotFound | Unauthorized | Invalid | Served (a : A).
Arguments NotFound {A}.
Arguments Unauthorized {A}.
Arguments Invalid {A}.
Arguments Served {A} a.

Section Router.
Context (J : JWT SessionClaims) (MyService : option userService).
Context (Find : list Route → string → string → option Route).
Context {A : Type} (handlers : Endpoint → Context → M A).

(** The middleware around a handler. *)
Definition guarded (next : Context → M (Outcome A)) (ctx : Context) : M (Outcome A) :=
  r <- userAccessTokenMiddleware J MyService next ctx;;
  mret (match r with Some o => o | None => Unauthorized end).

Definition handle (e : Endpoint) (ctx : Context) : M (Outcome A) := a <- handlers e ctx;; mret (Served a).

(** A request to the v1 router. *)
Definition serveV1 (method path : string) (ctx : Context) : M (Outcome A) :=
  match Find v1Routes method path with
  | None => mret NotFound
  | Some r => if rt_Guarded r then guarded (handle (rt_Handler r)) ctx else handle (rt_Handler r) ctx
  end.

(** The OpenAPI validator before a v2 handler: [inputsOf] is what it asks
    [v2OpenAPIAuthentication] for the operation a request names, [None] when the
    request is not valid or names none. *)
Definition validated (inputsOf : option Request → option (list AuthenticationInput)) (handler : Context → M A)
    (ctx : Context) : M (Outcome A) :=
  match inputsOf (cx_Request ctx) with
  | None => mret Invalid
  | Some inputs =>
     if forallb (λ i, v2OpenAPIAuthentication (Some ctx) (Some i)) inputs
     then a <- handler ctx;; mret (Served a)
     else mret Unauthorized
  end.

(** A request to the v2 router. *)
Definition serveV2 (inputsOf : option Request → option (list AuthenticationInput)) (handler : Context → M A)
    : Context → M (Outcome A) := guarded (validated inputsOf handler).
End Router.

(** ** What the tables say *)

Definition publicEndpoints : list Endpoint :=
  [at_PostUserRegister; at_PostUserLogin; at_PostUserRefreshToken; at_GetUserImage; at_GetUserStatus].

Lemma v1Routes_guarded r : r ∈ v1Routes → rt_Guarded r = negb (bool_decide (rt_Handler r ∈ publicEndpoints)).
Proof.
  assert (Forall (λ r, rt_Guarded r = negb (bool_decide (rt_Handler r ∈ publicEndpoints))) v1Routes) as H
    by (by repeat constructor).
  rewrite Forall_forall in H. apply H.
Qed.

(** The request the validator looks at, with the scheme of the API document. *)
Definition documented (request : Request) (i : AuthenticationInput) : Prop :=
  i = mkAuthInput (Some (Some (rq_ref request))) v2OpenAPISecuritySchemeName
        (Some (mkScheme "apiKey" "header" "Authorization")) [].

Lemma documented_passes request c i : documented (set_user_id (Itoa (sc_UserID c)) request) i →
  v2OpenAPIAuthentication (Some (authenticated request c)) (Some i) = true.
Proof. intros ->. simpl. by rewrite !Z.eqb_refl. Qed.

(** Without the session the middleware recorded for this very request the second
    check refuses. *)
Lemma unauthenticated_refused request session i :
  (∀ a, session = Some a → as_Request a ≠ rq_ref request) →
  v2OpenAPIAuthentication (Some (mkContext (Some request) session)) (Some i) = false.
Proof.
  intros Hs. destruct i as [[[validated|]|] name [scheme|] scopes]; try done. simpl.
  destruct (_ || _); [done|]. destruct (negb _); [done|]. destruct session as [a|]; [|done].
  apply Z.eqb_neq. by apply Hs.
Qed.

(** ** What the middleware lets through *)

Section Guarded.
Context (J : JWT SessionClaims) (decode : string → option (SigningMethod * SessionClaims))
        (genuine : PublicKey → string → Prop) `{!JWTSpec J decode genuine}.
Context {A : Type} (next : Context → M (Outcome A)) (ctx : Context) (w : World).

Lemma guarded_retired MyService I token m c :
  authorizationToken (cx_Request ctx) = Ok token → decode token = Some (m, c) →
  I = denied (jti (sc_Registered c)) ∨ I = outdated c → rely (others_keep I) w → I (w_db w) →
  fst (guarded J MyService next ctx w) = Unauthorized.
Proof using JWTSpec0.
  intros Htok Hdec Hcase Hw HI.
  pose proof (accessTokenMiddleware_retired J decode genuine I _ _ next ctx token m c w Hcase Hw HI Htok Hdec
    : fst (userAccessTokenMiddleware J MyService next ctx w) = None) as H.
  unfold guarded, mbind. destruct (userAccessTokenMiddleware J MyService next ctx w). simpl in *. by subst.
Qed.

Lemma guarded_spec u : alone w → keys_agree (w_db w) → svc_db u = true →
  let run := guarded J (Some u) next ctx w in
  fst run = Unauthorized ∧ turned_away decode genuine (Ok (svc_publicKey u)) ctx w (snd run) ∨
  passed_on decode genuine (Ok (svc_publicKey u)) next ctx w (Some (fst run), snd run).
Proof using JWTSpec0.
  intros Hw Hk Hu run.
  assert (unavailable (Some u) = false) as Hun by (simpl; by rewrite Hu).
  pose proof (post_run _ _ _ (accessTokenMiddleware_spec J decode genuine (Ok (svc_publicKey u)) (Some u) next ctx w Hw Hk Hun)) as H.
  unfold run, guarded, userAccessTokenMiddleware, mbind. cbv beta iota.
  destruct (accessTokenMiddleware _ _ _ _ _ w) as [r w1]. specialize (H r w1 eq_refl).
  destruct H as [[-> H]|H]; [by left|right]. destruct H as (request & key & c & w0 & H1 & H2 & H3 & H4 & H5 & H6 & [= -> ->]).
  exists request, key, c, w0. split_and!; done.
Qed.
End Guarded.

(** ** Properties *)

(** C22. The routers let nobody past the middleware but to five public endpoints.
    Of the v1 routes exactly registration (which is closed), login, refresh, the
    retired image endpoint and the status are public. A request that is routed to
    any other endpoint, and every request to the v2 API, is answered Unauthorized
    while its token is on the denylist or of a superseded generation, under any
    interference and faults and before the service is up; on its own it is turned
    away with the database untouched or carries an admissible token and runs the
    handler, on v2 the validation, as the verified identity. On v2 the second check
    then agrees with the first: it accepts the context of an admitted request, and
    none without the session the middleware recorded for that request. *)
Theorem router_guards {A : Type} (J : JWT SessionClaims)
    (decode : string → option (SigningMethod * SessionClaims)) (genuine : PublicKey → string → Prop)
    (Find : list Route → string → string → option Route) (handlers : Endpoint → Context → M A)
    (inputsOf : option Request → option (list AuthenticationInput)) (handler : Context → M A)
    (method path : string) (r : Route) (ctx : Context) (w : World) :
  JWTSpec J decode genuine → RouterSpec Find →
  Find v1Routes method path = Some r → rt_Handler r ∉ publicEndpoints →
  (∀ MyService I token m c, authorizationToken (cx_Request ctx) = Ok token → decode token = Some (m, c) →
     I = denied (jti (sc_Registered c)) ∨ I = outdated c → rely (others_keep I) w → I (w_db w) →
     fst (serveV1 J MyService Find handlers method path ctx w) = Unauthorized ∧
     fst (serveV2 J MyService inputsOf handler ctx w) = Unauthorized) ∧
  (∀ u, alone w → keys_agree (w_db w) → svc_db u = true →
     let v1 := serveV1 J (Some u) Find handlers method path ctx w in
     let v2 := serveV2 J (Some u) inputsOf handler ctx w in
     let admits {B} := @passed_on decode genuine B (Ok (svc_publicKey u)) in
     (fst v1 = Unauthorized ∧ turned_away decode genuine (Ok (svc_publicKey u)) ctx w (snd v1) ∨
      admits (handle handlers (rt_Handler r)) ctx w (Some (fst v1), snd v1)) ∧
     (fst v2 = Unauthorized ∧ turned_away decode genuine (Ok (svc_publicKey u)) ctx w (snd v2) ∨
      admits (validated inputsOf handler) ctx w (Some (fst v2), snd v2))) ∧
  (∀ request c i, documented (set_user_id (Itoa (sc_UserID c)) request) i →
     v2OpenAPIAuthentication (Some (authenticated request c)) (Some i) = true) ∧
  (∀ request session i, (∀ a, session = Some a → as_Request a ≠ rq_ref request) →
     v2OpenAPIAuthentication (Some (mkContext (Some request) session)) (Some i) = false).
Proof.
  intros HJ HF Hr Hpriv. destruct (find_fits _ _ _ _ Hr) as [Hin _]. apply v1Routes_guarded in Hin.
  rewrite bool_decide_eq_false_2 in Hin by done. cbn [negb] in Hin.
  assert (∀ MyService, serveV1 J MyService Find handlers method path ctx w =
                       guarded J MyService (handle handlers (rt_Handler r)) ctx w) as Hv1.
  { intros MyService. unfold serveV1. by rewrite Hr, Hin. }
  split_and!; [| |apply documented_passes|apply unauthenticated_refused].
  - intros MyService I token m c Htok Hdec Hcase Hw HI. rewrite Hv1.
    split; [by apply (guarded_retired J decode genuine _ _ _ _ I token m c)|].
    by apply (guarded_retired J decode genuine _ _ _ _ I token m c).
  - intros u Hw Hk Hu v1 v2 admits. unfold v1. rewrite Hv1.
    split; [by apply (guarded_spec J decode genuine)|by apply (guarded_spec J decode genuine)].
Qed.

(** [ann] asks for her account with a current and with a superseded token. *)
Lemma router_guards_witness :
  fst (serveV1 ToyJWT.jwt (Some liveService) firstFit (λ _, whoami) "GET" "/v1/users/current"
         (annRequest toyToken) (annWorld movedOn)) = Unauthorized ∧
  fst (serveV1 ToyJWT.jwt (Some liveService) firstFit (λ _, whoami) "GET" "/v1/users/current"
         (annRequest ("Bearer " +:+ toyToken)) (annWorld annDatabase)) = Served (Some "7").
Proof.
  assert (firstFit v1Routes "GET" "/v1/users/current" =
    Some (mkRoute "GET" "/v1/users/current" (at_GetUserInfo, true))) as Hr by reflexivity.
  split; [|vm_compute; reflexivity].
  assert (at_GetUserInfo ∉ publicEndpoints) as Hpriv by (apply (bool_decide_eq_false (at_GetUserInfo ∈ publicEndpoints)); reflexivity).
  destruct (router_guards ToyJWT.jwt ToyJWT.decode ToyJWT.genuine firstFit (λ _, whoami) (λ _, None) whoami
    "GET" "/v1/users/current" _ (annRequest toyToken) (annWorld movedOn) ToyJWT.jwt_spec firstFit_spec Hr Hpriv) as [H _].
  edestruct (H (Some liveService) (outdated
    (mintedClaims ToyJWT.jwt "ann" 7 2 "aabb" AccessTokenIssuer AccessTokenLifetime (2000 * hour))) toyToken) as [H1 _].
  - vm_compute. reflexivity.
  - vm_compute. reflexivity.
  - right. reflexivity.
  - intros n. split; [|reflexivity]. intros db H0. exact H0.
  - intros k row H0 _. right. change (({[7 := bumped 1 ann]} : gmap Z UserDBModel) !! k = Some row) in H0.
    apply lookup_singleton_Some in H0 as [_ <-]. vm_compute. discriminate.
  - exact H1.
Defined.
