(* ===== verification/Handlers.v ===== *)
(** * The v1 handlers (src/route/v1/user.go)

    Every handler of the v1 API but the custom-configuration ones, as functions
    from the request context to a response, composed from the service's operations
    as the code composes them. What the code cannot read of itself is an argument:
    the verdict of the process-wide rate limiters, the body decoders and the status
    codes of CasaOS-Common. *)

From stdpp Require Import prelude strings gmap.
From Stdlib Require Import ZArith Lia Ascii.
From S2P Require Import Prelude GoStrings Password FileSystem Tables Store Guarantee AuthSecurity Bootstrap Sessions Rotation Issue Users Middleware.

Local Open Scope Z_scope.
Local Open Scope m_scope.

(** ** Responses *)

(** The constants of [common_err] the handlers use, and [common_err.GetMsg]. *)
Record CommonErr := mkCommonErr {
  SUCCESS : Z;
  CLIENT_ERROR : Z;
  SERVICE_ERROR : Z;
  INVALID_PARAMS : Z;
  TOO_MANY_REQUEST : Z;
  TOO_MANY_LOGIN_REQUESTS : Z;
  USER_NOT_EXIST_OR_PWD_INVALID : Z;
  USER_NOT_EXIST : Z;
  USER_EXIST : Z;
  PWD_INVALID_OLD : Z;
  PWD_IS_TOO_SIMPLE : Z;
  VERIFICATION_FAILURE : Z;
  GetMsg : Z → string;
}.

Record VerifyInformation := mkVerify {
  vi_AccessToken : string;
  vi_RefreshToken : string;
  vi_ExpiresAt : Z;
}.

(** What [model.Result] carries in [Data]. *)
Inductive Data :=
| NoData
| DataLogin (token : VerifyInformation) (user : UserDBModel)
| DataVerify (token : VerifyInformation)
| DataUser (user : UserDBModel)
| DataNames (names : list string)
| DataEvents (events : list CredentialEventDBModel)
| DataInitialized (b : bool)
| DataID (id : string)
| DataText (s : string)
| DataRawJSON (s : string).

Record Response := mkResponse {
  rsp_Status : Z;
  rsp_Headers : list (string * string);
  rsp_Success : Z;
  rsp_Message : string;
  rsp_Data : Data;
}.

Definition StatusForbidden : Z := 403.
Definition StatusUnauthorized : Z := 401.
Definition StatusNotFound : Z := 404.
Definition StatusConflict : Z := 409.
Definition StatusGone : Z := 410.
Definition StatusRequestEntityTooLarge : Z := 413.
Definition StatusInternalServerError : Z := 500.
Definition StatusServiceUnavailable : Z := 503.
Definition StatusOK : Z := 200.

(** The headers of the credential endpoints. *)
Definition noStore : list (string * string) := [("Cache-Control", "no-store"); ("Pragma", "no-cache")].
Definition nosniff : list (string * string) := noStore ++ [("X-Content-Type-Options", "nosniff")].

(** Seconds from Go's zero time to the Unix epoch. *)
Definition unixEpoch : Z := 62135596800.
Definition Unix (t : Z) : Z := t / second - unixEpoch.

(** [d.Round(m)]: half away from zero, saturating. *)
Definition maxDuration : Z := 2 ^ 63 - 1.
Definition minDuration : Z := - 2 ^ 63.
Definition Round (d m : Z) : Z :=
  if m <=? 0 then d
  else if d <? 0 then
    let r := - Z.rem d m in
    if r + r <? m then d + r else Z.max minDuration (d - m + r)
  else
    let r := Z.rem d m in
    if r + r <? m then d - r else Z.min maxDuration (d + m - r).

(** [int64(d.Round(time.Second).Seconds())]. *)
Definition wholeSeconds (d : Z) : Z := Z.quot (Round d second) second.

(** A profile that is shown without its verifier. *)
Definition hide_password (u : UserDBModel) : UserDBModel :=
  mkUser (u_Id u) (u_Username u) "" (u_Role u) (u_Email u) (u_Nickname u) (u_Avatar u) (u_Description u)
    (u_TokenVersion u) (u_CreatedAt u) (u_UpdatedAt u).

Definition firstNonEmpty (candidate fallback : string) : string :=
  if bool_decide (candidate = "") then fallback else candidate.

Record userProfileUpdate := mkProfileUpdate {
  up_Username : string;
  up_Email : string;
  up_Nickname : string;
  up_Avatar : string;
  up_Description : string;
}.

Definition maxLoginRequestBodyBytes : N := 4 * 1024.
Definition maxRefreshRequestBodyBytes : N := 12 * 1024.

(** [http.MaxBytesReader] under a decoder that must reach the end of the body. *)
Definition bounded_body {A} (limit : N) (decode : string → option A) (ctx : Context) : option A :=
  match cx_Request ctx with
  | None => None
  | Some r => if (limit <? len (rq_Body r))%N then None else decode (rq_Body r)
  end.

Definition header_user_id (ctx : Context) : string :=
  match cx_Request ctx with Some r => rq_user_id r | None => "" end.
Definition param (ctx : Context) (name : string) : string :=
  match cx_Request ctx with Some r => rq_Param r name | None => "" end.
Definition query_param (ctx : Context) (name : string) : string :=
  match cx_Request ctx with Some r => rq_Query r name | None => "" end.

(** ** The handlers *)

Section Handlers.
Context (E : CommonErr) (J : JWT SessionClaims)
        (IDKey : string → string → N → N → N → N → string)
        (id_matches : string → Z → bool)
        (next_audit_id : list CredentialEventDBModel → Z)
        (tie : RevokedAccessTokenDBModel → RevokedAccessTokenDBModel → bool).
(** [service.MyService.User()]. *)
Context (users : option userService).
(** The JSON decoding of a whole body into the login and refresh requests, unknown
    fields and trailing data refused; [ctx.Bind]. *)
Context (decodeLogin : string → option (string * string))
        (decodeRefresh : string → option string)
        (BindProfile : Context → res userProfileUpdate)
        (BindMap : Context → string → string).

(** [ctx.JSON(status, model.Result{Success: code, Message: GetMsg(code)})]. *)
Definition answer (headers : list (string * string)) (status code : Z) (data : Data) : Response :=
  mkResponse status headers code (GetMsg E code) data.

Definition PostUserRegister (ctx : Context) : M Response :=
  mret (mkResponse StatusGone noStore StatusGone
    "network registration is disabled; initialize the administrator locally" NoData).

Definition loginRateLimited (headers : list (string * string)) (retryAfter : Z) : Response :=
  let seconds := wholeSeconds retryAfter in
  let seconds := if seconds <? 1 then 1 else seconds in
  answer (headers ++ [("Retry-After", Itoa seconds)]) (TOO_MANY_REQUEST E) (TOO_MANY_LOGIN_REQUESTS E) NoData.

(** The login handler reports bad input with the client code and the message of
    bad parameters. *)
Definition loginBadInput : Response :=
  mkResponse (CLIENT_ERROR E) noStore (CLIENT_ERROR E) (GetMsg E (INVALID_PARAMS E)) NoData.

Definition serviceFailure (headers : list (string * string)) : Response :=
  answer headers StatusInternalServerError (SERVICE_ERROR E) NoData.

(** The part of [PostUserLogin] after a rejected password. *)
Definition loginRejected (attemptKey : string) (now : Z) : M Response :=
  recorded <- RecordLoginFailure users attemptKey now;;
  match recorded with
  | Err _ => mret (serviceFailure noStore)
  | Ok (locked, retryAfter) =>
     if (locked : bool) then
       _ <- LogCredentialEvent next_audit_id users 0 CredentialEventLoginLockout false "login" "";;
       mret (loginRateLimited noStore retryAfter)
     else
       _ <- LogCredentialEvent next_audit_id users 0 CredentialEventLoginFailure false "login" "";;
       mret (answer noStore (CLIENT_ERROR E) (USER_NOT_EXIST_OR_PWD_INVALID E) NoData)
  end.

(** The part after an accepted one. *)
Definition loginAccepted (attemptKey : string) (now : Z) (user : UserDBModel) : M Response :=
  _ <- RecordLoginSuccess users attemptKey;;
  issued <- IssueLoginSession J tie users (u_Id user) now;;
  match issued with
  | Err _ => mret (serviceFailure noStore)
  | Ok issued =>
     _ <- LogCredentialEvent next_audit_id users (u_Id user) CredentialEventLoginSuccess true "login" "";;
     later <- time_Now;;
     mret (answer noStore (SUCCESS E) (SUCCESS E)
       (DataLogin (mkVerify (is_AccessToken issued) (is_RefreshToken issued) (Unix (later + 3 * hour)))
          (hide_password user)))
  end.

Definition PostUserLogin (allowed : bool) (ctx : Context) : M Response :=
  if negb allowed then mret (loginRateLimited noStore minute)
  else match bounded_body maxLoginRequestBodyBytes decodeLogin ctx with
  | None => mret loginBadInput
  | Some (username, password) =>
     if (len username =? 0)%N || (len password =? 0)%N
     then mret loginBadInput
     else
       now <- time_Now;;
       let attemptKey := LoginAttemptKey "login" username in
       lock <- CheckLoginLockout users attemptKey now;;
       if (lock : bool * Z).1 then mret (loginRateLimited noStore lock.2)
       else
         authenticated <- AuthenticateUser IDKey username password;;
         match authenticated with
         | Err e => if errors_Is e ErrInvalidCredentials then loginRejected attemptKey now
                    else mret (serviceFailure noStore)
         | Ok user => loginAccepted attemptKey now user
         end
  end.

Definition refreshUnauthorized : Response :=
  answer noStore StatusUnauthorized (VERIFICATION_FAILURE E) NoData.

Definition refreshRateLimited : Response :=
  answer (noStore ++ [("Retry-After", "60")]) (TOO_MANY_REQUEST E) (TOO_MANY_LOGIN_REQUESTS E) NoData.

Definition PostUserRefreshToken (allowed : bool) (ctx : Context) : M Response :=
  if negb allowed then mret refreshRateLimited
  else match bounded_body maxRefreshRequestBodyBytes decodeRefresh ctx with
  | None => mret refreshUnauthorized
  | Some presented =>
     now <- time_Now;;
     issued <- IssueRefreshedTokens J tie users presented now;;
     match issued with
     | Err e =>
        if errors_Is e ErrRefreshSessionReused then
          _ <- LogCredentialEvent next_audit_id users 0 CredentialEventRefreshReuse false "refresh" "";;
          mret refreshUnauthorized
        else if errors_Is e ErrRateLimitLocked then mret refreshRateLimited
        else if errors_Is e ErrInvalidRefreshSession then
          _ <- LogCredentialEvent next_audit_id users 0 CredentialEventRefreshFailure false "refresh" "";;
          mret refreshUnauthorized
        else mret (serviceFailure noStore)
     | Ok issued =>
        _ <- LogCredentialEvent next_audit_id users (u_Id (is_User issued)) CredentialEventRefreshSuccess
               true "refresh" "";;
        mret (answer noStore (SUCCESS E) (SUCCESS E)
          (DataVerify (mkVerify (is_AccessToken issued) (is_RefreshToken issued) (Unix (is_ExpiresAt issued)))))
     end
  end.

(** ** Profiles *)

Definition updatedProfile (requested : userProfileUpdate) (user : UserDBModel) : UserDBModel :=
  mkUser (u_Id user) (firstNonEmpty (up_Username requested) (u_Username user)) "" (u_Role user)
    (firstNonEmpty (up_Email requested) (u_Email user)) (firstNonEmpty (up_Nickname requested) (u_Nickname user))
    (firstNonEmpty (up_Avatar requested) (u_Avatar user))
    (firstNonEmpty (up_Description requested) (u_Description user)) 0 0 0.

Definition PutUserInfo (ctx : Context) : M Response :=
  let id := header_user_id ctx in
  match BindProfile ctx with
  | Err _ => mret (answer [] (CLIENT_ERROR E) (INVALID_PARAMS E) NoData)
  | Ok requested =>
     user <- GetUserInfoById id_matches id;;
     if u_Id user =? 0 then mret (answer [] (SERVICE_ERROR E) (USER_NOT_EXIST_OR_PWD_INVALID E) NoData)
     else
       taken <- (if (0 <? len (up_Username requested))%N
                 then other <- GetUserInfoByUserName (up_Username requested);;
                      mret ((0 <? u_Id other) && negb (u_Id other =? u_Id user))
                 else mret false);;
       if (taken : bool) then mret (answer [] (CLIENT_ERROR E) (USER_EXIST E) NoData)
       else
         _ <- UpdateUser (updatedProfile requested user);;
         publicUser <- GetUserInfoById id_matches id;;
         if negb (u_Id publicUser =? u_Id user) then mret (serviceFailure [])
         else mret (answer [] (SUCCESS E) (SUCCESS E) (DataUser (hide_password publicUser)))
  end.

Definition PutUserPassword (ctx : Context) : M Response :=
  let id := header_user_id ctx in
  let oldPwd := BindMap ctx "old_password" in
  let pwd := BindMap ctx "password" in
  if (len oldPwd =? 0)%N || (len pwd =? 0)%N then mret (answer [] (CLIENT_ERROR E) (INVALID_PARAMS E) NoData)
  else
    changed <- ChangeUserPassword IDKey id_matches next_audit_id users id oldPwd pwd;;
    match changed with
    | Err e =>
       if errors_Is e ErrInvalidCredentials then mret (answer [] (CLIENT_ERROR E) (PWD_INVALID_OLD E) NoData)
       else if errors_Is e ErrWeakPassword then mret (answer [] (CLIENT_ERROR E) (PWD_IS_TOO_SIMPLE E) NoData)
       else mret (serviceFailure [])
    | Ok _ =>
       user <- GetUserInfoById id_matches id;;
       mret (answer [] (SUCCESS E) (SUCCESS E) (DataUser (hide_password user)))
    end.

(** The common shape of [PutUserNick] and [PutUserDesc]: one field of the caller's
    own profile. *)
Definition putField (field : string) (set : string → UserDBModel → UserDBModel) (ctx : Context) : M Response :=
  let id := header_user_id ctx in
  let value := BindMap ctx field in
  if (len value =? 0)%N then mret (answer [] StatusOK (INVALID_PARAMS E) NoData)
  else
    user <- GetUserInfoById id_matches id;;
    if u_Id user =? 0 then mret (answer [] StatusOK (USER_NOT_EXIST E) NoData)
    else
      let user := set value user in
      _ <- UpdateUser user;;
      mret (answer [] StatusOK (SUCCESS E) (DataUser user)).

Definition PutUserNick : Context → M Response :=
  putField "nick_name" (λ v u, mkUser (u_Id u) (u_Username u) (u_Password u) (u_Role u) (u_Email u) v
    (u_Avatar u) (u_Description u) (u_TokenVersion u) (u_CreatedAt u) (u_UpdatedAt u)).

Definition PutUserDesc : Context → M Response :=
  putField "description" (λ v u, mkUser (u_Id u) (u_Username u) (u_Password u) (u_Role u) (u_Email u)
    (u_Nickname u) (u_Avatar u) v (u_TokenVersion u) (u_CreatedAt u) (u_UpdatedAt u)).

Definition GetUserInfo (ctx : Context) : M Response :=
  user <- GetUserInfoById id_matches (header_user_id ctx);;
  mret (answer [] (SUCCESS E) (SUCCESS E) (DataUser user)).

Definition GetUserInfoByUsername (ctx : Context) : M Response :=
  let username := param ctx "username" in
  if (len username =? 0)%N then mret (answer [] (CLIENT_ERROR E) (INVALID_PARAMS E) NoData)
  else
    user <- GetUserInfoByUserName username;;
    if u_Id user =? 0 then mret (answer [] (SERVICE_ERROR E) (USER_NOT_EXIST E) NoData)
    else mret (answer [] (SUCCESS E) (SUCCESS E) (DataUser user)).

Definition GetUserAllUsername (ctx : Context) : M Response :=
  all <- GetAllUserName;;
  mret (answer [] (SUCCESS E) (SUCCESS E) (DataNames (u_Username <$> all))).

(** ** Deletion, images and status *)

Definition DeleteUser (ctx : Context) : M Response :=
  let id := param ctx "id" in
  deleted <- DeleteUserById id_matches users id;;
  match deleted with
  | Err e =>
     if errors_Is e ErrLastAdmin
     then mret (mkResponse StatusConflict [] StatusConflict "at least one administrator must remain" NoData)
     else if errors_Is e ErrUserNotFound
     then mret (mkResponse StatusNotFound [] StatusNotFound (GetMsg E (USER_NOT_EXIST E)) NoData)
     else mret (serviceFailure [])
  | Ok _ => mret (answer [] (SUCCESS E) (SUCCESS E) (DataID id))
  end.

Definition DeleteUserAll (ctx : Context) : M Response :=
  mret (mkResponse StatusConflict [] StatusConflict "bulk user deletion is disabled" NoData).

Definition legacyImageEndpointGone (ctx : Context) : M Response :=
  mret (mkResponse StatusGone nosniff StatusGone "legacy path-based image endpoints are disabled" NoData).

Definition PutUserAvatar := legacyImageEndpointGone.
Definition GetUserAvatar := legacyImageEndpointGone.
Definition PutUserImage := legacyImageEndpointGone.
Definition PostUserUploadImage := legacyImageEndpointGone.
Definition GetUserImage := legacyImageEndpointGone.
Definition DeleteUserImage := legacyImageEndpointGone.

(** [getUserStatus]; [reader] is the answer of [GetInitializationState]. *)
Definition getUserStatus (reader : res State) (ctx : Context) : M Response :=
  mret match reader with
       | Err _ => answer noStore StatusServiceUnavailable (SERVICE_ERROR E) NoData
       | Ok state => answer noStore (SUCCESS E) (SUCCESS E) (DataInitialized (Initialized state))
       end.

Definition GetUserStatus (u : userService) (ctx : Context) : M Response :=
  getUserStatus (GetInitializationState u) ctx.

(** ** Sessions *)

Definition noSessionResponse : Response := answer noStore StatusUnauthorized (VERIFICATION_FAILURE E) NoData.

Definition PostUserLogout (ctx : Context) : M Response :=
  match cx_Session ctx with
  | None => mret noSessionResponse
  | Some a =>
     failed <- LogoutSession users (as_UserID a) (as_TokenID a) (as_Expires a);;
     match failed with
     | Some _ => mret (serviceFailure noStore)
     | None =>
        _ <- LogCredentialEvent next_audit_id users (as_UserID a) CredentialEventLogout true "logout" "";;
        mret (answer noStore (SUCCESS E) (SUCCESS E) NoData)
     end
  end.

Definition PostUserLogoutAll (ctx : Context) : M Response :=
  match cx_Session ctx with
  | None => mret noSessionResponse
  | Some a =>
     done <- LogoutAllSessions users (as_UserID a);;
     match done with
     | Err _ => mret (serviceFailure noStore)
     | Ok _ =>
        _ <- LogCredentialEvent next_audit_id users (as_UserID a) CredentialEventLogoutAll true "logout-all" "";;
        mret (answer noStore (SUCCESS E) (SUCCESS E) NoData)
     end
  end.

(** The events of [actor], at most 100. *)
Definition listEvents (actor : Z) : M Response :=
  events <- ListCredentialEvents users actor 100;;
  mret (answer noStore (SUCCESS E) (SUCCESS E) (DataEvents events)).

Definition GetCredentialEvents (ctx : Context) : M Response :=
  match cx_Session ctx with
  | None => mret noSessionResponse
  | Some a =>
     let requested := query_param ctx "user_id" in
     if bool_decide (requested = "") then listEvents (as_UserID a)
     else match Atoi requested with
     | None => mret (answer noStore (CLIENT_ERROR E) (INVALID_PARAMS E) NoData)
     | Some target =>
        if target <? 0 then mret (answer noStore (CLIENT_ERROR E) (INVALID_PARAMS E) NoData)
        else if (target =? 0) || negb (target =? as_UserID a) then
          current <- GetUserInfoById id_matches (Itoa (as_UserID a));;
          if negb (bool_decide (u_Role current = "admin"))
          then mret (answer noStore StatusForbidden (CLIENT_ERROR E) NoData)
          else listEvents target
        else listEvents target
     end
  end.
End Handlers.
