(* ===== verification/Boundary.v ===== *)
(** * What the v1 API guarantees

    Theorems about the handlers of src/route/v1/user.go: logging in, guessing
    passwords, acting on one's own account, reading the audit log. *)

From stdpp Require Import prelude strings gmap sorting.
From Stdlib Require Import ZArith Lia Ascii.
From S2P Require Import Prelude GoStrings Password FileSystem Tables Store Guarantee AuthSecurity Bootstrap Sha256 Sessions Rotation Lockout Retention Issue Users Accounts Administration Middleware Handlers.

Local Open Scope Z_scope.
Local Open Scope m_scope.

(** ** Steps the handlers take *)

Lemma AuthenticateUser_flows IDKey username plaintext :
  within solo anyhow (AuthenticateUser IDKey username plaintext).
Proof.
  unfold AuthenticateUser, consumeUnknown, findUserWhere, upgradeVerifier, hashPassword, swapPassword, findUser,
    verifyPassword. by within_solve.
Qed.

Lemma store_ok_users db k u u' :
  store_ok db → o_users db !! k = Some u → u_Id u' = u_Id u → store_ok (with_users <[u_Id u := u']> db).
Proof.
  intros [[Hu Hs Ha Hr] Hd Hv] Hk Hid. split; try done. split; try done.
  intros i v. simpl. rewrite lookup_insert_Some. intros [[<- <-]|[_ H]]; [done|by apply Hu].
Qed.

(** A wrong password is reported as such. *)
Lemma AuthenticateUser_wrong IDKey username plaintext w :
  alone w → faultless w → (∀ row, selects (w_db w) username row → ¬ accepts IDKey (u_Password row) plaintext) →
  post (AuthenticateUser IDKey username plaintext) w (λ r w',
    r = Err ErrInvalidCredentials ∧ w_db w' = w_db w).
Proof.
  intros Hw Hf Hwrong. unfold AuthenticateUser, consumeUnknown, spend. m_step; [by m_step; unfold post|].
  m_step. unfold findUserWhere. m_step; [done|].
  destruct (first_where _ _ _) as [user|] eqn:Hrow; simpl; [|by m_step; unfold post].
  m_step. apply post_verifyPassword. intros w2 call Hd2 _ _ _ _ _ _ _.
  destruct (fst (Verify IDKey (u_Password user) plaintext)) as [e|] eqn:Hv; [|by destruct (Hwrong user Hrow)].
  apply Verify_errors in Hv as [-> | ->]; simpl; m_step; (split; [done|congruence]).
Qed.

Lemma RecordLoginSuccess_spec u key w : alone w → store_ok (w_db w) →
  post (RecordLoginSuccess u key) w (λ _ w', calm w w' ∧ store_ok (w_db w') ∧
    o_users (w_db w') = o_users (w_db w)).
Proof.
  intros Hw Hok. unfold RecordLoginSuccess. m_step; [m_step; eauto with store|]. do 2 m_step; m_step.
  - by rewrite H0.
  - rewrite H0. split_and!; [done|by apply store_ok_attempts_delete|done].
Qed.

#[export] Instance anything_guarantee : Guarantee anything anyhow.
Proof. split; [split|]; done. Qed.

Lemma LogCredentialEvent_clock next u a t b src d w :
  post (LogCredentialEvent next u a t b src d) w (λ _ w', w_clock w ≤ w_clock w').
Proof.
  assert (within anything anyhow (LogCredentialEvent next u a t b src d)) as H.
  { unfold LogCredentialEvent, appendEvent. by within_solve. }
  eapply post_mono; [apply H, rely_anything|]. by intros r w' [].
Qed.

(** ** Logging in *)

Section Login.
Context (E : CommonErr) (J : JWT SessionClaims)
        (decode : string → option (SigningMethod * SessionClaims))
        (genuine : PublicKey → string → Prop) `{!JWTSpec J decode genuine}
        (IDKey : string → string → N → N → N → N → string) (sized : IDKey_sized IDKey)
        (next : list CredentialEventDBModel → Z)
        (tie : RevokedAccessTokenDBModel → RevokedAccessTokenDBModel → bool)
        (users : option userService)
        (decodeLogin : string → option (string * string)).

(** Both tokens carry the identity of [row]. *)
Definition issued_to (row : UserDBModel) (tok : VerifyInformation) : Prop :=
  ∃ sid, carries decode (vi_AccessToken tok) AccessTokenIssuer sid row ∧
         carries decode (vi_RefreshToken tok) RefreshTokenIssuer sid row.

Lemma loginAccepted_spec key now user w :
  alone w → store_ok (w_db w) → 0 ≤ w_clock w →
  post (loginAccepted E J next tie users key now user) w (λ r w',
    match rsp_Data r with
    | DataLogin tok shown => shown = hide_password user ∧ ∃ cur,
        o_users (w_db w) !! u_Id user = Some cur ∧
        (datable (w_clock w') → encodableUser cur → issued_to cur tok)
    | NoData => True
    | _ => False
    end).
Proof.
  intros Hw Hok H0. unfold loginAccepted. m_step. m_use RecordLoginSuccess_spec as r w1 (Hc1 & Hok1 & Hu1).
  m_step. eapply post_mono; [apply (login_spec J decode genuine tie users (u_Id user) now w1);
    [eauto with store|done|destruct Hc1; lia]|]. cbv beta.
  intros r1 w2 Hr. destruct r1 as [issued|e]; [|by m_step].
  destruct (Hr issued eq_refl) as (H2 & Hcur & _ & Htok). m_step.
  eapply post_mono; [apply LogCredentialEvent_clock|]. cbv beta. intros _ w3 H3. do 3 m_step. simpl. split; [done|].
  exists (is_User issued). rewrite <- Hu1. split; [done|]. intros Hdate Henc. exists (is_SessionID issued).
  apply Htok; [|done]. by eapply datable_le.
Qed.

Lemma loginRejected_data key now w :
  post (loginRejected E next users key now) w (λ r _, rsp_Data r = NoData).
Proof.
  unfold loginRejected, post, mbind. destruct (RecordLoginFailure users key now w) as [[[[] wait]|e] w1]; [| |done].
  all: match goal with |- context [LogCredentialEvent ?a ?b ?c ?d ?e ?f ?g ?h] =>
    by destruct (LogCredentialEvent a b c d e f g h) end.
Qed.

(** After an authentication the account of that name is still there, with the same
    identity. *)
Lemma same_account plaintext username row u w w2 :
  store_ok (w_db w) → selects (w_db w) username row →
  (if NeedsRehash (u_Password row)
   then ∃ now h, accepts IDKey h plaintext ∧ NeedsRehash h = false ∧ u = with_verifier h row ∧
     w_db w2 = with_users <[u_Id row := set_password now h row]> (w_db w)
   else u = row ∧ w_db w2 = w_db w) →
  u_Id u = u_Id row ∧ u_Role u = u_Role row ∧
  store_ok (w_db w2) ∧ ∃ cur, o_users (w_db w2) !! u_Id row = Some cur ∧
    u_Id cur = u_Id row ∧ u_Username cur = u_Username row ∧ u_TokenVersion cur = u_TokenVersion row.
Proof.
  intros Hok Hsel Hdb. apply first_where_Some in Hsel as (k & Hk & _).
  pose proof (users_keyed _ (ok_keys _ Hok) _ _ Hk) as <-.
  destruct (NeedsRehash (u_Password row)); [destruct Hdb as (now & h & _ & _ & -> & ->)|destruct Hdb as [-> ->]].
  2:{ split_and!; try done. by exists row. }
  split_and!; [done|done|by eapply store_ok_users|]. eexists. simpl. by rewrite lookup_insert_eq.
Qed.

(** What a login response that carries tokens means. *)
Definition logged_in (allowed : bool) (ctx : Context) (w w' : World) (tok : VerifyInformation)
    (shown : UserDBModel) : Prop :=
  ∃ username password row, allowed = true ∧
    bounded_body maxLoginRequestBodyBytes decodeLogin ctx = Some (username, password) ∧
    selects (w_db w) username row ∧ accepts IDKey (u_Password row) password ∧
    u_Id shown = u_Id row ∧ u_Role shown = u_Role row ∧ u_Password shown = "" ∧
    (datable (w_clock w') → encodableUser row → issued_to row tok).

Lemma PostUserLogin_spec allowed ctx w :
  alone w → store_ok (w_db w) → 0 ≤ w_clock w →
  post (PostUserLogin E J IDKey next tie users decodeLogin allowed ctx) w (λ r w',
    match rsp_Data r with
    | DataLogin tok shown => logged_in allowed ctx w w' tok shown
    | NoData => True
    | _ => False
    end).
Proof.
  intros Hw Hok H0. unfold PostUserLogin. destruct allowed; cbn [negb]; [|by m_step].
  destruct (bounded_body _ _ ctx) as [[username password]|] eqn:Hb; [|by m_step].
  m_step; [by m_step|]. do 3 m_step. m_use CheckLoginLockout_calm as lock w1 [Hc1 Hd1].
  m_step; [by m_step|]. m_step.
  pose proof (AuthenticateUser_solo IDKey sized username password w1 (calm_alone _ _ Hc1)) as Hs.
  pose proof (AuthenticateUser_flows IDKey username password w1 (calm_alone _ _ Hc1)) as Hfl.
  unfold post in *. destruct (AuthenticateUser IDKey username password w1) as [r w2]. simpl in *.
  rewrite Hd1 in Hs. specialize (Hs (ok_keys _ Hok)). destruct r as [user|e].
  2:{ destruct (errors_Is e ErrInvalidCredentials); [|by m_step].
      eapply post_mono; [apply loginRejected_data|]. by intros r w3 ->. }
  destruct Hs as (row & Hsel & Hacc & Hdb).
  destruct (same_account _ _ _ _ w w2 Hok Hsel Hdb) as (Hid & Hrole & Hok2 & cur & Hcur & Hsame).
  destruct Hfl as [Hw2 _ _ Hcl _]. eapply post_mono; [apply loginAccepted_spec; [done|done|destruct Hc1; lia]|].
  cbv beta. intros r w3 Hr. destruct (rsp_Data r) as [|tok shown| | | | | | | |]; try done.
  destruct Hr as [-> (cur' & Hcur' & Htok)]. rewrite Hid in Hcur'. replace cur' with cur in * by congruence.
  exists username, password, row. split_and!; try done.
  destruct Hsame as (E1 & E2 & E3). intros Hdate [? ? ?]. destruct Htok as (sid & Ha & Hr); [done|split; congruence|].
  exists sid. unfold carries in *. by rewrite <- E1, <- E2, <- E3.
Qed.

(** ** Locked names and failing guesses *)

(** On a working store a locked name is turned away before the password is looked
    at. *)
Lemma PostUserLogin_locked ctx username password a wait w :
  alone w → faultless w → store_ok (w_db w) → unavailable users = false →
  bounded_body maxLoginRequestBodyBytes decodeLogin ctx = Some (username, password) →
  username ≠ "" → password ≠ "" →
  o_login_attempts (w_db w) !! LoginAttemptKey "login" username = Some a → lockedAt a (w_clock w) = Some wait →
  post (PostUserLogin E J IDKey next tie users decodeLogin true ctx) w (λ r w',
    calm w w' ∧ r = loginRateLimited E noStore wait ∧ w_db w' = w_db w).
Proof.
  intros Hw Hf Hok Hu Hb Hun Hpn Ha Hl. unfold PostUserLogin. cbn [negb]. rewrite Hb.
  m_step.
  { apply orb_prop in Heqb as [H%N.eqb_eq|H%N.eqb_eq]; [by destruct username|by destruct password]. }
  do 3 m_step. m_use CheckLoginLockout_spec as lock w1 (Hc1 & Hd1 & Hlock).
  rewrite Ha, Hl in Hlock. subst lock. simpl. m_step. by split_and!.
Qed.

(** A failing guess at an open name is charged: besides the audit log, exactly the
    budget row of the name makes one step. *)
Lemma PostUserLogin_charged ctx username password w :
  alone w → faultless w → store_ok (w_db w) → unavailable users = false →
  bounded_body maxLoginRequestBodyBytes decodeLogin ctx = Some (username, password) →
  username ≠ "" → password ≠ "" →
  (∀ row, selects (w_db w) username row → ¬ accepts IDKey (u_Password row) password) →
  let key := LoginAttemptKey "login" username in
  let row := o_login_attempts (w_db w) !! key in
  open_at row (w_clock w) →
  post (PostUserLogin E J IDKey next tie users decodeLogin true ctx) w (λ r w',
    w_clock w ≤ w_clock w' ∧ rsp_Data r = NoData ∧
    ∃ f, w_db w' = with_audit f (with_attempts <[key := (budget_step row key (w_clock w)).1]> (w_db w))).
Proof.
  intros Hw Hf Hok Hu Hb Hun Hpn Hwrong key row Hopen. unfold PostUserLogin. cbn [negb]. rewrite Hb.
  m_step.
  { apply orb_prop in Heqb as [H%N.eqb_eq|H%N.eqb_eq]; [by destruct username|by destruct password]. }
  do 3 m_step. m_use CheckLoginLockout_spec as lock w1 (Hc1 & Hd1 & Hlock). fold key row in Hlock.
  assert (lock = (false, 0)) as -> by (rewrite Hlock; destruct row as [a|]; [by rewrite (Hopen a eq_refl)|done]).
  cbn [fst]. m_step. pose proof (AuthenticateUser_flows IDKey username password w1 (calm_alone _ _ Hc1)) as Hfl.
  pose proof (AuthenticateUser_wrong IDKey username password w1) as Hs. rewrite Hd1 in Hs.
  eapply post_mono; [eapply post_and; [exact Hfl|apply Hs; [eauto with store|by apply (calm_faultless _ _ Hc1)|done]]|].
  cbv beta. intros r w2 ([Hw2 Hf2 _ Hcl2 _] & -> & Hd2). specialize (Hf2 (calm_faultless _ _ Hc1 Hf)).
  pose proof (calm_clock _ _ Hc1). change (errors_Is _ _) with true. unfold loginRejected. m_step.
  eapply post_mono; [apply (RecordLoginFailure_spec users key); rewrite ?Hd2; done|].
  cbv beta. intros r w3 [Hc3 Hr3]. destruct r as [[locked wait]|e]; [|by destruct Hr3].
  rewrite Hd2 in Hr3. destruct Hr3 as [_ Hd3]. pose proof (calm_clock _ _ Hc3).
  m_step; m_step; m_use LogCredentialEvent_audit as x w4 (Hc4 & f & Hd4); pose proof (calm_clock _ _ Hc4);
    m_step; (split_and!; [lia|done|]); exists f; by rewrite Hd4, Hd3.
Qed.

(** ** Guessing at the endpoint *)

(** [guessed key w ts]: the endpoint, from [w] on, handles failing guesses at the
    names of [key], begun at the times [ts], one after the other, and evaluates each
    of them: it derives a key from the guessed password. No statement of a request
    fails and nothing runs beside it; between two requests time passes and anything
    may happen to the database except to the budget row of [key]. *)
Inductive guessed (key : string) : World → list Z → Prop :=
| guessed_none w : guessed key w []
| guessed_next w w2 ctx username password ts :
    alone w → faultless w → store_ok (w_db w) →
    bounded_body maxLoginRequestBodyBytes decodeLogin ctx = Some (username, password) →
    username ≠ "" → password ≠ "" → LoginAttemptKey "login" username = key →
    (∀ row, selects (w_db w) username row → ¬ accepts IDKey (u_Password row) password) →
    let w1 := snd (PostUserLogin E J IDKey next tie users decodeLogin true ctx w) in
    w_derived w1 ≠ w_derived w →
    w_clock w1 ≤ w_clock w2 →
    o_login_attempts (w_db w2) !! key = o_login_attempts (w_db w1) !! key →
    guessed key w2 ts →
    guessed key w (w_clock w :: ts).

(** Only open names are evaluated, and every evaluation is charged. *)
Lemma evaluated_guess ctx username password w :
  alone w → faultless w → store_ok (w_db w) → unavailable users = false →
  bounded_body maxLoginRequestBodyBytes decodeLogin ctx = Some (username, password) →
  username ≠ "" → password ≠ "" →
  (∀ row, selects (w_db w) username row → ¬ accepts IDKey (u_Password row) password) →
  let key := LoginAttemptKey "login" username in
  let row := o_login_attempts (w_db w) !! key in
  let w1 := snd (PostUserLogin E J IDKey next tie users decodeLogin true ctx w) in
  w_derived w1 ≠ w_derived w →
  open_at row (w_clock w) ∧ w_clock w ≤ w_clock w1 ∧
  o_login_attempts (w_db w1) !! key = Some (budget_step row key (w_clock w)).1.
Proof.
  intros Hw Hf Hok Hu Hb Hun Hpn Hwrong key row w1 Hev.
  assert (open_at row (w_clock w)) as Hopen.
  { intros a Ha. destruct (lockedAt a (w_clock w)) as [wait|] eqn:El; [exfalso|done]. apply Hev.
    destruct (PostUserLogin_locked ctx username password a wait w) as (Hc & _ & _); try done. by apply calm_derived. }
  destruct (PostUserLogin_charged ctx username password w) as (Hcl & _ & f & Hd); try done.
  fold w1 in Hcl, Hd. rewrite Hd. simpl. by rewrite lookup_insert_eq.
Qed.

Lemma guessed_evaluated key w ts : unavailable users = false →
  guessed key w ts →
  evaluated (o_login_attempts (w_db w) !! key) key ts ∧ StronglySorted Z.le ts ∧ Forall (λ t, w_clock w ≤ t) ts.
Proof.
  intros Hu. induction 1 as [|w w2 ctx username password ts Hw Hf Hok Hb Hun Hpn <- Hwrong w1 Hev Hcl Hrow _ IH];
    [by repeat constructor|]. destruct IH as (He & Hs & Hle).
  destruct (evaluated_guess ctx username password w) as (Hopen & Hcl1 & Hstep); try done. fold w1 in Hcl1, Hstep.
  rewrite Hrow, Hstep in He.
  assert (Forall (λ t, w_clock w ≤ t) ts) by (eapply Forall_impl; [exact Hle|simpl; lia]).
  split_and!; [by split|by constructor|by constructor].
Qed.
End Login.

(** C14. Guessing at the login endpoint is bounded. Take failing guesses at names
    of one key that the endpoint handles one after the other, on a store whose
    statements succeed, with whatever else happening between them as long as the
    budget row of the key stays (no login of that name succeeds), and count those
    it evaluates, that is derives a key for. Nine of them take at least the lock's
    quarter of an hour: the last comes that much after the first, so no shorter
    period evaluates more than eight. Requests handled at the same time can all
    pass the check before one of them is recorded, and are not covered. *)
Theorem guesses_bounded (E : CommonErr) (J : JWT SessionClaims)
    (IDKey : string → string → N → N → N → N → string) (next : list CredentialEventDBModel → Z)
    (tie : RevokedAccessTokenDBModel → RevokedAccessTokenDBModel → bool) (users : option userService)
    (decodeLogin : string → option (string * string)) (key : string) (t : Z) (ts : list Z) (w : World) :
  unavailable users = false → row_ok (o_login_attempts (w_db w) !! key) t → 0 < t → (8 ≤ length ts)%nat →
  guessed E J IDKey next tie users decodeLogin key w (t :: ts) →
  ∃ last, list.last ts = Some last ∧ t + 15 * minute ≤ last.
Proof.
  intros Hu Hrow Ht Hlen Hg. destruct (guessed_evaluated _ _ _ _ _ _ _ key w (t :: ts) Hu Hg) as (He & Hs & _).
  assert (Sorted Z.le (t :: ts)) as Hsort by by apply StronglySorted_Sorted.
  pose proof (guesses_spread _ key t ts Hrow Ht Hsort Hlen He) as Hlater.
  apply StronglySorted_inv in Hs as [Hs _]. exact (later_last t ts Hs Hlater).
Qed.

(** The budget row of a name that is not locked after a failure at [now]: the first
    of an hour, or one more, the fifth of which locks for a quarter of an hour. *)
Definition charged (before : option LoginAttemptDBModel) (key : string) (now : Z) : LoginAttemptDBModel :=
  let a := default (mkAttempt key 0 now None) before in
  let fresh := (la_WindowStartedAt a =? 0) || (hour <? time_Sub now (la_WindowStartedAt a)) in
  let failures := if fresh then 1 else la_Failures a + 1 in
  mkAttempt (la_Key a) failures (if fresh then now else la_WindowStartedAt a)
    (if 5 <=? failures then Some (now + 15 * minute) else if fresh then None else la_LockedUntil a).

Lemma charged_step before key now : open_at before now → (budget_step before key now).1 = charged before key now.
Proof.
  intros Hopen. unfold budget_step, charged. cbv zeta. set (a := default (mkAttempt key 0 now None) before).
  assert (lockedAt a now = None) as -> by (unfold a; destruct before as [a'|]; [by apply Hopen|done]).
  unfold countFailure, IsZero, loginLockoutWindow, loginFailureLimit, loginLockoutLength. cbv zeta.
  destruct (_ || _); cbn [la_Failures la_Key la_WindowStartedAt la_LockedUntil]; [done|]. by destruct (5 <=? la_Failures a + 1).
Qed.

(** C24. The login endpoint, for a request on its own. A response carries tokens only
    when the request was within its bounds and the verifier of the account it names
    accepts the password; the tokens then carry that account's identity, and the profile beside
    them has no verifier; this holds whatever statements fail. What the endpoint
    does about locks it does on a store it can read and write, as a failing lookup
    counts as no lock: when no statement fails, a locked name is answered with the
    remaining time and without tokens, no key is derived and the database stays as
    it is; and a failing guess at a name that is not locked gets no tokens and
    costs exactly one failure of the budget of that name (the fifth of an hour locks it
    for a quarter of an hour), nothing else of the database changing but the audit
    log. *)
Theorem login_endpoint (E : CommonErr) (J : JWT SessionClaims)
    (decode : string → option (SigningMethod * SessionClaims)) (genuine : PublicKey → string → Prop)
    (IDKey : string → string → N → N → N → N → string) (next : list CredentialEventDBModel → Z)
    (tie : RevokedAccessTokenDBModel → RevokedAccessTokenDBModel → bool) (users : option userService)
    (decodeLogin : string → option (string * string)) (allowed : bool) (ctx : Context) (w : World) :
  JWTSpec J decode genuine → IDKey_sized IDKey → alone w → store_ok (w_db w) → 0 ≤ w_clock w →
  let run := PostUserLogin E J IDKey next tie users decodeLogin allowed ctx w in
  let w' := snd run in
  match rsp_Data (fst run) with
  | DataLogin tok shown => logged_in decode IDKey decodeLogin allowed ctx w w' tok shown
  | NoData => True
  | _ => False
  end ∧
  ∀ username password, allowed = true → faultless w → unavailable users = false →
    bounded_body maxLoginRequestBodyBytes decodeLogin ctx = Some (username, password) →
    username ≠ "" → password ≠ "" →
    let key := LoginAttemptKey "login" username in
    let before := o_login_attempts (w_db w) !! key in
    (∀ a until, before = Some a → la_LockedUntil a = Some until → w_clock w < until →
       fst run = loginRateLimited E noStore (time_Sub until (w_clock w)) ∧ rsp_Data (fst run) = NoData ∧
       w_db w' = w_db w ∧ w_derived w' = w_derived w) ∧
    ((∀ a until, before = Some a → la_LockedUntil a = Some until → until ≤ w_clock w) →
     (∀ row, selects (w_db w) username row → ¬ accepts IDKey (u_Password row) password) →
       rsp_Data (fst run) = NoData ∧
       ∃ f, w_db w' = with_audit f (with_attempts <[key := charged before key (w_clock w)]> (w_db w))).
Proof.
  intros HJ Hs Hw Hok H0 run w'. split.
  - exact (PostUserLogin_spec E J decode genuine IDKey Hs next tie users decodeLogin allowed ctx w Hw Hok H0).
  - intros username password Ha Hf Hu Hb Hun Hpn key before. subst run w'. rewrite Ha. split.
    + intros a until Hrow Hu' Hl.
      assert (lockedAt a (w_clock w) = Some (time_Sub until (w_clock w))) as Hat
        by (unfold lockedAt; by rewrite Hu', (proj2 (Z.ltb_lt _ _) Hl)).
      destruct (PostUserLogin_locked E J IDKey next tie users decodeLogin ctx username password a (time_Sub until (w_clock w)) w)
        as (Hc & Hr & Hd); try done. rewrite Hr. split_and!; try done. by apply calm_derived.
    + intros Hfree Hwrong.
      assert (open_at before (w_clock w)) as Hopen by (intros a Hrow; apply lockedAt_None; intros t; by apply Hfree).
      rewrite <- charged_step by done.
      by destruct (PostUserLogin_charged E J IDKey next tie users decodeLogin ctx username password w) as (_ & H).
Qed.

(** Concrete codes, and a decoder for bodies of the shape name:password. *)
Definition sampleCodes : CommonErr :=
  mkCommonErr 200 400 500 4000 429 20001 10000 10001 10002 10003 10004 401 (λ _, "").

Definition splitLogin (body : string) : option (string * string) :=
  match split_on ":" body with [a; b] => Some (a, b) | _ => None end.

Definition loginRequest (body : string) : Context :=
  mkContext (Some (mkRequest 1 [] "" (λ _, "") (λ _, "") body)) None.

Abbreviation bobAsks body := (PostUserLogin sampleCodes ToyJWT.jwt toyIDKey countIDs byJTI (Some liveService) splitLogin true
  (loginRequest body)).

(** Enough random bytes for a new salt and a session. *)
Definition entropy : string := sixteen +:+ sixteen +:+ sixteen +:+ sixteen.

Lemma bobDatabase_store : store_ok bobDatabase.
Proof.
  split; [apply bobDatabase_ok|intros k1 k2 s1 s2 H; discriminate H|intros k s H; discriminate H].
Qed.

Lemma bob_guess db row : o_users db = o_users bobDatabase →
  selects db "bob" row → ¬ accepts toyIDKey (u_Password row) "guess".
Proof.
  unfold selects. intros -> Hrow. assert (Some row = Some bob) as Er by (rewrite <- Hrow; vm_compute; reflexivity).
  injection Er as ->. vm_compute. discriminate.
Qed.

Definition bobLocked : Database :=
  with_attempts <["login:bob" := mkAttempt "login:bob" 5 (2000 * hour - minute) (Some (2001 * hour))]> bobDatabase.

Lemma bobLocked_store : store_ok bobLocked.
Proof. exact (store_ok_attempts_insert (mkAttempt "login:bob" 5 (2000 * hour - minute) (Some (2001 * hour))) _ bobDatabase_store). Qed.

Lemma login_endpoint_witness :
  (∃ tok shown, rsp_Data (fst (bobAsks "bob:correct horse" (quietWorld bobDatabase entropy))) = DataLogin tok shown ∧
     u_Id shown = 8 ∧ u_Password shown = "") ∧
  rsp_Data (fst (bobAsks "bob:guess" (quietWorld bobDatabase entropy))) = NoData ∧
  w_db (snd (bobAsks "bob:correct horse" (quietWorld bobLocked entropy))) = bobLocked.
Proof.
  assert (∀ db body, store_ok db → _) as H by (intros db body Hdb;
    exact (login_endpoint sampleCodes ToyJWT.jwt ToyJWT.decode ToyJWT.genuine toyIDKey countIDs byJTI
      (Some liveService) splitLogin true (loginRequest body) (quietWorld db entropy)
      ToyJWT.jwt_spec (λ pw s t m p k, toyIDKey_length pw s t m p k) (quietWorld_alone _ _) Hdb
      ltac:(discriminate))). cbv zeta in H. split_and!.
  - destruct (H bobDatabase "bob:correct horse" bobDatabase_store) as [Hd _].
    destruct (rsp_Data _) as [|tok shown| | | | | | | |] eqn:Ed; [vm_compute in Ed; discriminate Ed| |exact (False_ind _ Hd)..].
    destruct Hd as (username & password & row & _ & Hb & Hsel & _ & Hid & _ & Hp & _).
    exists tok, shown. split; [reflexivity|]. split; [|exact Hp]. rewrite Hid.
    assert (Some (username, password) = Some ("bob", "correct horse")) as Eb by (rewrite <- Hb; vm_compute; reflexivity).
    injection Eb as -> ->. assert (Some row = Some bob) as Er by (rewrite <- Hsel; vm_compute; reflexivity).
    injection Er as ->. reflexivity.
  - destruct (H bobDatabase "bob:guess" bobDatabase_store) as [_ Hg].
    destruct (Hg "bob" "guess" eq_refl (quietWorld_faultless _ _) eq_refl ltac:(vm_compute; reflexivity)
      ltac:(discriminate) ltac:(discriminate)) as (_ & Hopen).
    apply Hopen; [intros a t Ha; discriminate Ha|]. intros row. by apply bob_guess.
  - destruct (H bobLocked "bob:correct horse" bobLocked_store) as [_ Hg].
    destruct (Hg "bob" "correct horse" eq_refl (quietWorld_faultless _ _) eq_refl ltac:(vm_compute; reflexivity)
      ltac:(discriminate) ltac:(discriminate)) as (Hl & _).
    eapply Hl; [vm_compute; reflexivity|reflexivity|vm_compute; reflexivity].
Defined.

(** The lookup of the lock fails open: with the first statement failing, a locked
    account is let in. *)
Definition failingFirst (db : Database) : World :=
  mkWorld db emptyFS (2000 * hour)
    (λ n, match n with O => mkSched id id (Some StoreFailure) 0 | _ => quietEvent end) false entropy [].

Lemma lockout_fails_open :
  rsp_Data (fst (bobAsks "bob:correct horse" (quietWorld bobLocked entropy))) = NoData ∧
  rsp_Data (fst (bobAsks "bob:correct horse" (failingFirst bobLocked))) ≠ NoData.
Proof. split; vm_compute; [reflexivity|discriminate]. Qed.

(** One guess after the other at the given times. *)
Definition at_time (t : Z) (w : World) : World :=
  mkWorld (w_db w) (w_fs w) t (λ _, quietEvent) false sixteen [].

Fixpoint guessAll (w : World) (ts : list Z) : bool :=
  match ts with
  | [] => true
  | t :: ts' =>
     let w1 := snd (bobAsks "bob:guess" (at_time t w)) in
     (w_clock w <=? t) && negb (bool_decide (length (w_derived w1) = 0%nat)) && guessAll w1 ts'
  end.

Lemma guessAll_guessed t ts : ∀ w,
  store_ok (w_db w) → o_users (w_db w) = o_users bobDatabase → guessAll w (t :: ts) = true →
  guessed sampleCodes ToyJWT.jwt toyIDKey countIDs byJTI (Some liveService) splitLogin "login:bob" (at_time t w) (t :: ts).
Proof.
  revert t. induction ts as [|t' ts IH]; intros t w Hok Hus Hg.
  all: cbn [guessAll] in Hg; apply andb_prop in Hg as [[Hle Hev%negb_true_iff%bool_decide_eq_false]%andb_prop Hg].
  all: assert (alone (at_time t w)) as Hw by (by intros n).
  all: assert (faultless (at_time t w)) as Hf by done.
  all: assert (bounded_body maxLoginRequestBodyBytes splitLogin (loginRequest "bob:guess") = Some ("bob", "guess")) as Hb
    by (vm_compute; reflexivity).
  all: assert (∀ row, selects (w_db (at_time t w)) "bob" row → ¬ accepts toyIDKey (u_Password row) "guess") as Hwrong
    by (intros row; by apply bob_guess).
  all: set (w1 := snd (bobAsks "bob:guess" (at_time t w))) in *.
  all: assert (w_derived w1 ≠ w_derived (at_time t w)) as Hd by (intros E; apply Hev; by rewrite E).
  - change [t] with [w_clock (at_time t w)].
    by eapply (guessed_next _ _ _ _ _ _ _ _ _ w1 (loginRequest "bob:guess") "bob" "guess"); try done; constructor.
  - apply andb_prop in Hg as Hg'. destruct Hg' as [[Hle'%Z.leb_le _]%andb_prop _].
    destruct (evaluated_guess sampleCodes ToyJWT.jwt toyIDKey countIDs byJTI (Some liveService) splitLogin
      (loginRequest "bob:guess") "bob" "guess" (at_time t w)) as (Hopen & _ & _); try done.
    destruct (PostUserLogin_charged sampleCodes ToyJWT.jwt toyIDKey countIDs byJTI (Some liveService) splitLogin
      (loginRequest "bob:guess") "bob" "guess" (at_time t w)) as (_ & _ & f & Hdb); try done. fold w1 in Hdb.
    change (t :: t' :: ts) with (w_clock (at_time t w) :: t' :: ts).
    eapply (guessed_next _ _ _ _ _ _ _ _ _ (at_time t' w1) (loginRequest "bob:guess") "bob" "guess"); try done.
    apply IH; [|by rewrite Hdb|done]. rewrite Hdb. simpl.
    assert (la_Key (budget_step (o_login_attempts (w_db w) !! "login:bob") "login:bob" t).1 = "login:bob") as Hk.
    { apply budget_step_key. intros a Ha. by apply (attempts_keyed _ (ok_keys _ Hok)). }
    apply store_ok_audit. rewrite <- Hk at 1. by apply store_ok_attempts_insert.
Qed.

(** Four quick guesses, then one more whenever the lock has run out. *)
Definition patientGuesser : list Z :=
  [2000 * hour + 1; 2000 * hour + 2; 2000 * hour + 3; 2000 * hour + 4; 2001 * hour; 2002 * hour;
   2003 * hour; 2004 * hour].

Lemma guesses_bounded_witness :
  ∃ last, list.last patientGuesser = Some last ∧ 2000 * hour + 15 * minute ≤ last.
Proof.
  apply (guesses_bounded sampleCodes ToyJWT.jwt toyIDKey countIDs byJTI (Some liveService) splitLogin "login:bob"
    (2000 * hour) patientGuesser (at_time (2000 * hour) (quietWorld bobDatabase ""))).
  - reflexivity.
  - intros a H. discriminate H.
  - reflexivity.
  - simpl. lia.
  - apply guessAll_guessed; [apply bobDatabase_store|reflexivity|vm_compute; reflexivity].
Defined.

(** ** Acting on one's own account *)

(** What a request of user [n] may do to the database: touch the row of [n] and
    the sessions of [n], and never its role. *)
Record own_only (n : Z) (db db' : Database) : Prop := {
  own_keys : keys_agree db → keys_agree db';
  own_users : keys_agree db → ∀ k, k ≠ n → o_users db' !! k = o_users db !! k;
  own_role : keys_agree db → u_Role <$> o_users db' !! n = u_Role <$> o_users db !! n;
  own_sessions : ∀ k s, rs_UserID s ≠ n →
    (o_refresh_sessions db' !! k = Some s ↔ o_refresh_sessions db !! k = Some s);
}.

#[export] Instance own_only_preorder n : PreOrder (own_only n).
Proof.
  split; [by intros db; split|]. intros a b c [] []. split.
  - auto.
  - intros Hk k Hne. rewrite own_users1, own_users0; auto.
  - intros Hk. rewrite own_role1, own_role0; auto.
  - intros k s Hne. rewrite own_sessions1, own_sessions0; done.
Qed.

#[export] Instance own_only_guarantee n : Guarantee solo (own_only n).
Proof. split; [exact _|]. by intros db db' ->. Qed.

(** Nothing of the accounts but their profiles changes. *)
Definition profile_only (db db' : Database) : Prop :=
  credentials <$> o_users db' = credentials <$> o_users db ∧
  o_refresh_sessions db' = o_refresh_sessions db.

#[export] Instance profile_only_preorder : PreOrder profile_only.
Proof. split; [by intros db|]. intros a b c [E1 E2] [E3 E4]. split; congruence. Qed.

#[export] Instance profile_only_guarantee : Guarantee solo profile_only.
Proof. split; [exact _|]. by intros db db' ->. Qed.

Lemma within_ext {A} R G (m m' : M A) : (∀ w, m w = m' w) → within R G m → within R G m'.
Proof. intros He Hm w Hw. specialize (Hm w Hw). unfold post in *. by rewrite <- He. Qed.

(** A lookup passes a row that satisfies its condition on, or an error. *)
Lemma within_found {B} R G `{!Guarantee R G} p (k : res UserDBModel → M B) :
  (∀ u, p u = true → within R G (k (Ok u))) → (∀ e, within R G (k (Err e))) →
  within R G (mbind (findUserWhere p) k).
Proof.
  intros Hok Herr w Hw. apply post_bind. unfold findUserWhere.
  assert (∀ r w1, moved R G w w1 → within R G (k r) → post (k r) w1 (λ _ w', moved R G w w')) as Hnext.
  { intros r w1 Hm Hk. eapply post_mono; [apply Hk, Hm|]. intros b w2 Hm2. by eapply (moved_trans R G). }
  eapply post_query; [done| |].
  - intros w1 d Ha _. apply Hnext; [by eapply (after_moved R G)|apply Herr].
  - intros w1 Ha. apply Hnext; [by eapply (after_moved R G)|].
    destruct (first_where _ _ _) as [u|] eqn:E; [|apply Herr]. apply first_where_Some in E as (i & _ & Hp). auto.
Qed.

(** An update of the one account [n] that keeps its identity and role. *)
Lemma own_update n p f db :
  (∀ u, p u = true → u_Id u = n) → (∀ u, u_Id (f u) = u_Id u ∧ u_Role (f u) = u_Role u) →
  own_only n db (with_users (update_where p f) db).
Proof.
  intros Hp Hf. split; [| | |done].
  - intros []. split; try done. intros k u. simpl. rewrite lookup_update_where. intros (v & Hv & ->)%fmap_Some.
    destruct (p v); [rewrite (proj1 (Hf v))|]; by apply users_keyed.
  - intros Hk k Hne. simpl. rewrite lookup_update_where. destruct (o_users db !! k) as [v|] eqn:Hv; [|done]. simpl.
    destruct (p v) eqn:E; [|done]. destruct Hne. by rewrite <- (users_keyed _ Hk _ _ Hv), (Hp v E).
  - intros Hk. simpl. rewrite lookup_update_where. destruct (o_users db !! n) as [v|]; [|done]. simpl.
    destruct (p v); [by rewrite (proj2 (Hf v))|done].
Qed.

(** An update of sessions of [n]. *)
Lemma own_session_update n p f db :
  (∀ s, p s = true → rs_UserID s = n) → (∀ s, rs_ID (f s) = rs_ID s ∧ rs_UserID (f s) = rs_UserID s) →
  own_only n db (with_sessions (update_where p f) db).
Proof.
  intros Hp Hf. split; [|done|done|].
  - intros []. split; try done. intros k u. simpl. rewrite lookup_update_where. intros (v & Hv & ->)%fmap_Some.
    destruct (p v); [rewrite (proj1 (Hf v))|]; by apply sessions_keyed.
  - intros k s Hne. simpl. rewrite lookup_update_where. destruct (o_refresh_sessions db !! k) as [v|]; [|done].
    simpl. destruct (p v) eqn:E; [|done]. split; intros [= <-]; exfalso; apply Hne.
    + rewrite (proj2 (Hf v)). auto.
    + auto.
Qed.

(** Statements on the tables that are not about accounts. *)
Lemma own_audit n f db : own_only n db (with_audit f db).
Proof. split; [|done..]. intros []. by split. Qed.

#[export] Hint Resolve own_audit : own.
#[export] Hint Extern 2 (own_only _ _ (with_users (update_where _ _) _)) =>
  (apply own_update; [|done]) : own.
#[export] Hint Extern 2 (own_only _ _ (with_sessions (update_where _ _) _)) =>
  (apply own_session_update; [|done]) : own.

Section Own.
Context (E : CommonErr) (IDKey : string → string → N → N → N → N → string)
        (id_matches : string → Z → bool) (next : list CredentialEventDBModel → Z) (users : option userService)
        (BindProfile : Context → res userProfileUpdate) (BindMap : Context → string → string).
(** The caller; SQLite compares the decimal text of an integer with the column by
    value. *)
Context (n : Z) (by_value : ∀ m, id_matches (Itoa n) m = (n =? m)).

Lemma with_id_own u : with_id id_matches (Itoa n) u = true → u_Id u = n.
Proof. unfold with_id. rewrite by_value. intros H%Z.eqb_eq. done. Qed.

Lemma within_GetUserInfoById {B} G `{!Guarantee solo G} (k : UserDBModel → M B) :
  (∀ u, u_Id u = n ∨ u_Id u = 0 → within solo G (k u)) →
  within solo G (mbind (GetUserInfoById id_matches (Itoa n)) k).
Proof.
  intros Hk. eapply (within_ext _ _ (mbind (findUserWhere (with_id id_matches (Itoa n)))
    (λ r, k (public_profile match r with Ok u => u | Err _ => zeroUser end)))).
  { intros w. unfold GetUserInfoById, orZero, mbind, mret. by destruct (findUserWhere _ w) as [[] ?]. }
  apply within_found; [exact _| |].
  - intros u Hu%with_id_own. apply Hk. by left.
  - intros e. apply Hk. by right.
Qed.

Lemma own_UpdateUser m : u_Id m = n → within solo (own_only n) (UpdateUser m).
Proof.
  intros Hm. unfold UpdateUser. within_solve. intros db. destruct (_ =? 0); [done|].
  destruct (_ && _); [done|]. simpl. apply own_update; [|done]. intros u Hu%Z.eqb_eq. congruence.
Qed.

Lemma own_LogCredentialEvent a t b s d : within solo (own_only n) (LogCredentialEvent next users a t b s d).
Proof. unfold LogCredentialEvent, appendEvent. within_solve. auto with own. Qed.

Lemma own_revoke now reason : within solo (own_only n) (revokeUserSessions n now reason).
Proof.
  unfold revokeUserSessions. within_solve. intros db. apply own_session_update; [|done].
  by intros s [Hs%Z.eqb_eq _]%andb_prop.
Qed.

Hint Resolve own_LogCredentialEvent own_revoke : within.

Lemma own_ChangeUserPassword old new :
  within solo (own_only n) (ChangeUserPassword IDKey id_matches next users (Itoa n) old new).
Proof.
  unfold ChangeUserPassword. destruct (ValidateNewPassword new); [within_solve|]. within_step; [within_solve|].
  apply within_found; [exact _| |intros e; within_solve]. intros u Hu%with_id_own.
  unfold verifyPassword, hashPassword. rewrite !Hu. within_solve.
  intros db. apply own_update; [|done]. by intros v [Hv%Z.eqb_eq _]%andb_prop.
Qed.

Lemma own_BumpTokenVersion : within solo (own_only n) (BumpTokenVersion users n).
Proof.
  unfold BumpTokenVersion, findUser. within_solve. intros db. apply own_update; [|done]. by intros u Hu%Z.eqb_eq.
Qed.

Lemma own_revoked f db :
  (∀ m, (∀ k r, m !! k = Some r → ra_JTI r = k) → ∀ k r, f m !! k = Some r → ra_JTI r = k) →
  own_only n db (with_revoked f db).
Proof. intros Hf. split; [|done..]. intros []. split; try done. intros k r. simpl. by apply Hf. Qed.

Lemma own_LogoutSession sid expires : within solo (own_only n) (LogoutSession users n sid expires).
Proof.
  unfold LogoutSession, RevokeUserRefreshSession, RevokeAccessToken. within_solve.
  - intros db. apply own_session_update; [|done]. by intros s [[_ Hs%Z.eqb_eq]%andb_prop _]%andb_prop.
  - intros db. apply own_revoked. intros m Hm k r. destruct (m !! sid); [apply Hm|].
    rewrite lookup_insert_Some. intros [[<- <-]|[_ H]]; [done|by apply Hm].
Qed.

Hint Resolve own_UpdateUser own_ChangeUserPassword own_BumpTokenVersion own_LogoutSession : within.

(** The handlers a user calls about the own account. *)
Inductive SelfCall := SelfInfo | SelfPassword | SelfNick | SelfDesc | SelfLogout | SelfLogoutAll.

Definition serve (c : SelfCall) : Context → M Response :=
  match c with
  | SelfInfo => PutUserInfo E id_matches BindProfile
  | SelfPassword => PutUserPassword E IDKey id_matches next users BindMap
  | SelfNick => PutUserNick E id_matches BindMap
  | SelfDesc => PutUserDesc E id_matches BindMap
  | SelfLogout => PostUserLogout E next users
  | SelfLogoutAll => PostUserLogoutAll E next users
  end.

(** The context of a request the middleware admitted for user [n]. *)
Definition context_of (ctx : Context) : Prop :=
  header_user_id ctx = Itoa n ∧ ∃ a, cx_Session ctx = Some a ∧ as_UserID a = n.

Lemma own_putField field set ctx : header_user_id ctx = Itoa n → (∀ v u, u_Id (set v u) = u_Id u) →
  within solo (own_only n) (putField E id_matches BindMap field set ctx).
Proof.
  intros Hid Hset. unfold putField. rewrite Hid. within_step; [within_solve|].
  apply within_GetUserInfoById; [exact _|]. intros u Hu. within_step; [within_solve|]. within_step; [|within_solve].
  apply own_UpdateUser. rewrite Hset. destruct Hu as [|Hu]; [done|]. by rewrite Hu in Heqb0.
Qed.

Lemma serve_own c ctx : context_of ctx → within solo (own_only n) (serve c ctx).
Proof.
  intros [Hid (a & Hs & Ha)]. destruct c; simpl.
  - unfold PutUserInfo. rewrite Hid. destruct (BindProfile ctx); [|within_solve].
    apply within_GetUserInfoById; [exact _|]. intros u Hu. within_step; [within_solve|].
    unfold GetUserInfoByUserName, GetUserInfoById, orZero, findUserWhere. within_solve.
    apply own_UpdateUser. simpl. destruct Hu as [|Hu]; [done|]. by rewrite Hu in Heqb.
  - unfold PutUserPassword. rewrite Hid. unfold GetUserInfoById, orZero, findUserWhere. within_solve.
  - by apply own_putField.
  - by apply own_putField.
  - unfold PostUserLogout. rewrite Hs, Ha. within_solve.
  - unfold PostUserLogoutAll, LogoutAllSessions, RevokeAllUserSessions. rewrite Hs, Ha. within_solve.
Qed.

Lemma serve_profile c ctx : c = SelfInfo ∨ c = SelfNick ∨ c = SelfDesc → within solo profile_only (serve c ctx).
Proof.
  intros Hc. assert (∀ m, within solo profile_only (UpdateUser m)) as Hupdate.
  { intros m. unfold UpdateUser. within_solve. intros db. destruct (_ =? 0); [done|]. destruct (_ && _); [done|].
    split; [|done]. simpl. apply map_eq. intros k. rewrite !lookup_fmap, lookup_update_where.
    destruct (o_users db !! k) as [u|]; [|done]. simpl. by destruct (_ =? _). }
  destruct Hc as [->|[->| ->]]; simpl; unfold PutUserInfo, PutUserNick, PutUserDesc, putField, GetUserInfoById,
    GetUserInfoByUserName, orZero, findUserWhere; within_solve; apply Hupdate.
Qed.
End Own.

(** C25. Users act on their own account only: whatever a request admitted for user
    [n] asks of the profile, password and logout endpoints, and whichever
    statements fail, no other account and no session of another user changes, and
    the role of [n] stays; the profile endpoints moreover leave every verifier,
    generation and session as they were. *)
Theorem own_account_only (E : CommonErr) (IDKey : string → string → N → N → N → N → string)
    (id_matches : string → Z → bool) (next : list CredentialEventDBModel → Z) (users : option userService)
    (BindProfile : Context → res userProfileUpdate) (BindMap : Context → string → string)
    (n : Z) (c : SelfCall) (request : Request) (claims : SessionClaims) (w : World) :
  (∀ m, id_matches (Itoa n) m = (n =? m)) →
  alone w → keys_agree (w_db w) → sc_UserID claims = n →
  let db' := w_db (snd (serve E IDKey id_matches next users BindProfile BindMap c (authenticated request claims) w)) in
  (∀ k, k ≠ n → o_users db' !! k = o_users (w_db w) !! k) ∧
  u_Role <$> o_users db' !! n = u_Role <$> o_users (w_db w) !! n ∧
  (∀ k s, rs_UserID s ≠ n → (o_refresh_sessions db' !! k = Some s ↔ o_refresh_sessions (w_db w) !! k = Some s)) ∧
  (c = SelfInfo ∨ c = SelfNick ∨ c = SelfDesc →
   credentials <$> o_users db' = credentials <$> o_users (w_db w) ∧
   o_refresh_sessions db' = o_refresh_sessions (w_db w)).
Proof.
  intros Hval Hw Hk Hn db'.
  assert (context_of n (authenticated request claims)) as Hctx.
  { subst n. split; [done|]. by eexists. }
  destruct (serve_own E IDKey id_matches next users BindProfile BindMap n Hval c _ Hctx w Hw) as [_ _ _ _ []].
  fold db' in own_users0, own_role0, own_sessions0 |- *. split_and!; auto.
  intros Hc. apply (serve_profile E IDKey id_matches next users BindProfile BindMap c _ Hc w Hw).
Qed.

Definition bobClaims : SessionClaims :=
  mkSessionClaims (mkRegistered AccessTokenIssuer "bob" "aabb" (Some 1) (Some 1) (Some 2)) "bob" 8 0.

Definition bobRequest : Request := mkRequest 1 [] "" (λ _, "") (λ _, "") "".

Lemma eight_by_value m : decimal_id (Itoa 8) m = (8 =? m).
Proof.
  change (Itoa 8) with "8". unfold decimal_id. change (Atoi "8") with (Some 8).
  destruct (Z.eqb_spec 8 m) as [<-|Hne]; [reflexivity|]. apply bool_decide_eq_false_2. congruence.
Qed.

Lemma own_account_only_witness :
  let db' := w_db (snd (serve sampleCodes toyIDKey decimal_id countIDs (Some liveService) (λ _, Err (NewError ""))
    (λ _ _, "Bobby") SelfNick (authenticated bobRequest bobClaims) (quietWorld householdDatabase ""))) in
  o_users db' !! 7 = o_users householdDatabase !! 7 ∧ u_Nickname <$> o_users db' !! 8 = Some "Bobby".
Proof.
  destruct (own_account_only sampleCodes toyIDKey decimal_id countIDs (Some liveService) (λ _, Err (NewError ""))
    (λ _ _, "Bobby") 8 SelfNick bobRequest bobClaims (quietWorld householdDatabase "")) as (H & _).
  - apply eight_by_value.
  - apply quietWorld_alone.
  - apply householdDatabase_ok.
  - reflexivity.
  - split; [apply (H 7); discriminate|vm_compute; reflexivity].
Defined.

(** ** The audit log *)

Section Audit.
Context (E : CommonErr) (id_matches : string → Z → bool) (users : option userService).

#[export] Instance newestFirst_total : Total newestFirst.
Proof. intros a b. unfold newestFirst. lia. Qed.
#[export] Instance newestFirst_trans : Transitive newestFirst.
Proof. intros a b c. unfold newestFirst. lia. Qed.

(** What a page of the log is. *)
Definition page (log l : list CredentialEventDBModel) : Prop :=
  (length l ≤ 100)%nat ∧ StronglySorted newestFirst l ∧ ∀ e, e ∈ l → e ∈ log.

Lemma ListCredentialEvents_spec actor w : alone w →
  post (ListCredentialEvents users actor 100) w (λ l w', w_db w' = w_db w ∧
    page (o_credential_events (w_db w)) l ∧ (1 ≤ actor → ∀ e, e ∈ l → ce_ActorUserID e = actor)).
Proof.
  intros Hw. assert (page (o_credential_events (w_db w)) []) as Hnil.
  { split_and!; [simpl; lia|constructor|by intros e ?%elem_of_nil]. }
  unfold ListCredentialEvents. m_step.
  { m_step. split_and!; [done..|]. by intros _ e ?%elem_of_nil. }
  m_step. m_step; m_step; (split; [done|]); [split; [done|]; by intros _ e ?%elem_of_nil|].
  set (sel := filter _ (o_credential_events (w_db w))). replace (Z.to_nat _) with 100%nat by reflexivity.
  assert (∀ e, e ∈ take 100 (merge_sort newestFirst sel) → e ∈ sel) as Hin.
  { intros e He. rewrite <- (merge_sort_Permutation newestFirst sel). apply elem_of_take in He as (i & ? & _).
    by eapply list_elem_of_lookup_2. }
  split; [split_and!|].
  - rewrite length_take. lia.
  - eapply StronglySorted_app_1_l. rewrite take_drop. apply (StronglySorted_merge_sort newestFirst).
  - intros e [_ He]%Hin%list_elem_of_filter. done.
  - intros Ha e [Hp _]%Hin%list_elem_of_filter. apply orb_prop in Hp as [Hp|Hp]; bool_split; [lia|by apply Z.eqb_eq].
Qed.

Lemma GetCredentialEvents_spec n ctx w : alone w → keys_agree (w_db w) → 1 ≤ n →
  (∀ m, id_matches (Itoa n) m = (n =? m)) → context_of n ctx →
  post (GetCredentialEvents E id_matches users ctx) w (λ r w', w_db w' = w_db w ∧
    match rsp_Data r with
    | DataEvents l => page (o_credential_events (w_db w)) l ∧
        ((∀ e, e ∈ l → ce_ActorUserID e = n) ∨
         ∃ row, o_users (w_db w) !! n = Some row ∧ u_Role row = "admin")
    | NoData => True
    | _ => False
    end).
Proof.
  intros Hw Hk Hn Hval [_ (a & Hs & Ha)]. unfold GetCredentialEvents. rewrite Hs, Ha.
  assert (∀ w1 actor, alone w1 → w_db w1 = w_db w →
    actor = n ∨ (∃ row, o_users (w_db w) !! n = Some row ∧ u_Role row = "admin") →
    post (listEvents E users actor) w1 (λ r w', w_db w' = w_db w ∧
      match rsp_Data r with
      | DataEvents l => page (o_credential_events (w_db w)) l ∧
          ((∀ e, e ∈ l → ce_ActorUserID e = n) ∨
           ∃ row, o_users (w_db w) !! n = Some row ∧ u_Role row = "admin")
      | NoData => True
      | _ => False
      end)) as Hlist.
  { intros w1 actor Hw1 Hd1 Hor. unfold listEvents. m_step. m_use ListCredentialEvents_spec as l w2 (Hd2 & Hp & Hown).
    m_step. rewrite Hd2, Hd1 in *. split; [done|]. simpl. split; [done|]. destruct Hor as [->|Hadm]; [left; auto|by right]. }
  m_step; [apply Hlist; auto|]. destruct (Atoi _) as [target|]; [|by m_step]. m_step; [by m_step|].
  destruct ((target =? 0) || negb (target =? n)) eqn:Ht.
  - m_step. unfold GetUserInfoById, orZero, findUserWhere. do 3 m_step; [do 2 m_step; by m_step|].
    destruct (first_where _ _ _) as [row|] eqn:Hrow; do 2 m_step; [|by m_step].
    change (u_Role (public_profile row)) with (u_Role row).
    destruct (bool_decide (u_Role row = "admin")) eqn:Hrole; cbn [negb]; [|by m_step].
    apply Hlist; [eauto with store|done|]. right. apply bool_decide_eq_true in Hrole.
    apply first_where_Some in Hrow as (k & Hrow & Hp). exists row. split; [|done].
    unfold with_id in Hp. rewrite Hval in Hp. apply Z.eqb_eq in Hp as ->.
    by rewrite (users_keyed _ Hk _ _ Hrow).
  - bool_split. apply Hlist; [done|done|]. left. by apply Z.eqb_eq.
Qed.
End Audit.

(** The audit log is read within one's rights: a page returned to user [n]
    holds at most a hundred recorded events, newest first, and they are all of [n]
    unless the account of [n] is an administrator; reading changes nothing. *)
Theorem audit_scoped (E : CommonErr) (id_matches : string → Z → bool) (users : option userService)
    (n : Z) (request : Request) (claims : SessionClaims) (w : World) :
  (∀ m, id_matches (Itoa n) m = (n =? m)) →
  alone w → keys_agree (w_db w) → 1 ≤ n → sc_UserID claims = n →
  let run := GetCredentialEvents E id_matches users (authenticated request claims) w in
  w_db (snd run) = w_db w ∧
  match rsp_Data (fst run) with
  | DataEvents l => page (o_credential_events (w_db w)) l ∧
      ((∀ e, e ∈ l → ce_ActorUserID e = n) ∨
       ∃ row, o_users (w_db w) !! n = Some row ∧ u_Role row = "admin")
  | NoData => True
  | _ => False
  end.
Proof.
  intros Hval Hw Hk H1 Hn run. apply (GetCredentialEvents_spec E id_matches users n _ w Hw Hk H1 Hval).
  subst n. split; [done|]. by eexists.
Qed.

(** Events of two users. *)
Definition auditedDatabase : Database :=
  with_audit (λ _, [mkCredentialEvent 1 5 "" 8 CredentialEventLoginSuccess true "login" "";
                    mkCredentialEvent 2 6 "" 7 CredentialEventLoginSuccess true "login" "";
                    mkCredentialEvent 3 7 "" 8 CredentialEventLogout true "logout" ""]) bobDatabase.

Lemma bobDatabase_audit : keys_agree auditedDatabase.
Proof. destruct bobDatabase_ok as [H1 H2 H3 H4]. split; assumption. Qed.

Abbreviation bobAudit := (GetCredentialEvents sampleCodes decimal_id (Some liveService)
  (authenticated bobRequest bobClaims) (quietWorld auditedDatabase "")).

Lemma audit_scoped_witness :
  rsp_Data (fst bobAudit) = DataEvents [mkCredentialEvent 3 7 "" 8 CredentialEventLogout true "logout" "";
                                        mkCredentialEvent 1 5 "" 8 CredentialEventLoginSuccess true "login" ""] ∧
  w_db (snd bobAudit) = auditedDatabase.
Proof.
  split; [vm_compute; reflexivity|].
  apply (audit_scoped sampleCodes decimal_id (Some liveService) 8 bobRequest bobClaims (quietWorld auditedDatabase "")).
  - apply eight_by_value.
  - apply quietWorld_alone.
  - apply bobDatabase_audit.
  - lia.
  - reflexivity.
Defined.
