(* ===== verification/Urls.v ===== *)
(** * URLs and IP addresses ([net/url], [net], [net/netip])

    What the program uses of Go's URL parser and of its address literals, as of
    Go 1.26: [url.Parse] with its strict treatment of brackets and colons in a
    host, [net.SplitHostPort], [net.ParseIP] and [IP.IsLoopback]. *)

From stdpp Require Import prelude strings.
From Stdlib Require Import ZArith Lia Ascii.
From S2P Require Import Prelude GoStrings.

Local Open Scope string_scope.
Local Open Scope list_scope.

(** ** Escapes *)

Inductive encoding := encodePath | encodePathSegment | encodeHost | encodeZone | encodeUserPassword | encodeQueryComponent | encodeFragment.

(** [shouldEscape] in a host or a zone. *)
Definition shouldEscapeHost (a : ascii) : bool :=
  negb (is_letter a || is_digit a || contains_byte a "!$&'()*+,;=:[]<>-_.~" || bool_decide (a = "034"%char)).

(** [shouldEscape]. *)
Definition shouldEscape (mode : encoding) (a : ascii) : bool :=
  match mode with
  | encodeHost | encodeZone => shouldEscapeHost a
  | _ =>
     negb (is_letter a || is_digit a || contains_byte a "-_.~") &&
     (if contains_byte a "$&+,/:;=?@" then
        match mode with
        | encodePath => bool_decide (a = "?"%char)
        | encodePathSegment => contains_byte a "/;,?"
        | encodeUserPassword => contains_byte a "@/?:"
        | encodeFragment => false
        | _ => true
        end
      else match mode with encodeFragment => negb (contains_byte a "!()*") | _ => true end)
  end.

Definition is_ascii (a : ascii) : bool := (byte_val a <? 128)%N.

(** Which bytes may be written as an escape. *)
Definition escapable (mode : encoding) (b : ascii) : bool :=
  match mode with
  | encodeHost => negb (is_ascii b) || bool_decide (b = "%"%char)
  | encodeZone => bool_decide (b = "%"%char) || bool_decide (b = " "%char) || negb (shouldEscapeHost b)
  | _ => true
  end.

(** Which bytes may stand for themselves. *)
Definition literal (mode : encoding) (a : ascii) : bool :=
  match mode with
  | encodeHost | encodeZone => negb (is_ascii a && shouldEscapeHost a)
  | _ => true
  end.

Definition byte_of (high low : nibble) : ascii :=
  let '(b7, b6, b5, b4) := high in let '(b3, b2, b1, b0) := low in Ascii b0 b1 b2 b3 b4 b5 b6 b7.

Fixpoint unescape (mode : encoding) (s : string) : option string :=
  match s with
  | EmptyString => Some ""
  | String a s' =>
     if bool_decide (a = "%"%char) then
       match s' with
       | String h (String l rest) =>
          match unhex h, unhex l with
          | Some high, Some low =>
             if escapable mode (byte_of high low)
             then String (byte_of high low) <$> unescape mode rest else None
          | _, _ => None
          end
       | _ => None
       end
     else if literal mode a then String a <$> unescape mode s' else None
  end.

Definition upper_hex (n : nibble) : ascii := default "0"%char (String.get (N.to_nat (let '(b3, b2, b1, b0) := n in bits_to_N [b3; b2; b1; b0])) "0123456789ABCDEF").

Definition percent (a : ascii) : string :=
  let 'Ascii b0 b1 b2 b3 b4 b5 b6 b7 := a in
  String "%" (String (upper_hex (b7, b6, b5, b4)) (String (upper_hex (b3, b2, b1, b0)) "")).

(** [escape] of anything but a query component. *)
Fixpoint escape (mode : encoding) (s : string) : string :=
  match s with
  | EmptyString => ""
  | String a s' => (if shouldEscape mode a then percent a else String a "") +:+ escape mode s'
  end.

(** [setPath] and [setFragment] keep the text that was written unless it is the
    default escape of what it stands for. *)
Definition rawOf (mode : encoding) (written decoded : string) : string :=
  if bool_decide (written = escape mode decoded) then "" else written.

(** ** Address literals *)

Definition octet (s : string) : option N := if leading_zero s then None else ParseUint s 8.

(** [parseIPv4Fields]. *)
Definition parseIPv4 (s : string) : option (list N) :=
  match split_on "." s with
  | [a; b; c; d] => a ← octet a; b ← octet b; c ← octet c; d ← octet d; Some [a; b; c; d]
  | _ => None
  end.

(** The hexadecimal digits [s] starts with, and what follows them. *)
Fixpoint span_hex (s : string) : string * string :=
  match s with
  | String a s' => if is_hex a then let (h, rest) := span_hex s' in (String a h, rest) else ("", s)
  | EmptyString => ("", "")
  end.

Fixpoint hex_value (acc : N) (s : string) : N :=
  match s with
  | String a s' =>
     match unhex a with
     | Some (b3, b2, b1, b0) => hex_value (16 * acc + bits_to_N [b3; b2; b1; b0]) s'
     | None => acc
     end
  | EmptyString => acc
  end.

(** The loop of [parseIPv6]: at most [n] more groups, [ip] the bytes so far and
    [ellipsis] where the :: was. *)
Fixpoint parseGroups (n : nat) (s : string) (ip : list N) (ellipsis : option nat)
    : option (string * list N * option nat) :=
  match n with
  | O => Some (s, ip, ellipsis)
  | S n' =>
     let (digits, rest) := span_hex s in
     if bool_decide (digits = "") || (4 <? String.length digits)%nat then None
     else
       let v := hex_value 0 digits in
       let ip' := ip ++ [v / 256; v mod 256]%N in
       match rest with
       | String "." _ =>
          if (bool_decide (ellipsis = None) && negb (length ip =? 12)%nat) || (16 <? length ip + 4)%nat then None
          else v4 ← parseIPv4 s; Some ("", ip ++ v4, ellipsis)
       | EmptyString => Some ("", ip', ellipsis)
       | String ":" EmptyString => None
       | String ":" (String ":" rest') =>
          if bool_decide (ellipsis = None)
          then if bool_decide (rest' = "") then Some ("", ip', Some (length ip'))
               else parseGroups n' rest' ip' (Some (length ip'))
          else None
       | String ":" rest' => parseGroups n' rest' ip' ellipsis
       | _ => None
       end
  end.

(** The 16 bytes, the :: expanded to at least one group of zeros. *)
Definition expand (ip : list N) (ellipsis : option nat) : option (list N) :=
  match ellipsis with
  | None => if (length ip <? 16)%nat then None else Some ip
  | Some e => if (length ip <? 16)%nat
              then Some (take e ip ++ replicate (16 - length ip) 0%N ++ drop e ip) else None
  end.

(** [parseIPv6] of an address without its zone. *)
Definition parseIPv6 (s : string) : option (list N) :=
  let '(s, ellipsis) := if has_prefix "::" s then (drop_bytes 2 s, Some O) else (s, None) in
  if bool_decide (ellipsis = Some O) && bool_decide (s = "") then Some (replicate 16 0%N)
  else match parseGroups 8 s [] ellipsis with
       | Some ("", ip, ellipsis) => expand ip ellipsis
       | _ => None
       end.

(** An address: 4 or 16 bytes, and the zone of an IPv6 address. *)
Record Addr := mkAddr { ad_bytes : list N; ad_zone : string }.

(** The first dot, colon or percent sign decides the kind. *)
Fixpoint addr_kind (s : string) : option ascii :=
  match s with
  | String a s' => if contains_byte a ".:%" then Some a else addr_kind s'
  | EmptyString => None
  end.

(** [netip.ParseAddr]. *)
Definition ParseAddr (s : string) : option Addr :=
  match addr_kind s with
  | Some "."%char => ip ← parseIPv4 s; Some (mkAddr ip "")
  | Some ":"%char =>
     match cut "%" s with
     | None => ip ← parseIPv6 s; Some (mkAddr ip "")
     | Some (address, zone) =>
        if bool_decide (zone = "") then None else ip ← parseIPv6 address; Some (mkAddr ip zone)
     end
  | _ => None
  end.

Definition Is4 (a : Addr) : bool := (length (ad_bytes a) =? 4)%nat.

Definition v4InV6Prefix : list N := replicate 10 0%N ++ [255; 255]%N.

(** [net.ParseIP]: 16 bytes, no zone. *)
Definition ParseIP (s : string) : option (list N) :=
  match ParseAddr s with
  | Some a => if bool_decide (ad_zone a = "")
              then Some (if Is4 a then v4InV6Prefix ++ ad_bytes a else ad_bytes a) else None
  | None => None
  end.

Definition IPv6loopback : list N := replicate 15 0%N ++ [1%N].

(** [ip.IsLoopback()]: 127.0.0.0/8, also when mapped, and ::1. *)
Definition IsLoopback (ip : list N) : bool :=
  if bool_decide (take 12 ip = v4InV6Prefix) then bool_decide (ip !! 12%nat = Some 127%N)
  else bool_decide (ip = IPv6loopback).

(** [net.SplitHostPort]. *)
Definition SplitHostPort (hostport : string) : option (string * string) :=
  match cut_last ":" hostport with
  | None => None
  | Some (before, port) =>
     if has_prefix "[" hostport then
       match cut "]" hostport with
       | None => None
       | Some (opened, rest) =>
          if bool_decide (before = opened +:+ "]") &&
             negb (contains_byte "[" (drop_bytes 1 hostport)) && negb (contains_byte "]" rest)
          then Some (drop_bytes 1 opened, port) else None
       end
     else if contains_byte ":" before || contains_byte "[" hostport || contains_byte "]" hostport then None
     else Some (before, port)
  end.

(** ** [url.Parse] *)

Record URL := mkURL {
  Scheme : string;
  Opaque : string;
  User : option (string * option string);
  Host : string;
  Path : string;
  RawQuery : string;
  Fragment : string;
  RawPath : string;
  RawFragment : string;
  ForceQuery : bool;
  OmitHost : bool;
}.

(** What precedes the colon of a scheme and what follows it; no scheme is the
    empty one. [None]: the colon comes first. *)
Fixpoint scanScheme (s : string) : option (string * string) :=
  match s with
  | EmptyString => None
  | String a s' =>
     if is_letter a || is_digit a || contains_byte a "+-."
     then match scanScheme s' with Some (x, y) => Some (String a x, y) | None => None end
     else if bool_decide (a = ":"%char) then Some ("", s') else None
  end.

Definition getScheme (s : string) : option (string * string) :=
  match s with
  | EmptyString => Some ("", s)
  | String a _ =>
     if bool_decide (a = ":"%char) then None
     else if is_letter a then Some (default ("", s) (scanScheme s)) else Some ("", s)
  end.

Definition validOptionalPort (s : string) : bool :=
  match s with EmptyString => true | String a s' => bool_decide (a = ":"%char) && all_bytes is_digit s' end.

(** [strings.Index(s, sub)] as a cut before the occurrence. *)
Fixpoint cut_before (sub s : string) : option (string * string) :=
  if has_prefix sub s then Some ("", s)
  else match s with
       | EmptyString => None
       | String a s' => match cut_before sub s' with Some (x, y) => Some (String a x, y) | None => None end
       end.

(** The text between the brackets of an IP literal. *)
Definition unescapeLiteral (hostname : string) : option string :=
  match cut_before "%25" hostname with
  | Some (host, zone) =>
     host ← unescape encodeHost host; zone ← unescape encodeZone zone; Some (host +:+ zone)
  | None => unescape encodeHost hostname
  end.

Definition parseHost (host : string) : option string :=
  match cut_last "[" host with
  | Some ("", _) =>
     match cut_last "]" (drop_bytes 1 host) with
     | None => None
     | Some (hostname, colonPort) =>
        if validOptionalPort colonPort then
          colonPort ← unescape encodeHost colonPort;
          hostname ← unescapeLiteral hostname;
          match ParseAddr hostname with
          | Some a => if Is4 a then None else Some ("[" +:+ hostname +:+ "]" +:+ colonPort)
          | None => None
          end
        else None
     end
  | Some _ => None
  | None =>
     match cut ":" host with
     | Some (_, port) => if validOptionalPort (String ":" port) then unescape encodeHost host else None
     | None => unescape encodeHost host
     end
  end.

Definition validUserinfo (s : string) : bool :=
  all_bytes (λ a, is_letter a || is_digit a || contains_byte a "-._:~!$&'()*+,;=%@") s.

Definition parseAuthority (authority : string) : option (option (string * option string) * string) :=
  match cut_last "@" authority with
  | None => host ← parseHost authority; Some (None, host)
  | Some (userinfo, host) =>
     host ← parseHost host;
     if validUserinfo userinfo then
       match cut ":" userinfo with
       | None => username ← unescape encodeUserPassword userinfo; Some (Some (username, None), host)
       | Some (username, password) =>
          username ← unescape encodeUserPassword username;
          password ← unescape encodeUserPassword password;
          Some (Some (username, Some password), host)
       end
     else None
  end.

Definition is_control (a : ascii) : bool := (byte_val a <? 32)%N || (byte_val a =? 127)%N.

(** [strings.Cut(s, c)] with what precedes, all of [s] when [c] is absent. *)
Definition cut_or (c : ascii) (s : string) : string * string := default (s, "") (cut c s).

(** The query cut off; whether there is one, but empty. *)
Definition cut_query (s : string) : string * (string * bool) :=
  let (rest, query) := cut_or "?" s in (rest, (query, contains_byte "?" s && bool_decide (query = ""))).

(** What follows the scheme, the query cut off. *)
Definition parseRest (scheme rest : string) (query : string * bool) : option URL :=
  if has_prefix "//" rest && negb (bool_decide (scheme = "") && has_prefix "///" rest) then
    let (authority, path) := match cut "/" (drop_bytes 2 rest) with
                             | Some (authority, path) => (authority, String "/" path)
                             | None => (drop_bytes 2 rest, "")
                             end in
    userHost ← parseAuthority authority;
    decoded ← unescape encodePath path;
    Some (mkURL scheme "" userHost.1 userHost.2 decoded query.1 "" (rawOf encodePath path decoded) "" query.2 false)
  else
    decoded ← unescape encodePath rest;
    Some (mkURL scheme "" None "" decoded query.1 "" (rawOf encodePath rest decoded) "" query.2
            (negb (bool_decide (scheme = "")) && has_prefix "/" rest)).

(** [url.Parse] of a text without fragment. *)
Definition parsePlain (s : string) : option URL :=
  if negb (all_bytes (λ a, negb (is_control a)) s) then None
  else if bool_decide (s = "*") then Some (mkURL "" "" None "" "*" "" "" "" "" false false)
  else
    schemeRest ← getScheme s;
    let scheme := map_bytes to_lower schemeRest.1 in
    let (rest, query) := cut_query schemeRest.2 in
    if has_prefix "/" rest then parseRest scheme rest query
    else if negb (bool_decide (scheme = "")) then Some (mkURL scheme rest None "" "" query.1 "" "" "" query.2 false)
    else if contains_byte ":" (cut_or "/" rest).1 then None
    else parseRest scheme rest query.

(** [url.Parse]. *)
Definition ParseURL (s : string) : option URL :=
  let (s, fragment) := cut_or "#" s in
  u ← parsePlain s;
  decoded ← unescape encodeFragment fragment;
  Some (mkURL (Scheme u) (Opaque u) (User u) (Host u) (Path u) (RawQuery u) decoded (RawPath u)
          (rawOf encodeFragment fragment decoded) (ForceQuery u) (OmitHost u)).

(** ** Anatomy of a URL with a host *)

Definition schemeByte (a : ascii) : bool := is_letter a || is_digit a || contains_byte a "+-.".

Definition schemeName (s : string) : bool :=
  match s with String a _ => is_letter a && all_bytes schemeByte s | EmptyString => false end.

(** A tail that ends an authority. *)
Definition delimited (delims tail : string) : Prop :=
  tail = "" ∨ ∃ c t, tail = String c t ∧ contains_byte c delims = true.

Lemma scanScheme_Some s x y : scanScheme s = Some (x, y) → s = x +:+ String ":" y ∧ all_bytes schemeByte x = true.
Proof.
  revert x. induction s as [|a s IH]; intros x; cbn [scanScheme]; [done|]. fold (schemeByte a).
  destruct (schemeByte a) eqn:Ha.
  - destruct (scanScheme s) as [[x' y']|]; [|done]. intros [= <- <-]. destruct (IH x') as [-> Hx]; [done|].
    simpl. by rewrite Ha.
  - case_bool_decide; [|done]. subst. by intros [= <- <-].
Qed.

Lemma scanScheme_app x y : all_bytes schemeByte x = true → scanScheme (x +:+ String ":" y) = Some (x, y).
Proof.
  induction x as [|a x IH]; [done|]. cbn [all_bytes String.append scanScheme]. fold (schemeByte a).
  intros [Ha Hx]%andb_prop. by rewrite Ha, IH.
Qed.

Lemma schemeName_bytes sch : schemeName sch = true → all_bytes schemeByte sch = true.
Proof. destruct sch; [done|]. by intros [_ ?]%andb_prop. Qed.

Lemma getScheme_app sch rest : schemeName sch = true → getScheme (sch +:+ String ":" rest) = Some (sch, rest).
Proof.
  intros Hs. pose proof (schemeName_bytes _ Hs) as Hb. destruct sch as [|a sch]; [done|].
  apply andb_prop in Hs as [Ha _]. unfold getScheme. cbn [String.append]. rewrite Ha.
  rewrite bool_decide_eq_false_2 by (by intros ->).
  change (String a (sch +:+ String ":" rest)) with (String a sch +:+ String ":" rest). by rewrite scanScheme_app.
Qed.

Lemma getScheme_Some s sch rest : getScheme s = Some (sch, rest) → sch ≠ "" →
  s = sch +:+ String ":" rest ∧ schemeName sch = true.
Proof.
  unfold getScheme. destruct s as [|a s]; [by intros [= <- _]|]. case_bool_decide; [done|].
  destruct (is_letter a) eqn:Ha; [|by intros [= <- _]].
  destruct (scanScheme (String a s)) as [[x y]|] eqn:E; [|by intros [= <- _]]. intros [= -> ->] Hne.
  apply scanScheme_Some in E as [E Hx]. split; [done|]. destruct sch as [|b sch]; [done|].
  injection E as <- _. unfold schemeName. by rewrite Ha, Hx.
Qed.

Lemma cut_or_app c p t : contains_byte c p = false → cut_or c (p +:+ t) = (p +:+ (cut_or c t).1, (cut_or c t).2).
Proof.
  intros Hp. unfold cut_or. destruct (cut c t) as [[x y]|] eqn:E.
  - apply cut_Some in E as [-> Hx]. rewrite <- string_app_assoc, cut_app; [done|].
    by rewrite contains_byte_app, Hp.
  - apply cut_None in E. rewrite (proj2 (cut_None c (p +:+ t))); [done|]. by rewrite contains_byte_app, Hp.
Qed.

Lemma cut_or_plain c s : contains_byte c s = false → cut_or c s = (s, "").
Proof. intros. unfold cut_or. by rewrite (proj2 (cut_None c s)). Qed.

Lemma cut_or_split c s : ∃ t, s = (cut_or c s).1 +:+ t ∧ contains_byte c (cut_or c s).1 = false ∧
  (t = "" ∧ (cut_or c s).2 = "" ∨ t = String c (cut_or c s).2).
Proof.
  unfold cut_or. destruct (cut c s) as [[x y]|] eqn:E.
  - apply cut_Some in E as [-> Hx]. eauto.
  - apply cut_None in E. exists "". rewrite string_app_nil_r. eauto.
Qed.

Lemma cut_or_delimited c delims tail : delimited (String c delims) tail → delimited delims (cut_or c tail).1.
Proof.
  intros [->|(d & t & -> & Hd)]; [by left|]. simpl in Hd. unfold cut_or. cbn [cut].
  destruct (decide (d = c)) as [->|Hdc]; [rewrite bool_decide_eq_true_2 by done; by left|].
  rewrite bool_decide_eq_false_2 in Hd by congruence. rewrite bool_decide_eq_false_2 by done. right. destruct (cut c t) as [[]|]; simpl; eauto.
Qed.

(** The host is settled by what stands before the first delimiter. *)
Definition authorityByte (a : ascii) : bool := negb (contains_byte a "/?#").

Lemma authority_plain c s : contains_byte c "/?#" = true → all_bytes authorityByte s = true → contains_byte c s = false.
Proof. intros Hc. apply all_bytes_no_byte. unfold authorityByte. by rewrite Hc. Qed.

Lemma scheme_plain c s : schemeByte c = false → schemeName s = true → contains_byte c s = false.
Proof. intros Hc Hs%schemeName_bytes. by eapply all_bytes_no_byte. Qed.

Lemma parseRest_authority scheme auth tail query u :
  scheme ≠ "" → all_bytes authorityByte auth = true → delimited "/" tail →
  parseRest scheme ("//" +:+ auth +:+ tail) query = Some u →
  Scheme u = scheme ∧ parseAuthority auth = Some (User u, Host u).
Proof.
  intros Hs Ha Ht. unfold parseRest. change (has_prefix "//" ("//" +:+ auth +:+ tail)) with true.
  rewrite (bool_decide_eq_false_2 (scheme = "")) by done. cbn [andb negb].
  change (drop_bytes 2 ("//" +:+ auth +:+ tail)) with (auth +:+ tail).
  assert (∃ path, match cut "/" (auth +:+ tail) with
                  | Some (a, p) => (a, String "/" p)
                  | None => (auth +:+ tail, "")
                  end = (auth, path)) as [path ->].
  { assert (contains_byte "/" auth = false) as Hp by (by apply authority_plain).
    destruct Ht as [->|(c & t & -> & Hc)].
    - rewrite string_app_nil_r, (proj2 (cut_None _ _) Hp). eauto.
    - simpl in Hc. rewrite orb_false_r in Hc. apply bool_decide_eq_true in Hc as <-. rewrite cut_app by done. eauto. }
  destruct (parseAuthority auth) as [[us h]|]; [|done]. simpl.
  destruct (unescape encodePath path); [|done]. by intros [= <-].
Qed.

Lemma ParseURL_authority sch auth tail u :
  schemeName sch = true → all_bytes authorityByte auth = true → delimited "#?/" tail →
  ParseURL (sch +:+ "://" +:+ auth +:+ tail) = Some u →
  Scheme u = map_bytes to_lower sch ∧ parseAuthority auth = Some (User u, Host u).
Proof.
  intros Hs Ha Ht. unfold ParseURL.
  assert (∀ c, contains_byte c "/?#" = true → c ≠ "/"%char → contains_byte c (sch +:+ "://" +:+ auth) = false) as Hpre.
  { intros c Hc Hne. rewrite !contains_byte_app, (authority_plain c auth) by done.
    rewrite (scheme_plain c sch) by (try done; revert Hc; clear; destruct c as [[] [] [] [] [] [] [] []]; done).
    revert Hc Hne. clear. by destruct c as [[] [] [] [] [] [] [] []]. }
  assert (∀ t, sch +:+ "://" +:+ auth +:+ t = (sch +:+ "://" +:+ auth) +:+ t) as Happ by (intros; by rewrite !string_app_assoc).
  rewrite Happ, cut_or_app by (by apply Hpre). apply cut_or_delimited in Ht. set (t1 := (cut_or "#" tail).1) in *.
  destruct (parsePlain _) as [u1|] eqn:E; [|done]. simpl. destruct (unescape encodeFragment _); [|done].
  simpl. intros [= <-]. simpl. revert E. unfold parsePlain. destruct (negb _); [done|].
  case_bool_decide as Hstar; [by destruct sch as [|? []]|].
  rewrite <- Happ. change ("://" +:+ auth +:+ t1) with (String ":" ("//" +:+ auth +:+ t1)).
  rewrite getScheme_app by done. cbn [mbind option_bind fst snd].
  assert (∀ t, "//" +:+ auth +:+ t = ("//" +:+ auth) +:+ t) as Hrest by (intros; by rewrite !string_app_assoc).
  unfold cut_query. rewrite Hrest, cut_or_app, <- Hrest.
  2:{ rewrite contains_byte_app, (authority_plain _ auth) by done. done. }
  apply cut_or_delimited in Ht. cbn [fst snd].
  change (has_prefix "/" ("//" +:+ _)) with true. cbv iota.
  apply parseRest_authority; [|done|done]. by destruct sch.
Qed.

Lemma parseRest_Some scheme rest query u : parseRest scheme rest query = Some u → Host u ≠ "" →
  Scheme u = scheme ∧ ∃ auth tail, rest = "//" +:+ auth +:+ tail ∧ contains_byte "/" auth = false ∧
    delimited "/" tail ∧ parseAuthority auth = Some (User u, Host u).
Proof.
  unfold parseRest. destruct (has_prefix "//" rest) eqn:Hp; cbn [andb].
  2:{ destruct (unescape _ _); [|done]. by intros [= <-]. }
  apply has_prefix_spec in Hp as [r ->]. destruct (negb _).
  2:{ destruct (unescape _ _); [|done]. by intros [= <-]. }
  change (drop_bytes 2 ("//" +:+ r)) with r. intros Hu _. destruct (cut "/" r) as [[auth path]|] eqn:Hc.
  - apply cut_Some in Hc as [-> Ha]. destruct (parseAuthority auth) as [[us h]|] eqn:E; [|done]. simpl in Hu.
    destruct (unescape _ _); [|done]. simpl in Hu. injection Hu as <-. split; [done|].
    exists auth, (String "/" path). split_and!; [done|done| |done]. right. eauto.
  - apply cut_None in Hc. destruct (parseAuthority r) as [[us h]|] eqn:E; [|done]. simpl in Hu. injection Hu as <-.
    split; [done|]. exists r, "". rewrite string_app_nil_r. split_and!; [done|done|by left|done].
Qed.

Lemma authority_bytes s : contains_byte "#" s = false → contains_byte "?" s = false → contains_byte "/" s = false →
  all_bytes authorityByte s = true.
Proof.
  induction s as [|a s IH]; simpl; [done|]. intros [H1 ?]%orb_false_iff [H2 ?]%orb_false_iff [H3 ?]%orb_false_iff.
  rewrite IH by done. unfold authorityByte. simpl. rewrite andb_true_r.
  apply bool_decide_eq_false in H1, H2, H3. by rewrite !bool_decide_eq_false_2.
Qed.

Lemma delimited_app c delims t1 t2 : delimited delims t1 → (t2 = "" ∨ ∃ t, t2 = String c t) →
  delimited (String c delims) (t1 +:+ t2).
Proof.
  intros [->|(d & t & -> & Hd)] H2.
  - simpl. destruct H2 as [->|[t ->]]; [by left|right]. exists c, t. split; [done|]. simpl. by rewrite bool_decide_eq_true_2.
  - right. exists d, (t +:+ t2). split; [done|]. simpl. by rewrite Hd, orb_true_r.
Qed.

(** A URL with a scheme and a host is scheme, ://, authority and a tail. *)
Lemma ParseURL_anatomy s u : ParseURL s = Some u → Host u ≠ "" → Scheme u ≠ "" →
  ∃ sch auth tail, s = sch +:+ "://" +:+ auth +:+ tail ∧ schemeName sch = true ∧ all_bytes authorityByte auth = true ∧
    delimited "#?/" tail ∧ Scheme u = map_bytes to_lower sch ∧ parseAuthority auth = Some (User u, Host u).
Proof.
  unfold ParseURL. destruct (cut_or_split "#" s) as (t1 & Hs & Hp1 & Ht1).
  destruct (cut_or "#" s) as [s1 f]. simpl in *. destruct (parsePlain s1) as [u1|] eqn:E; [|done]. simpl.
  destruct (unescape encodeFragment f); [|done]. intros [= <-]. simpl. intros Hh Hsc. subst s.
  revert E. unfold parsePlain. destruct (negb _); [done|]. case_bool_decide; [by intros [= <-]|].
  destruct (getScheme s1) as [[sch rest]|] eqn:Hg; [|done]. cbn [mbind option_bind fst snd].
  destruct (cut_or_split "?" rest) as (t2 & Hr & Hp2 & Ht2). unfold cut_query. destruct (cut_or "?" rest) as [r q]. cbn [fst snd] in *.
  set (forced := contains_byte "?" rest && _).
  intros Hu. assert (parseRest (map_bytes to_lower sch) r (q, forced) = Some u1) as Hu'.
  { destruct (has_prefix "/" r); [done|]. case_bool_decide; cbn [negb] in Hu; [|by injection Hu as <-].
    by destruct (contains_byte ":" (cut_or "/" r).1). }
  apply parseRest_Some in Hu' as (Hsch & auth & tail & -> & Ha & Ht & Hauth); [|done].
  assert (sch ≠ "") as Hne by (intros ->; simpl in Hsch; congruence).
  apply getScheme_Some in Hg as [-> Hname]; [|done]. subst rest.
  exists sch, auth, ((tail +:+ t2) +:+ t1). split_and!; try done.
  - by str_norm.
  - rewrite !contains_byte_app, !orb_false_iff in Hp2. rewrite contains_byte_app in Hp1. cbn [contains_byte] in Hp1.
    rewrite !contains_byte_app, !orb_false_iff in Hp1. apply authority_bytes; naive_solver.
  - apply delimited_app; [apply delimited_app; [done|]|]; naive_solver.
Qed.

(** A path put behind an address, as the clients of the gateway do it, keeps
    scheme, user and host. *)
Lemma ParseURL_extend value u p u' :
  ParseURL value = Some u → Host u ≠ "" → Scheme u ≠ "" →
  ParseURL (trim_suffix "/" value +:+ "/" +:+ p) = Some u' →
  Scheme u' = Scheme u ∧ User u' = User u ∧ Host u' = Host u.
Proof.
  intros Hu Hh Hs Hu'. apply ParseURL_anatomy in Hu as (sch & auth & tail & -> & Hn & Ha & Ht & Hsch & Hauth); [|done..].
  assert (∃ tail', trim_suffix "/" (sch +:+ "://" +:+ auth +:+ tail) = sch +:+ "://" +:+ auth +:+ tail' ∧
            delimited "#?/" tail') as (tail' & Htrim & Ht').
  { destruct (trim_suffix_or "/" (sch +:+ "://" +:+ auth +:+ tail)) as [E|E]; [eauto|].
    set (x := trim_suffix _ _) in *. clearbody x.
    assert (∃ t', tail = t' +:+ "/") as [t' ->].
    { destruct (string_rev_case tail) as [->|(t & c & ->)].
      - exfalso. rewrite string_app_nil_r in E. destruct (string_rev_case auth) as [->|(a & c & ->)].
        + vm_compute in Hauth. injection Hauth as _ Hauth. by destruct Hh.
        + rewrite <- (string_app_assoc "://"), <- string_app_assoc in E. apply string_app_last in E as [_ ->].
          rewrite all_bytes_app in Ha. by apply andb_prop in Ha as [_ Ha].
      - exists t. rewrite <- (string_app_assoc auth), <- (string_app_assoc "://"), <- (string_app_assoc sch) in E.
        by apply string_app_last in E as [_ ->]. }
    exists t'. split.
    - rewrite <- (string_app_assoc auth), <- (string_app_assoc "://"), <- (string_app_assoc sch) in E.
      by apply string_app_last in E as [-> _].
    - destruct Ht as [E'|(c & t & E' & Hc)]; [by destruct t'|]. destruct t' as [|d t']; [by left|].
      injection E' as -> _. right. eauto. }
  rewrite Htrim, !string_app_assoc in Hu'. apply ParseURL_authority in Hu' as [Hs' Ha']; [|done|done|].
  - rewrite Ha' in Hauth. injection Hauth as <- <-. by rewrite Hs', Hsch.
  - destruct Ht' as [->|(c & t & -> & Hc)]; right; [by exists "/"%char, p|]. exists c, (t +:+ "/" +:+ p). done.
Qed.

(** ** The bytes of a host *)

(** What a parsed host may contain: the bytes of a host literal, anything beyond
    ASCII, and in a zone the percent sign and the space. *)
Definition hostByte (a : ascii) : bool :=
  negb (is_ascii a) || negb (shouldEscapeHost a) || bool_decide (a = "%"%char) || bool_decide (a = " "%char).

(** A host that reads the same escaped or not. *)
Definition plainByte (a : ascii) : bool := is_ascii a && negb (bool_decide (a = "%"%char)).

(** [unescape] as a relation, to argue by rule induction. *)
Inductive decoded (mode : encoding) : string → string → Prop :=
| decoded_nil : decoded mode "" ""
| decoded_literal a s t : a ≠ "%"%char → literal mode a = true → decoded mode s t →
    decoded mode (String a s) (String a t)
| decoded_escape h l b s t : escapable mode b = true → decoded mode s t →
    decoded mode (String "%" (String h (String l s))) (String b t).

Lemma unescape_decoded mode s t : unescape mode s = Some t → decoded mode s t.
Proof.
  revert t. induction s as [s IH] using (induction_ltof1 _ String.length). intros t.
  destruct s as [|a s]; cbn [unescape]; [intros [= <-]; constructor|]. case_bool_decide as Ha.
  - destruct s as [|h [|l s]]; [done..|]. destruct (unhex h) as [high|]; [|done]. destruct (unhex l) as [low|]; [|done].
    destruct (escapable mode (byte_of high low)) eqn:He; [|done].
    destruct (unescape mode s) as [t'|] eqn:E; [|done]. intros [= <-]. subst a. constructor; [done|].
    apply IH; [unfold ltof; simpl; lia|done].
  - destruct (literal mode a) eqn:Hl; [|done]. destruct (unescape mode s) as [t'|] eqn:E; [|done].
    intros [= <-]. constructor; [done|done|]. apply IH; [unfold ltof; simpl; lia|done].
Qed.

Lemma unescape_host_bytes mode s t : mode = encodeHost ∨ mode = encodeZone →
  unescape mode s = Some t → all_bytes hostByte t = true.
Proof.
  intros Hm H%unescape_decoded. induction H as [|a s t Ha Hl _ IH|h l b s t He _ IH]; [done|..]; cbn [all_bytes].
  - rewrite IH, andb_true_r. unfold hostByte. destruct Hm as [-> | ->]; simpl in Hl;
      destruct (is_ascii a), (shouldEscapeHost a); done.
  - rewrite IH, andb_true_r. unfold hostByte. destruct Hm as [-> | ->]; simpl in He;
      destruct (is_ascii b), (shouldEscapeHost b), (bool_decide (b = "%"%char)), (bool_decide (b = " "%char)); done.
Qed.

(** A plain host was written without escapes, and is decoded to itself. *)
Lemma unescape_plain s t : unescape encodeHost s = Some t → all_bytes plainByte t = true →
  s = t ∧ all_bytes (λ a, negb (shouldEscapeHost a)) t = true.
Proof.
  intros H%unescape_decoded. induction H as [|a s t Ha Hl _ IH|h l b s t He _ IH]; [done|..]; cbn [all_bytes];
    intros [Hp Ht]%andb_prop; apply andb_prop in Hp as [Hasc Hpc]; destruct IH as [-> Hall]; try done.
  - simpl in Hl. rewrite Hasc in Hl. by rewrite Hall, andb_true_r.
  - exfalso. simpl in He. by rewrite Hasc in He; destruct (bool_decide (b = "%"%char)).
Qed.

Lemma parseHost_bytes h h' : parseHost h = Some h' → all_bytes hostByte h' = true.
Proof.
  assert (∀ h h', unescape encodeHost h = Some h' → all_bytes hostByte h' = true) as Hun.
  { intros ? ?. apply unescape_host_bytes. by left. }
  unfold parseHost. destruct (cut_last "[" h) as [[[|??] ?]|]; [|done|].
  - destruct (cut_last "]" _) as [[hostname port]|]; [|done]. destruct (validOptionalPort port); [|done].
    destruct (unescape encodeHost port) as [port'|] eqn:Hp; [|done]. simpl.
    destruct (unescapeLiteral hostname) as [hostname'|] eqn:Hl; [|done]. simpl.
    destruct (ParseAddr hostname'); [|done]. destruct (Is4 _); [done|]. intros [= <-].
    apply Hun in Hp. repeat first [rewrite all_bytes_app | progress cbn [all_bytes String.append]]. rewrite Hp.
    assert (all_bytes hostByte hostname' = true) as ->; [|done].
    unfold unescapeLiteral in Hl. destruct (cut_before _ _) as [[host zone]|]; [|by eapply Hun].
    destruct (unescape encodeHost host) as [host'|] eqn:E1; [|done]. simpl in Hl.
    destruct (unescape encodeZone zone) as [zone'|] eqn:E2; [|done]. simpl in Hl. injection Hl as <-.
    rewrite all_bytes_app, (Hun _ _ E1). apply unescape_host_bytes in E2; [done|by right].
  - destruct (cut ":" h) as [[? ?]|]; [destruct (validOptionalPort _); [|done]|]; apply Hun.
Qed.

Lemma parseAuthority_host auth us h : parseAuthority auth = Some (us, h) →
  ∃ raw, parseHost raw = Some h ∧ (us = None → raw = auth ∧ contains_byte "@" auth = false).
Proof.
  unfold parseAuthority. destruct (cut_last "@" auth) as [[userinfo host]|] eqn:E.
  - destruct (parseHost host) as [h'|] eqn:Eh; [|done]. simpl. destruct (validUserinfo userinfo); [|done].
    intros H. exists host. destruct (cut ":" userinfo) as [[un pw]|].
    + destruct (unescape _ un), (unescape _ pw); simpl in H; try done. by injection H as <- <-.
    + destruct (unescape _ userinfo); simpl in H; [|done]. by injection H as <- <-.
  - apply cut_last_None in E. destruct (parseHost auth) as [h'|] eqn:Eh; [|done]. simpl. intros [= <- <-]. eauto.
Qed.

Lemma cut_before_Some sub s x y : cut_before sub s = Some (x, y) → has_prefix sub y = true.
Proof.
  revert x. induction s as [|a s IH]; intros x; cbn [cut_before].
  - destruct (has_prefix sub "") eqn:E; [|done]. by intros [= _ <-].
  - destruct (has_prefix sub (String a s)) eqn:E; [by intros [= _ <-]|].
    destruct (cut_before sub s) as [[x' y']|]; [|done]. intros [= _ <-]. by eapply IH.
Qed.

Lemma unescapeLiteral_plain s t : unescapeLiteral s = Some t → all_bytes plainByte t = true →
  s = t ∧ all_bytes (λ a, negb (shouldEscapeHost a)) t = true.
Proof.
  unfold unescapeLiteral. destruct (cut_before "%25" s) as [[host zone]|] eqn:Hc; [|apply unescape_plain].
  apply cut_before_Some, has_prefix_spec in Hc as [r ->].
  destruct (unescape encodeHost host); [|done]. simpl. destruct (unescape encodeZone r); [|done]. simpl.
  intros [= <-]. rewrite all_bytes_app. cbn [all_bytes]. change (plainByte _) with false. by rewrite andb_false_r.
Qed.

Lemma parseHost_plain h h' : parseHost h = Some h' → all_bytes plainByte h' = true →
  h = h' ∧ all_bytes (λ a, negb (shouldEscapeHost a)) h' = true.
Proof.
  unfold parseHost. destruct (cut_last "[" h) as [[[|??] r]|] eqn:Hb; [|done|].
  - apply cut_last_Some in Hb as [-> _]. cbn [String.append drop_bytes].
    destruct (cut_last "]" r) as [[hostname port]|] eqn:Hc; [|done]. apply cut_last_Some in Hc as [-> _].
    destruct (validOptionalPort port); [|done].
    destruct (unescape encodeHost port) as [port'|] eqn:Hp; [|done]. simpl.
    destruct (unescapeLiteral hostname) as [hostname'|] eqn:Hl; [|done]. simpl.
    destruct (ParseAddr hostname'); [|done]. destruct (Is4 _); [done|]. intros [= <-].
    cbn [all_bytes]. rewrite !all_bytes_app. cbn [all_bytes].
    intros [_ [H1 [_ H2]%andb_prop]%andb_prop]%andb_prop.
    apply unescape_plain in Hp as [<- Hp]; [|done]. apply unescapeLiteral_plain in Hl as [<- Hl]; [|done].
    split; [done|]. repeat first [rewrite all_bytes_app | progress cbn [all_bytes String.append]]. by rewrite Hl, Hp.
  - destruct (cut ":" h) as [[? ?]|]; [destruct (validOptionalPort _); [|done]|]; apply unescape_plain.
Qed.

Lemma hostLiteral_class c s : shouldEscapeHost c = true →
  all_bytes (λ a, negb (shouldEscapeHost a)) s = true → contains_byte c s = false.
Proof. intros Hc. apply all_bytes_no_byte. by rewrite Hc. Qed.

Lemma schemeByte_printable a : schemeByte a = true → printable a = true.
Proof. by destruct a as [[] [] [] [] [] [] [] []]. Qed.

Lemma hostLiteral_printable a : negb (shouldEscapeHost a) = true → printable a = true.
Proof. by destruct a as [[] [] [] [] [] [] [] []]. Qed.

Lemma printable_no_control a : printable a = true → negb (is_control a) = true.
Proof. by destruct a as [[] [] [] [] [] [] [] []]. Qed.

Lemma origin_printable sch host : schemeName sch = true → all_bytes (λ a, negb (shouldEscapeHost a)) host = true →
  all_bytes printable (sch +:+ "://" +:+ host) = true.
Proof.
  intros Hs Hh. rewrite !all_bytes_app.
  rewrite (all_bytes_mono _ _ _ schemeByte_printable (schemeName_bytes _ Hs)).
  by rewrite (all_bytes_mono _ _ _ hostLiteral_printable Hh).
Qed.

(** A byte a path may hold without ending it. *)
Definition pathByte (a : ascii) : bool := negb (is_control a) && negb (contains_byte a "?#").

(** A byte a query may hold without ending it. *)
Definition queryByte (a : ascii) : bool := negb (is_control a) && negb (bool_decide (a = "#"%char)).

(** A query as it is written behind a path. *)
Definition queryText (q : string) : string := if bool_decide (q = "") then "" else "?" +:+ q.

Lemma cut_queryText s q : contains_byte "?" s = false → cut_query (s +:+ queryText q) = (s, (q, false)).
Proof.
  intros Hs. unfold cut_query, queryText. case_bool_decide as Hq.
  - subst q. by rewrite string_app_nil_r, cut_or_plain, Hs.
  - change ("?" +:+ q) with (String "?" q). unfold cut_or. rewrite cut_app by done. simpl default.
    unfold id. by rewrite (bool_decide_eq_false_2 (q = "")), andb_false_r.
Qed.

Lemma queryText_bytes p q : p "?"%char = true → all_bytes p q = true → all_bytes p (queryText q) = true.
Proof. intros Hp Hq. unfold queryText. case_bool_decide; [done|]. simpl. by rewrite Hp. Qed.

(** A plain URL is parsed as its scheme, its host, its path and its query. *)
Lemma ParseURL_at_query sch host path decoded q : schemeName sch = true → map_bytes to_lower sch = sch →
  all_bytes (λ a, negb (shouldEscapeHost a)) host = true → parseAuthority host = Some (None, host) →
  path = "" ∨ has_prefix "/" path = true → all_bytes pathByte path = true → unescape encodePath path = Some decoded →
  all_bytes queryByte q = true →
  ParseURL (sch +:+ "://" +:+ host +:+ path +:+ queryText q) =
  Some (mkURL sch "" None host decoded q "" (rawOf encodePath path decoded) "" false false).
Proof.
  intros Hs Hl Hh Ha Hp Hpb Hd Hq.
  assert (∀ c, contains_byte c "?#" = true → contains_byte c path = false) as Hpath.
  { intros c Hc. apply (all_bytes_no_byte pathByte); [|done]. unfold pathByte. by rewrite Hc, andb_false_r. }
  assert (contains_byte "#" (sch +:+ "://" +:+ host +:+ path +:+ queryText q) = false) as Hno.
  { rewrite !contains_byte_app, (scheme_plain "#" sch), (hostLiteral_class "#" host), Hpath by done. cbn [orb].
    by apply (all_bytes_no_byte queryByte), queryText_bytes. }
  assert (all_bytes (λ a, negb (is_control a)) (sch +:+ "://" +:+ host +:+ path +:+ queryText q) = true) as Hpr.
  { change (sch +:+ "://" +:+ host +:+ path +:+ queryText q) with (sch +:+ "://" +:+ (host +:+ path +:+ queryText q)).
    rewrite <- !(string_app_assoc sch), <- string_app_assoc, (string_app_assoc sch), all_bytes_app.
    rewrite (all_bytes_mono _ _ _ printable_no_control (origin_printable sch host Hs Hh)), all_bytes_app.
    rewrite (all_bytes_mono pathByte _ path) by (done || by intros a [? _]%andb_prop). cbn [andb].
    apply queryText_bytes; [done|]. by apply (all_bytes_mono queryByte); [intros a [? _]%andb_prop|]. }
  unfold ParseURL. rewrite cut_or_plain by done. unfold parsePlain. rewrite Hpr. cbn [negb].
  rewrite bool_decide_eq_false_2 by (intros E; by destruct sch as [|? []]).
  change (sch +:+ "://" +:+ host +:+ path +:+ queryText q) with (sch +:+ String ":" ("//" +:+ host +:+ path +:+ queryText q)).
  rewrite getScheme_app by done. cbn [mbind option_bind fst snd]. rewrite Hl.
  change ("//" +:+ host +:+ path +:+ queryText q) with ("//" +:+ (host +:+ (path +:+ queryText q))).
  rewrite <- (string_app_assoc host path), <- (string_app_assoc "//"). rewrite cut_queryText.
  2:{ rewrite !contains_byte_app. by rewrite (hostLiteral_class "?" host), Hpath. }
  change (has_prefix "/" ("//" +:+ host +:+ path)) with true. cbv iota. unfold parseRest.
  change (has_prefix "//" ("//" +:+ host +:+ path)) with true.
  rewrite (bool_decide_eq_false_2 (sch = "")) by (by destruct sch). cbn [andb negb].
  change (drop_bytes 2 ("//" +:+ host +:+ path)) with (host +:+ path).
  assert (match cut "/" (host +:+ path) with Some (a, p) => (a, String "/" p) | None => (host +:+ path, "") end = (host, path)) as ->.
  { assert (contains_byte "/" host = false) as Hslash by (by apply hostLiteral_class). destruct Hp as [-> |[t ->]%has_prefix_spec].
    - by rewrite string_app_nil_r, (proj2 (cut_None "/" host)).
    - change ("/" +:+ t) with (String "/" t). by rewrite cut_app. }
  rewrite Ha. cbn [mbind option_bind fst snd]. by rewrite Hd.
Qed.

(** Without a query. *)
Lemma ParseURL_at sch host path decoded : schemeName sch = true → map_bytes to_lower sch = sch →
  all_bytes (λ a, negb (shouldEscapeHost a)) host = true → parseAuthority host = Some (None, host) →
  path = "" ∨ has_prefix "/" path = true → all_bytes pathByte path = true → unescape encodePath path = Some decoded →
  ParseURL (sch +:+ "://" +:+ host +:+ path) =
  Some (mkURL sch "" None host decoded "" "" (rawOf encodePath path decoded) "" false false).
Proof.
  intros Hs Hl Hh Ha Hp Hpb Hd. pose proof (ParseURL_at_query sch host path decoded "" Hs Hl Hh Ha Hp Hpb Hd eq_refl) as H.
  by rewrite string_app_nil_r in H.
Qed.

(** An origin is parsed as its scheme and its host. *)
Lemma ParseURL_origin sch host : schemeName sch = true → map_bytes to_lower sch = sch →
  all_bytes (λ a, negb (shouldEscapeHost a)) host = true → parseAuthority host = Some (None, host) →
  ParseURL (sch +:+ "://" +:+ host) = Some (mkURL sch "" None host "" "" "" "" "" false false).
Proof.
  intros Hs Hl Hh Ha. pose proof (ParseURL_at sch host "" "" Hs Hl Hh Ha) as H. rewrite string_app_nil_r in H. apply H; auto.
Qed.

(** ** Hosts with a port *)

Lemma SplitHostPort_Some h host port : SplitHostPort h = Some (host, port) →
  ∃ before, h = before +:+ String ":" port ∧ contains_byte ":" port = false.
Proof.
  unfold SplitHostPort. destruct (cut_last ":" h) as [[before p]|] eqn:E; [|done]. apply cut_last_Some in E as [-> Hp].
  intros H. exists before. assert (p = port) as ->; [|done]. destruct (has_prefix "[" _).
  - destruct (cut "]" _) as [[opened rest]|]; [|done]. by destruct (_ && _); [injection H as _ ->|].
  - by destruct (_ || _); [|injection H as _ ->].
Qed.

(** A host with a port does not end in a colon. *)
Lemma SplitHostPort_trim h host port : SplitHostPort h = Some (host, port) → port ≠ "" → trim_suffix ":" h = h.
Proof.
  intros (before & -> & Hp)%SplitHostPort_Some Hne.
  destruct (trim_suffix_or ":" (before +:+ String ":" port)) as [E|E]; [done|].
  exfalso. set (x := trim_suffix _ _) in *. clearbody x.
  destruct (string_rev_case port) as [->|(t & c & ->)]; [done|].
  change (String ":" (t +:+ String c "")) with (String ":" t +:+ String c "") in E. rewrite <- string_app_assoc in E.
  apply string_app_last in E as [_ ->]. rewrite contains_byte_app in Hp. simpl in Hp. by rewrite orb_true_r in Hp.
Qed.
