(* ===== verification/UrlRefs.v ===== *)
(** * Resolving and writing URLs (net/url of the Go library)

    [URL.String], [URL.ResolveReference] and [URL.Parse] as of Go 1.26, with the query
    values, and what becomes of a path that is put behind a plain base URL: the
    resolved URL is the base followed by the path, and reads back as such. *)

From stdpp Require Import prelude strings gmap.
From Stdlib Require Import ZArith Lia Ascii.
From S2P Require Import Prelude GoStrings Urls.

Local Open Scope string_scope.
Local Open Scope list_scope.

(** ** Writing *)

(** [validEncoded]. *)
Definition validEncoded (mode : encoding) (s : string) : bool :=
  all_bytes (λ a, contains_byte a "!$&'()*+,;=:@[]%" || negb (shouldEscape mode a)) s.

(** The text as it was written, when it still stands for the decoded one. *)
Definition keptRaw (mode : encoding) (raw decoded : string) : bool :=
  negb (bool_decide (raw = "")) && validEncoded mode raw && bool_decide (unescape mode raw = Some decoded).

Definition EscapedPath (u : URL) : string :=
  if keptRaw encodePath (RawPath u) (Path u) then RawPath u
  else if bool_decide (Path u = "*") then "*" else escape encodePath (Path u).

Definition EscapedFragment (u : URL) : string :=
  if keptRaw encodeFragment (RawFragment u) (Fragment u) then RawFragment u else escape encodeFragment (Fragment u).

(** [Userinfo.String]. *)
Definition userinfoString (user : string * option string) : string :=
  escape encodeUserPassword user.1 +:+
  match user.2 with Some password => ":" +:+ escape encodeUserPassword password | None => "" end.

(** The authority with its slashes. *)
Definition authorityString (u : URL) : string :=
  if bool_decide (Scheme u = "") && bool_decide (Host u = "") && bool_decide (User u = None) then ""
  else if OmitHost u && bool_decide (Host u = "") && bool_decide (User u = None) then ""
  else
    (if negb (bool_decide (Host u = "")) || negb (bool_decide (Path u = "")) || negb (bool_decide (User u = None))
     then "//" else "") +:+
    match User u with Some user => userinfoString user +:+ "@" | None => "" end +:+
    escape encodeHost (Host u).

Definition hierString (u : URL) : string :=
  let before := authorityString u in
  let path := EscapedPath u in
  before +:+
  (if negb (bool_decide (path = "")) && negb (has_prefix "/" path) && negb (bool_decide (Host u = "")) then "/"
   else if bool_decide (Scheme u = "") && bool_decide (before = "") && contains_byte ":" (cut_or "/" path).1 then "./"
   else "") +:+ path.

(** [URL.String]. *)
Definition URL_String (u : URL) : string :=
  (if bool_decide (Scheme u = "") then "" else Scheme u +:+ ":") +:+
  (if bool_decide (Opaque u = "") then hierString u else Opaque u) +:+
  (if ForceQuery u || negb (bool_decide (RawQuery u = "")) then "?" +:+ RawQuery u else "") +:+
  (if bool_decide (Fragment u = "") then "" else "#" +:+ EscapedFragment u).

(** ** Resolving *)

(** One element of a path in the loop of [resolvePath]: what was written so far, which
    starts with a slash, and whether the next element is the first. *)
Definition resolveElem (st : string * bool) (elem : string) : string * bool :=
  let (dst, first) := st in
  if bool_decide (elem = ".") then (dst, false)
  else if bool_decide (elem = "..") then
    match cut_last "/" (drop_bytes 1 dst) with
    | None => ("/", true)
    | Some (before, _) => ("/" +:+ before, first)
    end
  else ((if first then dst else dst +:+ "/") +:+ elem, false).

Definition isDot (elem : string) : bool := bool_decide (elem = ".") || bool_decide (elem = "..").

Definition resolvePath (base ref : string) : string :=
  let full := if bool_decide (ref = "") then base
              else if has_prefix "/" ref then ref
              else match cut_last "/" base with Some (before, _) => before +:+ "/" | None => "" end +:+ ref in
  if bool_decide (full = "") then ""
  else
    let elems := split_on "/" full in
    let dst := (foldl resolveElem ("/", true) elems).1 in
    let dst := if isDot (default "" (last elems)) then dst +:+ "/" else dst in
    if has_prefix "//" dst then drop_bytes 1 dst else dst.

(** [setPath], whose error is dropped. *)
Definition setPath (p : string) (u : URL) : URL :=
  match unescape encodePath p with
  | None => u
  | Some decoded => mkURL (Scheme u) (Opaque u) (User u) (Host u) decoded (RawQuery u) (Fragment u)
                      (rawOf encodePath p decoded) (RawFragment u) (ForceQuery u) (OmitHost u)
  end.

(** [u.ResolveReference(ref)]. *)
Definition ResolveReference (u ref : URL) : URL :=
  let scheme := if bool_decide (Scheme ref = "") then Scheme u else Scheme ref in
  let url user host path query fragment rawFragment opaque :=
    mkURL scheme opaque user host path query fragment (RawPath ref) rawFragment (ForceQuery ref) (OmitHost ref) in
  if negb (bool_decide (Scheme ref = "")) || negb (bool_decide (Host ref = "")) || negb (bool_decide (User ref = None))
  then setPath (resolvePath (EscapedPath ref) "")
         (url (User ref) (Host ref) (Path ref) (RawQuery ref) (Fragment ref) (RawFragment ref) (Opaque ref))
  else if negb (bool_decide (Opaque ref = ""))
  then url None "" "" (RawQuery ref) (Fragment ref) (RawFragment ref) (Opaque ref)
  else
    let inherits := bool_decide (Path ref = "") && negb (ForceQuery ref) && bool_decide (RawQuery ref = "") in
    let query := if inherits then RawQuery u else RawQuery ref in
    let inheritsFragment := inherits && bool_decide (Fragment ref = "") in
    let fragment := if inheritsFragment then Fragment u else Fragment ref in
    let rawFragment := if inheritsFragment then RawFragment u else RawFragment ref in
    if bool_decide (Path ref = "") && negb (bool_decide (Opaque u = ""))
    then url None "" "" query fragment rawFragment (Opaque u)
    else setPath (resolvePath (EscapedPath u) (EscapedPath ref))
           (url (User u) (Host u) (Path ref) query fragment rawFragment (Opaque ref)).

(** [u.Parse(ref)]. *)
Definition URL_Parse (u : URL) (ref : string) : option URL := ResolveReference u <$> ParseURL ref.

(** The reference resolved against a base, as in the examples of RFC 3986. *)
Definition resolved (base ref : string) : option string :=
  u ← ParseURL base; v ← URL_Parse u ref; Some (URL_String v).

Example resolved_plain : resolved "http://127.0.0.1:80/v2/bus/" "./event/a/b:c" = Some "http://127.0.0.1:80/v2/bus/event/a/b:c".
Proof. reflexivity. Qed.
Example resolved_missing : resolved "message bus address not found/" "./event_type" = Some "/message%20bus%20address%20not%20found/event_type".
Proof. reflexivity. Qed.
Example resolved_dots : resolved "http://a/b/c/d;p?q" "../g" = Some "http://a/b/g".
Proof. reflexivity. Qed.
Example resolved_empty : resolved "http://a/b/c/d;p?q" "" = Some "http://a/b/c/d;p?q".
Proof. reflexivity. Qed.
Example resolved_up : resolved "http://a/b/c/d;p?q" ".." = Some "http://a/b/".
Proof. reflexivity. Qed.

(** ** Query values *)

Definition plus_space (a : ascii) : ascii := if bool_decide (a = "+"%char) then " "%char else a.

(** [QueryUnescape] and [QueryEscape]. *)
Definition QueryUnescape (s : string) : option string := unescape encodeQueryComponent (map_bytes plus_space s).

Fixpoint QueryEscape (s : string) : string :=
  match s with
  | EmptyString => ""
  | String a s' =>
     (if bool_decide (a = " "%char) then "+" else if shouldEscape encodeQueryComponent a then percent a else String a "") +:+
     QueryEscape s'
  end.

(** [urlmaxqueryparams]. *)
Definition maxQueryParams : nat := N.to_nat 10000.

Definition addValue (values : gmap string (list string)) (pair : string) : gmap string (list string) :=
  if contains_byte ";" pair || bool_decide (pair = "") then values
  else
    let (key, value) := cut_or "=" pair in
    match QueryUnescape key, QueryUnescape value with
    | Some key, Some value => <[key := default [] (values !! key) ++ [value]]> values
    | _, _ => values
    end.

(** [URL.Query], which drops what cannot be parsed. *)
Definition Query (RawQuery : string) : gmap string (list string) :=
  if (maxQueryParams <? count_byte "&" RawQuery + 1)%nat then ∅ else foldl addValue ∅ (split_on "&" RawQuery).

(** [Values.Encode]. *)
Definition valuesEncode (values : gmap string (list string)) : string :=
  join_with "&" (k ← sorted (dom values); (λ v, QueryEscape k +:+ "=" +:+ QueryEscape v) <$> default [] (values !! k)).

(** ** A path behind a plain base *)

(** A path that is written in a URL as it stands: valid escapes and no byte that
    needs one, no query or fragment, no dot elements. *)
Record plainPath (p : string) : Prop := {
  pp_valid : validEncoded encodePath p = true;
  pp_decoded : is_Some (unescape encodePath p);
  pp_dots : Forall (λ e, isDot e = false) (split_on "/" p);
}.

Lemma valid_pathByte a : contains_byte a "!$&'()*+,;=:@[]%" || negb (shouldEscape encodePath a) = true → pathByte a = true.
Proof. by destruct a as [[] [] [] [] [] [] [] []]. Qed.

Lemma validEncoded_pathByte p : validEncoded encodePath p = true → all_bytes pathByte p = true.
Proof. apply all_bytes_mono, valid_pathByte. Qed.

Lemma validEncoded_app mode p q : validEncoded mode (p +:+ q) = validEncoded mode p && validEncoded mode q.
Proof. apply all_bytes_app. Qed.

Lemma unescape_app mode p q x y : unescape mode p = Some x → unescape mode q = Some y → unescape mode (p +:+ q) = Some (x +:+ y).
Proof.
  revert x. induction p as [p IH] using (induction_ltof1 _ String.length). unfold ltof in IH. intros x.
  destruct p as [|a p]; cbn [unescape String.append]; [by intros [= <-]|]. case_bool_decide.
  - destruct p as [|h [|l p]]; [done..|]. cbn [String.append].
    destruct (unhex h), (unhex l); try done. destruct (escapable _ _); [|done].
    intros (x' & Hx & ->)%fmap_Some Hq. by rewrite (IH p ltac:(simpl; lia) x' Hx Hq).
  - destruct (literal mode a); [|done]. intros (x' & Hx & ->)%fmap_Some Hq.
    by rewrite (IH p ltac:(simpl; lia) x' Hx Hq).
Qed.

Lemma split_slash s t : split_on "/" (s +:+ "/" +:+ t) = split_on "/" s ++ split_on "/" t.
Proof.
  induction s as [|a s IH]; [done|]. cbn [String.append split_on] in *. rewrite IH.
  destruct (bool_decide (a = "/"%char)); [done|].
  destruct (split_on "/" s) as [|e l] eqn:E; [by apply split_on_ne_nil in E|]. done.
Qed.

Lemma plainPath_join p q : plainPath p → plainPath q → plainPath (p +:+ "/" +:+ q).
Proof.
  intros [Vp [x Dp] Sp] [Vq [y Dq] Sq]. split.
  - by rewrite !validEncoded_app, Vp, Vq.
  - eexists. apply unescape_app; [done|]. by apply (unescape_app _ "/" q "/" y).
  - rewrite split_slash. by apply Forall_app.
Qed.

(** The loop copies elements that are no dots. *)
Lemma resolve_copy elems dst : Forall (λ e, isDot e = false) elems →
  foldl resolveElem (dst, false) elems = (dst +:+ foldr (λ e s, "/" +:+ e +:+ s) "" elems, false).
Proof.
  revert dst. induction elems as [|e elems IH]; intros dst; [by rewrite string_app_nil_r|].
  intros [He Hl]%Forall_cons. cbn [foldl foldr]. apply orb_false_iff in He as [H1 H2].
  unfold resolveElem at 2. rewrite H1, H2, IH by done. by rewrite !string_app_assoc.
Qed.

Lemma join_elems c elems : elems ≠ [] → foldr (λ e s, String c "" +:+ e +:+ s) "" elems = String c (join_with c elems).
Proof.
  induction elems as [|e elems IH]; [done|]. intros _. cbn [foldr]. destruct elems as [|e' elems].
  - simpl. by rewrite string_app_nil_r.
  - rewrite IH by done. done.
Qed.

(** Under a directory a relative path stays what it is. *)
Lemma resolvePath_under prefix p : prefix = "" ∨ has_prefix "/" prefix = true →
  Forall (λ e, isDot e = false) (split_on "/" prefix) → Forall (λ e, isDot e = false) (split_on "/" p) →
  resolvePath (prefix +:+ "/") ("./" +:+ p) = prefix +:+ "/" +:+ p.
Proof.
  intros Hpre Hdots Hp. unfold resolvePath. change ("./" +:+ p) with (String "." (String "/" p)).
  rewrite (bool_decide_eq_false_2 (String "." _ = "")) by done.
  change (has_prefix "/" (String "." (String "/" p))) with false. cbv iota zeta.
  change (prefix +:+ "/") with (prefix +:+ String "/" ""). rewrite cut_last_app by done.
  rewrite bool_decide_eq_false_2 by (by destruct prefix).
  rewrite string_app_assoc, split_slash. change (split_on "/" (String "." (String "/" p))) with ("." :: split_on "/" p).
  pose proof (split_on_ne_nil "/" p) as Hne.
  assert (isDot (default "" (last (split_on "/" prefix ++ "." :: split_on "/" p))) = false) as ->.
  { rewrite last_app_cons, last_cons. destruct (last (split_on "/" p)) as [e|] eqn:E; [|by apply last_None in E].
    simpl. rewrite Forall_forall in Hp. apply Hp. by apply last_Some_elem_of. }
  rewrite foldl_app. cbn [foldl]. set (start := foldl resolveElem ("/", true) (split_on "/" prefix)).
  assert (start = ("/" +:+ prefix, false)) as ->.
  { unfold start. destruct Hpre as [->|[t ->]%has_prefix_spec]; [done|].
    change ("/" +:+ t) with (String "/" t) in *. cbn [split_on] in *. rewrite bool_decide_eq_true_2 in * by done.
    apply Forall_cons in Hdots as [_ Hdots]. cbn [foldl]. unfold resolveElem at 2. rewrite !bool_decide_eq_false_2 by done.
    rewrite resolve_copy by done. f_equal. change ("/" +:+ "") with "/". rewrite (join_elems "/") by apply split_on_ne_nil.
    by rewrite join_split. }
  assert (∀ x, resolveElem (x, false) "." = (x, false)) as -> by done. rewrite !resolve_copy by done. cbn [fst].
  rewrite (join_elems "/") by done. rewrite join_split.
  destruct Hpre as [->|[t ->]%has_prefix_spec]; [done|]. done.
Qed.

Lemma EscapedPath_written u p : unescape encodePath p = Some (Path u) → RawPath u = rawOf encodePath p (Path u) →
  validEncoded encodePath p = true → Path u ≠ "*" → EscapedPath u = p.
Proof.
  intros Hd Hr Hv Hs. unfold EscapedPath, keptRaw. rewrite Hr. unfold rawOf.
  destruct (bool_decide_reflect (p = escape encodePath (Path u))) as [E|E].
  - rewrite (bool_decide_eq_true_2 ("" = "")) by done. simpl. rewrite bool_decide_eq_false_2 by done. by rewrite <- E.
  - rewrite Hv, Hd, (bool_decide_eq_true_2 (Some _ = _)) by done. rewrite bool_decide_eq_false_2; [done|].
    intros ->. simpl in Hd. injection Hd as Hd. by rewrite <- Hd in E.
Qed.

Lemma unescape_slash p d : unescape encodePath p = Some d → unescape encodePath ("/" +:+ p) = Some ("/" +:+ d).
Proof. intros H. by apply (unescape_app _ "/" p "/" d). Qed.

Lemma ParseURL_relative p d : unescape encodePath p = Some d → all_bytes pathByte p = true →
  ParseURL ("./" +:+ p) = Some (mkURL "" "" None "" ("./" +:+ d) "" "" (rawOf encodePath ("./" +:+ p) ("./" +:+ d)) "" false false).
Proof.
  intros Hd Hp. assert (∀ c, contains_byte c "?#" = true → contains_byte c ("./" +:+ p) = false) as Hno.
  { intros c Hc. apply (all_bytes_no_byte pathByte); [|by rewrite all_bytes_app, Hp]. unfold pathByte. by rewrite Hc, andb_false_r. }
  unfold ParseURL. rewrite cut_or_plain by (by apply Hno). unfold parsePlain.
  assert (all_bytes (λ a, negb (is_control a)) ("./" +:+ p) = true) as ->.
  { apply (all_bytes_mono pathByte); [by intros a [? _]%andb_prop|by rewrite all_bytes_app, Hp]. }
  cbn [negb]. rewrite bool_decide_eq_false_2 by done.
  change (getScheme ("./" +:+ p)) with (Some ("", "./" +:+ p)). cbn [mbind option_bind fst snd map_bytes]. unfold cut_query.
  rewrite cut_or_plain, (Hno "?"%char) by (done || by apply Hno). cbn [andb].
  change (has_prefix "/" ("./" +:+ p)) with false. rewrite (bool_decide_eq_true_2 ("" = "")) by done. cbn [negb].
  change (cut_or "/" ("./" +:+ p)) with (".", p). cbn [fst contains_byte]. rewrite bool_decide_eq_false_2 by done. cbn [orb].
  unfold parseRest. change (has_prefix "//" ("./" +:+ p)) with false. cbn [andb].
  rewrite (unescape_app _ "./" p "./" d) by done. done.
Qed.

Lemma escape_host host : all_bytes (λ a, negb (shouldEscapeHost a)) host = true → escape encodeHost host = host.
Proof.
  induction host as [|a host IH]; [done|]. cbn [all_bytes escape shouldEscape]. intros [->%negb_true_iff H]%andb_prop.
  by rewrite IH.
Qed.

(** A base URL that is a scheme, a host and a path. *)
Record plainBase (sch host prefix : string) : Prop := {
  pb_scheme : schemeName sch = true;
  pb_lower : map_bytes to_lower sch = sch;
  pb_host : all_bytes (λ a, negb (shouldEscapeHost a)) host = true;
  pb_authority : parseAuthority host = Some (None, host);
  pb_some : host ≠ "";
  pb_prefix : prefix = "" ∨ has_prefix "/" prefix = true;
  pb_path : plainPath prefix;
}.

Definition queryURL (sch host path decoded query : string) : URL :=
  mkURL sch "" None host decoded query "" (rawOf encodePath path decoded) "" false false.

Definition plainURL (sch host path decoded : string) : URL := queryURL sch host path decoded "".

Section Behind.
Context (sch host prefix : string) (base : plainBase sch host prefix).

Lemma ParseURL_behind_query p d q : plainPath p → unescape encodePath (prefix +:+ "/" +:+ p) = Some d → all_bytes queryByte q = true →
  ParseURL (sch +:+ "://" +:+ host +:+ (prefix +:+ "/" +:+ p) +:+ queryText q) = Some (queryURL sch host (prefix +:+ "/" +:+ p) d q).
Proof using base.
  intros Hp Hd Hq. destruct base as [Hs Hl Hh Ha _ Hpre Hpath]. apply ParseURL_at_query; try done.
  - right. by destruct Hpre as [->|[t ->]%has_prefix_spec].
  - apply validEncoded_pathByte, plainPath_join; done.
Qed.

Lemma ParseURL_behind p d : plainPath p → unescape encodePath (prefix +:+ "/" +:+ p) = Some d →
  ParseURL (sch +:+ "://" +:+ host +:+ prefix +:+ "/" +:+ p) = Some (plainURL sch host (prefix +:+ "/" +:+ p) d).
Proof using base.
  intros Hp Hd. pose proof (ParseURL_behind_query p d "" Hp Hd eq_refl) as H.
  change (queryText "") with "" in H. by rewrite string_app_nil_r in H.
Qed.

Lemma String_queryURL path d q : has_prefix "/" path = true → validEncoded encodePath path = true →
  unescape encodePath path = Some d → URL_String (queryURL sch host path d q) = sch +:+ "://" +:+ host +:+ path +:+ queryText q.
Proof using base.
  intros Hp Hv Hd. destruct base as [Hs _ Hh _ Hne _ _].
  assert (d ≠ "*") as Hstar.
  { apply has_prefix_spec in Hp as [t ->]. cbn [String.append unescape] in Hd. rewrite bool_decide_eq_false_2 in Hd by done.
    simpl in Hd. by apply fmap_Some in Hd as (x & _ & ->). }
  unfold URL_String, hierString, authorityString. rewrite (EscapedPath_written _ path) by done. unfold queryURL.
  cbn [Scheme Opaque User Host Path RawQuery Fragment ForceQuery OmitHost].
  rewrite (bool_decide_eq_false_2 (sch = "")) by (by destruct sch). rewrite (bool_decide_eq_false_2 (host = "")) by done.
  rewrite Hp. rewrite !(bool_decide_eq_true_2 ("" = "")) by done. cbn [andb orb negb].
  rewrite (bool_decide_eq_false_2 (path = "")) by (by destruct path). cbn [andb negb]. rewrite escape_host by done.
  unfold queryText. cbn [String.append]. destruct (bool_decide (q = "")); cbn [negb String.append]; rewrite ?string_app_nil_r;
    by rewrite !string_app_assoc.
Qed.

Lemma String_plainURL path d : has_prefix "/" path = true → validEncoded encodePath path = true →
  unescape encodePath path = Some d → URL_String (plainURL sch host path d) = sch +:+ "://" +:+ host +:+ path.
Proof using base.
  intros Hp Hv Hd. unfold plainURL. rewrite String_queryURL by done. change (queryText "") with "". by rewrite string_app_nil_r.
Qed.

(** What follows the base is put behind it. *)
Lemma resolve_written p d : plainPath p → unescape encodePath (prefix +:+ "/" +:+ p) = Some d →
  ∃ u, ParseURL (sch +:+ "://" +:+ host +:+ prefix +:+ "/") = Some u ∧
    URL_Parse u ("./" +:+ p) = Some (plainURL sch host (prefix +:+ "/" +:+ p) d).
Proof using base.
  intros Hp Hd. destruct (pp_decoded _ (pb_path _ _ _ base)) as [dpre Hdpre]. destruct (pp_decoded _ Hp) as [dp Hdp].
  assert (plainPath "") as Hempty by (split; [done|by eexists|by repeat constructor]).
  assert (unescape encodePath (prefix +:+ "/" +:+ "") = Some (dpre +:+ "/")) as Hb by (by apply unescape_app).
  pose proof (ParseURL_behind "" _ Hempty Hb) as Hu. rewrite !string_app_nil_r in *.
  eexists. split; [exact Hu|]. unfold URL_Parse. rewrite (ParseURL_relative p dp) by (by try apply validEncoded_pathByte, pp_valid).
  cbn [fmap option_fmap option_map]. f_equal.
  set (u := plainURL sch host (prefix +:+ "/") (dpre +:+ "/")). set (ref := mkURL "" _ _ _ _ _ _ _ _ _ _). unfold ResolveReference.
  assert (EscapedPath u = prefix +:+ "/") as ->.
  { apply EscapedPath_written; [done|done| |]; [by rewrite validEncoded_app, (pp_valid _ (pb_path _ _ _ base))|].
    cbn [Path u plainURL queryURL]. destruct dpre as [|? []]; done. }
  assert (EscapedPath ref = "./" +:+ p) as ->.
  { apply EscapedPath_written; [by apply (unescape_app _ "./" p "./" dp)|done|by rewrite validEncoded_app, (pp_valid _ Hp)|done]. }
  rewrite resolvePath_under by (by try apply base; try apply Hp). cbn [Scheme Host User Path Opaque RawQuery Fragment ref].
  rewrite !(bool_decide_eq_true_2 ("" = "")) by done. rewrite (bool_decide_eq_false_2 ("./" +:+ dp = "")) by done.
  cbn [andb negb orb]. unfold setPath. by rewrite Hd.
Qed.

(** It reads back with it. *)
Lemma resolve_behind p d : plainPath p → unescape encodePath (prefix +:+ "/" +:+ p) = Some d →
  ∃ u v, ParseURL (sch +:+ "://" +:+ host +:+ prefix +:+ "/") = Some u ∧ URL_Parse u ("./" +:+ p) = Some v ∧
    Scheme v = sch ∧ Host v = host ∧ User v = None ∧ Path v = d ∧ RawQuery v = "" ∧ Fragment v = "" ∧
    URL_String v = sch +:+ "://" +:+ host +:+ prefix +:+ "/" +:+ p.
Proof using base.
  intros Hp Hd. destruct (resolve_written p d Hp Hd) as (u & Hu & Hv). eexists _, _. split_and!; [exact Hu|exact Hv|done..|].
  apply String_plainURL; [|apply plainPath_join; [apply base|done]|done].
  by destruct (pb_prefix _ _ _ base) as [->|[t ->]%has_prefix_spec].
Qed.
End Behind.

(** ** A base that is no URL *)

Lemma getScheme_nonletter a s sch rest : is_letter a = false → getScheme (String a s) = Some (sch, rest) → sch = "".
Proof. intros Ha. cbn [getScheme]. case_bool_decide; [done|]. rewrite Ha. by intros [= <- _]. Qed.

Lemma parseRest_scheme scheme rest query u : parseRest scheme rest query = Some u → Scheme u = scheme.
Proof.
  unfold parseRest. destruct (_ && _).
  - destruct (match cut "/" _ with Some _ => _ | None => _ end) as [auth path].
    intros (uh & _ & (d & _ & [= <-])%bind_Some)%bind_Some. done.
  - by intros (d & _ & [= <-])%bind_Some.
Qed.

(** A text that starts with no letter has no scheme. *)
Lemma ParseURL_nonletter a s u : is_letter a = false → ParseURL (String a s) = Some u → Scheme u = "".
Proof.
  intros Ha. unfold ParseURL. destruct (cut_or "#" (String a s)) as [x f] eqn:Hc.
  intros (v & Hv & (d & _ & [= <-])%bind_Some)%bind_Some. cbn [Scheme].
  assert (x = "" ∨ ∃ t, x = String a t) as Hx.
  { destruct (cut_or_split "#" (String a s)) as (t & Hs & _ & _). rewrite Hc in Hs. cbn [fst] in Hs.
    destruct x as [|b x]; [by left|]. injection Hs as <- _. eauto. }
  revert Hv. unfold parsePlain. destruct (negb _); [done|]. case_bool_decide; [by intros [= <-]|].
  intros ([sch rest] & Hg & Hr)%bind_Some. cbn [fst snd] in Hr.
  assert (sch = "") as ->.
  { destruct Hx as [->|[t ->]]; [by injection Hg as <- _|]. by eapply getScheme_nonletter. }
  destruct (cut_query rest) as [r q]. cbn [map_bytes] in Hr. destruct (has_prefix "/" r); [by eapply parseRest_scheme|].
  rewrite (bool_decide_eq_true_2 ("" = "")) in Hr by done. cbn [negb] in Hr.
  destruct (contains_byte _ _); [done|]. by eapply parseRest_scheme.
Qed.

(** A reference that starts with a dot element has only a path, and the path starts
    with it. *)
Lemma ParseURL_dot s u : ParseURL ("./" +:+ s) = Some u →
  Scheme u = "" ∧ Host u = "" ∧ User u = None ∧ Opaque u = "" ∧
  ∃ w t, Path u = "./" +:+ t ∧ RawPath u = rawOf encodePath ("./" +:+ w) (Path u).
Proof.
  unfold ParseURL. assert (∀ c t, c ≠ "."%char → c ≠ "/"%char → ∃ t', (cut_or c ("./" +:+ t)).1 = "./" +:+ t') as Hcut.
  { intros c t H1 H2. rewrite cut_or_app; [eauto|]. simpl. by rewrite !bool_decide_eq_false_2 by congruence. }
  destruct (Hcut "#"%char s) as [t1 H1]; [done..|]. destruct (cut_or "#" _) as [x f]. cbn [fst] in H1. subst x.
  intros (v & Hv & (d & _ & [= <-])%bind_Some)%bind_Some. cbn [Scheme Host User Opaque Path RawPath]. revert Hv.
  unfold parsePlain. destruct (negb _); [done|]. rewrite bool_decide_eq_false_2 by done.
  change (getScheme ("./" +:+ t1)) with (Some ("", "./" +:+ t1)). cbn [mbind option_bind fst snd map_bytes]. unfold cut_query.
  destruct (Hcut "?"%char t1) as [t2 H2]; [done..|]. destruct (cut_or "?" _) as [x q]. cbn [fst] in H2. subst x.
  change (has_prefix "/" ("./" +:+ t2)) with false. rewrite (bool_decide_eq_true_2 ("" = "")) by done. cbn [negb].
  change (cut_or "/" ("./" +:+ t2)) with (".", t2). change (contains_byte ":" (".", t2).1) with false. cbv iota.
  unfold parseRest. change (has_prefix "//" ("./" +:+ t2)) with false. cbn [andb].
  intros (d' & Hd & [= <-])%bind_Some. cbn [Scheme Host User Opaque Path RawPath]. split_and!; [done..|].
  cbn [String.append unescape] in Hd. rewrite bool_decide_eq_false_2 in Hd by done. cbn [literal] in Hd.
  apply fmap_Some in Hd as (d1 & Hd & ->). rewrite bool_decide_eq_false_2 in Hd by done.
  apply fmap_Some in Hd as (d2 & _ & ->). by exists t2, d2.
Qed.

(** A text that starts with a slash or with a dot element. *)
Definition rooted (s : string) : Prop := has_prefix "/" s = true ∨ has_prefix "./" s = true.

Lemma rooted_EscapedPath u p : rooted p → rooted (Path u) → RawPath u = rawOf encodePath p (Path u) → rooted (EscapedPath u).
Proof.
  intros Hp Hu Hr. unfold EscapedPath, keptRaw. rewrite Hr.
  destruct (negb _ && _ && _) eqn:E.
  - unfold rawOf in *. by destruct (bool_decide (p = _)).
  - destruct Hu as [[t ->]%has_prefix_spec|[t ->]%has_prefix_spec]; (rewrite bool_decide_eq_false_2 by done); [by left|by right].
Qed.

Lemma resolveElem_slash st e : has_prefix "/" st.1 = true → has_prefix "/" (resolveElem st e).1 = true.
Proof.
  destruct st as [dst first]. cbn [fst]. intros [t ->]%has_prefix_spec. unfold resolveElem.
  case_bool_decide; [done|]. case_bool_decide; [by destruct (cut_last _ _) as [[]|]|]. by destruct first.
Qed.

Lemma resolvePath_slash base ref : ref ≠ "" → has_prefix "/" (resolvePath base ref) = true.
Proof.
  intros Hne. unfold resolvePath. rewrite (bool_decide_eq_false_2 (ref = "")) by done. cbv zeta.
  set (full := if has_prefix "/" ref then ref else _). rewrite bool_decide_eq_false_2.
  2:{ unfold full. destruct (has_prefix "/" ref); [done|]. destruct ref; [done|]. by destruct (cut_last _ _) as [[[] ?]|]. }
  assert (∀ l st, has_prefix "/" st.1 = true → has_prefix "/" (foldl resolveElem st l).1 = true) as Hl.
  { induction l as [|e l IH]; [done|]. intros st H. cbn [foldl]. by apply IH, resolveElem_slash. }
  specialize (Hl (split_on "/" full) ("/", true) eq_refl). set (dst := (foldl _ _ _).1) in *. clearbody dst.
  assert (∀ x, has_prefix "/" x = true → has_prefix "/" (if has_prefix "//" x then drop_bytes 1 x else x) = true) as Hx.
  { intros x H. destruct (has_prefix "//" x) eqn:E; [|done]. by apply has_prefix_spec in E as [t ->]. }
  apply Hx. destruct (isDot _); [|done]. apply has_prefix_spec in Hl as [t ->]. done.
Qed.

(** Without a scheme and a host nothing that is resolved has a scheme. *)
Lemma resolve_nowhere u p v w : Scheme u = "" → Host u = "" → User u = None → Opaque u = "" →
  URL_Parse u ("./" +:+ p) = Some v → ParseURL (URL_String v) = Some w → Scheme w = "".
Proof.
  intros Hs Hh Hus Ho.
  unfold URL_Parse. destruct (ParseURL ("./" +:+ p)) as [ref|] eqn:Href; [|done]. cbn [fmap option_fmap option_map]. intros [= <-] Hw.
  apply ParseURL_dot in Href as (Rs & Rh & Ru & Ro & raw & t & Rp & Rr).
  assert (rooted (EscapedPath ref)) as Hre by (eapply (rooted_EscapedPath _ ("./" +:+ raw)); [by right|rewrite Rp; by right|done]).
  assert (rooted (URL_String (ResolveReference u ref))) as Hroot; [|].
  { unfold ResolveReference. rewrite Rs, Rh, Ru, Ro, Hs, Hh, Hus, Ho, Rp.
    rewrite !(bool_decide_eq_true_2 (_ = _)) by done. rewrite (bool_decide_eq_false_2 ("./" +:+ t = "")) by done.
    cbn [negb orb andb]. set (r := resolvePath _ _).
    assert (has_prefix "/" r = true) as Hr.
    { apply resolvePath_slash. by destruct Hre as [[? ->]%has_prefix_spec|[? ->]%has_prefix_spec]. }
    set (url := mkURL "" "" None "" _ _ _ _ _ _ _).
    assert (rooted (EscapedPath (setPath r url)) ∧ Scheme (setPath r url) = "" ∧ Host (setPath r url) = "" ∧
            User (setPath r url) = None ∧ Opaque (setPath r url) = "") as (Hpath & Us & Uh & Uu & Uo).
    { unfold setPath. destruct (unescape encodePath r) as [d|] eqn:Hd.
      - split_and!; [|done..]. eapply (rooted_EscapedPath _ r); [by left| |done]. left. cbn [Path].
        apply has_prefix_spec in Hr as [x ->]. cbn [String.append unescape] in Hd. rewrite bool_decide_eq_false_2 in Hd by done.
        cbn [literal] in Hd. by apply fmap_Some in Hd as (y & _ & ->).
      - split_and!; [|done..]. eapply (rooted_EscapedPath _ ("./" +:+ raw)); [by right|by right|]. cbn [RawPath Path url]. by rewrite Rr, Rp. }
    unfold URL_String, hierString, authorityString. rewrite Us, Uh, Uu, Uo. rewrite !(bool_decide_eq_true_2 (_ = _)) by done.
    cbn [andb negb]. rewrite andb_false_r. destruct Hpath as [[x ->]%has_prefix_spec|[x ->]%has_prefix_spec]; [by left|by right]. }
  set (text := URL_String _) in *.
  destruct Hroot as [[x ->]%has_prefix_spec|[x ->]%has_prefix_spec]; by apply ParseURL_nonletter in Hw.
Qed.
