(* ===== verification/Codegen.v ===== *)
(** * What the generated servers share (src/codegen)

    Both server sides under src/codegen come from the same templates: a wrapper per
    operation binds the parameters of an [echo.Context] and calls the implementation,
    and a registration function puts the wrappers behind a base URL. Here are the
    shapes those lines have in common, and the path of a request as net/http and echo
    see it. *)

From stdpp Require Import prelude strings gmap.
From Stdlib Require Import Ascii.
From S2P Require Import Prelude GoStrings Routes FileSystem Store Urls UrlRefs.

Local Open Scope string_scope.
Local Open Scope list_scope.
Local Open Scope m_scope.

(** ** Wrappers *)

(** What a wrapper uses of an [echo.Context]: the parameters of the path, those of the
    query, and [ctx.Request().URL.RawPath]. *)
Record EchoContext := mkEcho {
  ec_Param : string → string;
  ec_QueryParams : gmap string (list string);
  ec_RawPath : string;
}.

(** How a wrapper ends: the implementation ran, or a parameter was refused with
    status 400 and a message that names it. *)
Inductive Answer (A : Type) := Invoked (a : A) | InvalidFormat (parameter : string) (e : goerr).
Arguments Invoked {A}. Arguments InvalidFormat {A}.

(** The lines around each call of a binding function. *)
Definition bindParameter {V A} (name : string) (bound : res V) (next : V → M (Answer A)) : M (Answer A) :=
  match bound with
  | Err e => mret (InvalidFormat name e)
  | Ok value => next value
  end.

(** A parameter in the path; a binding function is told whether the text is unescaped
    already. *)
Definition bindPath {V A} (BindPath : string → string → bool → res V) (ctx : EchoContext) (name : string)
    (next : V → M (Answer A)) : M (Answer A) :=
  bindParameter name (BindPath name (ec_Param ctx name) (bool_decide (ec_RawPath ctx = ""))) next.

(** An optional parameter in the query. *)
Definition bindQuery {V A} (BindQuery : string → gmap string (list string) → res V) (ctx : EchoContext) (name : string)
    (next : V → M (Answer A)) : M (Answer A) :=
  bindParameter name (BindQuery name (ec_QueryParams ctx)) next.

(** The implementation is called with all the arguments. *)
Definition callback {A} (call : M A) : M (Answer A) := a <- call;; mret (Invoked a).

(** ** Registration *)

Record RegisterHandlersOptions (Middleware : Type) := mkOptions {
  BaseURL : string;
  OperationMiddlewares : gmap string (list Middleware);
}.
Arguments mkOptions {Middleware}. Arguments BaseURL {Middleware}. Arguments OperationMiddlewares {Middleware}.

(** [router.METHOD(options.BaseURL+path, wrapper, options.OperationMiddlewares[id]...)]. *)
Definition registerAt {Middleware Op : Type} (options : RegisterHandlersOptions Middleware) (r : string * string * Op * string)
    : Route (Op * list Middleware) :=
  let '(method, path, op, id) := r in
  mkRoute method (BaseURL options +:+ path) (op, default [] (OperationMiddlewares options !! id)).

(** ** Requests at the server *)

(** The URL the server makes of the request line, and echo's [GetPath]. *)
Definition arrived (u : URL) : URL := setPath (EscapedPath u) (mkURL "" "" None "" "" (RawQuery u) "" "" "" (ForceQuery u) false).
Definition routedPath (u : URL) : string := if bool_decide (RawPath u = "") then Path u else RawPath u.

(** The context of a request that was routed to [r]. *)
Definition contextOf {T} (r : Route T) (u : URL) : EchoContext :=
  mkEcho (paramOf r (routedPath u)) (Query (RawQuery u)) (RawPath u).

(** A value of a path parameter as bound from what echo hands over. *)
Definition lookupParam (pattern : string) (xs : list string) (name : string) : string :=
  from_option snd "" (List.find (λ b, bool_decide (b.1 = name)) (bindings (split_on "/" pattern) xs)).

(** What a binding function promises: it reverses the percent-encoding of a text that
    [show] writes for the value, on what echo hands over escaped or unescaped. *)
Class BindsPath {V} (show : V → string) (BindPath : string → string → bool → res V) : Prop := {
  bind_escaped name w v : show v ≠ "" → unescape encodePath w = Some (show v) → BindPath name w false = Ok v;
  bind_unescaped name v : show v ≠ "" → BindPath name (show v) true = Ok v;
}.

(** Parameters encoded with [url.PathEscape], as the runtime package does it. *)
Definition pathBind (_ x : string) (unescaped : bool) : res string :=
  if bool_decide (x = "") then Err (NewError "parameter is empty")
  else if unescaped then Ok x
  else match unescape encodePath x with Some v => Ok v | None => Err (NewError "error unescaping path parameter") end.

#[export] Instance pathBind_spec : BindsPath id pathBind.
Proof.
  split; intros name.
  - intros w v Hv Hd. unfold pathBind. rewrite bool_decide_eq_false_2 by (intros ->; simpl in Hd; unfold id in *; congruence). by rewrite Hd.
  - intros v Hv. unfold pathBind. by rewrite bool_decide_eq_false_2.
Qed.

Lemma bindPath_bound {V A} (show : V → string) BindPath `{!BindsPath show BindPath} ctx name (next : V → M (Answer A)) w v :
  show v ≠ "" → unescape encodePath w = Some (show v) →
  ec_RawPath ctx = "" ∧ ec_Param ctx name = show v ∨ ec_RawPath ctx ≠ "" ∧ ec_Param ctx name = w →
  bindPath BindPath ctx name next = next v.
Proof.
  intros Hv Hd H. unfold bindPath, bindParameter. destruct H as [[E ->]|[E ->]].
  - rewrite E, bool_decide_eq_true_2 by done. by rewrite bind_unescaped.
  - rewrite bool_decide_eq_false_2 by done. by erewrite bind_escaped.
Qed.

(** ** Segments of a path *)

(** A segment as it is written, and what it stands for. *)
Definition segment (s : string * string) : Prop :=
  validEncoded encodePath s.1 = true ∧ contains_byte "/" s.1 = false ∧ unescape encodePath s.1 = Some s.2 ∧ isDot s.1 = false.

(** A segment of the API's own. *)
Definition static (s : string) : string * string := (s, s).

Lemma join_cons c p q parts : join_with c (p :: q :: parts) = p +:+ String c (join_with c (q :: parts)).
Proof. done. Qed.

Lemma segments_path s segs : Forall segment (s :: segs) →
  plainPath (join_with "/" (s :: segs).*1) ∧ unescape encodePath (join_with "/" (s :: segs).*1) = Some (join_with "/" (s :: segs).*2).
Proof.
  revert s. induction segs as [|s' segs IH]; intros s [(Hv & Hs & Hd & Hdot) Hl]%Forall_cons; cbn [fmap list_fmap].
  - cbn [join_with]. split; [|done]. split; [done|by eexists|]. rewrite split_on_no_sep by done. by repeat constructor.
  - destruct (IH s' Hl) as [Hp Hu]. cbn [fmap list_fmap] in *. rewrite !join_cons. split.
    + apply (plainPath_join s.1); [|done]. split; [done|by eexists|]. rewrite split_on_no_sep by done. by repeat constructor.
    + apply unescape_app; [done|]. by apply unescape_slash.
Qed.

(** What is promised of a parameter that is written into a path: it is
    percent-encoded; the text needs no further escape, holds no slash, stands for the
    value, and is a dot element only when the value is. *)
Class StylesPath (StylePath : string → string → res string) : Prop := {
  style_path name v : v ≠ "" → ∃ w, StylePath name v = Ok w ∧ validEncoded encodePath w = true ∧
    contains_byte "/" w = false ∧ unescape encodePath w = Some v ∧ (isDot v = false → isDot w = false);
}.

Lemma styled StylePath `{!StylesPath StylePath} name v : v ≠ "" → isDot v = false → ∃ w, StylePath name v = Ok w ∧ segment (w, v).
Proof.
  intros Hv Hdot. destruct (style_path name v Hv) as (w & Hw & H1 & H2 & H3 & H4). exists w. repeat split; auto.
Qed.

(** [url.PathEscape] is such an encoding. *)
Definition pathEscape (_ v : string) : res string := Ok (Urls.escape encodePathSegment v).
Lemma unescape_percent a s : unescape encodePath (percent a +:+ s) = String a <$> unescape encodePath s.
Proof. by destruct a as [[] [] [] [] [] [] [] []]. Qed.

Lemma unescape_escape s : unescape encodePath (Urls.escape encodePathSegment s) = Some s.
Proof.
  induction s as [|a s IH]; [done|]. cbn [Urls.escape]. destruct (shouldEscape encodePathSegment a) eqn:Ha.
  - by rewrite unescape_percent, IH.
  - assert (a ≠ "%"%char) as Hne by (by intros ->). cbn [String.append unescape]. rewrite bool_decide_eq_false_2 by done.
    cbn [literal]. by rewrite IH.
Qed.

Lemma escape_segment s : validEncoded encodePath (Urls.escape encodePathSegment s) = true ∧
  contains_byte "/" (Urls.escape encodePathSegment s) = false.
Proof.
  induction s as [|a s [IH1 IH2]]; [done|]. cbn [Urls.escape]. rewrite validEncoded_app, contains_byte_app, IH1, IH2.
  by destruct a as [[] [] [] [] [] [] [] []].
Qed.

#[export] Instance pathEscape_styles : StylesPath pathEscape.
Proof.
  split. intros name v Hv. exists (Urls.escape encodePathSegment v). destruct (escape_segment v) as [H1 H2].
  split_and!; [done|done|done|apply unescape_escape|]. unfold isDot. rewrite !orb_false_iff, !bool_decide_eq_false.
  pose proof (unescape_escape v) as Hu. intros [Ha Hb]. split; intros E; rewrite E in Hu; injection Hu as <-; done.
Qed.

(** ** Finding a route behind the base URL *)

(** The route a line of a table, its method, path and operation, is registered as. *)
Definition behind_base {Middleware Op : Type} (prefix : string) (t : string * string * Op) : Route (Op * list Middleware) :=
  mkRoute t.1.1 (prefix +:+ "/" +:+ t.1.2) (t.2, []).

(** No other line fits segments like these. *)
Definition only {Op : Type} (table : list (string * string * Op)) (t : string * string * Op) (xs : list string) : Prop :=
  t ∈ table ∧ fits (split_on "/" t.1.2) xs = true ∧
  Forall (λ t', bool_decide (t'.1.1 = t.1.1) && fits (split_on "/" t'.1.2) xs = true → t' = t) table.

Section Find.
Context {Middleware Op : Type}.
Context (Find : list (Route (Op * list Middleware)) → string → string → option (Route (Op * list Middleware))) `{!RouterSpec Find}.

Lemma matches_behind prefix t method path xs : split_on "/" path = split_on "/" prefix ++ xs →
  matches (@behind_base Middleware Op prefix t) method path = bool_decide (t.1.1 = method) && fits (split_on "/" t.1.2) xs.
Proof. intros Hp. unfold matches, behind_base. cbn [rt_Method rt_Path]. by rewrite Hp, split_slash, fits_app. Qed.

Lemma find_behind prefix table t u xs : Forall (λ s, has_prefix ":" s = false) (split_on "/" prefix) →
  split_on "/" (routedPath u) = split_on "/" prefix ++ xs → only table t xs →
  Find (behind_base prefix <$> table) t.1.1 (routedPath u) = Some (behind_base prefix t) ∧
  ∀ name, ec_Param (contextOf (@behind_base Middleware Op prefix t) u) name = lookupParam t.1.2 xs name.
Proof using RouterSpec0.
  intros Hcolon Hs (Hin & Hfit & Honly). split.
  - apply (find_only Find); [by apply list_elem_of_fmap_2|rewrite (matches_behind _ _ _ _ xs Hs), Hfit; by rewrite bool_decide_eq_true_2|].
    rewrite Forall_fmap. eapply Forall_impl; [exact Honly|]. cbn beta. intros t' Ht'. unfold compose.
    rewrite (matches_behind _ _ _ _ xs Hs). intros H. by rewrite Ht'.
  - intros name. unfold contextOf, paramOf, lookupParam. cbn [ec_Param rt_Path behind_base]. by rewrite Hs, split_slash, bindings_app.
Qed.
End Find.
