(* ===== verification/BusTypes.v ===== *)
(** * The messages of the message bus (src/codegen/message_bus/api.go)

    The structs of the message-bus API that events, actions and the cards of the
    dashboard are described with, how they are written as JSON and how they are
    decoded. *)

From stdpp Require Import prelude strings gmap sorting.
From Stdlib Require Import ZArith Lia Ascii.
From S2P Require Import Prelude GoStrings Json Marshal Wire.

Local Open Scope string_scope.
Local Open Scope list_scope.

(** ** The structs *)

Record PropertyType := mkPropertyType {
  pt_Description : option string;
  pt_Example : option string;
  pt_Name : string;
}.

Record EventType := mkEventType {
  et_Name : string;
  et_PropertyTypeList : goslice PropertyType;
  et_SourceID : string;
}.

Record ActionType := mkActionType {
  at_Name : string;
  at_PropertyTypeList : goslice PropertyType;
  at_SourceID : string;
}.

Record BaseResponse := mkBaseResponse { Message : option string }.

(** [time.Time] as its number of nanoseconds. *)
Record Event := mkBusEvent {
  ev_Name : string;
  ev_Properties : stringMap;
  ev_SourceID : string;
  ev_Timestamp : option Z;
  ev_Uuid : option string;
}.

Record Action := mkAction {
  ac_Name : string;
  ac_Properties : stringMap;
  ac_SourceID : string;
  ac_Timestamp : option Z;
}.

Definition zeroPropertyType : PropertyType := mkPropertyType None None "".
Definition zeroEventType : EventType := mkEventType "" None "".
Definition zeroActionType : ActionType := mkActionType "" None "".
Definition zeroBusEvent : Event := mkBusEvent "" None "" None None.
Definition zeroAction : Action := mkAction "" None "" None.

Definition PropertyType_doc (p : PropertyType) : doc :=
  DObject (omitempty "description" (pt_Description p) ++ omitempty "example" (pt_Example p) ++ [("name", DText (pt_Name p))]).

Definition EventType_doc (t : EventType) : doc :=
  DObject [("name", DText (et_Name t)); ("propertyTypeList", sliceDoc PropertyType_doc (et_PropertyTypeList t));
           ("sourceID", DText (et_SourceID t))].

Definition ActionType_doc (t : ActionType) : doc :=
  DObject [("name", DText (at_Name t)); ("propertyTypeList", sliceDoc PropertyType_doc (at_PropertyTypeList t));
           ("sourceID", DText (at_SourceID t))].

Definition decodePropertyType : json → PropertyType → PropertyType * bool := decodeFields
  [("description", field decodePointer pt_Description (λ x p, mkPropertyType x (pt_Example p) (pt_Name p)));
   ("example", field decodePointer pt_Example (λ x p, mkPropertyType (pt_Description p) x (pt_Name p)));
   ("name", text_field pt_Name (λ x p, mkPropertyType (pt_Description p) (pt_Example p) x))].

Definition decodeEventType : json → EventType → EventType * bool := decodeFields
  [("name", text_field et_Name (λ x t, mkEventType x (et_PropertyTypeList t) (et_SourceID t)));
   ("propertytypelist", field (decodeGoslice decodePropertyType zeroPropertyType) et_PropertyTypeList
      (λ x t, mkEventType (et_Name t) x (et_SourceID t)));
   ("sourceid", text_field et_SourceID (λ x t, mkEventType (et_Name t) (et_PropertyTypeList t) x))].

Definition decodeActionType : json → ActionType → ActionType * bool := decodeFields
  [("name", text_field at_Name (λ x t, mkActionType x (at_PropertyTypeList t) (at_SourceID t)));
   ("propertytypelist", field (decodeGoslice decodePropertyType zeroPropertyType) at_PropertyTypeList
      (λ x t, mkActionType (at_Name t) x (at_SourceID t)));
   ("sourceid", text_field at_SourceID (λ x t, mkActionType (at_Name t) (at_PropertyTypeList t) x))].

Definition decodeBaseResponse : json → BaseResponse → BaseResponse * bool := decodeFields
  [("message", field decodePointer Message (λ x _, mkBaseResponse x))].

(** ** The cards of the dashboard *)

Definition YSKCardCardType_Valid (e : string) : bool :=
  bool_decide (e = "long-notice") || bool_decide (e = "short-notice") || bool_decide (e = "task").

Definition YSKCardRenderType_Valid (e : string) : bool :=
  bool_decide (e = "icon-text-notice") || bool_decide (e = "list-notice") || bool_decide (e = "markdown-notice") ||
  bool_decide (e = "task").

Record YSKCardIconWithText := mkIconWithText { iw_Description : string; iw_Icon : string }.
Record YSKCardListItem := mkListItem { li_Description : string; li_Icon : string; li_RightText : string }.
Record YSKCardMessageBusAction := mkBusAction { ba_Key : string; ba_Payload : string }.
Record YSKCardProgress := mkProgress { pr_Label : string; pr_Progress : Z }.

Record YSKCardFooterAction := mkFooterAction {
  fa_MessageBus : YSKCardMessageBusAction;
  fa_Side : string;
  fa_Style : string;
  fa_Text : string;
}.

Record YSKCardContent := mkContent {
  co_BodyIconWithText : option YSKCardIconWithText;
  co_BodyList : option (goslice YSKCardListItem);
  co_BodyProgress : option YSKCardProgress;
  co_FooterActions : option (goslice YSKCardFooterAction);
  co_TitleIcon : string;
  co_TitleText : string;
}.

Record YSKCard := mkCard {
  ca_CardType : string;
  ca_Content : YSKCardContent;
  ca_Id : string;
  ca_RenderType : string;
}.

Record ResponseGetYSKCardListOK := mkCardList {
  cl_Data : option (goslice YSKCard);
  cl_Message : option string;
}.

Definition decodeIconWithText := decodeFields
  [("description", text_field iw_Description (λ x r, mkIconWithText x (iw_Icon r)));
   ("icon", text_field iw_Icon (λ x r, mkIconWithText (iw_Description r) x))].

Definition decodeListItem := decodeFields
  [("description", text_field li_Description (λ x r, mkListItem x (li_Icon r) (li_RightText r)));
   ("icon", text_field li_Icon (λ x r, mkListItem (li_Description r) x (li_RightText r)));
   ("righttext", text_field li_RightText (λ x r, mkListItem (li_Description r) (li_Icon r) x))].

Definition decodeBusAction := decodeFields
  [("key", text_field ba_Key (λ x r, mkBusAction x (ba_Payload r)));
   ("payload", text_field ba_Payload (λ x r, mkBusAction (ba_Key r) x))].

Definition decodeProgress := decodeFields
  [("label", text_field pr_Label (λ x r, mkProgress x (pr_Progress r)));
   ("progress", field decodeInt pr_Progress (λ x r, mkProgress (pr_Label r) x))].

Definition decodeFooterAction := decodeFields
  [("messagebus", field (λ tv, decodeBusAction tv.2) fa_MessageBus (λ x r, mkFooterAction x (fa_Side r) (fa_Style r) (fa_Text r)));
   ("side", text_field fa_Side (λ x r, mkFooterAction (fa_MessageBus r) x (fa_Style r) (fa_Text r)));
   ("style", text_field fa_Style (λ x r, mkFooterAction (fa_MessageBus r) (fa_Side r) x (fa_Text r)));
   ("text", text_field fa_Text (λ x r, mkFooterAction (fa_MessageBus r) (fa_Side r) (fa_Style r) x))].

(** A pointer to a slice. *)
Definition decodeSliceRef {A} (element : json → A → A * bool) (zero : A)
    : string * json → option (goslice A) → option (goslice A) * bool :=
  decodeRef (λ v, decodeGoslice element zero ("", v)) None.

Definition zeroFooterAction : YSKCardFooterAction := mkFooterAction (mkBusAction "" "") "" "" "".
Definition zeroContent : YSKCardContent := mkContent None None None None "" "".
Definition zeroCard : YSKCard := mkCard "" zeroContent "" "".

Definition decodeContent := decodeFields
  [("bodyiconwithtext", field (decodeRef decodeIconWithText (mkIconWithText "" "")) co_BodyIconWithText
      (λ x c, mkContent x (co_BodyList c) (co_BodyProgress c) (co_FooterActions c) (co_TitleIcon c) (co_TitleText c)));
   ("bodylist", field (decodeSliceRef decodeListItem (mkListItem "" "" "")) co_BodyList
      (λ x c, mkContent (co_BodyIconWithText c) x (co_BodyProgress c) (co_FooterActions c) (co_TitleIcon c) (co_TitleText c)));
   ("bodyprogress", field (decodeRef decodeProgress (mkProgress "" 0)) co_BodyProgress
      (λ x c, mkContent (co_BodyIconWithText c) (co_BodyList c) x (co_FooterActions c) (co_TitleIcon c) (co_TitleText c)));
   ("footeractions", field (decodeSliceRef decodeFooterAction zeroFooterAction) co_FooterActions
      (λ x c, mkContent (co_BodyIconWithText c) (co_BodyList c) (co_BodyProgress c) x (co_TitleIcon c) (co_TitleText c)));
   ("titleicon", text_field co_TitleIcon
      (λ x c, mkContent (co_BodyIconWithText c) (co_BodyList c) (co_BodyProgress c) (co_FooterActions c) x (co_TitleText c)));
   ("titletext", text_field co_TitleText
      (λ x c, mkContent (co_BodyIconWithText c) (co_BodyList c) (co_BodyProgress c) (co_FooterActions c) (co_TitleIcon c) x))].

Definition decodeCard := decodeFields
  [("cardtype", text_field ca_CardType (λ x c, mkCard x (ca_Content c) (ca_Id c) (ca_RenderType c)));
   ("content", field (λ tv, decodeContent tv.2) ca_Content (λ x c, mkCard (ca_CardType c) x (ca_Id c) (ca_RenderType c)));
   ("id", text_field ca_Id (λ x c, mkCard (ca_CardType c) (ca_Content c) x (ca_RenderType c)));
   ("rendertype", text_field ca_RenderType (λ x c, mkCard (ca_CardType c) (ca_Content c) (ca_Id c) x))].

Definition decodeCardList := decodeFields
  [("data", field (decodeSliceRef decodeCard zeroCard) cl_Data (λ x c, mkCardList x (cl_Message c)));
   ("message", field decodePointer cl_Message (λ x c, mkCardList (cl_Data c) x))].

Section Times.
(** [time.Time]'s [UnmarshalJSON] of the text of a value. *)
Context (UnmarshalTime : string → option Z).

(** A pointer to a time, which keeps the time it points to on an error. *)
Definition decodeTime (tv : string * json) (current : option Z) : option Z * bool :=
  match tv.2 with
  | JNull => (None, false)
  | _ => match UnmarshalTime tv.1 with Some t => (Some t, false) | None => (Some (default 0%Z current), true) end
  end.

Definition decodeEvent : json → Event → Event * bool := decodeFields
  [("name", text_field ev_Name (λ x e, mkBusEvent x (ev_Properties e) (ev_SourceID e) (ev_Timestamp e) (ev_Uuid e)));
   ("properties", field decodeMap ev_Properties (λ x e, mkBusEvent (ev_Name e) x (ev_SourceID e) (ev_Timestamp e) (ev_Uuid e)));
   ("sourceid", text_field ev_SourceID (λ x e, mkBusEvent (ev_Name e) (ev_Properties e) x (ev_Timestamp e) (ev_Uuid e)));
   ("timestamp", field decodeTime ev_Timestamp (λ x e, mkBusEvent (ev_Name e) (ev_Properties e) (ev_SourceID e) x (ev_Uuid e)));
   ("uuid", field decodePointer ev_Uuid (λ x e, mkBusEvent (ev_Name e) (ev_Properties e) (ev_SourceID e) (ev_Timestamp e) x))].

Definition decodeAction : json → Action → Action * bool := decodeFields
  [("name", text_field ac_Name (λ x a, mkAction x (ac_Properties a) (ac_SourceID a) (ac_Timestamp a)));
   ("properties", field decodeMap ac_Properties (λ x a, mkAction (ac_Name a) x (ac_SourceID a) (ac_Timestamp a)));
   ("sourceid", text_field ac_SourceID (λ x a, mkAction (ac_Name a) (ac_Properties a) x (ac_Timestamp a)));
   ("timestamp", field decodeTime ac_Timestamp (λ x a, mkAction (ac_Name a) (ac_Properties a) (ac_SourceID a) x))].
End Times.

(** ** What is written is read back *)

#[export] Program Instance Wire_PropertyType : Wire PropertyType := {
  toDoc := PropertyType_doc; fromJson := decodePropertyType; zeroOf := zeroPropertyType; depthOf := 1;
  clean p := clean_pointer (pt_Description p) ∧ clean_pointer (pt_Example p) ∧ utf8 (pt_Name p) }.
Next Obligation.
  intros [[d|] [e|] n] (Hd & He & Hn); simpl in *; cbv -[coerce utf8_Valid print]; by rewrite ?(coerce_id d), ?(coerce_id e), (coerce_id n).
Qed.
Next Obligation. intros [[d|] [e|] n]; simpl; lia. Qed.

(** The two kinds of type have the same three members. *)
Lemma read_propertyTypes (l : goslice PropertyType) text : clean l →
  decodeGoslice decodePropertyType zeroPropertyType (text, valueOf (sliceDoc PropertyType_doc l)) None = (l, false).
Proof. exact (wire_read l). Qed.

Lemma propertyTypes_depth (l : goslice PropertyType) : (nesting (sliceDoc PropertyType_doc l) ≤ 2)%N.
Proof. exact (wire_depth l). Qed.

Lemma propertyTypes_field {A} (get : A → goslice PropertyType) put text l a : clean l → get a = None →
  field (decodeGoslice decodePropertyType zeroPropertyType) get put (text, valueOf (sliceDoc PropertyType_doc l)) a = (put l a, false).
Proof. intros H Ha. unfold field. by rewrite Ha, read_propertyTypes. Qed.

#[export] Program Instance Wire_EventType : Wire EventType := {
  toDoc := EventType_doc; fromJson := decodeEventType; zeroOf := zeroEventType; depthOf := 3;
  clean t := utf8 (et_Name t) ∧ clean (et_PropertyTypeList t) ∧ utf8 (et_SourceID t) }.
Next Obligation.
  intros [n l s] (Hn & Hl & Hs). cbn [et_Name et_PropertyTypeList et_SourceID] in *.
  unfold EventType_doc, decodeEventType. cbn [valueOf List.map].
  do 3 (erewrite decodeFields_member; [|reflexivity|first [by apply text_field_clean|by apply propertyTypes_field]]). done.
Qed.
Next Obligation.
  intros [n l s]. pose proof (propertyTypes_depth l).
  cbn [EventType_doc nesting List.map foldr fst snd et_Name et_PropertyTypeList et_SourceID]. lia.
Qed.

#[export] Program Instance Wire_ActionType : Wire ActionType := {
  toDoc := ActionType_doc; fromJson := decodeActionType; zeroOf := zeroActionType; depthOf := 3;
  clean t := utf8 (at_Name t) ∧ clean (at_PropertyTypeList t) ∧ utf8 (at_SourceID t) }.
Next Obligation.
  intros [n l s] (Hn & Hl & Hs). cbn [at_Name at_PropertyTypeList at_SourceID] in *.
  unfold ActionType_doc, decodeActionType. cbn [valueOf List.map].
  do 3 (erewrite decodeFields_member; [|reflexivity|first [by apply text_field_clean|by apply propertyTypes_field]]). done.
Qed.
Next Obligation.
  intros [n l s]. pose proof (propertyTypes_depth l).
  cbn [ActionType_doc nesting List.map foldr fst snd at_Name at_PropertyTypeList at_SourceID]. lia.
Qed.
