(* ===== verification/Cors.v ===== *)
(** * The cross-origin policy (src/route/cors.go)

    The list of origins an operator configures, parsed into exact origins, and the
    CORS middleware's configuration built from it. *)

From stdpp Require Import prelude strings.
From Stdlib Require Import ZArith Lia Ascii.
From S2P Require Import Prelude GoStrings Urls.

Local Open Scope string_scope.
Local Open Scope list_scope.

(** One entry of the list. *)
Definition corsOrigin (part : string) : res string :=
  let origin := TrimSpace part in
  if bool_decide (origin = "") then Err (NewError "empty CORS origin")
  else if bool_decide (origin = "*") then Err (NewError "wildcard CORS origin is forbidden with credentials")
  else
    let exact := NewError "CORS origin must be an exact http(s) origin" in
    match ParseURL origin with
    | None => Err exact
    | Some parsed =>
       if (negb (bool_decide (Scheme parsed = "http")) && negb (bool_decide (Scheme parsed = "https"))) ||
          bool_decide (Host parsed = "") || bool_decide (is_Some (User parsed)) ||
          negb (bool_decide (RawQuery parsed = "")) || negb (bool_decide (Fragment parsed = "")) ||
          (negb (bool_decide (Path parsed = "")) && negb (bool_decide (Path parsed = "/")))
       then Err exact
       else Ok (Scheme parsed +:+ "://" +:+ Host parsed)
    end.

(** The loop over the entries. *)
Fixpoint corsOrigins (parts : list string) (origins : list string) : res (list string) :=
  match parts with
  | [] => Ok origins
  | part :: rest =>
     match corsOrigin part with
     | Err e => Err e
     | Ok origin => corsOrigins rest (origins ++ [origin])
     end
  end.

Definition corsAllowlist (raw : string) : res (list string) :=
  let trimmed := TrimSpace raw in
  if bool_decide (trimmed = "") then Ok [] else corsOrigins (split_on "," trimmed) [].

(** The fields of echo's [CORSConfig] that are set. *)
Record CORSConfig := mkCORSConfig {
  AllowOrigins : list string;
  AllowMethods : list string;
  AllowHeaders : list string;
  ExposeHeaders : list string;
  MaxAge : Z;
  AllowCredentials : bool;
}.

(** Which configuration the middleware is installed with: [Err] for the panic
    that ends the start, [Ok None] for no middleware. *)
Definition applyConfiguredCORS (raw : string) : res (option CORSConfig) :=
  match corsAllowlist raw with
  | Err e => Err (Wrap "invalid common.CORSOrigins configuration" e)
  | Ok [] => Ok None
  | Ok origins =>
     Ok (Some (mkCORSConfig origins ["POST"; "GET"; "OPTIONS"; "PUT"; "DELETE"]
       ["Authorization"; "Content-Length"; "X-CSRF-Token"; "Content-Type"; "Origin"; "X-Requested-With"]
       ["Content-Length"] 600 true))
  end.

(** ** Normal form *)

(** What an entry stands for. *)
Record originOf (part origin : string) : Prop := {
  oo_named : TrimSpace part ≠ "" ∧ TrimSpace part ≠ "*";
  oo_url : ∃ u, ParseURL (TrimSpace part) = Some u ∧ (Scheme u = "http" ∨ Scheme u = "https") ∧ Host u ≠ "" ∧
    User u = None ∧ RawQuery u = "" ∧ Fragment u = "" ∧ (Path u = "" ∨ Path u = "/") ∧
    origin = Scheme u +:+ "://" +:+ Host u;
}.

Lemma corsOrigin_exact part origin : corsOrigin part = Ok origin ↔ originOf part origin.
Proof.
  unfold corsOrigin. case_bool_decide as H1; [split; [done|by intros [[? ?] _]]|].
  case_bool_decide as H2; [split; [done|by intros [[? ?] _]]|].
  destruct (ParseURL (TrimSpace part)) as [u|] eqn:Hu;
    [|split; [done|intros [_ (u & E & _)]; congruence]].
  destruct (_ || _ || _ || _ || _ || _) eqn:G.
  - split; [done|]. intros [_ (u' & E & Hs & Hh & Hus & Hq & Hf & Hp & _)]. assert (u' = u) as -> by congruence.
    rewrite Hus, Hq, Hf in G. rewrite (bool_decide_eq_false_2 (Host u = "")) in G by done.
    by destruct Hs as [Hs|Hs], Hp as [Hp|Hp]; rewrite Hs, Hp in G.
  - rewrite !orb_false_iff, !andb_false_iff, !negb_false_iff in G. rewrite !bool_decide_eq_true, !bool_decide_eq_false in G.
    destruct G as (((((Hs & Hh) & Hus) & Hq) & Hf) & Hp). split.
    + intros [= <-]. constructor; [done|]. exists u. split_and!; try done. by destruct (User u); [destruct Hus|].
    + intros [_ (u' & E & _ & _ & _ & _ & _ & _ & ->)]. by assert (u' = u) as -> by congruence.
Qed.

Lemma corsOrigins_exact parts acc origins : corsOrigins parts acc = Ok origins ↔
  ∃ new, origins = acc ++ new ∧ Forall2 originOf parts new.
Proof.
  revert acc. induction parts as [|part parts IH]; intros acc; cbn [corsOrigins].
  { split; [intros [= <-]; exists []; by rewrite app_nil_r|].
    intros (new & -> & H). inversion H. by rewrite app_nil_r. }
  destruct (corsOrigin part) as [o|e] eqn:E.
  - rewrite IH. apply corsOrigin_exact in E as Ho. split.
    + intros (new & -> & H). exists (o :: new). rewrite <- app_assoc. by split; [|constructor].
    + intros (new & -> & H). inversion H as [|? o' ? new' Ho' Hnew]; subst. exists new'. split; [|done].
      apply corsOrigin_exact in Ho'. rewrite <- app_assoc. simpl. congruence.
  - split; [done|]. intros (new & _ & H). inversion H as [|? o' ? ? Ho' _]; subst. apply corsOrigin_exact in Ho'. congruence.
Qed.

(** An accepted origin is a scheme and a host, and is its own normal form. *)
Lemma originOf_normal part origin : originOf part origin → contains_byte "," part = false →
  ∃ sch host, origin = sch +:+ "://" +:+ host ∧ (sch = "http" ∨ sch = "https") ∧ host ≠ "" ∧
    all_bytes hostByte host = true ∧ (all_bytes plainByte host = true → originOf origin origin ∧
      TrimSpace origin = origin ∧ contains_byte "," origin = false).
Proof.
  intros [_ (u & Hu & Hs & Hh & Hus & _ & _ & _ & ->)] Hcomma%TrimSpace_bytes. exists (Scheme u), (Host u).
  assert (Scheme u ≠ "") as Hne by (destruct Hs as [-> | ->]; done).
  pose proof Hu as (raw & auth & tail & Hraw & _ & _ & _ & _ & Hauth)%ParseURL_anatomy; [|done..].
  pose proof (parseAuthority_host _ _ _ Hauth) as (h & Hparse & Hself). destruct (Hself Hus) as [-> Hat].
  split_and!; try done; [by eapply parseHost_bytes|]. intros Hplain.
  destruct (parseHost_plain _ _ Hparse Hplain) as [-> Hlit].
  assert (schemeName (Scheme u) = true) as Hname by (by destruct Hs as [-> | ->]).
  assert (TrimSpace (Scheme u +:+ "://" +:+ Host u) = Scheme u +:+ "://" +:+ Host u) as Htrim
    by (by apply TrimSpace_printable, origin_printable).
  split_and!; [|done|].
  - constructor; rewrite Htrim; [by destruct Hs as [-> | ->]|].
    exists (mkURL (Scheme u) "" None (Host u) "" "" "" "" "" false false). split_and!; try done; [|by left].
    apply ParseURL_origin; [done|by destruct Hs as [-> | ->]|done|by rewrite Hauth, Hus].
  - rewrite Hraw, !contains_byte_app, !orb_false_iff in Hcomma. rewrite !contains_byte_app.
    destruct Hcomma as (_ & _ & -> & _). by destruct Hs as [-> | ->].
Qed.

(** An entry that stands for one exact origin: echo reads an entry with an asterisk as
    a pattern. *)
Definition exactOrigin (part origin : string) : Prop := originOf part origin ∧ contains_byte "*" origin = false.

(** A list of exact origins; blank means none. *)
Definition exactList (raw : string) (origins : list string) : Prop :=
  (TrimSpace raw = "" ∧ origins = []) ∨
  (TrimSpace raw ≠ "" ∧ Forall2 exactOrigin (split_on "," (TrimSpace raw)) origins).

Lemma corsAllowlist_exact raw origins : corsAllowlist raw = Ok origins ↔
  (TrimSpace raw = "" ∧ origins = []) ∨
  (TrimSpace raw ≠ "" ∧ Forall2 originOf (split_on "," (TrimSpace raw)) origins).
Proof.
  unfold corsAllowlist. case_bool_decide as Hb.
  - split; [intros [= <-]; by left|]. by intros [[_ ->]|[? _]].
  - rewrite corsOrigins_exact. split; [|by intros [[? _]|[_ ?]]; [|exists origins]].
    intros (new & -> & H). by right.
Qed.

Lemma exactList_exact raw origins : exactList raw origins ↔
  corsAllowlist raw = Ok origins ∧ Forall (λ o, contains_byte "*" o = false) origins.
Proof.
  rewrite corsAllowlist_exact. unfold exactList. split.
  - intros [[Hb ->]|[Hb H]]; [by split; [left|]|].
    split; [right; split; [done|]|]; induction H as [|part o parts os [Ho Hs] _ IH]; by constructor.
  - intros [[[Hb ->]|[Hb H]] Hs]; [by left|]. right. split; [done|].
    induction H as [|part o parts os Ho _ IH]; [constructor|]. apply Forall_cons in Hs as [Hs1 Hs]. constructor; [by split|by apply IH].
Qed.

(** A refused entry refuses the list. *)
Lemma corsAllowlist_refused raw part : part ∈ split_on "," (TrimSpace raw) → TrimSpace raw ≠ "" →
  (∀ o, ¬ originOf part o) → ∃ e, corsAllowlist raw = Err e.
Proof.
  intros Hin Hb Hno. destruct (corsAllowlist raw) as [origins|e] eqn:E; [|eauto].
  apply corsAllowlist_exact in E as [[? _]|[_ H]]; [done|]. exfalso. induction H as [|p o parts os Ho _ IH]; [by apply not_elem_of_nil in Hin|].
  apply elem_of_cons in Hin as [->|Hin]; [by apply (Hno o)|by apply IH].
Qed.

(** The origins of an exact list are their own normal form. *)
Lemma exactList_normal raw origins : exactList raw origins →
  Forall (λ o, ∃ sch host, o = sch +:+ "://" +:+ host ∧ (sch = "http" ∨ sch = "https") ∧ host ≠ "" ∧
    all_bytes hostByte host = true ∧ (all_bytes plainByte host = true → exactList o [o])) origins.
Proof.
  intros [[_ ->]|[_ Hall]]; [done|].
  pose proof (split_on_parts "," (TrimSpace raw)) as Hparts. revert Hparts. induction Hall as [|part o parts os [Hpo Hstar] _ IH];
    [done|]. intros Hp. apply Forall_cons_1 in Hp as [Hc Hp]. constructor; [|by apply IH].
  destruct (originOf_normal _ _ Hpo Hc) as (sch & host & -> & Hs & Hh & Hb & Hfix). exists sch, host.
  split_and!; try done. intros (Hoo & Htrim & Hno)%Hfix. right. rewrite Htrim.
  split; [by destruct Hs as [-> | ->]|]. rewrite split_on_no_sep by done. constructor; [by split|constructor].
Qed.

(** C37. The CORS policy of a list of exact origins. A list whose entries between
    commas each are an http or https URL with a host, without an asterisk in it, and
    with nothing else, is accepted and stands for these origins in order, blank for
    none; conversely a list that is accepted with origins none of which holds an
    asterisk is such a list. The middleware is then installed, for credentials and
    with exactly these origins, when there is at least one. Each of them is a scheme
    and a non-empty host of host bytes (no slash, at sign, query or control), and one
    written in plain ASCII is a fixed point: configuring it gives it back. An empty
    entry or a bare asterisk among the entries, like every list that is not accepted,
    ends the start. Entries whose host holds an asterisk are not covered. *)
Theorem cors_allowlist raw :
  (∀ origins, exactList raw origins ↔ corsAllowlist raw = Ok origins ∧ Forall (λ o, contains_byte "*" o = false) origins) ∧
  (∀ origins, exactList raw origins →
     (match applyConfiguredCORS raw with
      | Ok None => origins = []
      | Ok (Some c) => AllowOrigins c = origins ∧ origins ≠ [] ∧ AllowCredentials c = true
      | Err _ => False
      end) ∧
     Forall (λ o, ∃ sch host, o = sch +:+ "://" +:+ host ∧ (sch = "http" ∨ sch = "https") ∧ host ≠ "" ∧
       all_bytes hostByte host = true ∧ (all_bytes plainByte host = true → exactList o [o])) origins) ∧
  (TrimSpace raw ≠ "" → ∀ part, part ∈ split_on "," (TrimSpace raw) → TrimSpace part = "" ∨ TrimSpace part = "*" →
     ∃ e, corsAllowlist raw = Err e) ∧
  (∀ e, corsAllowlist raw = Err e → ∃ e', applyConfiguredCORS raw = Err e').
Proof.
  split_and!; [apply exactList_exact| | |].
  - intros origins Ho. split; [|by eapply exactList_normal].
    apply exactList_exact in Ho as [Ho _]. unfold applyConfiguredCORS. rewrite Ho. by destruct origins.
  - intros Hb part Hin Hbare. apply (corsAllowlist_refused raw part); [done..|]. intros o [[H1 H2] _]. naive_solver.
  - intros e He. unfold applyConfiguredCORS. rewrite He. eauto.
Qed.

Lemma cors_allowlist_witness :
  let raw := " https://console.example/ , http://127.0.0.1:8080" in
  let origins := ["https://console.example"; "http://127.0.0.1:8080"] in
  exactList raw origins ∧
  match applyConfiguredCORS raw with
  | Ok None => origins = []
  | Ok (Some c) => AllowOrigins c = origins ∧ origins ≠ [] ∧ AllowCredentials c = true
  | Err _ => False
  end ∧
  ∃ e, corsAllowlist "https://console.example, *" = Err e.
Proof.
  intros raw origins. destruct (cors_allowlist raw) as (He & H & _ & _).
  assert (exactList raw origins) as E by (apply He; split; [reflexivity|by repeat constructor]).
  split_and!; [exact E|apply (H origins E)|].
  destruct (cors_allowlist "https://console.example, *") as (_ & _ & Hbare & _).
  apply (Hbare ltac:(vm_compute; discriminate) " *"); [apply list_elem_of_In; right; left; reflexivity|by right].
Defined.

(** Only the bare asterisk is refused: a host may be or contain one, which echo's
    middleware reads as a pattern that matches every such host. *)
Theorem cors_accepts_patterns :
  corsAllowlist "https://*" = Ok ["https://*"] ∧
  corsAllowlist "https://*.example:443/" = Ok ["https://*.example:443"] ∧
  ∀ e, corsAllowlist "*" = Err e → e = NewError "wildcard CORS origin is forbidden with credentials".
Proof. split_and!; [reflexivity..|]. intros e. vm_compute. congruence. Qed.
