(* ===== verification/Processlock.v ===== *)
(** * The process lock (src/pkg/processlock/lock.go)

    The lock file that keeps the daemon, the bootstrap command and the reset
    commands from running at the same time. The kernel's table of [flock] locks is
    part of the file system; [holder] stands for the open file description through
    which the calling process locks. *)

From stdpp Require Import prelude strings gmap.
From Stdlib Require Import ZArith Lia Ascii.
From S2P Require Import Prelude GoStrings Password FileSystem Tables Store Files Trees Bootstrap FileSeal.

Local Open Scope Z_scope.
Local Open Scope m_scope.

Record Lock := mkLock { lk_file : option Z }.

(** [open(path, O_RDWR | O_CREAT | O_NOFOLLOW, 0600)]. *)
Definition open_create (euid : Z) (p : path) (fs : FileSystem) : (Z + ioerr) * FileSystem :=
  match resolve maxLinks fs false [] p with
  | inr e => (inr e, fs)
  | inl (Missing stack name) => create_node (top stack) name (mkInode (KFile "") 384 euid) fs
  | inl (At stack) =>
     match i_kind <$> fs_inodes fs !! top stack with
     | Some (KSymlink _) => (inr ELOOP, fs)
     | Some (KDir _) => (inr EISDIR, fs)
     | Some _ => (inl (top stack), fs)
     | None => (inr EIO, fs)
     end
  end.

Section Processlock.
(** The process's user, and the open file description it locks through. *)
Context (euid holder : Z).

Definition unix_Open_create (p : path) : M (res Z) := call (open_create euid p).
Definition unix_Flock (fd : Z) : M (res unit) := call (flock holder fd).
Definition unix_Funlock (fd : Z) : M (res unit) := call (λ fs, (inl tt, funlock holder fd fs)).

(** Closing the last descriptor of a description drops its lock, even when [close]
    reports an error. *)
Definition closeLocked (fd : Z) : M (res unit) :=
  sys (λ fs, (inl tt, funlock holder fd fs)) (λ _ fs, funlock holder fd fs).

Definition closeOnError (fd : Z) (e : goerr) : M (res Lock) := _ <- closeLocked fd;; mret (Err e).

(** The part of [Acquire] with the lock file open. *)
Definition lockFile (fd ownerUID : Z) : M (res Lock) :=
  opened <- file_Stat fd;;
  match opened with
  | Err e => closeOnError fd (Wrap "inspect process lock" e)
  | Ok openedInfo =>
     if negb (is_regular openedInfo) then closeOnError fd (NewError "process lock must be a regular file")
     else if negb (fi_uid openedInfo =? ownerUID)
     then closeOnError fd (NewError "process lock has an unexpected owner")
     else
       secured <- file_Chmod fd 384;;
       match secured with
       | Err e => closeOnError fd (Wrap "secure process lock" e)
       | Ok _ =>
          locked <- unix_Flock fd;;
          match locked with
          | Err e => if errors_Is e EWOULDBLOCK then closeOnError fd ErrAlreadyLocked
                     else closeOnError fd (Wrap "acquire process lock" e)
          | Ok _ => mret (Ok (mkLock (Some fd)))
          end
       end
  end.

Definition Acquire (path : string) (ownerUID : Z) : M (res Lock) :=
  if negb (IsAbs path) then mret (Err (NewError "process lock path must be absolute"))
  else
    ok info <- os_Lstat (Dir path) or "inspect process lock directory";;
    if is_symlink info || negb (is_dir info)
    then mret (Err (NewError "process lock directory must be a real directory, not a symlink"))
    else if negb (fi_uid info =? ownerUID)
    then mret (Err (NewError "process lock directory has an unexpected owner"))
    else
      ok fd <- unix_Open_create (components path) or "open process lock";;
      lockFile fd ownerUID.

(** [Close], with the lock it leaves behind. *)
Definition Lock_Close (lock : option Lock) : M (option goerr * option Lock) :=
  match lock with
  | None => mret (None, None)
  | Some (mkLock None) => mret (None, lock)
  | Some (mkLock (Some fd)) =>
     unlocked <- unix_Funlock fd;;
     closed <- closeLocked fd;;
     mret (match unlocked, closed with
           | Err e, _ => Some (Wrap "unlock process lock" e)
           | Ok _, Err e => Some (Wrap "close process lock" e)
           | Ok _, Ok _ => None
           end, Some (mkLock None))
  end.
End Processlock.

(** ** Reasoning under interference *)

(** The other processes keep [I] true of the file system; anything may happen to
    the database. *)
Definition preserving (I : FileSystem → Prop) : Rely :=
  mkRely (λ _ _, True) (λ fs fs', I fs → I fs') (λ fs H, H).

Lemma sys_preserving {A} I (f : FileSystem → (A + ioerr) * FileSystem) g w (Q : res A → World → Prop) :
  rely (preserving I) w → I (w_fs w) →
  (∀ fs n w1, I fs → rely (preserving I) w1 → w_fs w1 = g n fs → Q (Err (goerr_of EIO)) w1) →
  (∀ fs w1, I fs → rely (preserving I) w1 → w_fs w1 = (f fs).2 → Q (res_of (f fs).1) w1) →
  post (sys f g) w Q.
Proof.
  intros Hw HI Hfault Hok. unfold post, sys, advance. destruct (Hw 0%nat) as [_ Hfs]. specialize (Hfs _ HI).
  assert (∀ n, rely (preserving I) (mkWorld (w_db w) (w_fs w) 0 (λ k, w_sched w (S k)) false n [])) as Hlater.
  { intros n k. split; [done|]. apply (Hw (S k)). }
  destruct (ev_fault (w_sched w 0%nat)); simpl.
  - eapply Hfault; [done|apply (Hlater "")|done].
  - destruct (f (ev_fs (w_sched w 0%nat) (w_fs w))) as [r fs'] eqn:E. simpl.
    specialize (Hok (ev_fs (w_sched w 0%nat) (w_fs w))). rewrite E in Hok. apply Hok; [done|apply (Hlater "")|done].
Qed.

Lemma call_preserving {A} I (f : FileSystem → (A + ioerr) * FileSystem) w (Q : res A → World → Prop) :
  rely (preserving I) w → I (w_fs w) → (∀ fs, I fs → I (f fs).2) →
  (∀ w1, I (w_fs w1) → rely (preserving I) w1 → Q (Err (goerr_of EIO)) w1) →
  (∀ fs w1, I fs → I (w_fs w1) → rely (preserving I) w1 → Q (res_of (f fs).1) w1) →
  post (call f) w Q.
Proof.
  intros Hw HI Hf Hfault Hok. apply (sys_preserving I); [done|done|..].
  - intros fs n w1 H Hr ->%symmetry. by apply Hfault.
  - intros fs w1 H Hr Hs. apply Hok; [done| |done]. rewrite Hs. by apply Hf.
Qed.

(** ** What runs keep *)

(** A change of the table that leaves the locks alone and makes no symbolic link. *)
Record tame (fs fs' : FileSystem) : Prop := {
  tame_locks : fs_locks fs' = fs_locks fs;
  tame_links : ∀ i n target, fs_inodes fs' !! i = Some n → i_kind n = KSymlink target →
    ∃ n0, fs_inodes fs !! i = Some n0 ∧ i_kind n0 = KSymlink target;
}.

#[export] Instance tame_preorder : PreOrder tame.
Proof.
  split; [split; eauto|]. intros fs1 fs2 fs3 [Hl1 Hs1] [Hl2 Hs2]. split; [congruence|].
  intros i n target Hi Hk. destruct (Hs2 i n target Hi Hk) as (n' & Hi' & Hk'). eauto.
Qed.

(** What no tame change makes false; [Lockless] if the locks do not matter either. *)
Class Stable (I : FileSystem → Prop) : Prop := stable fs fs' : tame fs fs' → I fs → I fs'.
Class Lockless (I : FileSystem → Prop) : Prop := lockless fs fs' : fs_inodes fs' = fs_inodes fs → I fs → I fs'.

(** [h] has the lock on [ino]. *)
Definition lockedBy (ino h : Z) (fs : FileSystem) : Prop := fs_locks fs !! ino = Some h.

#[export] Instance lockedBy_stable ino h : Stable (lockedBy ino h).
Proof. intros fs fs' [Hl _]. unfold lockedBy. by rewrite Hl. Qed.

(** The run keeps [I] true of the files if the other processes do; nothing else is
    assumed of them. *)
Definition keeping {A} (I : FileSystem → Prop) (m : M A) : Prop := ∀ w,
  rely (preserving I) w → I (w_fs w) → post m w (λ _ w', rely (preserving I) w' ∧ I (w_fs w')).

Definition tames (f : FileSystem → FileSystem) : Prop := ∀ fs, tame fs (f fs).

Section Keeping.
Context (I : FileSystem → Prop) `{!Stable I}.
Abbreviation keeps := (keeping I).

Lemma keeping_ret {A} (a : A) : keeps (mret a).
Proof. intros w Hw Hl. by m_step. Qed.

Lemma keeping_time_Now : keeps time_Now.
Proof. intros w Hw Hl. by m_step. Qed.

Lemma keeping_bind {A B} (m : M A) (k : A → M B) : keeps m → (∀ a, keeps (k a)) → keeps (mbind m k).
Proof.
  intros Hm Hk w Hw Hl. m_step. eapply post_mono; [by apply Hm|]. cbv beta. intros a w1 [Hw1 Hl1]. by apply Hk.
Qed.

Lemma keeping_try {A B} (m : M (res A)) (k : A → M (res B)) : keeps m → (∀ a, keeps (k a)) → keeps (try m k).
Proof. intros Hm Hk. apply keeping_bind; [done|]. intros [a|e]; [done|apply keeping_ret]. Qed.

Lemma keeping_try_wrap {A B} msg (m : M (res A)) (k : A → M (res B)) :
  keeps m → (∀ a, keeps (k a)) → keeps (try_wrap msg m k).
Proof. intros Hm Hk. apply keeping_bind; [done|]. intros [a|e]; [done|apply keeping_ret]. Qed.

Lemma keeping_sys_of {A} (f : FileSystem → (A + ioerr) * FileSystem) g :
  (∀ fs, I fs → I (f fs).2) → (∀ n fs, I fs → I (g n fs)) → keeps (sys f g).
Proof.
  intros Hf Hg w Hw Hl. apply (sys_preserving I); [done|done|..].
  - intros fs n w1 HI Hr ->. split; [done|by apply Hg].
  - intros fs w1 HI Hr ->. split; [done|by apply Hf].
Qed.

Lemma keeping_sys {A} (f : FileSystem → (A + ioerr) * FileSystem) g :
  tames (λ fs, (f fs).2) → (∀ n, tames (g n)) → keeps (sys f g).
Proof using Stable0. intros Hf Hg. apply keeping_sys_of; intros; (eapply stable; [|done]); [apply Hf|apply Hg]. Qed.

Lemma keeping_rand_Read n : keeps (rand_Read n).
Proof. intros w Hw Hl. unfold post, rand_Read. by destruct (_ <=? _)%nat. Qed.

Lemma keeping_exec {A} (stmt : Database → res A * Database) : keeps (exec stmt).
Proof.
  intros w Hw Hl. unfold post, exec, advance. destruct (Hw 0%nat) as [_ Hfs]. specialize (Hfs _ Hl).
  assert (∀ n, (rely (preserving I) (mkWorld (w_db w) (w_fs w) 0 (λ k, w_sched w (S k)) false n []))) as Hlater
    by (intros n k; split; [done|]; apply (Hw (S k))).
  destruct (ev_fault _); simpl; [by split; [apply (Hlater "")|]|].
  destruct (stmt _) as [r db']. simpl. by split; [apply (Hlater "")|].
Qed.

Lemma keeping_transaction {A} mb mc (body : M (res A)) : keeps body → keeps (transaction mb mc body).
Proof.
  intros Hb w Hw Hl. unfold post, transaction.
  pose proof (keeping_exec (λ db, (Ok tt, id db)) w Hw Hl) as H0. unfold post, execute in *.
  destruct (exec _ w) as [[[]|e] w0]; [|done]. destruct H0 as [H0 Hl0]. simpl in H0, Hl0.
  pose proof (Hb (w_set_isolated true w0) H0 Hl0) as H1. unfold post in H1.
  destruct (body _) as [[a|e] w1]; [|done]. destruct H1 as [H1 Hl1]. simpl in H1, Hl1.
  pose proof (keeping_exec (λ db, (Ok tt, id db)) w1 H1 Hl1) as H2. unfold post in H2.
  by destruct (exec _ w1) as [[[]|e] w2].
Qed.

(** Alone, what a run keeps is kept. *)
Lemma kept_alone {A} (m : M A) w : keeps m → alone w → I (w_fs w) → post m w (λ _ w', I (w_fs w')).
Proof.
  intros Hm Hw Hl. assert (rely (preserving I) w) as Hp.
  { intros n. split; [done|]. intros fs Hfs. by rewrite <- (proj2 (Hw n) fs). }
  eapply post_mono; [by apply Hm|]. by intros r w1 [_ H].
Qed.
End Keeping.

Lemma tame_set_inode i n fs : (∀ target, i_kind n ≠ KSymlink target) → tame fs (set_inode i n fs).
Proof.
  intros Hn. split; [done|]. intros j m target Hj Hk. simpl in Hj. destruct (decide (j = i)) as [->|].
  - rewrite lookup_insert_eq in Hj. injection Hj as <-. by destruct (Hn target).
  - rewrite lookup_insert_ne in Hj by done. eauto.
Qed.

(** A node keeps its kind. *)
Lemma tame_same_kind i k perm uid perm' uid' fs : fs_inodes fs !! i = Some (mkInode k perm uid) →
  tame fs (set_inode i (mkInode k perm' uid') fs).
Proof.
  intros Hi. split; [done|]. intros j m target Hj Hk. simpl in Hj. destruct (decide (j = i)) as [->|].
  - rewrite lookup_insert_eq in Hj. injection Hj as <-. eauto.
  - rewrite lookup_insert_ne in Hj by done. eauto.
Qed.

Lemma set_entries_tame dir f : tames (set_entries dir f).
Proof. intros fs. unfold set_entries. destruct (fs_inodes fs !! dir) as [[[] ? ?]|]; try done. by apply tame_set_inode. Qed.

Lemma create_node_tame dir name n : (∀ target, i_kind n ≠ KSymlink target) → tames (λ fs, (create_node dir name n fs).2).
Proof.
  intros Hn fs. unfold create_node. destruct (entries fs dir) as [es|]; [|done]. destruct (es !! name); [done|]. cbn [snd].
  transitivity (set_entries dir <[name := new_ino fs]> fs); [apply set_entries_tame|by apply tame_set_inode].
Qed.

Lemma write_file_tame ino data : tames (λ fs, (write_file ino data fs).2).
Proof. intros fs. unfold write_file. destruct (fs_inodes fs !! ino) as [[[] ? ?]|]; try done. by apply tame_set_inode. Qed.

Lemma chmod_tame ino perm : tames (λ fs, (chmod ino perm fs).2).
Proof. intros fs. unfold chmod. destruct (fs_inodes fs !! ino) as [[]|] eqn:E; [by eapply tame_same_kind|done]. Qed.

Lemma create_path_tame p n : (∀ target, i_kind n ≠ KSymlink target) → tames (λ fs, (create_path p n fs).2).
Proof. intros Hn fs. unfold create_path. destruct (resolve _ _ _ _ _) as [[]|]; [done|by apply create_node_tame|done]. Qed.

Lemma link_path_tame old new : tames (λ fs, (link_path old new fs).2).
Proof.
  intros fs. unfold link_path. destruct (resolve maxLinks fs false [] old) as [[]|]; [|done..].
  destruct (resolve maxLinks fs false [] new) as [[]|]; [done| |done]. unfold link_node. destruct (entries _ _) as [es|]; [|done].
  destruct (es !! name); [done|]. apply set_entries_tame.
Qed.

Lemma unlink_path_tame p : tames (λ fs, (unlink_path p fs).2).
Proof.
  intros fs. unfold unlink_path. destruct (resolve maxLinks fs false [] p) as [[]|]; try done. unfold remove_name.
  repeat case_match; try done; apply set_entries_tame.
Qed.

Lemma tames_id : tames (λ fs, fs).
Proof. intros fs. done. Qed.
#[export] Hint Resolve create_node_tame write_file_tame chmod_tame create_path_tame link_path_tame unlink_path_tame
  tames_id : locks.

#[export] Hint Extern 1 (∀ target, i_kind _ ≠ KSymlink target) => (intros ?; discriminate) : locks.

(** Follows a run; the calls it makes are left to the hints of [locks]. *)
Ltac keeping_walk :=
  intros; cbv zeta;
  lazymatch goal with
  | |- keeping _ (mret _) => apply keeping_ret
  | |- keeping _ time_Now => apply keeping_time_Now
  | |- keeping _ (mbind _ _) => apply keeping_bind; keeping_walk
  | |- keeping _ (try _ _) => apply keeping_try; keeping_walk
  | |- keeping _ (try_wrap _ _ _) => apply keeping_try_wrap; keeping_walk
  | |- keeping _ (transaction _ _ _) => apply keeping_transaction; keeping_walk
  | |- keeping _ (rand_Read _) => apply keeping_rand_Read
  | |- keeping _ (query _) => apply keeping_exec
  | |- keeping _ (execute _) => apply keeping_exec
  | |- keeping _ (exec _) => apply keeping_exec
  | |- keeping _ (call _) => apply keeping_sys; intros; auto with locks
  | |- keeping _ (ask _) => apply keeping_sys; intros; auto with locks
  | |- keeping _ (sys _ _) => apply keeping_sys; intros; auto with locks
  | |- keeping _ (match ?x with _ => _ end) => destruct x; keeping_walk
  | |- keeping _ _ => solve [auto with locks nocore] || (apply keeping_sys; intros; auto with locks)
  end.

(** ** What the lock file is *)

(** The path leads to the inode [ino], which [holder] has locked. *)
Definition contended (path : string) (holder ino : Z) (fs : FileSystem) : Prop :=
  fs_locks fs !! ino = Some holder ∧
  ∃ stack, resolve maxLinks fs false [] (components path) = inl (At stack) ∧ top stack = ino.

(** The directory is real and the owner's, and the lock file, unless it is still
    missing, a regular file of the owner's that nobody has locked. *)
Record available (euid : Z) (path : string) (ownerUID : Z) (fs : FileSystem) : Prop := {
  av_abs : IsAbs path = true;
  av_dir : ∃ i, path_info false fs (Dir path) = inl i ∧ is_dir i = true ∧ fi_uid i = ownerUID;
  av_file :
    (∃ stack c perm, resolve maxLinks fs false [] (components path) = inl (At stack) ∧
       fs_inodes fs !! top stack = Some (mkInode (KFile c) perm ownerUID) ∧ fs_locks fs !! top stack = None) ∨
    (∃ stack name, resolve maxLinks fs false [] (components path) = inl (Missing stack name) ∧
       euid = ownerUID ∧ fs_locks fs !! new_ino fs = None);
}.

Lemma funlock_other me you i j fs : you ≠ me → fs_locks fs !! i = Some you →
  fs_locks (funlock me j fs) !! i = Some you ∧ fs_inodes (funlock me j fs) = fs_inodes fs.
Proof.
  intros Hne Hi. unfold funlock. case_bool_decide as Hj; [|done]. simpl. split; [|done].
  rewrite lookup_delete_ne; [done|]. intros ->. congruence.
Qed.

Lemma funlock_released me i fs : fs_locks (funlock me i fs) !! i ≠ Some me.
Proof. unfold funlock. case_bool_decide; [|done]. simpl. by rewrite lookup_delete_eq. Qed.

Lemma contended_inodes path h ino fs fs' : fs_locks fs' !! ino = Some h → modes fs fs' →
  contended path h ino fs → contended path h ino fs'.
Proof. intros Hl Hm [_ (stack & Hr & Ht)]. split; [done|]. exists stack. by rewrite <- Hm. Qed.

Lemma modes_of_inodes fs fs' : fs_inodes fs' = fs_inodes fs → modes fs fs'.
Proof. intros E. by split; intros i; rewrite E. Qed.

Lemma contended_funlock path h me ino j fs : h ≠ me → contended path h ino fs → contended path h ino (funlock me j fs).
Proof.
  intros Hne Hc. destruct (funlock_other me h ino j fs Hne (proj1 Hc)) as [Hl Hi].
  eapply contended_inodes; [done|by apply modes_of_inodes|done].
Qed.

Lemma contended_chmod path h ino i perm fs : contended path h ino fs → contended path h ino (chmod i perm fs).2.
Proof.
  intros Hc. eapply contended_inodes; [|apply chmod_modes|done]. unfold chmod.
  repeat case_match; simpl; apply Hc.
Qed.

Lemma open_create_contended euid path h ino fs : contended path h ino fs →
  (open_create euid (components path) fs).2 = fs ∧
  (∀ fd, (open_create euid (components path) fs).1 = inl fd → fd = ino).
Proof.
  intros [_ (stack & Hr & Ht)]. unfold open_create. rewrite Hr, Ht. repeat case_match; simpl; split; congruence.
Qed.

Section Contended.
Context (euid me you : Z) (path : string) (ino : Z) (Hne : you ≠ me).
Abbreviation I := (contended path you ino).

Lemma closeOnError_contended fd e w : rely (preserving I) w → I (w_fs w) →
  post (closeOnError me fd e) w (λ r w', (∀ l, r ≠ Ok l) ∧ I (w_fs w')).
Proof using Hne.
  intros Hw HI. unfold closeOnError, closeLocked. m_step. apply (sys_preserving I); [done|done|..];
    intros; m_step; (split; [done|]); rewrite H1; by apply contended_funlock.
Qed.

Lemma lockFile_contended ownerUID w : rely (preserving I) w → I (w_fs w) →
  post (lockFile me ino ownerUID) w (λ r w', (∀ l, r ≠ Ok l) ∧ I (w_fs w')).
Proof using Hne.
  intros Hw HI. unfold lockFile, file_Stat, ask. m_step. apply (call_preserving I); [done|done|done|..].
  { intros w1 H1 Hr1. by apply closeOnError_contended. }
  intros fs w1 _ H1 Hr1. m_step; [|by apply closeOnError_contended].
  m_step; [by apply closeOnError_contended|]. m_step; [by apply closeOnError_contended|].
  m_step. unfold file_Chmod. apply (call_preserving I); [done|done|by intros; apply contended_chmod|..].
  { intros w2 H2 Hr2. by apply closeOnError_contended. }
  intros fs2 w2 _ H2 Hr2. m_step; [|by apply closeOnError_contended].
  m_step. unfold unix_Flock. apply (call_preserving I); [done|done|..].
  { intros fs3 H3. unfold flock. by rewrite (proj1 H3). }
  { intros w3 H3 Hr3. m_step; by apply closeOnError_contended. }
  intros fs3 w3 H3 H3' Hr3. unfold flock. rewrite (proj1 H3), (proj2 (Z.eqb_neq you me)) by done.
  simpl. by apply closeOnError_contended.
Qed.

Lemma Acquire_contended ownerUID w : rely (preserving I) w → I (w_fs w) →
  post (Acquire euid me path ownerUID) w (λ r w', (∀ l, r ≠ Ok l) ∧ I (w_fs w')).
Proof using Hne.
  intros Hw HI. unfold Acquire. m_step; [by m_step|]. m_step. unfold os_Lstat, ask.
  apply (call_preserving I); [done|done|done|done|]. intros fs w1 _ H1 Hr1. m_step; [|done].
  m_step; [by m_step|]. m_step; [by m_step|]. m_step. unfold unix_Open_create.
  apply (call_preserving I); [done|done| |done|].
  { intros fs2 H2. by destruct (open_create_contended euid _ _ _ _ H2) as [-> _]. }
  intros fs2 w2 H2 H2' Hr2. destruct (open_create_contended euid _ _ _ _ H2) as [_ Hfd].
  destruct ((open_create euid (components path) fs2).1) as [fd|e]; simpl; [|done].
  rewrite (Hfd fd eq_refl). by apply lockFile_contended.
Qed.
End Contended.

(** ** Acquiring and releasing *)

Lemma rely_true w : rely (preserving (λ _, True)) w.
Proof. done. Qed.

Lemma sys_any {A} (f : FileSystem → (A + ioerr) * FileSystem) g w (Q : res A → World → Prop) :
  (∀ fs n w1, w_fs w1 = g n fs → Q (Err (goerr_of EIO)) w1) →
  (∀ fs w1, w_fs w1 = (f fs).2 → Q (res_of (f fs).1) w1) →
  post (sys f g) w Q.
Proof. intros H1 H2. apply (sys_preserving (λ _, True)); [apply rely_true|done|by eauto..]. Qed.

Section Acquire.
Context (euid me : Z).

(** The lock is held at the moment [Acquire] returns it, whatever else runs. *)
Definition held (r : res Lock) (w' : World) : Prop :=
  ∀ lock, r = Ok lock → ∃ ino, lk_file lock = Some ino ∧ fs_locks (w_fs w') !! ino = Some me.

Lemma closeOnError_held fd e w : post (closeOnError me fd e) w held.
Proof. unfold closeOnError, closeLocked. m_step. apply sys_any; intros; by m_step. Qed.

Lemma flock_held fd fs : (flock me fd fs).1 = inl tt → fs_locks (flock me fd fs).2 !! fd = Some me.
Proof.
  unfold flock. destruct (fs_locks fs !! fd) as [h|] eqn:E; simpl; [|by rewrite lookup_insert_eq].
  destruct (Z.eqb_spec h me); [congruence|done].
Qed.

Lemma Acquire_held path ownerUID w : post (Acquire euid me path ownerUID) w held.
Proof.
  unfold Acquire. m_step; [by m_step|]. m_step. apply sys_any; intros; [done|]. m_step; [|done].
  m_step; [by m_step|]. m_step; [by m_step|]. m_step. apply sys_any; intros; [done|]. m_step; [|done].
  unfold lockFile. m_step. apply sys_any; intros; [by apply closeOnError_held|]. m_step; [|by apply closeOnError_held].
  m_step; [by apply closeOnError_held|]. m_step; [by apply closeOnError_held|].
  m_step. apply sys_any; intros; [by apply closeOnError_held|]. m_step; [|by apply closeOnError_held].
  m_step. apply sys_any; [by intros; apply closeOnError_held|]. intros fs9 w9 Hs.
  destruct ((flock me _ fs9).1) as [[]|e] eqn:E; simpl.
  - m_step. intros lock [= <-]. eexists. split; [done|]. rewrite Hs. by apply flock_held.
  - m_step; by apply closeOnError_held.
Qed.

Lemma Lock_Close_released lock w : post (Lock_Close me (Some lock)) w (λ r w',
  r.2 = Some (mkLock None) ∧ ∀ ino, lk_file lock = Some ino → fs_locks (w_fs w') !! ino ≠ Some me).
Proof.
  destruct lock as [[fd|]]; simpl; [|by m_step]. m_step. apply sys_any; intros; m_step; apply sys_any; intros;
    m_step; (split; [done|]); intros ino [= <-]; rewrite H0; apply funlock_released.
Qed.

Lemma resolve_missing_dir fs p stack name : resolve maxLinks fs false [] p = inl (Missing stack name) →
  ∃ es, entries fs (top stack) = Some es ∧ es !! name = None.
Proof.
  destruct p as [|c p _] using rev_ind; [done|]. intros (-> & (es & He & Hn) & _)%resolve_missing. eauto.
Qed.

Lemma Acquire_available path ownerUID w : alone w → faultless w → available euid path ownerUID (w_fs w) →
  post (Acquire euid me path ownerUID) w (λ r _, ∃ ino, r = Ok (mkLock (Some ino))).
Proof.
  intros Hw Hfl [Habs (i & Hi & Hdir & Huid) Hfile]. unfold Acquire. rewrite Habs. cbn [negb].
  m_step. f_step; [done|]. rewrite Hi. cbn [res_of].
  assert (is_symlink i = false) as -> by (unfold is_symlink, is_dir in *; by destruct (fi_kind i)).
  rewrite Hdir, Huid, Z.eqb_refl. cbn [negb orb].
  assert (alone w1 ∧ faultless w1) as [Hw1 Hfl1] by (split; [eauto with store|by apply (calm_faultless _ _ H)]).
  m_step. unfold unix_Open_create. f_step; [done|]. rewrite (calm_fs _ _ H) in *.
  assert (∃ fd c perm, (open_create euid (components path) (w_fs w)).1 = inl fd ∧
    fs_inodes (w_fs w0) !! fd = Some (mkInode (KFile c) perm ownerUID) ∧ fs_locks (w_fs w0) !! fd = None)
    as (fd & c & perm & Hfd & Hn & Hl).
  { rewrite H2. unfold open_create. destruct Hfile as [(stack & c & perm & -> & Hn & Hl)|(stack & name & Hr & <- & Hl)].
    - rewrite Hn. simpl. eauto 10.
    - rewrite Hr. unfold create_node. destruct (resolve_missing_dir _ _ _ _ Hr) as (es & -> & ->).
      eexists _, _, _. split; [done|]. simpl. rewrite lookup_insert_eq. split; [done|].
      unfold set_entries. repeat case_match; done. }
  rewrite Hfd. cbn [res_of]. unfold lockFile.
  assert (alone w0 ∧ faultless w0) as [Hw0 Hfl0] by (split; [eauto with store|by apply (files_faultless _ _ H1)]).
  m_step. f_step; [by destruct H5|]. rewrite (inode_info_at _ _ _ Hn). cbn [res_of]. cbn [is_regular fi_kind i_kind negb fi_uid i_uid].
  rewrite Z.eqb_refl. cbn [negb].
  assert (alone w2 ∧ faultless w2) as [Hw2 Hfl2] by (split; [eauto with store|by apply (calm_faultless _ _ H3)]).
  m_step. unfold file_Chmod. f_step; [by destruct H7|]. rewrite (calm_fs _ _ H3) in *.
  unfold chmod at 1. rewrite Hn. cbn [fst res_of].
  assert (alone w3 ∧ faultless w3) as [Hw3 Hfl3] by (split; [eauto with store|by apply (files_faultless _ _ H5)]).
  m_step. unfold unix_Flock. f_step; [by destruct H9|].
  assert (fs_locks (w_fs w3) !! fd = None) as Hl3.
  { rewrite H6. unfold chmod. rewrite Hn. done. }
  unfold flock. rewrite Hl3. cbn [fst res_of]. m_step. eauto.
Qed.
End Acquire.

(** ** Properties *)

(** C32. The process lock excludes. When [Acquire] returns a lock, the caller's open
    file description holds the lock of that inode, whatever else runs. While
    another one holds the lock file of the same path, and the file is not replaced,
    no [Acquire] succeeds, whatever fails and however the two processes interleave,
    and the holder keeps its lock. Closing gives the lock up, even when it reports
    an error. And on a safe directory with a free lock file, or none yet, [Acquire]
    without faults succeeds. *)
Theorem process_lock (euid me : Z) (path : string) (ownerUID : Z) (w : World) :
  let run := Acquire euid me path ownerUID w in
  held me (fst run) (snd run) ∧
  (∀ you ino, you ≠ me → contended path you ino (w_fs w) → rely (preserving (contended path you ino)) w →
     (∀ lock, fst run ≠ Ok lock) ∧ contended path you ino (w_fs (snd run))) ∧
  (alone w → faultless w → available euid path ownerUID (w_fs w) → ∃ ino, fst run = Ok (mkLock (Some ino))) ∧
  (∀ lock w1, let closing := Lock_Close me (Some lock) w1 in
     snd (fst closing) = Some (mkLock None) ∧
     ∀ ino, lk_file lock = Some ino → fs_locks (w_fs (snd closing)) !! ino ≠ Some me).
Proof.
  intros run. split_and!.
  - exact (Acquire_held euid me path ownerUID w).
  - intros you ino Hne Hc Hw. exact (Acquire_contended euid me you path ino Hne ownerUID w Hw Hc).
  - intros Hw Hf Ha. exact (Acquire_available euid me path ownerUID w Hw Hf Ha).
  - intros lock w1. exact (Lock_Close_released me lock w1).
Qed.

Abbreviation firstRun := (Acquire 0 1 "/var/lib/user.lock" 0 varWorld).
Abbreviation secondRun := (Acquire 0 2 "/var/lib/user.lock" 0 (snd firstRun)).

Lemma process_lock_witness :
  (∃ ino, fst firstRun = Ok (mkLock (Some ino))) ∧
  (∀ lock, fst secondRun ≠ Ok lock) ∧ fst secondRun = Err ErrAlreadyLocked.
Proof.
  split_and!; [| |vm_compute; reflexivity].
  - apply (process_lock 0 1 "/var/lib/user.lock" 0 varWorld).
    + intros n. split; reflexivity.
    + intros n. reflexivity.
    + split; [reflexivity|eexists; split_and!; [vm_compute; reflexivity|reflexivity|reflexivity]|].
      right. eexists _, _. split_and!; [vm_compute; reflexivity|reflexivity|reflexivity].
  - apply (process_lock 0 2 "/var/lib/user.lock" 0 (snd firstRun)) with (you := 1) (ino := 4).
    + discriminate.
    + split; [vm_compute; reflexivity|]. eexists. split; [vm_compute; reflexivity|reflexivity].
    + intros n. split; [intros db; exact I|]. intros fs H. exact H.
Defined.
