(* ===== verification/Separation.v ===== *)
(** * The bootstrap seal stays outside the database directory (src/main.go)

    [requireSealOutsideDatabase] compares where the two paths physically lead, so
    that whoever can write the database directory cannot reach the seal through
    another spelling of its path. *)

From stdpp Require Import prelude strings gmap.
From Stdlib Require Import ZArith Lia Ascii.
From S2P Require Import Prelude GoStrings Password FileSystem Tables Store Files Trees Bootstrap FileSeal.

Local Open Scope Z_scope.
Local Open Scope m_scope.

(** ** Paths *)

(** [filepath.Abs], with what [os.Getwd] answers. *)
Definition Abs (cwd : option path) (s : string) : res path :=
  if IsAbs s then Ok (Clean (components s))
  else match cwd with
       | Some d => Ok (Clean (d ++ components s))
       | None => Err (NewError "getwd")
       end.

(** [filepath.Rel] of two absolute clean paths: up from what they do not share,
    then down. *)
Fixpoint Rel (base targ : path) : path :=
  match base, targ with
  | b :: bs, t :: ts => if bool_decide (b = t) then Rel bs ts else replicate (length base) ".." ++ targ
  | _, _ => replicate (length base) ".." ++ targ
  end.
Definition RelText (base targ : path) : string :=
  match Rel base targ with [] => "." | p => join_with "/" p end.

(** ** The check *)

(** The loop of [resolveThroughExistingAncestor]: [probe] is the path still looked
    for, last component first, and [missing] what was cut off it. *)
Fixpoint resolveFrom (probe missing : path) : M (res path) :=
  info <- os_Lstat (rev probe);;
  match info with
  | Ok _ =>
     ok resolved <- ask (λ fs, EvalSymlinks fs (rev probe));;
     mret (Ok (Clean (resolved ++ missing)))
  | Err e =>
     if negb (IsNotExist e) then mret (Err e)
     else match probe with
          | [] => mret (Err (NewError "no existing path ancestor"))
          | base :: parent => resolveFrom parent (base :: missing)
          end
  end.

Definition resolveThroughExistingAncestor (cwd : option path) (s : string) : M (res path) :=
  match Abs cwd s with
  | Err e => mret (Err e)
  | Ok absolute => resolveFrom (rev (Clean absolute)) []
  end.

(** The verdict on the two resolved paths. *)
Definition sealInside (database seal : path) : bool :=
  let relative := RelText database seal in
  bool_decide (relative = ".") || (negb (bool_decide (relative = "..")) && negb (has_prefix "../" relative)).

Definition requireSealOutsideDatabase (cwd : option path) (databaseDirectory sealPath : string) : M (res unit) :=
  ok databaseAbsolute <- resolveThroughExistingAncestor cwd databaseDirectory or "resolve database directory";;
  ok sealAbsolute <- resolveThroughExistingAncestor cwd sealPath or "resolve bootstrap seal";;
  if sealInside databaseAbsolute sealAbsolute
  then mret (Err (NewError "bootstrap seal must be stored outside the database directory"))
  else mret (Ok tt).

(** ** The reference: physical paths *)

(** Where a path leads: its longest existing prefix with every symbolic link
    followed, and the rest below it. *)
Fixpoint physicalFrom (fs : FileSystem) (probe missing : path) : option path :=
  match path_info false fs (rev probe) with
  | inl _ =>
     match EvalSymlinks fs (rev probe) with inl resolved => Some (resolved ++ missing) | inr _ => None end
  | inr ENOENT => match probe with [] => None | base :: parent => physicalFrom fs parent (base :: missing) end
  | inr _ => None
  end.

Definition physical (cwd : option path) (fs : FileSystem) (s : string) : option path :=
  match Abs cwd s with Ok p => physicalFrom fs (rev p) [] | Err _ => None end.

(** A name an entry of a directory can have. *)
Definition plain_name (c : string) : Prop := c ≠ ".." ∧ contains_byte "/" c = false.
Definition plain_names (fs : FileSystem) : Prop :=
  ∀ d es c i, entries fs d = Some es → es !! c = Some i → plain_name c.

Lemma plain_up p : Forall plain_name p → Forall (λ c, c ≠ "..") p.
Proof. intros H. eapply Forall_impl; [exact H|]. by intros c []. Qed.

Lemma Clean_app p q : Clean (p ++ q) = foldl clean_step (Clean p) q.
Proof. unfold Clean. by rewrite foldl_app. Qed.

Lemma Clean_plain p : Forall (λ c, c ≠ "..") p → Clean p = p.
Proof.
  induction p as [|c p IH] using rev_ind; [done|]. intros [Hp Hc]%Forall_app. rewrite Forall_singleton in Hc.
  rewrite Clean_app, IH by done. simpl. unfold clean_step. by rewrite bool_decide_eq_false_2.
Qed.

Lemma Clean_names (P : string → Prop) p : Forall (λ c, c = ".." ∨ P c) p → Forall P (Clean p).
Proof.
  induction p as [|c p IH] using rev_ind; [done|]. intros [Hp Hc]%Forall_app. rewrite Forall_singleton in Hc.
  rewrite Clean_app. simpl. unfold clean_step. case_bool_decide as E.
  - apply Forall_take. auto.
  - apply Forall_app. split; [auto|]. constructor; [by destruct Hc|done].
Qed.

Lemma components_names s : Forall (λ c, contains_byte "/" c = false) (components s).
Proof.
  apply Forall_forall. intros c (_ & Hc)%list_elem_of_filter. by eapply (proj1 (Forall_forall _ _) (split_on_parts "/" s)).
Qed.

(** A component that cannot be an entry's name is "..", and [Clean] removes it. *)
Lemma Abs_plain cwd s p : Forall plain_name (default [] cwd) → Abs cwd s = Ok p → Forall plain_name p.
Proof.
  intros Hcwd. unfold Abs.
  assert (∀ q, Forall plain_name q → Forall plain_name (Clean (q ++ components s))) as H.
  { intros q Hq. apply Clean_names, Forall_app. split; [by eapply Forall_impl; eauto|].
    eapply Forall_impl; [apply components_names|]. intros c Hc. unfold plain_name. destruct (decide (c = "..")); auto. }
  destruct (IsAbs s); [intros [= <-]; by apply (H [])|]. destruct cwd; [intros [= <-]; by apply H|done].
Qed.

Lemma resolve_plain fs f l st p stack : plain_names fs → Forall (λ e : string * Z, plain_name e.1) st →
  resolve l fs f st p = inl (At stack) → Forall (λ e : string * Z, plain_name e.1) stack.
Proof.
  intros Hfs. revert stack. apply (walk_ind (λ l st p, ∀ stack, Forall (λ e : string * Z, plain_name e.1) st →
    resolve l fs f st p = inl (At stack) → Forall (λ e : string * Z, plain_name e.1) stack)); clear l st p.
  - intros l st stack Hst. rewrite resolve_nil. by intros [= <-].
  - intros l st c rest IHr IHl stack Hst. rewrite resolve_cons. case_bool_decide as Hc.
    { apply IHr. by destruct Hst. }
    destruct (entries fs (top st)) as [es|] eqn:He; [|done]. destruct (es !! c) as [i|] eqn:Hi; [|by case_bool_decide].
    assert (Forall (λ e : string * Z, plain_name e.1) ((c, i) :: st)) as Hcons by (constructor; [by eapply Hfs|done]).
    destruct (i_kind <$> fs_inodes fs !! i) as [[| |target|]|]; [by apply IHr| | | |done].
    + case_bool_decide; [by intros [= <-]|done].
    + case_match; [by intros [= <-]|]. destruct l as [|l]; [done|]. apply IHl; [lia|]. by case_match.
    + case_bool_decide; [by intros [= <-]|done].
Qed.

Lemma EvalSymlinks_plain fs p q : plain_names fs → EvalSymlinks fs p = inl q → Forall plain_name q.
Proof.
  unfold EvalSymlinks. intros Hfs. destruct (resolve maxLinks fs true [] p) as [[stack|]|] eqn:E; intros [= <-].
  apply Forall_rev, Forall_fmap. by eapply resolve_plain.
Qed.

Lemma physicalFrom_plain fs probe missing q : plain_names fs → Forall plain_name probe → Forall plain_name missing →
  physicalFrom fs probe missing = Some q → Forall plain_name q.
Proof.
  intros Hfs. revert missing. induction probe as [|c probe IH]; intros missing Hp Hm; cbn [physicalFrom];
    (destruct (path_info false fs _) as [i|[]]; [|try done..]).
  - destruct (EvalSymlinks fs _) eqn:E; [|done]. intros [= <-]. apply Forall_app. split; [by eapply EvalSymlinks_plain|done].
  - destruct (EvalSymlinks fs _) eqn:E; [|done]. intros [= <-]. apply Forall_app. split; [by eapply EvalSymlinks_plain|done].
  - apply Forall_cons in Hp as [Hc Hp]. apply IH; [done|]. by constructor.
Qed.

(** ** The text of the relative path decides the prefix *)

Lemma Rel_prefix base targ : base `prefix_of` targ → Rel base targ = drop (length base) targ.
Proof. intros [k ->]. induction base as [|b base IH]; simpl; [by destruct k|]. by rewrite bool_decide_eq_true_2. Qed.

Lemma Rel_up base targ : ¬ base `prefix_of` targ → ∃ rest, Rel base targ = ".." :: rest.
Proof.
  revert targ. induction base as [|b base IH]; intros targ Hn; [by destruct Hn; exists targ|].
  destruct targ as [|t targ]; simpl; [eauto|]. case_bool_decide as E; [subst|eauto].
  apply IH. intros H. apply Hn. by apply prefix_cons.
Qed.

Lemma join_up rest : bool_decide (join_with "/" (".." :: rest) = "..") || has_prefix "../" (join_with "/" (".." :: rest)) = true.
Proof. destruct rest; [done|]. simpl. done. Qed.

Lemma has_prefix_up c s : contains_byte "/" c = false → c ≠ ".." → has_prefix "../" (c +:+ String "/" s) = false.
Proof.
  intros Hc Hne. destruct c as [|a [|b [|d c]]]; simpl in *; try done.
  all: repeat (case_bool_decide; simplify_eq/=; try done).
Qed.

Lemma sealInside_prefix database seal : Forall plain_name seal →
  sealInside database seal = true ↔ database `prefix_of` seal.
Proof.
  intros Hs. unfold sealInside, RelText. destruct (decide (database `prefix_of` seal)) as [Hp|Hn].
  - split; [done|intros _]. rewrite (Rel_prefix _ _ Hp). apply (Forall_drop _ (length database)) in Hs.
    destruct (drop (length database) seal) as [|c [|c2 rest]]; [done|..].
    + apply Forall_cons in Hs as [[Hne Hc] _]. cbn [join_with]. rewrite (bool_decide_eq_false_2 (c = "..")) by done.
      destruct (has_prefix "../" c) eqn:E; [|apply orb_true_r].
      destruct c as [|a [|b [|d c]]]; simpl in *; try done; repeat case_bool_decide; done.
    + apply Forall_cons in Hs as [[Hne Hc] _].
      change (join_with "/" (c :: c2 :: rest)) with (c +:+ String "/" (join_with "/" (c2 :: rest))).
      rewrite has_prefix_up by done. destruct (bool_decide (_ = "..")) eqn:E; [|apply orb_true_r].
      apply bool_decide_eq_true in E. destruct c as [|a [|b c]]; simpl in E; [done|..]; simplify_eq. by destruct c.
  - split; [|done]. destruct (Rel_up _ _ Hn) as [rest ->]. pose proof (join_up rest) as H.
    rewrite (bool_decide_eq_false_2 (join_with "/" (".." :: rest) = ".")) by (by destruct rest).
    apply orb_prop in H as [-> | ->]; simpl; [done|by rewrite andb_false_r].
Qed.

(** ** The run computes the reference *)

Definition resolves (fs : FileSystem) (w : World) (reference : option path) (r : res path) (w' : World) : Prop :=
  calm w w' ∧ w_db w' = w_db w ∧ (∀ p, r = Ok p → reference = Some p) ∧
  (faultless w → ∀ p, reference = Some p → r = Ok p).

Lemma resolveFrom_spec probe missing w : alone w → plain_names (w_fs w) →
  Forall plain_name probe → Forall plain_name missing →
  post (resolveFrom probe missing) w (resolves (w_fs w) w (physicalFrom (w_fs w) probe missing)).
Proof.
  intros Hw Hn. revert missing w Hw Hn. induction probe as [|c probe IH]; intros missing w Hw Hn Hp Hm;
    cbn [resolveFrom physicalFrom]; m_step.
  all: f_step; [cbn [goerr_of IsNotExist negb]; m_step; (split_and!; [done|done|done|fault_absurd])|].
  all: destruct (path_info false (w_fs w) _) as [i|e] eqn:Hi; cbn [res_of].
  1, 3: m_step; f_step; [(split_and!; [calm_chain|congruence|done|fault_absurd])|];
    rewrite (calm_fs _ _ H); destruct (EvalSymlinks (w_fs w) _) as [q|e] eqn:Hq; cbn [res_of];
    [m_step; rewrite Clean_plain|];
    [(split_and!; [calm_chain|congruence|by intros ? [= <-]|by intros _ ? [= <-]])
    |apply plain_up, Forall_app; split; [by eapply EvalSymlinks_plain|done]
    |(split_and!; [calm_chain|congruence|done|done])].
  - destruct e; cbn [goerr_of IsNotExist negb]; m_step; (split_and!; [done|done|done|done]).
  - destruct (decide (e = ENOENT)) as [->|Hne].
    + cbn [goerr_of IsNotExist]. rewrite bool_decide_eq_true_2 by done. cbn [negb].
      apply Forall_cons in Hp as [Hc Hp]. rewrite <- (calm_fs _ _ H) in *.
      eapply post_mono; [apply IH; [eauto with store|done|done|by constructor]|].
      intros r w2 (Hc2 & Hd2 & Hok & Hl). split_and!; [calm_chain|congruence|done|].
      intros Hfl. apply Hl, (calm_faultless _ _ H Hfl).
    + destruct e; try done; cbn [goerr_of IsNotExist negb]; m_step; (split_and!; [done|done|done|done]).
Qed.

Section Separation.
Context (cwd : option path) (Hcwd : Forall plain_name (default [] cwd)).

Lemma resolveThroughExistingAncestor_spec s w : alone w → plain_names (w_fs w) →
  post (resolveThroughExistingAncestor cwd s) w (resolves (w_fs w) w (physical cwd (w_fs w) s)).
Proof using Hcwd.
  intros Hw Hn. unfold resolveThroughExistingAncestor, physical.
  destruct (Abs cwd s) as [p|e] eqn:Hp; [|m_step; (split_and!; [eauto with store|done|done|done])].
  pose proof (Abs_plain _ _ _ Hcwd Hp) as Hpl.
  rewrite Clean_plain by (by apply plain_up).
  apply resolveFrom_spec; [done|done| |done]. by apply Forall_rev.
Qed.

Lemma physical_plain fs s p : plain_names fs → physical cwd fs s = Some p → Forall plain_name p.
Proof using Hcwd.
  unfold physical. intros Hn. destruct (Abs cwd s) as [q|] eqn:E; [|done].
  apply physicalFrom_plain; [done| |done]. apply Forall_rev. by eapply Abs_plain.
Qed.

Lemma requireSealOutsideDatabase_spec db seal w : alone w → plain_names (w_fs w) →
  post (requireSealOutsideDatabase cwd db seal) w (λ r w', calm w w' ∧ w_db w' = w_db w ∧
    let outside := ∃ d s, physical cwd (w_fs w) db = Some d ∧ physical cwd (w_fs w) seal = Some s ∧ ¬ d `prefix_of` s in
    (r = Ok tt → outside) ∧ (faultless w → outside → r = Ok tt)).
Proof using Hcwd.
  intros Hw Hn. unfold requireSealOutsideDatabase. m_step.
  eapply post_mono; [by apply resolveThroughExistingAncestor_spec|]. intros r w1 (Hc1 & Hd1 & Hok1 & Hl1).
  destruct r as [d|e].
  2:{ split_and!; [done|done|done|]. intros Hfl (d & s & Hd & _). discriminate (Hl1 Hfl d Hd). }
  m_step. eapply post_mono; [apply resolveThroughExistingAncestor_spec; [eauto with store|by rewrite (calm_fs _ _ Hc1)]|].
  rewrite (calm_fs _ _ Hc1). intros r w2 (Hc2 & Hd2 & Hok2 & Hl2). specialize (Hok1 d eq_refl).
  destruct r as [s|e].
  2:{ split_and!; [calm_chain|congruence|done|]. intros Hfl (d' & s & _ & Hs & _).
      discriminate (Hl2 (calm_faultless _ _ Hc1 Hfl) s Hs). }
  specialize (Hok2 s eq_refl). pose proof (sealInside_prefix d s (physical_plain _ _ _ Hn Hok2)) as Hin.
  destruct (sealInside d s) eqn:E; m_step; (split_and!; [calm_chain|congruence|..]).
  - done.
  - intros _ (d' & s' & Hd' & Hs' & Hnp). destruct Hnp. simplify_eq. by apply Hin.
  - intros _. exists d, s. split_and!; [done|done|]. intros H%Hin. congruence.
  - done.
Qed.
End Separation.

(** ** What the verdict means for walks *)

Lemma resolve_nofollow fs l st p stack :
  resolve l fs true st p = inl (At stack) → ∃ stack', resolve l fs false st p = inl (At stack').
Proof.
  revert stack. apply (walk_ind (λ l st p, ∀ stack, resolve l fs true st p = inl (At stack) →
    ∃ stack', resolve l fs false st p = inl (At stack'))); clear l st p.
  - intros l st stack. rewrite !resolve_nil. eauto.
  - intros l st c rest IHr IHl stack. rewrite !resolve_cons. case_bool_decide; [by apply IHr|].
    destruct (entries fs (top st)) as [es|]; [|done]. destruct (es !! c) as [i|]; [|by case_bool_decide].
    destruct (i_kind <$> fs_inodes fs !! i) as [[| |target|]|]; [by apply IHr| | | |done].
    + case_bool_decide; eauto.
    + cbn [negb]. rewrite andb_false_r, andb_true_r. destruct l as [|l]; [done|].
      case_bool_decide; [eauto|]. apply IHl. lia.
    + case_bool_decide; eauto.
Qed.

Lemma physicalFrom_eq fs probe missing : physicalFrom fs probe missing =
  match path_info false fs (rev probe) with
  | inl _ =>
     match EvalSymlinks fs (rev probe) with inl resolved => Some (resolved ++ missing) | inr _ => None end
  | inr ENOENT => match probe with [] => None | base :: parent => physicalFrom fs parent (base :: missing) end
  | inr _ => None
  end.
Proof. by destruct probe. Qed.

Lemma physical_walk cwd fs s p q stack : Abs cwd s = Ok p → physical cwd fs s = Some q →
  resolve maxLinks fs true [] p = inl (At stack) → q = rev (map fst stack).
Proof.
  unfold physical. intros -> Hq Hr. destruct (resolve_nofollow _ _ _ _ _ Hr) as [stack' Hr'].
  assert (∃ i, path_info false fs (rev (rev p)) = inl i ∨ path_info false fs (rev (rev p)) = inr EIO) as [i Hi].
  { rewrite rev_involutive. unfold path_info. rewrite Hr'. destruct (inode_info fs (top stack')) as [i|]; [eauto|].
    exists (mkFileInfo 0 KOther 0 0 0). by right. }
  assert (EvalSymlinks fs (rev (rev p)) = inl (rev (map fst stack))) as He.
  { rewrite rev_involutive. unfold EvalSymlinks. by rewrite Hr. }
  rewrite physicalFrom_eq in Hq. destruct Hi as [Hi|Hi]; rewrite Hi in Hq; [|done].
  rewrite He, app_nil_r in Hq. by injection Hq.
Qed.

(** C33. The seal check compares physical places. [requireSealOutsideDatabase]
    always ends, changes nothing, and without faults accepts exactly when both
    paths have a physical place (every symbolic link of the longest existing prefix
    followed, the missing rest appended) and the database directory's is not a
    prefix of the seal's; an accepted seal that exists is not reached through the
    directory, whatever spelling either path has. *)
Theorem seal_outside_database (cwd : option path) (db seal : string) (w : World) :
  Forall plain_name (default [] cwd) → plain_names (w_fs w) → alone w →
  let run := requireSealOutsideDatabase cwd db seal w in
  let outside := ∃ d s, physical cwd (w_fs w) db = Some d ∧ physical cwd (w_fs w) seal = Some s ∧
                   ¬ d `prefix_of` s in
  w_db (snd run) = w_db w ∧ w_fs (snd run) = w_fs w ∧
  (fst run = Ok tt → outside) ∧ (faultless w → outside → fst run = Ok tt) ∧
  (fst run = Ok tt → ∀ p q dstack sstack, Abs cwd db = Ok p → Abs cwd seal = Ok q →
     resolve maxLinks (w_fs w) true [] p = inl (At dstack) →
     resolve maxLinks (w_fs w) true [] q = inl (At sstack) → ¬ dstack `suffix_of` sstack).
Proof.
  intros Hcwd Hn Hw run outside.
  destruct (requireSealOutsideDatabase_spec cwd Hcwd db seal w Hw Hn) as (Hc & Hd & Hok & Hl).
  fold run in Hc, Hd, Hok, Hl. split_and!; [done|by apply calm_fs|exact Hok|exact Hl|].
  intros Hr p q dstack sstack Hp Hq Hds Hss [up ->]. destruct (Hok Hr) as (d & s & Hd' & Hs' & Hnp).
  apply Hnp. rewrite (physical_walk _ _ _ _ _ _ Hp Hd' Hds), (physical_walk _ _ _ _ _ _ Hq Hs' Hss).
  rewrite map_app, rev_app_distr. by apply prefix_app_r.
Qed.

Lemma varLib_plain : plain_names varLib.
Proof.
  intros d es c i [[_ ->]|[[_ ->]|[_ ->]]]%varLib_entries Hc; [..|by apply lookup_empty_Some in Hc];
    by apply lookup_singleton_Some in Hc as [<- _].
Qed.

Lemma seal_outside_database_witness :
  fst (requireSealOutsideDatabase None "/var/lib/db" "/var/lib/../seal" varWorld) = Ok tt ∧
  ¬ ["var"; "lib"; "db"] `prefix_of` ["var"; "seal"].
Proof.
  destruct (seal_outside_database None "/var/lib/db" "/var/lib/../seal" varWorld) as (_ & _ & H & _ & _).
  - constructor.
  - exact varLib_plain.
  - intros n. split; reflexivity.
  - assert (fst (requireSealOutsideDatabase None "/var/lib/db" "/var/lib/../seal" varWorld) = Ok tt) as E
      by (vm_compute; reflexivity).
    split; [exact E|]. destruct (H E) as (d & s & Hd & Hs & Hn). vm_compute in Hd, Hs.
    injection Hd as <-. injection Hs as <-. exact Hn.
Defined.
