(* ===== verification/Databases.v ===== *)
(** * Opening the user database (src/pkg/sqlite/db.go) and the configuration
    (src/pkg/config/init.go)

    The checks on the database's directory and file, and the configuration file the
    commands fall back on. gorm and the ini parser are parameters. *)

From stdpp Require Import prelude strings gmap.
From Stdlib Require Import ZArith Lia Ascii.
From S2P Require Import Prelude GoStrings Password FileSystem Tables Store Files Trees Bootstrap FileSeal UserConfig Processlock.

Local Open Scope Z_scope.
Local Open Scope m_scope.

(** ** Paths of a process *)

(** [filepath.Clean] of a relative path keeps leading "..". *)
Definition clean_rel_step (acc : path) (c : string) : path :=
  if bool_decide (c = "..") then
    match last acc with
    | None | Some ".." => acc ++ [".."]
    | Some _ => removelast acc
    end
  else acc ++ [c].

(** How the kernel walks a path string from the working directory [cwd]. *)
Definition walked (cwd : path) (s : string) : path := if IsAbs s then components s else cwd ++ components s.

(** [filepath.Join(s, names...)]: cleaned before it is walked. *)
Definition Join (cwd : path) (s : string) (names : path) : path :=
  if IsAbs s then Clean (components s ++ names)
  else cwd ++ foldl clean_rel_step [] (components s ++ names).

(** ** More calls *)

(** The inode a path leads to, symbolic links followed to the end. *)
Definition at_path {A} (p : path) (f : Z → FileSystem → (A + ioerr) * FileSystem) (fs : FileSystem) : (A + ioerr) * FileSystem :=
  match resolve maxLinks fs true [] p with
  | inr e => (inr e, fs)
  | inl (Missing _ _) => (inr ENOENT, fs)
  | inl (At stack) => f (top stack) fs
  end.

Definition os_Chmod (p : path) (perm : Z) : M (res unit) := call (at_path p (λ ino, chmod ino perm)).

(** [os.OpenFile(path, O_RDWR | O_CREATE | O_EXCL, 0600)]. *)
Definition os_CreateExclusive (euid : Z) (p : path) : M (res Z) :=
  call (create_path p (mkInode (KFile "") 384 euid)).

(** [os.OpenFile(path, O_RDWR, 0600)], with [O_CREATE] when [create]; [perm] of a
    new file. *)
Definition open_rdwr (euid perm : Z) (create : bool) (p : path) (fs : FileSystem) : (Z + ioerr) * FileSystem :=
  match resolve maxLinks fs true [] p with
  | inr e => (inr e, fs)
  | inl (Missing stack name) =>
     if create then create_node (top stack) name (mkInode (KFile "") perm euid) fs else (inr ENOENT, fs)
  | inl (At stack) =>
     match entries fs (top stack) with Some _ => (inr EISDIR, fs) | None => (inl (top stack), fs) end
  end.

Definition os_OpenFile (euid perm : Z) (create : bool) (p : path) : M (res Z) := call (open_rdwr euid perm create p).

(** [os.Create]: an existing file loses its contents. *)
Definition truncate (ino : Z) (fs : FileSystem) : FileSystem :=
  match fs_inodes fs !! ino with
  | Some (mkInode (KFile _) perm uid) => set_inode ino (mkInode (KFile "") perm uid) fs
  | _ => fs
  end.

Definition create_truncate (euid perm : Z) (p : path) (fs : FileSystem) : (Z + ioerr) * FileSystem :=
  match open_rdwr euid perm true p fs with
  | (inl ino, fs1) => (inl ino, truncate ino fs1)
  | failed => failed
  end.

Definition os_Create (euid perm : Z) (p : path) : M (res Z) := call (create_truncate euid perm p).

(** ** The database *)

Definition databaseFilename : string := "user.db".

(** What the package uses of gorm: opening the file, its connection pool, the schema
    migration and closing. *)
Record Gorm := mkGorm {
  gorm_Open : M (res unit);
  gorm_DB : M (res unit);
  gorm_AutoMigrate : M (res unit);
  gorm_Close : M (option goerr);
}.

(** A migration adds what the schema lacks and keeps every row. *)
Record migrated (db db' : Database) : Prop := {
  mg_users : o_users db' = o_users db;
  mg_sessions : o_refresh_sessions db' = o_refresh_sessions db;
  mg_marker : marker_of db' = marker_of db;
}.

#[export] Instance migrated_preorder : PreOrder migrated.
Proof. split; [by intros db|]. intros a b c [] []. split; congruence. Qed.

Class GormSpec (G : Gorm) : Prop := {
  open_spec w : alone w → post (gorm_Open G) w (λ _ w', runs w w' ∧ w_db w' = w_db w);
  db_spec w : alone w → post (gorm_DB G) w (λ _ w', runs w w' ∧ w_db w' = w_db w);
  migrate_spec w : alone w → post (gorm_AutoMigrate G) w (λ _ w', runs w w' ∧ migrated (w_db w) (w_db w'));
  close_spec w : alone w → post (gorm_Close G) w (λ _ w', runs w w' ∧ w_db w' = w_db w);
  open_keeps I : Stable I → keeping I (gorm_Open G);
  db_keeps I : Stable I → keeping I (gorm_DB G);
  migrate_keeps I : Stable I → keeping I (gorm_AutoMigrate G);
  close_keeps I : Stable I → keeping I (gorm_Close G);
}.
#[export] Hint Resolve open_keeps db_keeps migrate_keeps close_keeps : locks.

Section Databases.
Context (euid : Z) (cwd : path) (G : Gorm).

Definition secureDirectory (dbPath : string) (create : bool) : M (res unit) :=
  let p := walked cwd dbPath in
  found <- os_Lstat p;;
  ok info <- match found with
             | Ok info => mret (Ok info)
             | Err e =>
                if negb (IsNotExist e) then mret (Err (Wrap "inspect database directory" e))
                else if negb create then mret (Err (NewError "user database directory does not exist"))
                else
                  ok _ <- mkdirAll euid 448 [] p or "create database directory";;
                  ok info <- os_Lstat p or "inspect created database directory";;
                  mret (Ok info)
             end;;
  if is_symlink info || negb (is_dir info)
  then mret (Err (NewError "database directory must be a real directory, not a symlink"))
  else if negb (fi_uid info =? euid) then mret (Err (NewError "database directory has an unexpected owner"))
  else ok _ <- os_Chmod p 448 or "secure database directory";; mret (Ok tt).

(** The checks of [secureDatabaseFile] before the file is opened. *)
Definition checkDatabaseFile (found : res FileInfo) (create : bool) : option goerr :=
  match found with
  | Ok info =>
     if is_symlink info || negb (is_regular info)
     then Some (NewError "user database must be a regular file, not a symlink")
     else if negb (fi_uid info =? euid) then Some (NewError "user database has an unexpected owner")
     else None
  | Err e =>
     if negb (IsNotExist e) then Some (Wrap "inspect user database" e)
     else if negb create then Some (NewError "user database file does not exist")
     else None
  end.

Definition secureDatabaseFile (p : path) (create : bool) : M (res unit) :=
  found <- os_Lstat p;;
  match checkDatabaseFile found create with
  | Some e => mret (Err e)
  | None =>
     ok file <- os_OpenFile euid 384 create p or "open user database bootstrap file";;
     ok _ <- file_Close file or "close user database bootstrap file";;
     ok _ <- os_Chmod p 384 or "secure user database bootstrap file";;
     mret (Ok tt)
  end.

(** An error after the pool is open closes it. *)
Definition closePool (e : goerr) : M (res unit) := _ <- gorm_Close G;; mret (Err e).

Definition openDb (dbPath : string) (create migrate : bool) : M (res unit) :=
  if bool_decide (TrimSpace dbPath = "") then mret (Err (NewError "database directory is empty"))
  else
    ok _ <- secureDirectory dbPath create;;
    let databasePath := Join cwd dbPath [databaseFilename] in
    ok _ <- secureDatabaseFile databasePath create;;
    ok _ <- gorm_Open G or "open user database";;
    ok _ <- gorm_DB G or "access user database pool";;
    done <- (if migrate then gorm_AutoMigrate G else mret (Ok tt));;
    match done with
    | Err e => closePool (Wrap "migrate user database" e)
    | Ok _ =>
       secured <- os_Chmod databasePath 384;;
       match secured with
       | Err e => closePool (Wrap "secure user database" e)
       | Ok _ => mret (Ok tt)
       end
    end.

Definition GetDb (dbPath : string) : M (res unit) := openDb dbPath true true.
Definition GetExistingDb (dbPath : string) : M (res unit) := openDb dbPath false false.

Definition GetBootstrapDb (dbPath : string) : M (res unit) :=
  if bool_decide (TrimSpace dbPath = "") then mret (Err (NewError "database directory is empty"))
  else
    ok _ <- secureDirectory dbPath true;;
    created <- os_CreateExclusive euid (Join cwd dbPath [databaseFilename]);;
    match created with
    | Ok file =>
       ok _ <- file_Close file or "close new bootstrap database";;
       openDb dbPath false true
    | Err e =>
       if negb (errors_Is e ErrExist) then mret (Err (Wrap "create bootstrap database exclusively" e))
       else openDb dbPath false false
    end.
End Databases.

(** ** The configuration *)

Record CommonModel := mkCommon {
  RuntimePath : string;
  CORSOrigins : string;
}.

Record APPModel := mkAPP {
  LogPath : string;
  LogSaveName : string;
  LogFileExt : string;
  UserDataPath : string;
  DBPath : string;
}.

(** The package's variables of the same names. *)
Record Config := mkConfig {
  CommonInfo : CommonModel;
  AppInfo : APPModel;
}.

Definition UserServiceConfigFilePath : string := "/etc/casaos/user-service.conf".

Section Config.
Context (euid : Z) (cwd : path) (umask : Z).
(** [ini.Load] of the bytes and [MapTo] of the sections over the defaults; [None]
    when either fails, which ends the process. *)
Context (ini_Map : string → option Config).

(** [os.ReadFile], which [ini.Load] uses. *)
Definition os_ReadFile (p : path) : M (res string) :=
  ask (λ fs, match resolve maxLinks fs true [] p with
             | inr e => inr e
             | inl (Missing _ _) => inr ENOENT
             | inl (At stack) => read_file (top stack) fs
             end).

(** [panic(err)] and [os.Exit] end the process: the error that stands for it is
    never handled. *)
Definition InitSetup (config sample : string) : M (res Config) :=
  let ConfigFilePath := if (0 <? len config)%N then config else UserServiceConfigFilePath in
  let p := walked cwd ConfigFilePath in
  found <- os_Stat p;;
  ok _ <- (if match found with Err e => IsNotExist e | Ok _ => false end then
             ok file <- os_Create euid (Z.land 438 (Z.lnot umask)) p or "panic";;
             ok _ <- file_Write file sample or "panic";;
             mret (Ok tt)
           else mret (Ok tt));;
  ok contents <- os_ReadFile p or "Fail to read file";;
  match ini_Map contents with
  | Some cfg => mret (Ok cfg)
  | None => mret (Err (NewError "Fail to read file"))
  end.
End Config.

(** ** Frames *)

(** The run changes nothing but files. *)
Definition files_only {A} (m : M A) : Prop := ∀ w, alone w → post m w (λ _ w', files w w').

Lemma files_only_ret {A} (a : A) : files_only (mret a).
Proof. intros w Hw. m_step. by apply files_refl. Qed.

Lemma files_only_bind {A B} (m : M A) (k : A → M B) : files_only m → (∀ a, files_only (k a)) → files_only (mbind m k).
Proof.
  intros Hm Hk w Hw. m_step. eapply post_mono; [by apply Hm|]. cbv beta. intros a w1 H1.
  eapply post_mono; [apply Hk; eauto with store|]. cbv beta. intros b w2 H2. by eapply files_trans.
Qed.

Lemma files_only_try {A B} (m : M (res A)) (k : A → M (res B)) :
  files_only m → (∀ a, files_only (k a)) → files_only (try m k).
Proof. intros Hm Hk. apply files_only_bind; [done|]. intros [a|e]; [done|apply files_only_ret]. Qed.

Lemma files_only_wrap {A B} msg (m : M (res A)) (k : A → M (res B)) :
  files_only m → (∀ a, files_only (k a)) → files_only (try_wrap msg m k).
Proof. intros Hm Hk. apply files_only_bind; [done|]. intros [a|e]; [done|apply files_only_ret]. Qed.

Lemma files_only_sys {A} (f : FileSystem → (A + ioerr) * FileSystem) g : files_only (sys f g).
Proof. intros w Hw. by apply sys_solo. Qed.

(** Follows the control flow of a run that only calls the file system. *)
Ltac files_walk :=
  intros;
  lazymatch goal with
  | |- files_only (mret _) => apply files_only_ret
  | |- files_only (mbind _ _) => apply files_only_bind; files_walk
  | |- files_only (try _ _) => apply files_only_try; files_walk
  | |- files_only (try_wrap _ _ _) => apply files_only_wrap; files_walk
  | |- files_only (match ?x with _ => _ end) => destruct x; files_walk
  | |- _ => first [solve [auto with files nocore] | apply files_only_sys]
  end.

Lemma mkdirAll_files euid perm parent todo : files_only (mkdirAll euid perm parent todo).
Proof. revert parent. induction todo as [|c rest IH]; intros parent; cbn [mkdirAll]; files_walk. Qed.
#[export] Hint Resolve mkdirAll_files : files.

Lemma secureDirectory_files euid cwd dbPath create : files_only (secureDirectory euid cwd dbPath create).
Proof. unfold secureDirectory. files_walk. Qed.

Lemma secureDatabaseFile_files euid p create : files_only (secureDatabaseFile euid p create).
Proof. unfold secureDatabaseFile. files_walk. Qed.

Lemma InitSetup_files euid cwd umask ini_Map config sample : files_only (InitSetup euid cwd umask ini_Map config sample).
Proof. unfold InitSetup. cbv zeta. files_walk. Qed.

Lemma lockFile_files holder fd ownerUID : files_only (lockFile holder fd ownerUID).
Proof. unfold lockFile, closeOnError. files_walk. Qed.
#[export] Hint Resolve lockFile_files : files.

Lemma Acquire_files euid holder p ownerUID : files_only (Acquire euid holder p ownerUID).
Proof. unfold Acquire. files_walk. Qed.

Lemma Lock_Close_files holder lock : files_only (Lock_Close holder lock).
Proof. unfold Lock_Close. files_walk. Qed.
#[export] Hint Resolve secureDirectory_files secureDatabaseFile_files InitSetup_files Acquire_files Lock_Close_files : files.

(** ** What the calls keep *)

Lemma at_path_tame {A} p (f : Z → FileSystem → (A + ioerr) * FileSystem) :
  (∀ i, tames (λ fs, (f i fs).2)) → tames (λ fs, (at_path p f fs).2).
Proof. intros Hf fs. unfold at_path. destruct (resolve _ _ _ _ _) as [[]|]; [apply Hf|done..]. Qed.

Lemma open_rdwr_tame euid perm create p : tames (λ fs, (open_rdwr euid perm create p fs).2).
Proof.
  intros fs. unfold open_rdwr. destruct (resolve _ _ _ _ _) as [[]|]; [by destruct (entries _ _)| |done].
  destruct create; [by apply create_node_tame|done].
Qed.

Lemma create_truncate_tame euid perm p : tames (λ fs, (create_truncate euid perm p fs).2).
Proof.
  intros fs. unfold create_truncate. pose proof (open_rdwr_tame euid perm true p fs) as H. simpl in H.
  destruct (open_rdwr _ _ _ _ _) as [[ino|e] fs1]; [|done]. simpl in *. transitivity fs1; [done|]. unfold truncate.
  destruct (fs_inodes fs1 !! ino) as [[[] ? ?]|]; try done. by apply tame_set_inode.
Qed.
#[export] Hint Resolve at_path_tame open_rdwr_tame create_truncate_tame : locks.

Lemma mkdirAll_keeping I `{!Stable I} euid perm parent todo : keeping I (mkdirAll euid perm parent todo).
Proof. revert parent. induction todo as [|c rest IH]; intros parent; cbn [mkdirAll]; keeping_walk. Qed.
#[export] Hint Resolve mkdirAll_keeping : locks.

Lemma secureDirectory_keeping I `{!Stable I} euid cwd dbPath create : keeping I (secureDirectory euid cwd dbPath create).
Proof. unfold secureDirectory. keeping_walk. Qed.

Lemma secureDatabaseFile_keeping I `{!Stable I} euid p create : keeping I (secureDatabaseFile euid p create).
Proof. unfold secureDatabaseFile. keeping_walk. Qed.

Lemma InitSetup_keeping I `{!Stable I} euid cwd umask ini_Map config sample :
  keeping I (InitSetup euid cwd umask ini_Map config sample).
Proof. unfold InitSetup. keeping_walk. Qed.
#[export] Hint Resolve secureDirectory_keeping secureDatabaseFile_keeping InitSetup_keeping : locks.

Lemma openDb_keeping I `{!Stable I} euid cwd G dbPath create migrate : GormSpec G → keeping I (openDb euid cwd G dbPath create migrate).
Proof. intros HG. unfold openDb, closePool. keeping_walk. Qed.

(** ** Opening *)

Section Opening.
Context (euid : Z) (cwd : path) (G : Gorm) `{!GormSpec G}.

(** What opening does to the database: nothing, or a migration. *)
Definition opened (migrate : bool) (w w' : World) : Prop :=
  runs w w' ∧ migrated (w_db w) (w_db w') ∧ (migrate = false → w_db w' = w_db w).

Lemma opened_files m w w1 w2 : files w w1 → opened m w1 w2 → opened m w w2.
Proof.
  intros H1 (Hr & Hm & Hd). rewrite (files_db _ _ H1) in Hm, Hd. split_and!; [|done|done].
  eapply runs_trans; [apply H1|done].
Qed.

Lemma opened_same m w w1 w2 : runs w w1 → w_db w1 = w_db w → opened m w1 w2 → opened m w w2.
Proof. intros H1 E (Hr & Hm & Hd). rewrite E in Hm, Hd. split_and!; [by eapply runs_trans|done|done]. Qed.

Lemma opened_done m w w1 : runs w w1 → w_db w1 = w_db w → opened m w w1.
Proof. intros H E. unfold opened. by rewrite E. Qed.

Lemma opened_still m w w1 w2 : opened m w w1 → runs w1 w2 → w_db w2 = w_db w1 → opened m w w2.
Proof. intros (Hr & Hm & Hd) H E. rewrite <- E in Hm, Hd. split_and!; [by eapply runs_trans|done|done]. Qed.

Lemma opened_alone m w w1 : opened m w w1 → alone w1.
Proof. intros [H _]. by eapply runs_alone. Qed.

Lemma closePool_opened m e w0 w : opened m w0 w → post (closePool G e) w (λ _ w', opened m w0 w').
Proof using GormSpec0.
  intros H. unfold closePool. m_step. eapply post_mono; [by apply close_spec, (opened_alone m w0)|].
  intros r w1 [Hr Hd]. m_step. by eapply opened_still.
Qed.

Lemma openDb_opened dbPath create migrate w : alone w →
  post (openDb euid cwd G dbPath create migrate) w (λ _ w', opened migrate w w').
Proof using GormSpec0.
  intros Hw. unfold openDb. m_step; [m_step; apply opened_done; eauto with store|]. m_step.
  eapply post_mono; [by apply secureDirectory_files|]. cbv beta. intros [[]|e] w1 H1; [|by apply opened_done; [apply H1|apply H1]].
  cbv zeta. m_step. eapply post_mono; [apply secureDatabaseFile_files; eauto with store|]. cbv beta.
  intros [[]|e] w2 H2; (assert (files w w2) as H02 by (by eapply files_trans));
    [|by apply opened_done; [apply H02|apply H02]].
  m_step. eapply post_mono; [apply open_spec; eauto with store|]. cbv beta. intros [[]|e] w3 [Hr3 Hd3];
    (assert (runs w w3 ∧ w_db w3 = w_db w) as [Hr03 Hd03]
       by (split; [eapply runs_trans; [apply H02|done]|rewrite Hd3; apply H02])); [|by apply opened_done].
  m_step. eapply post_mono; [apply db_spec; by eapply runs_alone|]. cbv beta. intros [[]|e] w4 [Hr4 Hd4];
    (assert (runs w w4 ∧ w_db w4 = w_db w) as [Hr04 Hd04]
       by (split; [by eapply runs_trans|congruence])); [|by apply opened_done].
  m_step. apply (post_mono _ _ (λ _ w', opened migrate w w')).
  { destruct migrate; [|m_step; by apply opened_done].
    eapply post_mono; [apply migrate_spec; by eapply runs_alone|]. intros r w5 [Hr5 Hm5]. rewrite Hd04 in Hm5.
    split_and!; [by eapply runs_trans|done|done]. }
  intros [[]|e] w5 H5; [|by apply closePool_opened].
  m_step. eapply post_mono; [apply files_only_sys; by eapply opened_alone|]. cbv beta. intros r w6 H6.
  assert (opened migrate w w6) as Ho by (eapply opened_still; [done|apply H6|apply H6]).
  destruct r as [[]|e]; [by m_step|by apply closePool_opened].
Qed.

Lemma GetBootstrapDb_opened dbPath w : alone w →
  post (GetBootstrapDb euid cwd G dbPath) w (λ _ w', opened true w w').
Proof using GormSpec0.
  intros Hw. unfold GetBootstrapDb. m_step; [m_step; apply opened_done; eauto with store|]. m_step.
  eapply post_mono; [by apply secureDirectory_files|]. cbv beta. intros [[]|e] w1 H1; [|by apply opened_done; [apply H1|apply H1]].
  m_step. eapply post_mono; [apply files_only_sys; eauto with store|]. cbv beta. intros r w2 H2.
  assert (files w w2) as H02 by (by eapply files_trans).
  destruct r as [file|e].
  - m_step. eapply post_mono; [apply files_only_sys; eauto with store|]. cbv beta. intros r w3 H3.
    assert (files w w3) as H03 by (by eapply files_trans). destruct r; [|by apply opened_done; [apply H03|apply H03]].
    eapply post_mono; [apply openDb_opened; eauto with store|]. intros ? w4. by apply opened_files.
  - m_step; [m_step; by apply opened_done; [apply H02|apply H02]|].
    eapply post_mono; [apply openDb_opened; eauto with store|]. intros ? w4 H4. eapply opened_files; [done|].
    destruct H4 as (? & ? & _). done.
Qed.
End Opening.
