(* ===== verification/Gateway.v ===== *)
(** * The gateway client (src/pkg/gatewayclient/gatewayclient.go)

    Calls of the local gateway's management listener with the gateway's service
    credential: the address and the token are read from bounded regular files, and
    the address must be a plain http URL of a loopback IP. [httpDo] is the HTTP
    client (net/http), which does not follow redirects; the file name of the
    address and the API paths are constants of CasaOS-Common. *)

From stdpp Require Import prelude strings gmap.
From Stdlib Require Import ZArith Lia Ascii.
From S2P Require Import Prelude GoStrings FileSystem Store Files Databases Urls.

Local Open Scope Z_scope.
Local Open Scope m_scope.

Definition ServiceTokenFilename : string := "gateway.token".
Definition maxResponseBytes : nat := 65536.
Definition maxCredentialFileBytes : nat := 1024.
Definition addressRetryAttempts : nat := 10.

(** The part of [http.Request] that is set. *)
Record HttpRequest := mkHttpRequest {
  rq_Method : string;
  rq_URL : URL;
  rq_Header : gmap string string;
  rq_Body : option string;
}.

(** A response: its status, and the bytes its body yields before it ends or,
    with [rp_Broken], before the connection fails. *)
Record HttpResponse := mkHttpResponse {
  rp_StatusCode : Z;
  rp_Body : string;
  rp_Broken : bool;
}.

Definition StatusOK : Z := 200.
Definition StatusCreated : Z := 201.

(** [http.NewRequest]: the URL is parsed, and a host loses an empty port. *)
Definition NewRequest (method url : string) (body : option string) : res HttpRequest :=
  match ParseURL url with
  | None => Err (NewError "parse")
  | Some u => Ok (mkHttpRequest method
      (mkURL (Scheme u) (Opaque u) (User u) (trim_suffix ":" (Host u)) (Path u) (RawQuery u) (Fragment u) (RawPath u)
         (RawFragment u) (ForceQuery u) (OmitHost u)) ∅ body)
  end.

Definition setHeader (name value : string) (r : HttpRequest) : HttpRequest :=
  mkHttpRequest (rq_Method r) (rq_URL r) (<[name := value]> (rq_Header r)) (rq_Body r).

(** [io.ReadAll(io.LimitReader(response.Body, limit))]. *)
Definition readBody (limit : nat) (r : HttpResponse) : res string :=
  if (limit <=? String.length (rp_Body r))%nat then Ok (take_bytes limit (rp_Body r))
  else if rp_Broken r then Err (NewError "unexpected EOF") else Ok (rp_Body r).

Definition fileSize (i : FileInfo) : nat :=
  match fi_kind i with KFile c => String.length c | _ => 0%nat end.

(** What is accepted of the text of the address file. *)
Definition checkAddress (value : string) : res string :=
  match ParseURL value with
  | None => Err (NewError "gateway management address is not a plain http loopback URL")
  | Some parsed =>
     if negb (bool_decide (Scheme parsed = "http")) || bool_decide (is_Some (User parsed)) ||
        (negb (bool_decide (Path parsed = "")) && negb (bool_decide (Path parsed = "/"))) ||
        negb (bool_decide (RawQuery parsed = "")) || negb (bool_decide (Fragment parsed = ""))
     then Err (NewError "gateway management address is not a plain http loopback URL")
     else match SplitHostPort (Host parsed) with
          | None => Err (NewError "gateway management address must include an explicit port")
          | Some (host, port) =>
             if bool_decide (port = "")
             then Err (NewError "gateway management address must include an explicit port")
             else match ParseIP host with
                  | None => Err (NewError "gateway management address must be a loopback IP")
                  | Some ip => if IsLoopback ip then Ok value
                               else Err (NewError "gateway management address must be a loopback IP")
                  end
          end
  end.

(** What is accepted of the bytes that were read. *)
Definition checkContents (limit : nat) (raw : string) : res string :=
  if (limit <? String.length raw)%nat then Err (NewError "file exceeds the limit")
  else
    let value := TrimSpace raw in
    if contains_byte byte_NUL value then Err (NewError "file contains a NUL byte") else Ok value.

Record Client := mkClient { runtimePath : string }.

Section Gateway.
Context (cwd : path) (httpDo : HttpRequest → M (res HttpResponse)).
Context (ManagementURLFilename APIGatewayRoutes APIGatewayPort : string).
(** The route and port-change requests of CasaOS-Common and their encoding. *)
Context {Route ChangePortRequest : Type} (Marshal_Route : Route → res string)
        (Marshal_ChangePort : ChangePortRequest → res string).

Definition readBoundedFile (c : Client) (name : string) (limit : nat) : M (res string) :=
  let p := Join cwd (runtimePath c) [name] in
  ok info <- os_Lstat p;;
  if negb (is_regular info) then mret (Err (NewError (name +:+ " is not a regular file")))
  else if (limit <? fileSize info)%nat then mret (Err (NewError (name +:+ " exceeds the limit")))
  else
    ok file <- os_Open p;;
    ok opened <- file_Stat file;;
    if negb (SameFile info opened) then mret (Err (NewError (name +:+ " changed while opening")))
    else
      ok raw <- read_limited file (limit + 1);;
      mret (checkContents limit raw).

Definition address (c : Client) : M (res string) :=
  ok value <- readBoundedFile c ManagementURLFilename maxCredentialFileBytes or "read gateway management address";;
  mret (checkAddress value).

(** The loop of [waitForAddress]; sleeping is the time that passes. *)
Fixpoint awaitAddress (attempts : nat) (c : Client) : M unit :=
  match attempts with
  | O => mret tt
  | S attempts' =>
     found <- os_Stat (Join cwd (runtimePath c) [ManagementURLFilename]);;
     match found with
     | Ok _ => mret tt
     | Err _ => awaitAddress attempts' c
     end
  end.

Definition waitForAddress (c : Client) : M (res string) :=
  _ <- awaitAddress addressRetryAttempts c;; address c.

Definition serviceToken (c : Client) : M (res string) :=
  ok value <- readBoundedFile c ServiceTokenFilename maxCredentialFileBytes or "read gateway service token";;
  if bool_decide (value = "") then mret (Err (NewError "gateway service token is empty")) else mret (Ok value).

Definition ping (address : string) : M (res unit) :=
  match NewRequest "GET" (trim_suffix "/" address +:+ "/ping") None with
  | Err e => mret (Err e)
  | Ok request =>
     ok response <- httpDo request or "ping gateway management service";;
     if negb (rp_StatusCode response =? StatusOK)
     then mret (Err (NewError "gateway management service answered")) else mret (Ok tt)
  end.

Definition New (path : string) : M (res Client) :=
  if bool_decide (TrimSpace path = "") then mret (Err (NewError "gateway runtime path is empty"))
  else
    let client := mkClient path in
    ok address <- waitForAddress client;;
    ok _ <- ping address;;
    mret (Ok client).

Definition do (c : Client) (method path : string) (body : option string) : M (res HttpResponse) :=
  ok address <- address c;;
  ok token <- serviceToken c;;
  let url := trim_suffix "/" address +:+ "/" +:+ trim_prefix "/" path in
  match NewRequest method url body with
  | Err e => mret (Err e)
  | Ok request =>
     let request := setHeader "Authorization" ("Bearer " +:+ token) request in
     let request := if bool_decide (is_Some body) then setHeader "Content-Type" "application/json" request
                    else request in
     ok response <- httpDo request or "gateway management request failed";;
     mret (Ok response)
  end.

Definition CreateRoute (c : Client) (route : option Route) : M (res unit) :=
  match route with
  | None => mret (Err (NewError "gateway route is required"))
  | Some route =>
     match Marshal_Route route with
     | Err e => mret (Err e)
     | Ok body =>
        ok response <- do c "POST" APIGatewayRoutes (Some body);;
        if negb (rp_StatusCode response =? StatusCreated)
        then mret (Err (NewError "failed to create route")) else mret (Ok tt)
     end
  end.

Definition ChangePort (c : Client) (request : option ChangePortRequest) : M (res unit) :=
  match request with
  | None => mret (Err (NewError "gateway port change request is required"))
  | Some request =>
     match Marshal_ChangePort request with
     | Err e => mret (Err e)
     | Ok body =>
        ok response <- do c "PUT" APIGatewayPort (Some body);;
        if negb (rp_StatusCode response =? StatusOK)
        then mret (Err (NewError "failed to change port")) else mret (Ok tt)
     end
  end.

Definition GetPort (c : Client) : M (res string) :=
  ok response <- do c "GET" APIGatewayPort None;;
  match readBody (maxResponseBytes + 1) response with
  | Err e => mret (Err e)
  | Ok body =>
     if (maxResponseBytes <? String.length body)%nat
     then mret (Err (NewError "gateway port response is too large"))
     else if negb (rp_StatusCode response =? StatusOK) then mret (Err (NewError "failed to read port"))
     else mret (Ok body)
  end.

(** The registration loop of [runServer] in src/main.go: every path with the
    address the daemon listens on. *)
Fixpoint registerRoutes (c : Client) (mkRoute : string → string → Route) (target : string) (apiPaths : list string)
    : M (res unit) :=
  match apiPaths with
  | [] => mret (Ok tt)
  | v :: rest =>
     ok _ <- CreateRoute c (Some (mkRoute v ("http://" +:+ target))) or "register gateway route";;
     registerRoutes c mkRoute target rest
  end.
End Gateway.

(** ** Where requests go *)

(** The URL of a plain http request to a loopback address with a port. *)
Definition loopbackURL (u : URL) : Prop :=
  Scheme u = "http" ∧ User u = None ∧ ∃ host port ip, SplitHostPort (Host u) = Some (host, port) ∧ port ≠ "" ∧
    ParseIP host = Some ip ∧ IsLoopback ip = true.

(** A credential as the client accepts it. *)
Definition tokenText (t : string) : Prop :=
  t ≠ "" ∧ contains_byte byte_NUL t = false ∧ (String.length t ≤ maxCredentialFileBytes)%nat.

(** What the client may send: to a loopback address, and with a well-formed
    credential if any. *)
Record confined (r : HttpRequest) : Prop := {
  cf_url : loopbackURL (rq_URL r);
  cf_credential : rq_Header r !! "Authorization" = None ∨
    ∃ t, rq_Header r !! "Authorization" = Some ("Bearer " +:+ t) ∧ tokenText t;
}.

Lemma checkAddress_Ok value a : checkAddress value = Ok a → a = value ∧ ∃ u, ParseURL a = Some u ∧ loopbackURL u.
Proof.
  unfold checkAddress. destruct (ParseURL value) as [u|] eqn:Hu; [|done].
  destruct (_ || _ || _ || _ || _) eqn:G; [done|].
  rewrite !orb_false_iff, negb_false_iff, bool_decide_eq_true, bool_decide_eq_false in G.
  destruct G as ((((Hs & Hus) & _) & _) & _). destruct (SplitHostPort (Host u)) as [[host port]|] eqn:Hsp; [|done].
  case_bool_decide as Hport; [done|]. destruct (ParseIP host) as [ip|] eqn:Hip; [|done].
  destruct (IsLoopback ip) eqn:Hl; [|done]. intros [= <-]. split; [done|]. exists u. split; [done|].
  split_and!; [done|by destruct (User u); [destruct Hus|]|]. by exists host, port, ip.
Qed.

(** A path behind an accepted address leads to the same host. *)
Lemma NewRequest_loopback a p method body r : checkAddress a = Ok a →
  NewRequest method (trim_suffix "/" a +:+ "/" +:+ p) body = Ok r →
  loopbackURL (rq_URL r) ∧ rq_Header r = ∅ ∧ rq_Method r = method ∧ rq_Body r = body.
Proof.
  intros (_ & u & Hu & Hs & Hus & host & port & ip & Hsp & Hport & Hip & Hl)%checkAddress_Ok. unfold NewRequest.
  destruct (ParseURL (trim_suffix "/" a +:+ _)) as [u'|] eqn:Hu'; [|done]. intros [= <-]. split_and!; try done.
  apply (ParseURL_extend _ u) in Hu' as (Es & Eu & Eh); [|done| |by rewrite Hs].
  2:{ intros E. rewrite E in Hsp. discriminate Hsp. }
  split_and!; cbn [rq_URL Scheme User Host]; [congruence|congruence|].
  rewrite Eh, (SplitHostPort_trim _ _ _ Hsp Hport). by exists host, port, ip.
Qed.

Lemma checkContents_Ok limit raw s : checkContents limit raw = Ok s →
  contains_byte byte_NUL s = false ∧ (String.length s ≤ limit)%nat.
Proof.
  unfold checkContents. destruct (Nat.ltb_spec limit (String.length raw)); [done|].
  destruct (contains_byte _ _) eqn:E; [done|]. intros [= <-]. split; [done|].
  pose proof (TrimSpace_length raw). lia.
Qed.

Section Confinement.
Context (cwd : path) (URLfile routes portPath : string).

Lemma readBoundedFile_text c name limit w s w' : readBoundedFile cwd c name limit w = (Ok s, w') →
  contains_byte byte_NUL s = false ∧ (String.length s ≤ limit)%nat.
Proof.
  unfold readBoundedFile, try, mbind. destruct (os_Lstat _ w) as [[i|e] w1]; [|done].
  destruct (negb _); [done|]. destruct (_ <? _)%nat; [done|]. destruct (os_Open _ w1) as [[f|e] w2]; [|done].
  destruct (file_Stat f w2) as [[o|e] w3]; [|done]. destruct (negb _); [done|].
  destruct (read_limited _ _ w3) as [[raw|e] w4]; [|done]. unfold mret. intros [= E _]. by eapply checkContents_Ok.
Qed.

Lemma address_checked c w a w' : address cwd URLfile c w = (Ok a, w') → checkAddress a = Ok a.
Proof.
  unfold address, try_wrap, mbind. destruct (readBoundedFile _ _ _ _ w) as [[v|e] w1]; [|done]. unfold mret.
  intros [= E _]. by pose proof (checkAddress_Ok _ _ E) as [-> _].
Qed.

Lemma serviceToken_text c w t w' : serviceToken cwd c w = (Ok t, w') → tokenText t.
Proof.
  unfold serviceToken, try_wrap, mbind. destruct (readBoundedFile _ _ _ _ w) as [[v|e] w1] eqn:E; [|done].
  case_bool_decide as Hv; [done|]. unfold mret. intros [= <- _]. apply readBoundedFile_text in E as [? ?]. by split.
Qed.

(** Two HTTP clients that agree on confined requests. *)
Context (Do1 Do2 : HttpRequest → M (res HttpResponse)) (Hagree : ∀ r, confined r → ∀ w, Do1 r w = Do2 r w).

Lemma do_confined c method p body w : do cwd Do1 URLfile c method p body w = do cwd Do2 URLfile c method p body w.
Proof using Hagree.
  unfold do, try, try_wrap, mbind. destruct (address cwd URLfile c w) as [[a|e] w1] eqn:Ha; [|done].
  destruct (serviceToken cwd c w1) as [[t|e] w2] eqn:Ht; [|done]. apply address_checked in Ha. apply serviceToken_text in Ht.
  destruct (NewRequest _ _ _) as [r|e] eqn:Hr; [|done].
  apply NewRequest_loopback in Hr as (Hl & Hhead & _); [|done]. rewrite Hagree; [done|].
  case_bool_decide; (constructor; [exact Hl|]); right; exists t; (split; [|done]); cbn [rq_Header setHeader].
  - by rewrite lookup_insert_ne, lookup_insert_eq.
  - by rewrite lookup_insert_eq.
Qed.

Lemma ping_confined a w : checkAddress a = Ok a → ping Do1 a w = ping Do2 a w.
Proof using Hagree.
  intros Ha. unfold ping. destruct (NewRequest _ _ _) as [r|e] eqn:Hr; [|done].
  apply NewRequest_loopback in Hr as (Hl & Hhead & _); [|done]. unfold try_wrap, mbind. rewrite Hagree; [done|].
  constructor; [exact Hl|]. left. by rewrite Hhead.
Qed.

Lemma New_confined p w : New cwd Do1 URLfile p w = New cwd Do2 URLfile p w.
Proof using Hagree.
  unfold New, waitForAddress, try, mbind. case_bool_decide; [done|].
  destruct (awaitAddress _ _ _ _ w) as [[] w1]. destruct (address _ _ _ w1) as [[a|e] w2] eqn:Ha; [|done].
  apply address_checked in Ha. by rewrite ping_confined.
Qed.
End Confinement.

(** ** What is sent *)

(** What a bounded file says on a file system at rest. *)
Definition boundedText (fs : FileSystem) (p : path) (limit : nat) : option string :=
  match path_info false fs p with
  | inl i => match fi_kind i with
             | KFile content =>
                if (limit <? String.length content)%nat then None
                else match checkContents limit content with Ok s => Some s | Err _ => None end
             | _ => None
             end
  | inr _ => None
  end.

(** The request an address and a credential make of a call. *)
Definition authorised (a t method p : string) (body : option string) : option HttpRequest :=
  match checkAddress a, NewRequest method (trim_suffix "/" a +:+ "/" +:+ trim_prefix "/" p) body with
  | Ok _, Ok r =>
     if bool_decide (t = "") then None
     else let r := setHeader "Authorization" ("Bearer " +:+ t) r in
          Some (if bool_decide (is_Some body) then setHeader "Content-Type" "application/json" r else r)
  | _, _ => None
  end.

(** The request a call makes on a file system at rest, if it gets that far. *)
Definition requestOf (cwd : path) (URLfile : string) (fs : FileSystem) (c : Client) (method p : string)
    (body : option string) : option HttpRequest :=
  a ← boundedText fs (Join cwd (runtimePath c) [URLfile]) maxCredentialFileBytes;
  t ← boundedText fs (Join cwd (runtimePath c) [ServiceTokenFilename]) maxCredentialFileBytes;
  authorised a t method p body.

Definition failed {A} (r : res A) (w w' : World) : Prop := ∃ e, r = Err e ∧ calm w w' ∧ w_db w' = w_db w.

Section Delivery.
Context (cwd : path) (Do : HttpRequest → M (res HttpResponse)) (URLfile : string).

(** A read that ends in [r] agrees with the file system. *)
Definition text_read (text : option string) (w : World) (r : res string) (w' : World) : Prop :=
  calm w w' ∧ w_db w' = w_db w ∧ (∀ s, r = Ok s → text = Some s) ∧ (faultless w → ∀ s, text = Some s → r = Ok s).

Lemma text_refused text e w w' : calm w w' → w_db w' = w_db w → (faultless w → text = None) →
  text_read text w (Err e) w'.
Proof. intros Hc Hd Hn. split_and!; [done|done|done|]. intros Hf s Hs. rewrite Hn in Hs; done. Qed.

Lemma readBoundedFile_spec c name limit w : alone w →
  post (readBoundedFile cwd c name limit) w (text_read (boundedText (w_fs w) (Join cwd (runtimePath c) [name]) limit) w).
Proof.
  intros Hw. unfold readBoundedFile. cbv zeta. set (p := Join cwd (runtimePath c) [name]). unfold boundedText.
  m_step. f_step; [apply text_refused; [done|done|fault_absurd]|].
  destruct (path_info false (w_fs w) p) as [i|e] eqn:Hi; cbn [res_of]; [|by apply text_refused].
  destruct (is_regular i) eqn:Hreg; cbn [negb].
  2:{ m_step. apply text_refused; [done|done|]. intros _. unfold is_regular in Hreg. by destruct (fi_kind i). }
  destruct (fi_kind i) as [| content | |] eqn:Hk; try (by unfold is_regular in Hreg; rewrite Hk in Hreg).
  unfold fileSize. rewrite Hk. destruct (Nat.ltb_spec limit (String.length content)) as [Hlong|Hshort];
    [m_step; by apply text_refused|].
  pose proof Hi as (stack & Hr & Hn)%path_info_At. pose proof Hn as (n & Hino & Hin)%inode_info_Some.
  assert (i_kind n = KFile content) as Hkn by (by rewrite Hin in Hk).
  m_step. f_step; [apply text_refused; [calm_chain|congruence|fault_absurd]|]. rewrite (calm_fs _ _ H).
  rewrite (resolve_settled _ _ _ _ _ Hr) by (intros t; by rewrite Hino; simpl; rewrite Hkn). cbn [res_of].
  m_step. f_step; [apply text_refused; [calm_chain|congruence|fault_absurd]|].
  assert (calm w w0) as Hc0 by calm_chain. rewrite (calm_fs _ _ Hc0), Hn. cbn [res_of].
  assert (SameFile i i = true) as -> by apply Z.eqb_refl. cbn [negb].
  m_step. f_step; [apply text_refused; [calm_chain|congruence|fault_absurd]|].
  assert (calm w w2) as Hc1 by calm_chain. rewrite (calm_fs _ _ Hc1).
  unfold read_file. rewrite Hino. destruct n as [k perm uid]. cbn [i_kind] in Hkn. rewrite Hkn. cbn [res_of].
  rewrite take_bytes_all by lia. m_step. split_and!; [calm_chain|congruence|..].
  - intros s ->. done.
  - intros _ s. by destruct (checkContents limit content); [intros [= <-]|].
Qed.

(** The call as the request it makes and what becomes of it. *)
Definition delivered (c : Client) (method p : string) (body : option string) (w : World)
    (r : res HttpResponse) (w' : World) : Prop :=
  (∃ req w1, requestOf cwd URLfile (w_fs w) c method p body = Some req ∧ calm w w1 ∧ w_db w1 = w_db w ∧
     (r, w') = match Do req w1 with
               | (Ok resp, w2) => (Ok resp, w2)
               | (Err e, w2) => (Err (Wrap "gateway management request failed" e), w2)
               end) ∨
  (failed r w w' ∧ (faultless w → requestOf cwd URLfile (w_fs w) c method p body = None)).

Lemma do_spec c method p body w : alone w → post (do cwd Do URLfile c method p body) w (delivered c method p body w).
Proof.
  intros Hw. unfold do, address, serviceToken. m_step. m_step.
  assert (∀ e w1, calm w w1 → w_db w1 = w_db w → (faultless w → requestOf cwd URLfile (w_fs w) c method p body = None) →
    delivered c method p body w (Err e) w1) as Hfail by (intros e w1 ? ? ?; right; split; [by exists e|done]).
  eapply post_mono; [by apply readBoundedFile_spec|]. cbv beta. intros ra w1 (Hc1 & Hd1 & Ha & Ha').
  destruct ra as [a|e].
  2:{ apply Hfail; [done|done|]. intros Hf. unfold requestOf. destruct (boundedText _ _ _) as [a|]; [|done].
      by specialize (Ha' Hf a eq_refl). }
  assert (boundedText (w_fs w) (Join cwd (runtimePath c) [URLfile]) maxCredentialFileBytes = Some a) as Ea by (by apply Ha).
  m_step. destruct (checkAddress a) as [a'|e] eqn:Hca.
  2:{ apply Hfail; [done|done|]. intros _. unfold requestOf. rewrite Ea. simpl.
      destruct (boundedText _ (Join _ _ [ServiceTokenFilename]) _); [|done]. simpl. unfold authorised. by rewrite Hca. }
  pose proof (checkAddress_Ok _ _ Hca) as [-> _]. m_step. m_step.
  eapply post_mono; [apply readBoundedFile_spec, Hc1|]. cbv beta. intros rt w2 (Hc2 & Hd2 & Ht & Ht').
  rewrite (calm_fs _ _ Hc1) in Ht, Ht'. assert (calm w w2) as Hc by calm_chain.
  assert (w_db w2 = w_db w) as Hd by congruence. destruct rt as [t|e].
  2:{ apply Hfail; [done|done|]. intros Hf. unfold requestOf. rewrite Ea. simpl.
      destruct (boundedText _ (Join _ _ [ServiceTokenFilename]) _) as [t|]; [|done]. by specialize (Ht' (calm_faultless _ _ Hc1 Hf) t eq_refl). }
  specialize (Ht t eq_refl). assert (requestOf cwd URLfile (w_fs w) c method p body = authorised a t method p body) as Hreq.
  { unfold requestOf. by rewrite Ea; simpl; rewrite Ht. }
  case_bool_decide as Hte; m_step.
  { apply Hfail; [done|done|]. intros _. rewrite Hreq. unfold authorised. rewrite Hca, bool_decide_eq_true_2 by done.
    by destruct (NewRequest _ _ _). }
  destruct (NewRequest _ _ _) as [r|e] eqn:Hr; m_step.
  2:{ apply Hfail; [done|done|]. intros _. rewrite Hreq. unfold authorised. by rewrite Hca, Hr. }
  set (req := if bool_decide (is_Some body) then _ else _). unfold post.
  assert (requestOf cwd URLfile (w_fs w) c method p body = Some req) as Hsome.
  { rewrite Hreq. unfold authorised. by rewrite Hca, Hr, bool_decide_eq_false_2. }
  destruct (Do req w2) as [[resp|e] w3] eqn:E; left; exists req, w2; rewrite E; done.
Qed.
End Delivery.

(** C34. Whatever other processes do to the files meanwhile, every operation of the
    client, the registration of the daemon's routes included, sends nothing but
    confined requests: plain http to a loopback IP with a port, without user
    information, and with no credential or a well-formed one. So it cannot tell
    apart two HTTP clients that differ on other requests only. The port response
    that is passed on has at most 64 KiB. On files at rest, [CreateRoute] succeeds
    only if the gateway answered 201 to the authorised POST of the encoded route,
    made of the address and token files, and it does succeed when they are
    acceptable, no call fails and the gateway gives that answer. *)
Theorem gateway_calls (cwd : path) (URLfile routes portPath : string) (Route ChangePortRequest : Type)
    (Marshal_Route : Route → res string) (Marshal_ChangePort : ChangePortRequest → res string)
    (Do Do' : HttpRequest → M (res HttpResponse)) (Hagree : ∀ r, confined r → ∀ w, Do r w = Do' r w) (w : World) :
  (∀ p, New cwd Do URLfile p w = New cwd Do' URLfile p w) ∧
  (∀ c,
    (∀ route, CreateRoute cwd Do URLfile routes Marshal_Route c route w =
              CreateRoute cwd Do' URLfile routes Marshal_Route c route w) ∧
    (∀ request, ChangePort cwd Do URLfile portPath Marshal_ChangePort c request w =
                ChangePort cwd Do' URLfile portPath Marshal_ChangePort c request w) ∧
    GetPort cwd Do URLfile portPath c w = GetPort cwd Do' URLfile portPath c w ∧
    (∀ mkRoute target apiPaths, registerRoutes cwd Do URLfile routes Marshal_Route c mkRoute target apiPaths w =
                                registerRoutes cwd Do' URLfile routes Marshal_Route c mkRoute target apiPaths w) ∧
    (∀ s w', GetPort cwd Do URLfile portPath c w = (Ok s, w') → (String.length s ≤ maxResponseBytes)%nat) ∧
    (∀ route body r w', alone w → Marshal_Route route = Ok body →
       CreateRoute cwd Do URLfile routes Marshal_Route c (Some route) w = (r, w') →
       let request := requestOf cwd URLfile (w_fs w) c "POST" routes (Some body) in
       (r = Ok tt → ∃ req w1 resp, request = Some req ∧ calm w w1 ∧ Do req w1 = (Ok resp, w') ∧
                      rp_StatusCode resp = StatusCreated) ∧
       (faultless w → ∀ req, request = Some req →
          (∀ w1, calm w w1 → ∃ resp w2, Do req w1 = (Ok resp, w2) ∧ rp_StatusCode resp = StatusCreated) →
          r = Ok tt))).
Proof.
  assert (∀ c route w, CreateRoute cwd Do URLfile routes Marshal_Route c route w =
              CreateRoute cwd Do' URLfile routes Marshal_Route c route w) as Hroute.
  { intros c [route|] w1; [|done]. unfold CreateRoute. destruct (Marshal_Route route); [|done].
    unfold try, mbind. by rewrite (do_confined _ _ _ _ Hagree). }
  split; [intros p; by apply New_confined|]. intros c. split_and!.
  - intros route. apply Hroute.
  - intros [request|]; [|done]. unfold ChangePort. destruct (Marshal_ChangePort request); [|done].
    unfold try, mbind. by rewrite (do_confined _ _ _ _ Hagree).
  - unfold GetPort, try, mbind. by rewrite (do_confined _ _ _ _ Hagree).
  - intros mkRoute target apiPaths. revert w. induction apiPaths as [|v apiPaths IH]; intros w; [done|].
    cbn [registerRoutes]. unfold try_wrap, mbind. rewrite Hroute.
    destruct (CreateRoute _ Do' _ _ _ _ _ w) as [[[]|e] w1]; [apply IH|done].
  - intros s w'. unfold GetPort, try, mbind. destruct (do _ _ _ _ _ _ _ w) as [[resp|e] w1]; [|done].
    destruct (readBody _ resp) as [b|e]; [|done].
    destruct (Nat.ltb_spec maxResponseBytes (String.length b)); [done|]. destruct (negb _); [done|].
    unfold mret. by intros [= <- _].
  - intros route body r w' Hw Hb Hrun request. revert Hrun. unfold CreateRoute. rewrite Hb.
    pose proof (post_run _ _ _ (do_spec cwd Do URLfile c "POST" routes (Some body) w Hw)) as Hdo.
    unfold try, mbind. destruct (do _ _ _ _ _ _ _ w) as [rd w1]. specialize (Hdo rd w1 eq_refl).
    destruct Hdo as [(req & w0 & Hreq & Hc & _ & Hsent)|[(e & -> & _) Hnone]].
    + fold request in Hreq. destruct (Do req w0) as [[resp|e] w2] eqn:E; injection Hsent as -> ->.
      * destruct (Z.eqb_spec (rp_StatusCode resp) StatusCreated) as [Hst|Hst]; cbn [negb]; unfold mret; intros [= <- <-].
        -- split; [|done]. intros _. by exists req, w0, resp.
        -- split; [done|]. intros _ req' Hreq' Hans. assert (req' = req) as -> by congruence.
           destruct (Hans w0 Hc) as (resp' & w3 & E' & Hst'). rewrite E in E'. injection E' as <- <-. done.
      * unfold mret. intros [= <- <-]. split; [done|]. intros _ req' Hreq' Hans. assert (req' = req) as -> by congruence.
        destruct (Hans w0 Hc) as (resp' & w3 & E' & _). congruence.
    + unfold mret. intros [= <- <-]. split; [done|]. intros Hf req Hreq. specialize (Hnone Hf). fold request in Hnone. congruence.
Qed.

(** A gateway that created the route, on files it left behind at its start. *)
Definition runFS : FileSystem := mkFS (list_to_map
  [(1, mkInode (KDir {["run" := 2]}) 493 0);
   (2, mkInode (KDir {["management.url" := 3; "gateway.token" := 4]}) 493 0);
   (3, mkInode (KFile "http://127.0.0.1:8081/") 384 0);
   (4, mkInode (KFile ("0123456789abcdef" +:+ String byte_LF "")) 384 0)]) ∅.

Definition runWorld : World := mkWorld emptyDatabase runFS 0 (λ _, quietEvent) false "" [].

Definition creating : HttpRequest → M (res HttpResponse) := λ _, mret (Ok (mkHttpResponse StatusCreated "" false)).

(** The same, but it refuses every other scheme than http. *)
Definition creatingPlain : HttpRequest → M (res HttpResponse) := λ r,
  if bool_decide (Scheme (rq_URL r) = "http") then creating r else mret (Err (NewError "refused")).

Abbreviation registered := (CreateRoute [] creating "management.url" "/v1/gateway/routes"
  (λ p : string, Ok p) (mkClient "/run") (Some "{}") runWorld).

Lemma gateway_calls_witness :
  registered = CreateRoute [] creatingPlain "management.url" "/v1/gateway/routes"
    (λ p : string, Ok p) (mkClient "/run") (Some "{}") runWorld ∧
  ∃ req w1 resp, requestOf [] "management.url" runFS (mkClient "/run") "POST" "/v1/gateway/routes" (Some "{}") = Some req ∧
    rq_Header req !! "Authorization" = Some "Bearer 0123456789abcdef" ∧
    creating req w1 = (Ok resp, snd registered) ∧ rp_StatusCode resp = StatusCreated.
Proof.
  assert (∀ r, confined r → ∀ w, creating r w = creatingPlain r w) as Hagree.
  { intros r [[Hs _] _] w. unfold creatingPlain. by rewrite bool_decide_eq_true_2. }
  destruct (gateway_calls [] "management.url" "/v1/gateway/routes" "/v1/gateway/port" string string
    (λ p, Ok p) (λ p, Ok p) creating creatingPlain Hagree runWorld) as [_ H].
  destruct (H (mkClient "/run")) as (H1 & _ & _ & _ & _ & H6). split; [exact (H1 (Some "{}"))|].
  assert (registered = (Ok tt, snd registered)) as E by (vm_compute; reflexivity).
  destruct (H6 "{}" "{}" (Ok tt) (snd registered) (λ n, conj (λ _, eq_refl) (λ _, eq_refl)) eq_refl E) as [Hok _].
  destruct (Hok eq_refl) as (req & w1 & resp & Hreq & _ & Hdo & Hst). exists req, w1, resp.
  split; [exact Hreq|]. split; [|split; [exact Hdo|exact Hst]].
  assert (requestOf [] "management.url" runFS (mkClient "/run") "POST" "/v1/gateway/routes" (Some "{}") = Some req) as Hr
    by exact Hreq.
  vm_compute in Hr. injection Hr as <-. vm_compute. reflexivity.
Defined.
