(* ===== verification/BusClient.v ===== *)
(** * The client of the message bus (src/codegen/message_bus/api.go)

    The generated client: how the request of each operation is built from the server
    and the parameters, how it is edited and sent, and what is made of the response.
    The functions are written over a few combinators that hold the lines they share.
    The encoding of parameters is a function of oapi-codegen's runtime package; what
    lies behind a [Doer] is the HTTP client of the Go library and the network. *)

From stdpp Require Import prelude strings gmap.
From Stdlib Require Import ZArith Lia Ascii.
From S2P Require Import Prelude GoStrings FileSystem Store Urls UrlRefs Json Marshal Wire BusTypes Gateway.

Local Open Scope string_scope.
Local Open Scope Z_scope.
Local Open Scope m_scope.
Local Open Scope go_scope.

(** ** Requests and responses *)

(** An [http.Response]: the status and the body of Gateway.v, the text of the status
    and the header Content-Type. *)
Record HTTPResponse := mkHTTPResponse {
  hr_Response : HttpResponse;
  hr_Status : string;
  hr_ContentType : string;
}.

(** [io.ReadAll(rsp.Body)]. *)
Definition ReadAll (rsp : HTTPResponse) : res string :=
  if rp_Broken (hr_Response rsp) then Err (NewError "unexpected EOF") else Ok (rp_Body (hr_Response rsp)).

Abbreviation RequestEditorFn := (HttpRequest → M (res HttpRequest)).
Abbreviation HttpRequestDoer := (HttpRequest → M (res HTTPResponse)).

(** [http.Client.Do]: only http and https have a transport, and a host is needed;
    [network] is the exchange itself. *)
Definition http_Do (network : HttpRequestDoer) (req : HttpRequest) : M (res HTTPResponse) :=
  if negb (bool_decide (Scheme (rq_URL req) = "http") || bool_decide (Scheme (rq_URL req) = "https"))
  then mret (Err (NewError "unsupported protocol scheme"))
  else if bool_decide (Host (rq_URL req) = "") then mret (Err (NewError "http: no Host in request URL"))
  else network req.

(** ** The client *)

Record Client := mkClient {
  Server : string;
  Doer : option HttpRequestDoer;
  RequestEditors : list RequestEditorFn;
}.

Abbreviation ClientOption := (Client → M (res Client)).

Fixpoint applyOptions (opts : list ClientOption) (client : Client) : M (res Client) :=
  match opts with
  | [] => mret (Ok client)
  | o :: opts' => ok client <- o client;; applyOptions opts' client
  end.

Section NewClient.
Context (network : HttpRequestDoer).

(** A client without a [Doer] gets an [http.Client]. *)
Definition NewClient (server : string) (opts : list ClientOption) : M (res Client) :=
  ok client <- applyOptions opts (mkClient server None []);;
  let server := if has_suffix "/" (Server client) then Server client else Server client +:+ "/" in
  let doer := match Doer client with Some d => d | None => http_Do network end in
  mret (Ok (mkClient server (Some doer) (RequestEditors client))).

Definition NewClientWithResponses (server : string) (opts : list ClientOption) : M (res Client) :=
  ok client <- NewClient server opts;; mret (Ok client).
End NewClient.

Definition WithHTTPClient (doer : HttpRequestDoer) : ClientOption :=
  λ c, mret (Ok (mkClient (Server c) (Some doer) (RequestEditors c))).

Definition WithRequestEditorFn (fn : RequestEditorFn) : ClientOption :=
  λ c, mret (Ok (mkClient (Server c) (Doer c) (RequestEditors c ++ [fn])%list)).

Definition WithBaseURL (baseURL : string) : ClientOption := λ c,
  match ParseURL baseURL with
  | None => mret (Err (NewError "parse"))
  | Some newBaseURL => mret (Ok (mkClient (URL_String newBaseURL) (Doer c) (RequestEditors c)))
  end.

Fixpoint runEditors (editors : list RequestEditorFn) (req : HttpRequest) : M (res HttpRequest) :=
  match editors with
  | [] => mret (Ok req)
  | r :: editors' => ok req <- r req;; runEditors editors' req
  end.

Definition applyEditors (c : Client) (req : HttpRequest) (additionalEditors : list RequestEditorFn) : M (res HttpRequest) :=
  ok req <- runEditors (RequestEditors c) req;; runEditors additionalEditors req.

(** What every operation does with its request. A client without a [Doer] is a nil
    dereference. *)
Definition send (c : Client) (request : res HttpRequest) (reqEditors : list RequestEditorFn) : M (res HTTPResponse) :=
  match request with
  | Err e => mret (Err e)
  | Ok req =>
     ok req <- applyEditors c req reqEditors;;
     match Doer c with Some d => d req | None => mret (Err (NewError "panic")) end
  end.

(** ** Building requests *)

Section Requests.
(** [runtime.StyleParamWithOptions]: a path parameter in the simple style, and an
    array in the query in the form style, exploded. *)
Context (StylePath : string → string → res string) (StyleQuery : string → list string → res string).

(** The URL of an operation: its path, with a dot before it, resolved against the
    server's. *)
Definition operationURL (server path : string) : res URL :=
  match ParseURL server with
  | None => Err (NewError "parse")
  | Some serverURL =>
     let operationPath := if has_prefix "/" path then "." +:+ path else path in
     match URL_Parse serverURL operationPath with
     | None => Err (NewError "parse")
     | Some queryURL => Ok queryURL
     end
  end.

Definition newRequest (method server path : string) (body : option string) : res HttpRequest :=
  let? queryURL := operationURL server path in NewRequest method (URL_String queryURL) body.

(** With a body and its content type. *)
Definition newRequestWithBody (method server path contentType : string) (body : option string) : res HttpRequest :=
  let? req := newRequest method server path body in Ok (setHeader "Content-Type" contentType req).

(** The optional names of a subscription in the query. *)
Definition subscription (server path : string) (names : option (list string)) : res HttpRequest :=
  let? queryURL := operationURL server path in
  let? fragments := match names with
                    | None => Ok []
                    | Some names => let? queryFrag := StyleQuery "names" names in Ok (split_on "&" queryFrag)
                    end in
  let encoded := valuesEncode (Query (RawQuery queryURL)) in
  let rawQuery := join_with "&" (fragments ++ if bool_decide (encoded = "") then [] else [encoded])%list in
  NewRequest "GET" (URL_String (mkURL (Scheme queryURL) (Opaque queryURL) (User queryURL) (Host queryURL) (Path queryURL)
    rawQuery (Fragment queryURL) (RawPath queryURL) (RawFragment queryURL) (ForceQuery queryURL) (OmitHost queryURL))) None.

(** The parameters of a subscription are a pointer. *)
Definition subscribe (server path : string) (params : option (option (list string))) : res HttpRequest :=
  match params with None => newRequest "GET" server path None | Some names => subscription server path names end.

Definition NewSubscribeActionWSRequest (server sourceId : string) (params : option (option (list string))) : res HttpRequest :=
  let? pathParam0 := StylePath "source_id" sourceId in subscribe server ("/action/" +:+ pathParam0) params.

Definition NewTriggerActionRequestWithBody (server sourceId name contentType : string) (body : option string) : res HttpRequest :=
  let? pathParam0 := StylePath "source_id" sourceId in
  let? pathParam1 := StylePath "name" name in
  newRequestWithBody "POST" server ("/action/" +:+ pathParam0 +:+ "/" +:+ pathParam1) contentType body.

Definition NewTriggerActionRequest (server sourceId name : string) (body : stringMap) : res HttpRequest :=
  NewTriggerActionRequestWithBody server sourceId name "application/json" (Some (marshal body)).

Definition NewGetActionTypesRequest (server : string) : res HttpRequest := newRequest "GET" server "/action_type" None.

Definition NewRegisterActionTypesRequestWithBody (server contentType : string) (body : option string) : res HttpRequest :=
  newRequestWithBody "POST" server "/action_type" contentType body.

Definition NewRegisterActionTypesRequest (server : string) (body : goslice ActionType) : res HttpRequest :=
  NewRegisterActionTypesRequestWithBody server "application/json" (Some (marshal body)).

Definition NewGetActionTypesBySourceIDRequest (server sourceId : string) : res HttpRequest :=
  let? pathParam0 := StylePath "source_id" sourceId in newRequest "GET" server ("/action_type/" +:+ pathParam0) None.

Definition NewGetActionTypeRequest (server sourceId name : string) : res HttpRequest :=
  let? pathParam0 := StylePath "source_id" sourceId in
  let? pathParam1 := StylePath "name" name in
  newRequest "GET" server ("/action_type/" +:+ pathParam0 +:+ "/" +:+ pathParam1) None.

Definition NewSubscribeEventWSRequest (server sourceId : string) (params : option (option (list string))) : res HttpRequest :=
  let? pathParam0 := StylePath "source_id" sourceId in subscribe server ("/event/" +:+ pathParam0) params.

Definition NewPublishEventRequestWithBody (server sourceId name contentType : string) (body : option string) : res HttpRequest :=
  let? pathParam0 := StylePath "source_id" sourceId in
  let? pathParam1 := StylePath "name" name in
  newRequestWithBody "POST" server ("/event/" +:+ pathParam0 +:+ "/" +:+ pathParam1) contentType body.

Definition NewPublishEventRequest (server sourceId name : string) (body : stringMap) : res HttpRequest :=
  NewPublishEventRequestWithBody server sourceId name "application/json" (Some (marshal body)).

Definition NewGetEventTypesRequest (server : string) : res HttpRequest := newRequest "GET" server "/event_type" None.

Definition NewRegisterEventTypesRequestWithBody (server contentType : string) (body : option string) : res HttpRequest :=
  newRequestWithBody "POST" server "/event_type" contentType body.

Definition NewRegisterEventTypesRequest (server : string) (body : goslice EventType) : res HttpRequest :=
  NewRegisterEventTypesRequestWithBody server "application/json" (Some (marshal body)).

Definition NewGetEventTypesBySourceIDRequest (server sourceId : string) : res HttpRequest :=
  let? pathParam0 := StylePath "source_id" sourceId in newRequest "GET" server ("/event_type/" +:+ pathParam0) None.

Definition NewGetEventTypeRequest (server sourceId name : string) : res HttpRequest :=
  let? pathParam0 := StylePath "source_id" sourceId in
  let? pathParam1 := StylePath "name" name in
  newRequest "GET" server ("/event_type/" +:+ pathParam0 +:+ "/" +:+ pathParam1) None.

Definition NewSubscribeSIORequest (server : string) : res HttpRequest := newRequest "GET" server "/socket.io" None.
Definition NewPollSIORequest (server : string) : res HttpRequest := newRequest "POST" server "/socket.io" None.
Definition NewSubscribeSIO2Request (server : string) : res HttpRequest := newRequest "GET" server "/socket.io/" None.
Definition NewPollSIO2Request (server : string) : res HttpRequest := newRequest "POST" server "/socket.io/" None.
Definition NewGetYskCardRequest (server : string) : res HttpRequest := newRequest "GET" server "/ysk" None.

Definition NewDeleteYskCardRequest (server id : string) : res HttpRequest :=
  let? pathParam0 := StylePath "id" id in newRequest "DELETE" server ("/ysk/" +:+ pathParam0) None.
End Requests.

(** ** The operations *)

Section Operations.
Context (StylePath : string → string → res string) (StyleQuery : string → list string → res string).
Context (c : Client).

Definition SubscribeActionWS (sourceId : string) (params : option (option (list string))) (reqEditors : list RequestEditorFn) : M (res HTTPResponse) :=
  send c (NewSubscribeActionWSRequest StylePath StyleQuery (Server c) sourceId params) reqEditors.

Definition TriggerActionWithBody (sourceId name contentType : string) (body : option string) (reqEditors : list RequestEditorFn) : M (res HTTPResponse) :=
  send c (NewTriggerActionRequestWithBody StylePath (Server c) sourceId name contentType body) reqEditors.

Definition TriggerAction (sourceId name : string) (body : stringMap) (reqEditors : list RequestEditorFn) : M (res HTTPResponse) :=
  send c (NewTriggerActionRequest StylePath (Server c) sourceId name body) reqEditors.

Definition GetActionTypes (reqEditors : list RequestEditorFn) : M (res HTTPResponse) :=
  send c (NewGetActionTypesRequest (Server c)) reqEditors.

Definition RegisterActionTypesWithBody (contentType : string) (body : option string) (reqEditors : list RequestEditorFn) : M (res HTTPResponse) :=
  send c (NewRegisterActionTypesRequestWithBody (Server c) contentType body) reqEditors.

Definition RegisterActionTypes (body : goslice ActionType) (reqEditors : list RequestEditorFn) : M (res HTTPResponse) :=
  send c (NewRegisterActionTypesRequest (Server c) body) reqEditors.

Definition GetActionTypesBySourceID (sourceId : string) (reqEditors : list RequestEditorFn) : M (res HTTPResponse) :=
  send c (NewGetActionTypesBySourceIDRequest StylePath (Server c) sourceId) reqEditors.

Definition GetActionType (sourceId name : string) (reqEditors : list RequestEditorFn) : M (res HTTPResponse) :=
  send c (NewGetActionTypeRequest StylePath (Server c) sourceId name) reqEditors.

Definition SubscribeEventWS (sourceId : string) (params : option (option (list string))) (reqEditors : list RequestEditorFn) : M (res HTTPResponse) :=
  send c (NewSubscribeEventWSRequest StylePath StyleQuery (Server c) sourceId params) reqEditors.

Definition PublishEventWithBody (sourceId name contentType : string) (body : option string) (reqEditors : list RequestEditorFn) : M (res HTTPResponse) :=
  send c (NewPublishEventRequestWithBody StylePath (Server c) sourceId name contentType body) reqEditors.

Definition PublishEvent (sourceId name : string) (body : stringMap) (reqEditors : list RequestEditorFn) : M (res HTTPResponse) :=
  send c (NewPublishEventRequest StylePath (Server c) sourceId name body) reqEditors.

Definition GetEventTypes (reqEditors : list RequestEditorFn) : M (res HTTPResponse) :=
  send c (NewGetEventTypesRequest (Server c)) reqEditors.

Definition RegisterEventTypesWithBody (contentType : string) (body : option string) (reqEditors : list RequestEditorFn) : M (res HTTPResponse) :=
  send c (NewRegisterEventTypesRequestWithBody (Server c) contentType body) reqEditors.

Definition RegisterEventTypes (body : goslice EventType) (reqEditors : list RequestEditorFn) : M (res HTTPResponse) :=
  send c (NewRegisterEventTypesRequest (Server c) body) reqEditors.

Definition GetEventTypesBySourceID (sourceId : string) (reqEditors : list RequestEditorFn) : M (res HTTPResponse) :=
  send c (NewGetEventTypesBySourceIDRequest StylePath (Server c) sourceId) reqEditors.

Definition GetEventType (sourceId name : string) (reqEditors : list RequestEditorFn) : M (res HTTPResponse) :=
  send c (NewGetEventTypeRequest StylePath (Server c) sourceId name) reqEditors.

Definition SubscribeSIO (reqEditors : list RequestEditorFn) : M (res HTTPResponse) :=
  send c (NewSubscribeSIORequest (Server c)) reqEditors.

Definition PollSIO (reqEditors : list RequestEditorFn) : M (res HTTPResponse) :=
  send c (NewPollSIORequest (Server c)) reqEditors.

Definition SubscribeSIO2 (reqEditors : list RequestEditorFn) : M (res HTTPResponse) :=
  send c (NewSubscribeSIO2Request (Server c)) reqEditors.

Definition PollSIO2 (reqEditors : list RequestEditorFn) : M (res HTTPResponse) :=
  send c (NewPollSIO2Request (Server c)) reqEditors.

Definition GetYskCard (reqEditors : list RequestEditorFn) : M (res HTTPResponse) :=
  send c (NewGetYskCardRequest (Server c)) reqEditors.

Definition DeleteYskCard (id : string) (reqEditors : list RequestEditorFn) : M (res HTTPResponse) :=
  send c (NewDeleteYskCardRequest StylePath (Server c) id) reqEditors.

End Operations.

(** ** Typed responses *)

(** The structs of the responses, in one: a struct has the fields of the codes its
    operation documents, the others stay nil. *)
Record TypedResponse (A : Type) := mkTyped {
  Body : string;
  HTTPResponseOf : HTTPResponse;
  JSON200 : option A;
  JSON400 : option BaseResponse;
  JSON404 : option BaseResponse;
  JSON409 : option BaseResponse;
  JSON500 : option BaseResponse;
}.
Arguments mkTyped {A}. Arguments Body {A}. Arguments HTTPResponseOf {A}. Arguments JSON200 {A}. Arguments JSON400 {A}.
Arguments JSON404 {A}. Arguments JSON409 {A}. Arguments JSON500 {A}.

(** The accessors of a response that was parsed. *)
Definition GetBody {A} (r : TypedResponse A) : string := Body r.
Definition Status {A} (r : TypedResponse A) : string := hr_Status (HTTPResponseOf r).
Definition StatusCode {A} (r : TypedResponse A) : Z := rp_StatusCode (hr_Response (HTTPResponseOf r)).
Definition ContentType {A} (r : TypedResponse A) : string := hr_ContentType (HTTPResponseOf r).

Definition unmarshalTo {A} (decode : json → A → A * bool) (zero : A) (bodyBytes : string) : res A :=
  match unmarshalInto decode zero bodyBytes with Some a => Ok a | None => Err (NewError "json") end.

(** One case of the switch: a documented code and what its body is decoded into. *)
Abbreviation responseCase A := (Z * (string → TypedResponse A → res (TypedResponse A)))%type.

Section Cases.
Context {A : Type}.

Definition case200 (decode : json → A → A * bool) (zero : A) : responseCase A := (200, λ bodyBytes r,
  let? dest := unmarshalTo decode zero bodyBytes in
  Ok (mkTyped (Body r) (HTTPResponseOf r) (Some dest) (JSON400 r) (JSON404 r) (JSON409 r) (JSON500 r))).

(** The codes whose body is a [BaseResponse]. *)
Definition caseBase (code : Z) (put : BaseResponse → TypedResponse A → TypedResponse A) : responseCase A := (code, λ bodyBytes r,
  let? dest := unmarshalTo decodeBaseResponse (mkBaseResponse None) bodyBytes in Ok (put dest r)).

Definition case400 : responseCase A := caseBase 400 (λ dest r,
  mkTyped (Body r) (HTTPResponseOf r) (JSON200 r) (Some dest) (JSON404 r) (JSON409 r) (JSON500 r)).
Definition case404 : responseCase A := caseBase 404 (λ dest r,
  mkTyped (Body r) (HTTPResponseOf r) (JSON200 r) (JSON400 r) (Some dest) (JSON409 r) (JSON500 r)).
Definition case409 : responseCase A := caseBase 409 (λ dest r,
  mkTyped (Body r) (HTTPResponseOf r) (JSON200 r) (JSON400 r) (JSON404 r) (Some dest) (JSON500 r)).
Definition case500 : responseCase A := caseBase 500 (λ dest r,
  mkTyped (Body r) (HTTPResponseOf r) (JSON200 r) (JSON400 r) (JSON404 r) (JSON409 r) (Some dest)).

Definition selects (rsp : HTTPResponse) (k : responseCase A) : bool :=
  contains "json" (hr_ContentType rsp) && (rp_StatusCode (hr_Response rsp) =? k.1).

(** The body is read, and the first case that fits decodes it. *)
Definition parseResponse (cases : list (responseCase A)) (rsp : HTTPResponse) : res (TypedResponse A) :=
  let? bodyBytes := ReadAll rsp in
  let response := mkTyped bodyBytes rsp None None None None None in
  match List.find (selects rsp) cases with
  | Some k => k.2 bodyBytes response
  | None => Ok response
  end.
End Cases.

Section Responses.
Context (UnmarshalTime : string → option Z).

Definition ParseSubscribeActionWSResponse : HTTPResponse → res (TypedResponse unit) :=
  parseResponse [].

Definition ParseTriggerActionResponse : HTTPResponse → res (TypedResponse Action) :=
  parseResponse [case200 (decodeAction UnmarshalTime) zeroAction; case400; case404].

Definition ParseGetActionTypesResponse : HTTPResponse → res (TypedResponse (goslice ActionType)) :=
  parseResponse [case200 fromJson zeroOf].

Definition ParseRegisterActionTypesResponse : HTTPResponse → res (TypedResponse BaseResponse) :=
  parseResponse [case200 decodeBaseResponse (mkBaseResponse None); case400; case409].

Definition ParseGetActionTypesBySourceIDResponse : HTTPResponse → res (TypedResponse (goslice ActionType)) :=
  parseResponse [case200 fromJson zeroOf; case404].

Definition ParseGetActionTypeResponse : HTTPResponse → res (TypedResponse ActionType) :=
  parseResponse [case200 fromJson zeroOf; case404].

Definition ParseSubscribeEventWSResponse : HTTPResponse → res (TypedResponse unit) :=
  parseResponse [].

Definition ParsePublishEventResponse : HTTPResponse → res (TypedResponse Event) :=
  parseResponse [case200 (decodeEvent UnmarshalTime) zeroBusEvent; case400; case404].

Definition ParseGetEventTypesResponse : HTTPResponse → res (TypedResponse (goslice EventType)) :=
  parseResponse [case200 fromJson zeroOf; case500].

Definition ParseRegisterEventTypesResponse : HTTPResponse → res (TypedResponse BaseResponse) :=
  parseResponse [case200 decodeBaseResponse (mkBaseResponse None); case400; case409].

Definition ParseGetEventTypesBySourceIDResponse : HTTPResponse → res (TypedResponse (goslice EventType)) :=
  parseResponse [case200 fromJson zeroOf; case404].

Definition ParseGetEventTypeResponse : HTTPResponse → res (TypedResponse EventType) :=
  parseResponse [case200 fromJson zeroOf; case404].

Definition ParseSubscribeSIOResponse : HTTPResponse → res (TypedResponse unit) :=
  parseResponse [].

Definition ParsePollSIOResponse : HTTPResponse → res (TypedResponse unit) :=
  parseResponse [].

Definition ParseSubscribeSIO2Response : HTTPResponse → res (TypedResponse unit) :=
  parseResponse [].

Definition ParsePollSIO2Response : HTTPResponse → res (TypedResponse unit) :=
  parseResponse [].

Definition ParseGetYskCardResponse : HTTPResponse → res (TypedResponse ResponseGetYSKCardListOK) :=
  parseResponse [case200 decodeCardList (mkCardList None None); case500].

Definition ParseDeleteYskCardResponse : HTTPResponse → res (TypedResponse BaseResponse) :=
  parseResponse [case200 decodeBaseResponse (mkBaseResponse None); case500].

End Responses.

(** ** The operations with typed responses *)

Definition withResponse {A} (parse : HTTPResponse → res (TypedResponse A)) (call : M (res HTTPResponse)) : M (res (TypedResponse A)) :=
  ok rsp <- call;; mret (parse rsp).

Section WithResponses.
Context (StylePath : string → string → res string) (StyleQuery : string → list string → res string).
Context (UnmarshalTime : string → option Z) (c : Client).

Definition SubscribeActionWSWithResponse (sourceId : string) (params : option (option (list string))) (reqEditors : list RequestEditorFn)
    : M (res (TypedResponse unit)) :=
  withResponse ParseSubscribeActionWSResponse (SubscribeActionWS StylePath StyleQuery c sourceId params reqEditors).

Definition TriggerActionWithBodyWithResponse (sourceId name contentType : string) (body : option string) (reqEditors : list RequestEditorFn)
    : M (res (TypedResponse Action)) :=
  withResponse (ParseTriggerActionResponse UnmarshalTime) (TriggerActionWithBody StylePath c sourceId name contentType body reqEditors).

Definition TriggerActionWithResponse (sourceId name : string) (body : stringMap) (reqEditors : list RequestEditorFn)
    : M (res (TypedResponse Action)) :=
  withResponse (ParseTriggerActionResponse UnmarshalTime) (TriggerAction StylePath c sourceId name body reqEditors).

Definition GetActionTypesWithResponse (reqEditors : list RequestEditorFn)
    : M (res (TypedResponse (goslice ActionType))) :=
  withResponse ParseGetActionTypesResponse (GetActionTypes c reqEditors).

Definition RegisterActionTypesWithBodyWithResponse (contentType : string) (body : option string) (reqEditors : list RequestEditorFn)
    : M (res (TypedResponse BaseResponse)) :=
  withResponse ParseRegisterActionTypesResponse (RegisterActionTypesWithBody c contentType body reqEditors).

Definition RegisterActionTypesWithResponse (body : goslice ActionType) (reqEditors : list RequestEditorFn)
    : M (res (TypedResponse BaseResponse)) :=
  withResponse ParseRegisterActionTypesResponse (RegisterActionTypes c body reqEditors).

Definition GetActionTypesBySourceIDWithResponse (sourceId : string) (reqEditors : list RequestEditorFn)
    : M (res (TypedResponse (goslice ActionType))) :=
  withResponse ParseGetActionTypesBySourceIDResponse (GetActionTypesBySourceID StylePath c sourceId reqEditors).

Definition GetActionTypeWithResponse (sourceId name : string) (reqEditors : list RequestEditorFn)
    : M (res (TypedResponse ActionType)) :=
  withResponse ParseGetActionTypeResponse (GetActionType StylePath c sourceId name reqEditors).

Definition SubscribeEventWSWithResponse (sourceId : string) (params : option (option (list string))) (reqEditors : list RequestEditorFn)
    : M (res (TypedResponse unit)) :=
  withResponse ParseSubscribeEventWSResponse (SubscribeEventWS StylePath StyleQuery c sourceId params reqEditors).

Definition PublishEventWithBodyWithResponse (sourceId name contentType : string) (body : option string) (reqEditors : list RequestEditorFn)
    : M (res (TypedResponse Event)) :=
  withResponse (ParsePublishEventResponse UnmarshalTime) (PublishEventWithBody StylePath c sourceId name contentType body reqEditors).

Definition PublishEventWithResponse (sourceId name : string) (body : stringMap) (reqEditors : list RequestEditorFn)
    : M (res (TypedResponse Event)) :=
  withResponse (ParsePublishEventResponse UnmarshalTime) (PublishEvent StylePath c sourceId name body reqEditors).

Definition GetEventTypesWithResponse (reqEditors : list RequestEditorFn)
    : M (res (TypedResponse (goslice EventType))) :=
  withResponse ParseGetEventTypesResponse (GetEventTypes c reqEditors).

Definition RegisterEventTypesWithBodyWithResponse (contentType : string) (body : option string) (reqEditors : list RequestEditorFn)
    : M (res (TypedResponse BaseResponse)) :=
  withResponse ParseRegisterEventTypesResponse (RegisterEventTypesWithBody c contentType body reqEditors).

Definition RegisterEventTypesWithResponse (body : goslice EventType) (reqEditors : list RequestEditorFn)
    : M (res (TypedResponse BaseResponse)) :=
  withResponse ParseRegisterEventTypesResponse (RegisterEventTypes c body reqEditors).

Definition GetEventTypesBySourceIDWithResponse (sourceId : string) (reqEditors : list RequestEditorFn)
    : M (res (TypedResponse (goslice EventType))) :=
  withResponse ParseGetEventTypesBySourceIDResponse (GetEventTypesBySourceID StylePath c sourceId reqEditors).

Definition GetEventTypeWithResponse (sourceId name : string) (reqEditors : list RequestEditorFn)
    : M (res (TypedResponse EventType)) :=
  withResponse ParseGetEventTypeResponse (GetEventType StylePath c sourceId name reqEditors).

Definition SubscribeSIOWithResponse (reqEditors : list RequestEditorFn)
    : M (res (TypedResponse unit)) :=
  withResponse ParseSubscribeSIOResponse (SubscribeSIO c reqEditors).

Definition PollSIOWithResponse (reqEditors : list RequestEditorFn)
    : M (res (TypedResponse unit)) :=
  withResponse ParsePollSIOResponse (PollSIO c reqEditors).

Definition SubscribeSIO2WithResponse (reqEditors : list RequestEditorFn)
    : M (res (TypedResponse unit)) :=
  withResponse ParseSubscribeSIO2Response (SubscribeSIO2 c reqEditors).

Definition PollSIO2WithResponse (reqEditors : list RequestEditorFn)
    : M (res (TypedResponse unit)) :=
  withResponse ParsePollSIO2Response (PollSIO2 c reqEditors).

Definition GetYskCardWithResponse (reqEditors : list RequestEditorFn)
    : M (res (TypedResponse ResponseGetYSKCardListOK)) :=
  withResponse ParseGetYskCardResponse (GetYskCard c reqEditors).

Definition DeleteYskCardWithResponse (id : string) (reqEditors : list RequestEditorFn)
    : M (res (TypedResponse BaseResponse)) :=
  withResponse ParseDeleteYskCardResponse (DeleteYskCard StylePath c id reqEditors).

End WithResponses.

(** ** Requests to a plain server *)

Section Plain.
Context (sch host prefix : string) (base : plainBase sch host prefix) (port : trim_suffix ":" host = host).

Definition serverAt : string := sch +:+ "://" +:+ host +:+ prefix +:+ "/".

(** The URL of the operation with path [p]; [d] is what the whole path stands for. *)
Definition endpoint (p d : string) : URL := plainURL sch host (prefix +:+ "/" +:+ p) d.

Lemma newRequest_behind method p d body : plainPath p → unescape encodePath (prefix +:+ "/" +:+ p) = Some d →
  newRequest method serverAt ("/" +:+ p) body = Ok (mkHttpRequest method (endpoint p d) ∅ body).
Proof using base port.
  intros Hp Hd. destruct (resolve_behind sch host prefix base p d Hp Hd) as (u & v & Hu & Hv & _ & _ & _ & _ & _ & _ & Hs).
  unfold newRequest, operationURL, serverAt. rewrite Hu.
  change (has_prefix "/" ("/" +:+ p)) with true. cbv iota zeta. change ("." +:+ "/" +:+ p) with ("./" +:+ p).
  rewrite Hv. cbn [res_bind]. unfold NewRequest. rewrite Hs, (ParseURL_behind sch host prefix base p d) by done.
  unfold endpoint, plainURL, queryURL. cbn [Scheme Opaque User Host Path RawQuery Fragment RawPath RawFragment ForceQuery OmitHost].
  by rewrite port.
Qed.

(** The query of a subscription: nothing without names, or what the runtime package
    writes for them. *)
Definition subscribedQuery (StyleQuery : string → list string → res string) (params : option (option (list string))) (q : string) : Prop :=
  match mjoin params with None => q = "" | Some names => StyleQuery "names" names = Ok q ∧ all_bytes queryByte q = true end.

Lemma subscribe_behind StyleQuery p d params q : plainPath p → unescape encodePath (prefix +:+ "/" +:+ p) = Some d →
  subscribedQuery StyleQuery params q →
  subscribe StyleQuery serverAt ("/" +:+ p) params =
  Ok (mkHttpRequest "GET" (queryURL sch host (prefix +:+ "/" +:+ p) d q) ∅ None).
Proof using base port.
  intros Hp Hd Hq. unfold subscribedQuery in Hq. destruct params as [names|]; [|simpl in Hq; subst q; by apply newRequest_behind].
  destruct (resolve_written sch host prefix base p d Hp Hd) as (u & Hu & Hv).
  assert (has_prefix "/" (prefix +:+ "/" +:+ p) = true) as Hslash by (by destruct (pb_prefix _ _ _ base) as [->|[t ->]%has_prefix_spec]).
  assert (validEncoded encodePath (prefix +:+ "/" +:+ p) = true) as Hvalid by (apply plainPath_join; [apply base|done]).
  assert (all_bytes queryByte q = true) as Hqb by (destruct names; [apply Hq|simpl in Hq; by subst q]).
  unfold subscribe, subscription, operationURL, serverAt. rewrite Hu. change (has_prefix "/" ("/" +:+ p)) with true. cbv iota zeta.
  change ("." +:+ "/" +:+ p) with ("./" +:+ p). rewrite Hv. cbn [res_bind].
  assert ((let? fragments := match names with
                             | None => Ok []
                             | Some names => let? queryFrag := StyleQuery "names" names in Ok (split_on "&" queryFrag)
                             end in
           Ok (join_with "&" (fragments ++ [])%list)) = Ok q) as Hfrag.
  { destruct names as [names|]; [|simpl in Hq; by subst q]. destruct Hq as [-> _]. cbn [res_bind].
    by rewrite app_nil_r, join_split. }
  change (RawQuery (plainURL _ _ _ _)) with "". change (valuesEncode (Query "")) with "". rewrite (bool_decide_eq_true_2 ("" = "")) by done.
  destruct (match names with None => _ | Some _ => _ end) as [fragments|]; [|done]. cbn [res_bind] in *. injection Hfrag as ->.
  cbn [Scheme Opaque User Host Path RawQuery Fragment RawPath RawFragment ForceQuery OmitHost plainURL queryURL].
  change (mkURL sch "" None host d q "" _ "" false false) with (queryURL sch host (prefix +:+ "/" +:+ p) d q).
  unfold NewRequest. rewrite (String_queryURL sch host prefix base), (ParseURL_behind_query sch host prefix base p d q) by done.
  cbn [Scheme Opaque User Host Path RawQuery Fragment RawPath RawFragment ForceQuery OmitHost plainURL queryURL]. by rewrite port.
Qed.

Lemma newRequestWithBody_behind method p d contentType body : plainPath p → unescape encodePath (prefix +:+ "/" +:+ p) = Some d →
  newRequestWithBody method serverAt ("/" +:+ p) contentType body =
  Ok (mkHttpRequest method (endpoint p d) {["Content-Type" := contentType]} body).
Proof using base port. intros Hp Hd. unfold newRequestWithBody. by rewrite (newRequest_behind method p d). Qed.
End Plain.

(** ** A server that is no URL *)

(** Without a scheme and a host the request of any operation has no scheme. *)
Lemma newRequest_nowhere method server u p body req : ParseURL server = Some u →
  Scheme u = "" → Host u = "" → User u = None → Opaque u = "" →
  newRequest method server ("/" +:+ p) body = Ok req → Scheme (rq_URL req) = "".
Proof.
  intros Hu Hs Hh Hus Ho. unfold newRequest, operationURL. rewrite Hu.
  change (has_prefix "/" ("/" +:+ p)) with true. cbv iota zeta. change ("." +:+ "/" +:+ p) with ("./" +:+ p).
  destruct (URL_Parse u ("./" +:+ p)) as [v|] eqn:Hv; [|done]. cbn [res_bind]. unfold NewRequest.
  destruct (ParseURL (URL_String v)) as [w|] eqn:Hw; [|done]. intros [= <-]. cbn [rq_URL Scheme].
  by eapply (resolve_nowhere u p).
Qed.
