(* ===== verification/ServiceBus.v ===== *)
(** * The service on the message bus (src/service/service.go, src/main.go,
    src/route/v1/user.go)

    The client of the message bus the service container hands out, and the two uses
    of it: the registration of the event type at the start of the daemon and the event
    behind a stored configuration. The bus must not become a hard dependency: without
    an address of it nothing is sent and nothing stops. *)

From stdpp Require Import prelude strings gmap.
From Stdlib Require Import ZArith Lia Ascii.
From S2P Require Import Prelude GoStrings FileSystem Store Urls UrlRefs Codegen Json Marshal Wire BusTypes Gateway BusClient.

Local Open Scope string_scope.
Local Open Scope Z_scope.
Local Open Scope m_scope.

Definition SERVICENAME : string := "CasaOS-UserService".

Section Bus.
(** [external.GetMessageBusAddress] of a runtime path, and the HTTP exchange. *)
Context (GetMessageBusAddress : string → M (res string)) (network : HttpRequestDoer).

(** The option [MessageBus] passes: no error is ever returned. *)
Definition busAddress (RuntimePath : string) : ClientOption := λ c,
  found <- GetMessageBusAddress RuntimePath;;
  match found with
  | Err _ => mret (Ok (mkClient "message bus address not found" (Doer c) (RequestEditors c)))
  | Ok messageBusAddress => mret (Ok (mkClient messageBusAddress (Doer c) (RequestEditors c)))
  end.

(** [MessageBus]; a client without a [Doer] stands for the nil of a failed call. *)
Definition MessageBus (RuntimePath : string) : M Client :=
  client <- NewClientWithResponses network "" [busAddress RuntimePath];;
  mret (match client with Ok c => c | Err _ => mkClient "" None [] end).

Definition events : goslice EventType := slice_from [mkEventType "zimaos:user:save_config" (slice_from []) SERVICENAME].

(** The loop that registers the event types: errors are logged, and a second
    passes before the next attempt. *)
Fixpoint registerEvents (attempts : nat) (RuntimePath : string) : M unit :=
  match attempts with
  | O => mret tt
  | S attempts' =>
     client <- MessageBus RuntimePath;;
     response <- RegisterEventTypesWithResponse client events [];;
     match response with
     | Ok response => if StatusCode response =? StatusOK then mret tt else registerEvents attempts' RuntimePath
     | Err _ => registerEvents attempts' RuntimePath
     end
  end.


(** The encoding of path parameters and of times, of the runtime package. *)
Context (StylePath : string → string → res string) (UnmarshalTime : string → option Z).

(** A stored configuration is published; how that ends is only logged. *)
Definition publishConfig (RuntimePath data : string) : M unit :=
  client <- MessageBus RuntimePath;;
  response <- PublishEventWithResponse StylePath UnmarshalTime client SERVICENAME "zimaos:user:save_config" (Some {["system" := data]}) [];;
  mret tt.
End Bus.

(** ** The client *)

(** The server of a client, with a slash behind it. *)
Definition slashed (server : string) : string := if has_suffix "/" server then server else server +:+ "/".

(** What [MessageBus] makes of the address. *)
Definition clientOf (network : HttpRequestDoer) (found : res string) : Client :=
  mkClient (slashed (match found with Ok a => a | Err _ => "message bus address not found" end)) (Some (http_Do network)) [].

Lemma send_plain server doer request w :
  send (mkClient server (Some doer) []) request [] w = match request with Ok req => doer req w | Err e => (Err e, w) end.
Proof. by destruct request. Qed.

Section Client.
Context (GetMessageBusAddress : string → M (res string)) (network : HttpRequestDoer).
Context (StylePath : string → string → res string) (UnmarshalTime : string → option Z).

Lemma MessageBus_client RuntimePath w : MessageBus GetMessageBusAddress network RuntimePath w =
  (let (found, w1) := GetMessageBusAddress RuntimePath w in (clientOf network found, w1)).
Proof.
  unfold MessageBus, NewClientWithResponses, NewClient, applyOptions, busAddress, try, mbind.
  by destruct (GetMessageBusAddress RuntimePath w) as [[a|e] w1].
Qed.

(** The answer that ends the registration. *)
Definition registered (r : res HTTPResponse) : bool :=
  match r with
  | Ok rsp => match ParseRegisterEventTypesResponse rsp with Ok t => StatusCode t =? StatusOK | Err _ => false end
  | Err _ => false
  end.

Abbreviation register := (registerEvents GetMessageBusAddress network).
Abbreviation publish := (publishConfig GetMessageBusAddress network StylePath UnmarshalTime).

Lemma registerEvents_step n RuntimePath w : register (S n) RuntimePath w =
  (let (found, w1) := GetMessageBusAddress RuntimePath w in
   let (r, w2) := send (clientOf network found) (NewRegisterEventTypesRequest (Server (clientOf network found)) events) [] w1 in
   if registered r then (tt, w2) else register n RuntimePath w2).
Proof.
  cbn [registerEvents]. unfold mbind at 1. rewrite MessageBus_client. destruct (GetMessageBusAddress RuntimePath w) as [found w1].
  unfold RegisterEventTypesWithResponse, withResponse, RegisterEventTypes, mbind, try, mbind.
  destruct (send _ _ _ w1) as [[rsp|e] w2]; [|done]. unfold mret, registered. destruct (ParseRegisterEventTypesResponse rsp) as [t|e]; [|done].
  by destruct (StatusCode t =? StatusOK).
Qed.

Lemma publishConfig_step RuntimePath data w : publish RuntimePath data w =
  (let (found, w1) := GetMessageBusAddress RuntimePath w in
   (tt, snd (send (clientOf network found) (NewPublishEventRequest StylePath (Server (clientOf network found)) SERVICENAME
               "zimaos:user:save_config" (Some {["system" := data]})) [] w1))).
Proof.
  unfold publishConfig. unfold mbind at 1. rewrite MessageBus_client. destruct (GetMessageBusAddress RuntimePath w) as [found w1].
  unfold PublishEventWithResponse, withResponse, PublishEvent, mbind, try, mbind. by destruct (send _ _ _ w1) as [[rsp|e] w2].
Qed.

(** ** Quiet *)

Context (bus_quiet : ∀ p, quiet (GetMessageBusAddress p)) (exchange_quiet : ∀ r, quiet (network r)).

Lemma quiet_run {A} (m : M A) w : alone w → quiet m → let (a, w1) := m w in runs w w1 ∧ w_fs w1 = w_fs w ∧ w_db w1 = w_db w.
Proof. intros Hw Hm. specialize (Hm w Hw). unfold post in Hm. by destruct (m w). Qed.

Lemma send_quiet found request : quiet (send (clientOf network found) request []).
Proof using exchange_quiet.
  assert (∀ req, quiet (http_Do network req)) as Hdo by (intros req; unfold http_Do; quiet_walk).
  intros w Hw. unfold post, clientOf. rewrite send_plain. destruct request as [req|e]; [by apply Hdo|].
  by apply (quiet_ret (Err e : res HTTPResponse) w).
Qed.

Lemma publishConfig_quiet p data : quiet (publish p data).
Proof using bus_quiet exchange_quiet.
  intros w Hw. unfold post. rewrite publishConfig_step. pose proof (quiet_run _ w Hw (bus_quiet p)) as H1.
  destruct (GetMessageBusAddress p w) as [found w1]. destruct H1 as (Hr & Hf & Hd). cbn [snd].
  destruct (send_quiet found (NewPublishEventRequest StylePath (Server (clientOf network found)) SERVICENAME
     "zimaos:user:save_config" (Some {["system" := data]})) w1 (runs_alone _ _ Hr)) as (Hr2 & Hf2 & Hd2).
  split_and!; [by eapply runs_trans|congruence..].
Qed.

Lemma registerEvents_quiet n p : quiet (register n p).
Proof using bus_quiet exchange_quiet.
  induction n as [|n IH]; [apply quiet_ret|]. intros w Hw. unfold post. rewrite registerEvents_step.
  pose proof (quiet_run _ w Hw (bus_quiet p)) as H1. destruct (GetMessageBusAddress p w) as [found w1]. destruct H1 as (Hr & Hf & Hd).
  pose proof (quiet_run _ w1 (runs_alone _ _ Hr) (send_quiet found (NewRegisterEventTypesRequest (Server (clientOf network found)) events))) as H2.
  destruct (send _ _ _ w1) as [r w2]. destruct H2 as (Hr2 & Hf2 & Hd2). destruct (registered r); cbn [fst snd].
  - split_and!; [by eapply runs_trans|congruence..].
  - destruct (IH w2 (runs_alone _ _ Hr2)) as (Hr3 & Hf3 & Hd3). split_and!; [by do 2 (eapply runs_trans; [done|])|congruence..].
Qed.
End Client.

(** ** What is sent *)

(** An operation whose path is made of segments, at a server with a plain address. *)
Lemma posted sch host prefix s segs contentType body : plainBase sch host prefix → trim_suffix ":" host = host →
  unescape encodePath prefix = Some prefix → Forall segment (s :: segs) →
  newRequestWithBody "POST" (serverAt sch host prefix) ("/" +:+ join_with "/" (s :: segs).*1) contentType body =
  Ok (mkHttpRequest "POST" (endpoint sch host prefix (join_with "/" (s :: segs).*1) (prefix +:+ "/" +:+ join_with "/" (s :: segs).*2))
        {["Content-Type" := contentType]} body).
Proof.
  intros Hb Hport Hlit Hl. destruct (segments_path s segs Hl) as [Hp Hd].
  apply newRequestWithBody_behind; [done..|]. apply unescape_app; [done|by apply unescape_slash].
Qed.

(** A server without a scheme is not asked. *)
Lemma unsent network server u method p body w : ParseURL server = Some u →
  Scheme u = "" → Host u = "" → User u = None → Opaque u = "" →
  snd (send (mkClient server (Some (http_Do network)) []) (newRequestWithBody method server ("/" +:+ p) "application/json" body) [] w) = w ∧
  registered (fst (send (mkClient server (Some (http_Do network)) []) (newRequestWithBody method server ("/" +:+ p) "application/json" body) [] w)) = false.
Proof.
  intros Hu Hs Hh Hus Ho. rewrite !send_plain. unfold newRequestWithBody.
  destruct (newRequest method server ("/" +:+ p) body) as [req|e] eqn:E; [|done]. cbn [res_bind].
  unfold http_Do. cbn [rq_URL setHeader]. by rewrite (newRequest_nowhere _ _ _ _ _ _ Hu Hs Hh Hus Ho E).
Qed.

Lemma nowhere : ∃ u, ParseURL (slashed "message bus address not found") = Some u ∧
  Scheme u = "" ∧ Host u = "" ∧ User u = None ∧ Opaque u = "".
Proof. eexists. split; [vm_compute; reflexivity|]. done. Qed.

(** The event type and the event, as the bus decodes them. *)
Lemma events_read : unmarshalNew (marshal events) = Some events.
Proof. vm_compute. reflexivity. Qed.

Lemma config_read data : utf8 data → unmarshalNew (marshal (Some {["system" := data]} : stringMap)) = Some (Some {["system" := data]}).
Proof.
  intros Hd. apply marshal_read; [|vm_compute; discriminate]. cbn. intros k v [<- <-]%lookup_singleton_Some. done.
Qed.

(** C36. What the service sends to the message bus. While the bus has no address, neither
    the registration at start nor the event of a stored configuration sends anything:
    one look-up of the address per attempt is all that happens, and both come back. At
    a bus whose address is a plain http or https URL (a scheme, a host and a path,
    written without escapes) each attempt of the registration is exactly one POST of
    the event type to its event_type, whose body the bus decodes to the very list, and
    the first answer of status 200 that can be read ends it; a stored configuration is
    exactly one POST to the event's path, and when it is valid UTF-8 the bus decodes the
    body to the one property "system" with the stored text. *)
Theorem bus_traffic (GetMessageBusAddress : string → M (res string)) (network : HttpRequestDoer)
    (StylePath : string → string → res string) (UnmarshalTime : string → option Z) (RuntimePath : string) :
  StylesPath StylePath →
  let register := registerEvents GetMessageBusAddress network in
  let publish := publishConfig GetMessageBusAddress network StylePath UnmarshalTime RuntimePath in
  let lookup w := snd (GetMessageBusAddress RuntimePath w) in
  ((∀ w, is_Ok (fst (GetMessageBusAddress RuntimePath w)) = false) → ∀ n data w,
     register n RuntimePath w = (tt, Nat.iter n lookup w) ∧ publish data w = (tt, lookup w)) ∧
  (∀ sch host prefix address, plainBase sch host prefix → trim_suffix ":" host = host → unescape encodePath prefix = Some prefix →
     sch = "http" ∨ sch = "https" → slashed address = serverAt sch host prefix →
     ∀ w w1, GetMessageBusAddress RuntimePath w = (Ok address, w1) →
     let post path body := mkHttpRequest "POST" (endpoint sch host prefix path (prefix +:+ "/" +:+ path)) {["Content-Type" := "application/json"]} (Some body) in
     (∀ n, register (S n) RuntimePath w =
        (let (r, w2) := network (post "event_type" (marshal events)) w1 in
         if registered r then (tt, w2) else register n RuntimePath w2)) ∧
     unmarshalNew (marshal events) = Some events ∧
     ∃ sourceId name, StylePath "source_id" SERVICENAME = Ok sourceId ∧ StylePath "name" "zimaos:user:save_config" = Ok name ∧
       ∀ data, publish data w =
         (tt, snd (network (mkHttpRequest "POST"
            (endpoint sch host prefix ("event/" +:+ sourceId +:+ "/" +:+ name)
               (prefix +:+ "/event/CasaOS-UserService/zimaos:user:save_config"))
            {["Content-Type" := "application/json"]} (Some (marshal (Some {["system" := data]} : stringMap)))) w1)) ∧
       (utf8 data → unmarshalNew (marshal (Some {["system" := data]} : stringMap)) = Some (Some {["system" := data]}))).
Proof.
  intros HS register publish lookup.
  destruct (styled StylePath "source_id" SERVICENAME) as (sourceId & Hsrc & Hseg1); [done|done|].
  destruct (styled StylePath "name" "zimaos:user:save_config") as (name & Hname & Hseg2); [done|done|]. split.
  - intros Hno. destruct nowhere as (u & Hu & Hs & Hh & Hus & Ho).
    assert (∀ w, ∃ e, GetMessageBusAddress RuntimePath w = (Err e, lookup w)) as Hlook.
    { intros w. specialize (Hno w). unfold lookup. destruct (GetMessageBusAddress RuntimePath w) as [[a|e] w1]; [done|by exists e]. }
    intros n data w. split.
    + induction n as [|n IH] in w |- *; [done|]. unfold register. rewrite registerEvents_step. destruct (Hlook w) as [e ->].
      unfold clientOf, NewRegisterEventTypesRequest, NewRegisterEventTypesRequestWithBody. cbn [Server].
      destruct (unsent network _ u "POST" "event_type" (Some (marshal events)) (lookup w) Hu Hs Hh Hus Ho) as [H1 H2].
      destruct (send _ _ _ (lookup w)) as [r w2]. cbn [fst snd] in *. subst w2. rewrite H2. fold register. by rewrite IH, Nat.iter_succ_r.
    + unfold publish. rewrite publishConfig_step. destruct (Hlook w) as [e ->]. f_equal.
      unfold clientOf, NewPublishEventRequest, NewPublishEventRequestWithBody. cbn [Server]. rewrite Hsrc, Hname. cbn [res_bind].
      by apply (unsent network _ u "POST" ("event/" +:+ sourceId +:+ "/" +:+ name) _ (lookup w) Hu Hs Hh Hus Ho).
  - intros sch host prefix address Hb Hport Hlit Hsch Haddr w w1 Hget post.
    assert (∀ req, Scheme (rq_URL req) = sch → Host (rq_URL req) = host → http_Do network req = network req) as Hdo.
    { intros req H1 H2. unfold http_Do. rewrite H1, H2, (bool_decide_eq_false_2 (host = "")) by apply (pb_some _ _ _ Hb). by destruct Hsch as [-> | ->]. }
    split_and!; [|exact events_read|].
    + intros n. unfold register. rewrite registerEvents_step, Hget. unfold clientOf. cbn [Server]. rewrite Haddr, send_plain.
      unfold NewRegisterEventTypesRequest, NewRegisterEventTypesRequestWithBody.
      rewrite (posted sch host prefix (static "event_type") [] "application/json" _ Hb Hport Hlit) by (by repeat constructor).
      by rewrite Hdo.
    + exists sourceId, name. split_and!; [done|done|]. intros data. split; [|apply config_read].
      unfold publish. rewrite publishConfig_step, Hget. unfold clientOf. cbn [Server]. rewrite Haddr, send_plain. f_equal.
      unfold NewPublishEventRequest, NewPublishEventRequestWithBody. rewrite Hsrc, Hname. cbn [res_bind].
      rewrite (posted sch host prefix (static "event") [(sourceId, SERVICENAME); (name, "zimaos:user:save_config")] "application/json" _ Hb Hport Hlit)
        by (repeat apply Forall_cons_2; try apply Forall_nil_2; done).
      by rewrite Hdo.
Qed.

(** A bus that accepts what it is sent. *)
Definition acceptingBus (r : HttpRequest) : M (res HTTPResponse) :=
  mret (Ok (mkHTTPResponse (mkHttpResponse StatusOK "{}" false) "200 OK" "application/json")).

(** A bus that is unavailable for two exchanges. It notes what it is sent, at the end
    of the one text a world has. *)
Definition slowBus (r : HttpRequest) : M (res HTTPResponse) := λ w,
  (Ok (mkHTTPResponse (mkHttpResponse (if w_clock w <? 2 then 503 else StatusOK) "{}" false) "" "application/json"),
   mkWorld (w_db w) (w_fs w) (w_clock w + 1) (w_sched w) (w_isolated w)
     (w_entropy w +:+ rq_Method r +:+ " " +:+ URL_String (rq_URL r) +:+ " " +:+ default "" (rq_Body r) +:+ ";") (w_derived w)).

Lemma busAt : plainBase "http" "127.0.0.1:39287" "/v2/message_bus".
Proof. split; try done; [by right|]. split; [done|by eexists|by repeat constructor]. Qed.

Definition slowAddress : string → M (res string) := λ _, mret (Ok "http://127.0.0.1:39287/v2/message_bus").

Lemma bus_traffic_witness :
  let registration := "POST http://127.0.0.1:39287/v2/message_bus/event_type " +:+ marshal events +:+ ";" in
  let publication := "POST http://127.0.0.1:39287/v2/message_bus/event/CasaOS-UserService/zimaos:user:save_config " +:+
                     marshal (Some {["system" := "{}"]} : stringMap) +:+ ";" in
  (∀ data w, registerEvents (λ _, mret (Err ErrNotExist)) slowBus 10 "/run" w = (tt, w) ∧
     publishConfig (λ _, mret (Err ErrNotExist)) slowBus pathEscape (λ _, None) "/run" data w = (tt, w)) ∧
  w_entropy (snd (registerEvents slowAddress slowBus 10 "/run" runWorld)) = registration +:+ registration +:+ registration ∧
  w_entropy (snd (publishConfig slowAddress slowBus pathEscape (λ _, None) "/run" "{}" runWorld)) = publication ∧
  unmarshalNew (marshal (Some {["system" := "{}"]} : stringMap)) = Some (Some {["system" := "{}"]} : stringMap).
Proof.
  intros registration publication.
  destruct (bus_traffic (λ _, mret (Err ErrNotExist)) slowBus pathEscape (λ _, None) "/run" pathEscape_styles) as [H _].
  split; [intros data w; exact (H (λ _, eq_refl) 10%nat data w)|].
  destruct (bus_traffic slowAddress slowBus pathEscape (λ _, None) "/run" pathEscape_styles) as [_ H'].
  pose proof (H' "http" "127.0.0.1:39287" "/v2/message_bus" "http://127.0.0.1:39287/v2/message_bus" busAt eq_refl eq_refl (or_introl eq_refl) eq_refl) as Hat.
  destruct (Hat runWorld runWorld eq_refl) as (Hr & _ & sourceId & name & [= <-] & [= <-] & Hpub).
  destruct (Hpub "{}") as [Hp Hread]. split_and!.
  - rewrite (Hr 9%nat). vm_compute. reflexivity.
  - rewrite Hp. vm_compute. reflexivity.
  - apply Hread. repeat constructor.
Defined.
