(* ===== verification/CustomConf.v ===== *)
(** * The custom-configuration handlers (src/route/v1/user.go)

    The endpoints that read, write and delete a user's configuration files, on top
    of the accounts and of the store of src/pkg/userconfig. *)

From stdpp Require Import prelude strings gmap.
From Stdlib Require Import ZArith Lia Ascii.
From S2P Require Import Urls UrlRefs Codegen Json Marshal Wire BusTypes Gateway BusClient ServiceBus Prelude GoStrings Password FileSystem Tables Store Guarantee Files Trees AuthSecurity Bootstrap FileSeal UserConfig ConfigStore Sessions Issue Users Administration Middleware Handlers Boundary.

Local Open Scope Z_scope.
Local Open Scope m_scope.

(** [^[A-Za-z0-9][A-Za-z0-9._-]{0,63}$]. *)
Definition key_first (c : ascii) : bool := is_letter c || is_digit c.
Definition key_later (c : ascii) : bool :=
  is_letter c || is_digit c ||
  (bool_decide (c = "-"%char) || bool_decide (c = "_"%char) || bool_decide (c = "."%char)).
Definition customConfigKeyPattern (name : string) : bool :=
  match name with
  | EmptyString => false
  | String c rest => key_first c && all_bytes key_later rest && bool_decide (String.length rest ≤ 63)%nat
  end.

Section CustomConf.
Context (E : CommonErr) (id_matches : string → Z → bool).
(** The process's user, and [config.AppInfo.UserDataPath]. *)
Context (euid : Z) (UserDataPath : string).
(** Which bytes [gjson.ValidBytes] accepts, and which [encoding/json] accepts as a
    [json.RawMessage] inside a response. *)
Context (gjson_Valid json_Valid : string → bool).

(** [setCustomConfigResponseHeaders]. *)
Definition setCustomConfigResponseHeaders : list (string * string) := nosniff.

(** [ctx.JSON(status, model.Result{...})]: an error when the data cannot be
    encoded, which the handler returns. *)
Definition ctx_JSON (status code : Z) (data : Data) : res Response :=
  match data with
  | DataRawJSON s =>
     if json_Valid s then Ok (answer E setCustomConfigResponseHeaders status code data)
     else Err (NewError "json: error calling MarshalJSON for type json.RawMessage")
  | _ => Ok (answer E setCustomConfigResponseHeaders status code data)
  end.

Definition invalidCustomConfigResponse : res Response := ctx_JSON (CLIENT_ERROR E) (INVALID_PARAMS E) NoData.

Definition noUserResponse : res Response := ctx_JSON (SERVICE_ERROR E) (USER_NOT_EXIST E) NoData.
Definition storageResponse : res Response := ctx_JSON (SERVICE_ERROR E) (SERVICE_ERROR E) NoData.

Definition keyRejected (name : string) : bool :=
  negb (customConfigKeyPattern name) || match ValidateKey name with Some _ => true | None => false end.

Definition GetUserCustomConf (ctx : Context) : M (res Response) :=
  let name := param ctx "key" in
  if keyRejected name then mret invalidCustomConfigResponse
  else
    user <- GetUserInfoById id_matches (header_user_id ctx);;
    if u_Id user =? 0 then mret noUserResponse
    else
      read <- Read euid UserDataPath (u_Id user) name;;
      match match read with
            | Ok data => Some data
            | Err e => if errors_Is e ErrNotExist then Some "" else None
            end with
      | None => mret storageResponse
      | Some data =>
         if negb (gjson_Valid data) then mret (ctx_JSON (SUCCESS E) (SUCCESS E) (DataText data))
         else mret (ctx_JSON (SUCCESS E) (SUCCESS E) (DataRawJSON data))
      end.

(** [publish] is [publishConfig] of ServiceBus.v: the event behind a stored system
    configuration. Beside the response, what was published. [broken]: the body's
    transfer fails within the limit. *)
Definition PostUserCustomConf (publish : string → M unit) (broken : bool) (ctx : Context) : M (res Response * option string) :=
  let name := param ctx "key" in
  if keyRejected name then mret (invalidCustomConfigResponse, None)
  else
    user <- GetUserInfoById id_matches (header_user_id ctx);;
    if u_Id user =? 0 then mret (noUserResponse, None)
    else
      let data := match cx_Request ctx with Some r => rq_Body r | None => "" end in
      if broken then mret (invalidCustomConfigResponse, None)
      else if (MaxConfigBytes <? len data)%N
      then mret (Ok (mkResponse StatusRequestEntityTooLarge setCustomConfigResponseHeaders
                       StatusRequestEntityTooLarge "custom configuration is too large" NoData), None)
      else
        written <- Write euid UserDataPath (u_Id user) name data;;
        match written with
        | Some _ => mret (storageResponse, None)
        | None =>
           published <- (if bool_decide (name = "system") then _ <- publish data;; mret (Some data) else mret None);;
           mret (ctx_JSON (SUCCESS E) (SUCCESS E) (DataRawJSON data), published)
        end.

Definition DeleteUserCustomConf (ctx : Context) : M (res Response) :=
  let name := param ctx "key" in
  if keyRejected name then mret invalidCustomConfigResponse
  else
    user <- GetUserInfoById id_matches (header_user_id ctx);;
    if u_Id user =? 0 then mret noUserResponse
    else
      deleted <- Delete euid UserDataPath (u_Id user) name;;
      match deleted with
      | Some _ => mret storageResponse
      | None => mret (ctx_JSON (SUCCESS E) (SUCCESS E) NoData)
      end.
End CustomConf.

(** ** Keys *)

Lemma keyBytes_later i key : (0 < i)%nat → keyBytes i key = all_bytes key_later key.
Proof.
  revert i. induction key as [|c key IH]; intros i Hi; simpl; [done|].
  rewrite bool_decide_eq_true_2 by done. by rewrite IH by lia.
Qed.

Lemma key_later_slash key c : all_bytes key_later key = true → key_later c = false → contains_byte c key = false.
Proof. intros H Hc. by apply (all_bytes_no_byte key_later). Qed.

Lemma customConfigKeyPattern_bytes name : customConfigKeyPattern name = true →
  all_bytes key_later name = true ∧ keyBytes 0 name = true ∧ (1 ≤ String.length name ≤ 64)%nat.
Proof.
  destruct name as [|c rest]; [done|]. simpl. intros [[Hc Hr]%andb_prop Hl%bool_decide_eq_true]%andb_prop.
  unfold key_first in Hc. rewrite keyBytes_later by lia. rewrite Hr.
  unfold key_later. rewrite Hc. simpl. split_and!; [done|done|lia|lia].
Qed.

(** The key that names a file needs no more than the pattern and the absence of
    "..": what else [ValidateKey] refuses, the pattern refuses already. *)
Lemma ValidateKey_pattern name :
  ValidateKey name = None ↔ customConfigKeyPattern name = true ∧ contains ".." name = false.
Proof.
  unfold ValidateKey, MaxKeyBytes. split.
  - intros H. destruct (_ || _ || _ || _) eqn:Hb; [done|].
    apply orb_false_iff in Hb as [[[H0 H64]%orb_false_iff Hd]%orb_false_iff _].
    apply bool_decide_eq_false in H0, H64. split; [|done].
    destruct name as [|c rest]; [by destruct H0|]. simpl in H. rewrite keyBytes_later in H by lia. simpl in *.
    unfold key_first. destruct (is_letter c), (is_digit c); simpl in *;
      try (destruct (all_bytes key_later rest); [|done]; simpl; apply bool_decide_eq_true; lia).
    done.
  - intros [H Hd]. apply customConfigKeyPattern_bytes in H as (Hl & Hk & Hlen). rewrite Hd, Hk.
    rewrite (proj2 (contains_any_bytes "/\" name)).
    2:{ intros c Hc. apply (key_later_slash name c Hl). simpl in Hc.
        repeat (apply orb_prop in Hc as [Hc|Hc]; [apply bool_decide_eq_true in Hc as <-; reflexivity|]). done. }
    rewrite !bool_decide_eq_false_2 by lia. done.
Qed.

Lemma keyRejected_iff name : keyRejected name = true ↔ ValidateKey name ≠ None.
Proof.
  unfold keyRejected. destruct (ValidateKey name) as [e|] eqn:Hv; [by rewrite orb_true_r|].
  apply ValidateKey_pattern in Hv as [-> _]. done.
Qed.

Lemma keyRejected_not name : keyRejected name = false → ValidateKey name = None.
Proof. intros H. destruct (ValidateKey name) eqn:Hv; [|done]. by rewrite (proj2 (keyRejected_iff name)) in H by congruence. Qed.

(** ** The endpoints *)

Inductive ConfAction := ConfGet | ConfPost | ConfDelete.

Section Endpoints.
Context (E : CommonErr) (id_matches : string → Z → bool) (euid : Z) (UserDataPath : string)
        (gjson_Valid json_Valid : string → bool) (publish : string → M unit) (broken : bool).
Context (publish_quiet : ∀ data, quiet (publish data)).
Context (n : Z) (n_int : 0 < n < 2 ^ 63) (by_value : ∀ m, id_matches (Itoa n) m = (n =? m)).
Context (request : Request) (claims : SessionClaims) (Hn : sc_UserID claims = n).
(** The success code is not one of the failures'. *)
Context (success_code : SUCCESS E ≠ CLIENT_ERROR E ∧ SUCCESS E ≠ SERVICE_ERROR E ∧ SUCCESS E ≠ StatusRequestEntityTooLarge).

Abbreviation ctx := (authenticated request claims).
Abbreviation key := (rq_Param request "key").
Abbreviation body := (rq_Body request).
Abbreviation conf := (config UserDataPath).

(** A handler's response and what it published. *)
Definition serveConf (a : ConfAction) : M (res Response * option string) :=
  match a with
  | ConfGet => r <- GetUserCustomConf E id_matches euid UserDataPath gjson_Valid json_Valid ctx;; mret (r, None)
  | ConfPost => PostUserCustomConf E id_matches euid UserDataPath json_Valid publish broken ctx
  | ConfDelete => r <- DeleteUserCustomConf E id_matches euid UserDataPath json_Valid ctx;; mret (r, None)
  end.

Definition succeeded (r : res Response) : Prop := ∃ rsp, r = Ok rsp ∧ rsp_Status rsp = SUCCESS E.

(** What the action does to the caller's own file. *)
Definition conf_effect (a : ConfAction) (r : res Response) (before after : option string) : Prop :=
  match a with
  | ConfGet => after = before ∧
     (succeeded r → r = ctx_JSON E json_Valid (SUCCESS E) (SUCCESS E)
        (let data := default "" before in if gjson_Valid data then DataRawJSON data else DataText data))
  | ConfPost => (after = before ∨ after = Some body) ∧
     (succeeded r → after = Some body ∧ (len body ≤ MaxConfigBytes)%N ∧
        r = ctx_JSON E json_Valid (SUCCESS E) (SUCCESS E) (DataRawJSON body))
  | ConfDelete => (after = before ∨ after = None) ∧ (succeeded r → is_Some before ∧ after = None)
  end.

Record served (a : ConfAction) (w : World) (r : res Response * option string) (w' : World) : Prop := {
  sv_db : w_db w' = w_db w;
  sv_tree : tree (w_fs w');
  sv_others : same_except UserDataPath n key (w_fs w) (w_fs w');
  sv_effect : conf_effect a (fst r) (conf (w_fs w) n key) (conf (w_fs w') n key);
  sv_guard : succeeded (fst r) → ValidateKey key = None ∧ ∃ k row, o_users (w_db w) !! k = Some row ∧ u_Id row = n;
  sv_published : ∀ data, snd r = Some data →
    a = ConfPost ∧ key = "system" ∧ data = body ∧ conf (w_fs w') n key = Some body ∧
    ∃ w0, conf (w_fs w0) n key = Some body ∧ w' = snd (publish body w0);
  sv_headers : ∀ rsp, fst r = Ok rsp → rsp_Headers rsp = setCustomConfigResponseHeaders;
}.

Lemma GetUserInfoById_own w : alone w →
  post (GetUserInfoById id_matches (Itoa n)) w (λ u w', calm w w' ∧ w_db w' = w_db w ∧
    (u_Id u = 0 ∨ u_Id u = n ∧ ∃ k row, o_users (w_db w) !! k = Some row ∧ u_Id row = n)).
Proof using by_value.
  intros Hw. unfold GetUserInfoById, orZero, findUserWhere. do 3 m_step.
  - m_step. m_step. split_and!; [done|done|by left].
  - m_step. m_step. split_and!; [done|done|].
    destruct (first_where Z.leb _ (o_users (w_db w))) as [u|] eqn:F; [|by left]. right.
    apply first_where_Some in F as (k & Hk & Hu). pose proof (with_id_own _ _ by_value _ Hu) as Hu'.
    split; [done|]. eauto.
Qed.

Lemma ctx_JSON_fails status code : (SUCCESS E ≠ status) → ¬ succeeded (ctx_JSON E json_Valid status code NoData).
Proof. intros H (rsp & [= <-] & Hs). by apply H. Qed.

Lemma ctx_JSON_headers status code data rsp : ctx_JSON E json_Valid status code data = Ok rsp →
  rsp_Headers rsp = setCustomConfigResponseHeaders.
Proof. unfold ctx_JSON. intros H. by repeat (case_match; simplify_eq/=). Qed.

(** A request refused before the store is reached. *)
Lemma served_refused a w w' r : tree (w_fs w) → calm w w' → w_db w' = w_db w → ¬ succeeded r →
  (∀ rsp, r = Ok rsp → rsp_Headers rsp = setCustomConfigResponseHeaders) → served a w (r, None) w'.
Proof.
  intros Ht Hc Hd Hr Hh. split; rewrite ?(calm_fs _ _ Hc); try done.
  destruct a; simpl; (split; [auto|done]).
Qed.

Lemma served_after a w w1 r w' : calm w w1 → w_db w1 = w_db w → served a w1 r w' → served a w r w'.
Proof.
  intros Hc Hd [H1 H2 H3 H4 H5 H6 H7]. rewrite Hd, ?(calm_fs _ _ Hc) in *. by split.
Qed.

Lemma post_quietly (m : M (res Response)) w (Q : res Response * option string → World → Prop) :
  post m w (λ r w', Q (r, None) w') → post (r <- m;; mret (r, None)) w Q.
Proof. intros H. by apply post_bind. Qed.

(** The guards every endpoint begins with: the key, then the account. *)
Ltac conf_gate Q w1 Hc Hd Hkey Hu :=
  destruct (keyRejected key) eqn:Hkey;
    [apply post_ret; apply served_refused; [done|eauto with store|done|by apply ctx_JSON_fails|apply ctx_JSON_headers]|];
  m_step; eapply post_mono; [by apply GetUserInfoById_own|]; cbv beta;
  intros user w1 (Hc & Hd & Hu); destruct (Z.eqb_spec (u_Id user) 0) as [Hz|Hz];
    [apply post_ret; apply served_refused; [done|done|done|by apply ctx_JSON_fails|apply ctx_JSON_headers]|];
  destruct Hu as [Hu|[Hu Hrow]]; [done|]; rewrite Hu;
  assert (ValidateKey key = None) as Hkey' by (by apply keyRejected_not);
  apply (post_mono _ _ (Q w1)); cbv beta; [|intros ? ?; by apply served_after];
  assert (alone w1) as Hw1 by eauto with store;
  assert (tree (w_fs w1)) as Ht1 by (by rewrite (calm_fs _ _ Hc));
  rewrite <- Hd in Hrow.

Lemma serveGet_spec w : alone w → tree (w_fs w) → post (serveConf ConfGet) w (served ConfGet w).
Proof using n_int by_value Hn success_code.
  intros Hw Ht. destruct success_code as (Hc1 & Hc2 & Hc3). unfold serveConf, GetUserCustomConf.
  change (param ctx "key") with key. change (header_user_id ctx) with (Itoa (sc_UserID claims)). rewrite Hn.
  apply post_quietly. conf_gate (λ w1 r w', served ConfGet w1 (r, None) w') w1 Hc Hd Hkey Hu.
  m_step. m_use (Read_spec euid UserDataPath n key w1) as r w2 (Hf & Hmod & Hok & Hne & _).
  assert (same_configs UserDataPath (w_fs w1) (w_fs w2)) as Hsame by by apply config_modes.
  apply (post_mono _ _ (λ x w', w' = w2 ∧ (succeeded x → x = ctx_JSON E json_Valid (SUCCESS E) (SUCCESS E)
        (let data := default "" (conf (w_fs w1) n key) in if gjson_Valid data then DataRawJSON data else DataText data)) ∧
     ∀ rsp, x = Ok rsp → rsp_Headers rsp = setCustomConfigResponseHeaders)).
  - assert (∀ data, match r with Ok data => Some data | Err e => if errors_Is e ErrNotExist then Some "" else None end = Some data →
      default "" (conf (w_fs w1) n key) = data) as Hdata.
    { intros data. destruct r as [d|e]; [intros [= <-]; by destruct (Hok d eq_refl) as [-> _]|].
      destruct (errors_Is e ErrNotExist) eqn:He; [|done]. intros [= <-]. by rewrite (Hne e eq_refl He). }
    destruct (match r with Ok data => Some data | _ => _ end) as [data|].
    + rewrite (Hdata data eq_refl). destruct (gjson_Valid data) eqn:Hg; cbn [negb]; m_step; cbv zeta; rewrite ?Hg;
        (split_and!; [done|done|apply ctx_JSON_headers]).
    + m_step. split_and!; [done| |apply ctx_JSON_headers].
      intros Hs. by apply ctx_JSON_fails in Hs.
  - cbv beta. intros x w3 (-> & Hx & Hh). split; cbn [fst snd conf_effect]; try done.
    + apply Hf.
    + by rewrite <- Hmod.
    + by intros ? ? _ _ _.

Qed.

Lemma servePost_spec w : alone w → tree (w_fs w) → post (serveConf ConfPost) w (served ConfPost w).
Proof using n_int by_value Hn success_code publish_quiet.
  intros Hw Ht. destruct success_code as (Hc1 & Hc2 & Hc3). unfold serveConf, PostUserCustomConf.
  change (param ctx "key") with key. change (header_user_id ctx) with (Itoa (sc_UserID claims)). rewrite Hn.
  change (match cx_Request ctx with Some r => rq_Body r | None => "" end) with body.
  conf_gate (served ConfPost) w1 Hc Hd Hkey Hu.
  destruct broken; [m_step; apply served_refused; [done|eauto with store|done|by apply ctx_JSON_fails|apply ctx_JSON_headers]|].
  destruct (N.ltb_spec MaxConfigBytes (len body)) as [Hlt|Hle].
  { m_step. apply served_refused; [done|eauto with store|done| |by intros ? [= <-]].
    intros (rsp & [= <-] & Hs). by apply Hc3. }
  m_step. eapply post_mono; [apply (Write_spec euid UserDataPath n key body w1); [done|done|lia]|].
  cbv beta. intros r w2 [(Hr & Hd2 & (Ht2 & Hex & Hrep) & Hok & _) _].
  destruct r as [e|].
  { m_step. split; cbn [fst snd conf_effect]; try done; try apply ctx_JSON_headers. split; [done|]. intros Hs. by apply ctx_JSON_fails in Hs. }
  destruct (Hok eq_refl) as (_ & _ & Hnew & _). m_step.
  apply (post_mono _ _ (λ p w3, w_db w3 = w_db w2 ∧ w_fs w3 = w_fs w2 ∧ (p = None ∨ p = Some body ∧ key = "system" ∧ w3 = snd (publish body w2)))).
  - destruct (bool_decide_reflect (key = "system")) as [Hk|]; [|m_step; eauto].
    m_step. pose proof (publish_quiet body w2 (runs_alone _ _ Hr)) as Hq. unfold post in *. destruct (publish body w2) as [[] w3] eqn:Ep.
    cbn [fst snd mret] in *. destruct Hq as (_ & Hf3 & Hd3). split_and!; [done|done|]. right. done.
  - cbv beta. intros p w3 (Hd3 & Hf3 & Hp). m_step.
    split; cbn [fst snd conf_effect]; rewrite ?Hf3, ?Hd3; try done; try apply ctx_JSON_headers.
    intros data ->. destruct Hp as [[=]|([= ->] & Hk & Hw3)]. split_and!; try done. by exists w2.
Qed.

Lemma serveDelete_spec w : alone w → tree (w_fs w) → post (serveConf ConfDelete) w (served ConfDelete w).
Proof using n_int by_value Hn success_code.
  intros Hw Ht. destruct success_code as (Hc1 & Hc2 & Hc3). unfold serveConf, DeleteUserCustomConf.
  change (param ctx "key") with key. change (header_user_id ctx) with (Itoa (sc_UserID claims)). rewrite Hn.
  apply post_quietly. conf_gate (λ w1 r w', served ConfDelete w1 (r, None) w') w1 Hc Hd Hkey Hu.
  m_step. eapply post_mono; [apply (Delete_spec euid UserDataPath n key w1); [done|done|lia]|].
  cbv beta. intros r w2 (Hf & Ht2 & Hex & Hrep & Hok & _).
  destruct r as [e|]; m_step; split; cbn [fst snd conf_effect]; try done; try apply Hf; try apply ctx_JSON_headers.
  - split; [done|]. intros Hs. by apply ctx_JSON_fails in Hs.
  - split; [done|]. intros _. destruct (Hok eq_refl) as (_ & _ & ? & ?). done.
Qed.
End Endpoints.

(** ** Properties *)

(** C28. The configuration endpoints serve the caller's own files and nothing else.
    For a request of user [n], reading, storing or deleting the key in the path:
    the database is untouched and the file of every other user and key is as it
    was; a successful read returns the stored bytes (the empty text when there are
    none, as text when they are not JSON) and changes nothing; a successful store
    has stored the whole body, within the limit, also when the message bus is not
    there or refuses the event; a successful deletion removed an
    existing file; a failed request has acted completely or not at all; nothing but
    a stored configuration of the key "system" is published, after it was stored; success needs a valid
    key and an existing account; and every response forbids caching and sniffing. *)
Theorem custom_conf_endpoints (E : CommonErr) (id_matches : string → Z → bool) (euid : Z) (UserDataPath : string)
    (gjson_Valid json_Valid : string → bool) (GetMessageBusAddress : string → M (res string)) (network : HttpRequestDoer)
    (StylePath : string → string → res string) (UnmarshalTime : string → option Z) (RuntimePath : string) (broken : bool)
    (request : Request) (claims : SessionClaims) (a : ConfAction) (w : World) :
  let n := sc_UserID claims in
  let publish := publishConfig GetMessageBusAddress network StylePath UnmarshalTime RuntimePath in
  (∀ p, quiet (GetMessageBusAddress p)) → (∀ r, quiet (network r)) →
  0 < n < 2 ^ 63 → (∀ m, id_matches (Itoa n) m = (n =? m)) →
  SUCCESS E ≠ CLIENT_ERROR E ∧ SUCCESS E ≠ SERVICE_ERROR E ∧ SUCCESS E ≠ StatusRequestEntityTooLarge →
  alone w → tree (w_fs w) →
  let run := serveConf E id_matches euid UserDataPath gjson_Valid json_Valid publish broken request claims a w in
  served E UserDataPath gjson_Valid json_Valid publish n request a w (fst run) (snd run).
Proof.
  intros n publish Hbus Hnet Hn Hv Hc Hw Ht run.
  assert (∀ data, quiet (publish data)) as Hq by (intros data; by apply publishConfig_quiet). destruct a.
  - exact (serveGet_spec E id_matches euid UserDataPath gjson_Valid json_Valid publish broken n Hn Hv request claims eq_refl Hc w Hw Ht).
  - exact (servePost_spec E id_matches euid UserDataPath gjson_Valid json_Valid publish broken Hq n Hn Hv request claims eq_refl Hc w Hw Ht).
  - exact (serveDelete_spec E id_matches euid UserDataPath gjson_Valid json_Valid publish broken n Hn Hv request claims eq_refl Hc w Hw Ht).
Qed.

Definition bobSystem : Request :=
  mkRequest 1 [] "" (λ p, if bool_decide (p = "key") then "system" else "") (λ _, "") "{}".
Definition bobFiles : World := w_set_fs varLib (quietWorld householdDatabase sixteen).

(** A bus without an address. *)
Abbreviation noAddress := (λ _ : string, mret (Err ErrNotExist) : M (res string)).
Abbreviation noBus := (publishConfig noAddress acceptingBus pathEscape (λ _, None) "/run").
Abbreviation bobPost := (serveConf sampleCodes decimal_id 0 "/var/lib" (λ _, true) (λ _, true) noBus false bobSystem bobClaims ConfPost bobFiles).

Lemma custom_conf_endpoints_witness :
  config "/var/lib" (w_fs (snd bobPost)) 8 "system" = Some "{}" ∧ snd (fst bobPost) = Some "{}".
Proof.
  destruct (custom_conf_endpoints sampleCodes decimal_id 0 "/var/lib" (λ _, true) (λ _, true) noAddress acceptingBus pathEscape
    (λ _, None) "/run" false bobSystem bobClaims ConfPost bobFiles) as [_ _ _ [_ H] _ _ _].
  - intros p. apply quiet_ret.
  - intros r. apply quiet_ret.
  - split; reflexivity.
  - apply eight_by_value.
  - split_and!; discriminate.
  - intros n. split; reflexivity.
  - exact varLib_tree.
  - split; [|vm_compute; reflexivity]. apply H. eexists. split; [vm_compute; reflexivity|reflexivity].
Defined.
