(* ===== verification/BusServer.v ===== *)
(** * The server side of the message bus (src/codegen/message_bus/api.go)

    The generated wrappers that bind the parameters of a request and call the
    implementation, and the routes they are registered at; and that the generated
    client and the generated server agree: the request the client builds for an
    operation is routed to that operation, with the parameters, in the path and in the
    query, the client was given. *)

From stdpp Require Import prelude strings gmap.
From Stdlib Require Import ZArith Lia Ascii.
From S2P Require Import Prelude GoStrings Routes FileSystem Store Urls UrlRefs Codegen Json Marshal Wire BusTypes Gateway BusClient.

Local Open Scope string_scope.
Local Open Scope list_scope.
Local Open Scope m_scope.

(** ** The interface of the implementation *)

(** [ServerInterface]: the method that is called and its arguments. *)
Inductive Invocation :=
| on_SubscribeActionWS (sourceId : string) (names : option (list string))
| on_TriggerAction (sourceId name : string)
| on_GetActionTypes
| on_RegisterActionTypes
| on_GetActionTypesBySourceID (sourceId : string)
| on_GetActionType (sourceId name : string)
| on_SubscribeEventWS (sourceId : string) (names : option (list string))
| on_PublishEvent (sourceId name : string)
| on_GetEventTypes
| on_RegisterEventTypes
| on_GetEventTypesBySourceID (sourceId : string)
| on_GetEventType (sourceId name : string)
| on_SubscribeSIO
| on_PollSIO
| on_SubscribeSIO2
| on_PollSIO2
| on_GetYskCard
| on_DeleteYskCard (id : string).

(** The wrappers, as the routes name them. *)
Inductive Operation :=
| op_SubscribeActionWS | op_TriggerAction | op_GetActionTypes | op_RegisterActionTypes | op_GetActionTypesBySourceID | op_GetActionType | op_SubscribeEventWS | op_PublishEvent | op_GetEventTypes | op_RegisterEventTypes | op_GetEventTypesBySourceID | op_GetEventType | op_SubscribeSIO | op_PollSIO | op_SubscribeSIO2 | op_PollSIO2 | op_GetYskCard | op_DeleteYskCard.

Section Wrappers.
(** [runtime.BindStyledParameterWithOptions] of a text in the path, with whether it is
    unescaped already, and [runtime.BindQueryParameterWithOptions] of an optional
    array. *)
Context (BindPath : string → string → bool → res string)
        (BindQuery : string → gmap string (list string) → res (option (list string))).
Context {A : Type} (Handler : Invocation → M A).

Abbreviation path := (bindPath BindPath).
Abbreviation names_of ctx := (bindQuery BindQuery ctx "names").
Abbreviation invoke i := (callback (Handler i)).

Definition wrap_SubscribeActionWS (ctx : EchoContext) : M (Answer A) :=
  path ctx "source_id" (λ sourceId, names_of ctx (λ names, invoke (on_SubscribeActionWS sourceId names))).

Definition wrap_TriggerAction (ctx : EchoContext) : M (Answer A) :=
  path ctx "source_id" (λ sourceId, path ctx "name" (λ name, invoke (on_TriggerAction sourceId name))).

Definition wrap_GetActionTypes (ctx : EchoContext) : M (Answer A) :=
  invoke on_GetActionTypes.

Definition wrap_RegisterActionTypes (ctx : EchoContext) : M (Answer A) :=
  invoke on_RegisterActionTypes.

Definition wrap_GetActionTypesBySourceID (ctx : EchoContext) : M (Answer A) :=
  path ctx "source_id" (λ sourceId, invoke (on_GetActionTypesBySourceID sourceId)).

Definition wrap_GetActionType (ctx : EchoContext) : M (Answer A) :=
  path ctx "source_id" (λ sourceId, path ctx "name" (λ name, invoke (on_GetActionType sourceId name))).

Definition wrap_SubscribeEventWS (ctx : EchoContext) : M (Answer A) :=
  path ctx "source_id" (λ sourceId, names_of ctx (λ names, invoke (on_SubscribeEventWS sourceId names))).

Definition wrap_PublishEvent (ctx : EchoContext) : M (Answer A) :=
  path ctx "source_id" (λ sourceId, path ctx "name" (λ name, invoke (on_PublishEvent sourceId name))).

Definition wrap_GetEventTypes (ctx : EchoContext) : M (Answer A) :=
  invoke on_GetEventTypes.

Definition wrap_RegisterEventTypes (ctx : EchoContext) : M (Answer A) :=
  invoke on_RegisterEventTypes.

Definition wrap_GetEventTypesBySourceID (ctx : EchoContext) : M (Answer A) :=
  path ctx "source_id" (λ sourceId, invoke (on_GetEventTypesBySourceID sourceId)).

Definition wrap_GetEventType (ctx : EchoContext) : M (Answer A) :=
  path ctx "source_id" (λ sourceId, path ctx "name" (λ name, invoke (on_GetEventType sourceId name))).

Definition wrap_SubscribeSIO (ctx : EchoContext) : M (Answer A) :=
  invoke on_SubscribeSIO.

Definition wrap_PollSIO (ctx : EchoContext) : M (Answer A) :=
  invoke on_PollSIO.

Definition wrap_SubscribeSIO2 (ctx : EchoContext) : M (Answer A) :=
  invoke on_SubscribeSIO2.

Definition wrap_PollSIO2 (ctx : EchoContext) : M (Answer A) :=
  invoke on_PollSIO2.

Definition wrap_GetYskCard (ctx : EchoContext) : M (Answer A) :=
  invoke on_GetYskCard.

Definition wrap_DeleteYskCard (ctx : EchoContext) : M (Answer A) :=
  path ctx "id" (λ id, invoke (on_DeleteYskCard id)).

Definition wrapper (op : Operation) : EchoContext → M (Answer A) :=
  match op with
  | op_SubscribeActionWS => wrap_SubscribeActionWS
  | op_TriggerAction => wrap_TriggerAction
  | op_GetActionTypes => wrap_GetActionTypes
  | op_RegisterActionTypes => wrap_RegisterActionTypes
  | op_GetActionTypesBySourceID => wrap_GetActionTypesBySourceID
  | op_GetActionType => wrap_GetActionType
  | op_SubscribeEventWS => wrap_SubscribeEventWS
  | op_PublishEvent => wrap_PublishEvent
  | op_GetEventTypes => wrap_GetEventTypes
  | op_RegisterEventTypes => wrap_RegisterEventTypes
  | op_GetEventTypesBySourceID => wrap_GetEventTypesBySourceID
  | op_GetEventType => wrap_GetEventType
  | op_SubscribeSIO => wrap_SubscribeSIO
  | op_PollSIO => wrap_PollSIO
  | op_SubscribeSIO2 => wrap_SubscribeSIO2
  | op_PollSIO2 => wrap_PollSIO2
  | op_GetYskCard => wrap_GetYskCard
  | op_DeleteYskCard => wrap_DeleteYskCard
  end.
End Wrappers.

(** ** The routes *)

Section Register.
Context {Middleware : Type}.

Definition RegisterHandlersWithOptions (options : RegisterHandlersOptions Middleware) : list (Route (Operation * list Middleware)) :=
  registerAt options <$>
  [("GET", "/event_type", op_GetEventTypes, "getEventTypes");
   ("POST", "/event_type", op_RegisterEventTypes, "RegisterEventTypes");
   ("GET", "/event_type/:source_id", op_GetEventTypesBySourceID, "getEventTypesBySourceID");
   ("GET", "/event_type/:source_id/:name", op_GetEventType, "getEventType");
   ("POST", "/event/:source_id/:name", op_PublishEvent, "publishEvent");
   ("GET", "/event/:source_id", op_SubscribeEventWS, "subscribeEventWS");
   ("GET", "/action_type", op_GetActionTypes, "getActionTypes");
   ("POST", "/action_type", op_RegisterActionTypes, "RegisterActionTypes");
   ("GET", "/action_type/:source_id", op_GetActionTypesBySourceID, "getActionTypesBySourceID");
   ("GET", "/action_type/:source_id/:name", op_GetActionType, "getActionType");
   ("POST", "/action/:source_id/:name", op_TriggerAction, "triggerAction");
   ("GET", "/action/:source_id", op_SubscribeActionWS, "subscribeActionWS");
   ("GET", "/socket.io", op_SubscribeSIO, "subscribeSIO");
   ("POST", "/socket.io", op_PollSIO, "pollSIO");
   ("GET", "/socket.io/", op_SubscribeSIO2, "subscribeSIO2");
   ("POST", "/socket.io/", op_PollSIO2, "pollSIO2");
   ("GET", "/ysk", op_GetYskCard, "getYskCard");
   ("DELETE", "/ysk/:id", op_DeleteYskCard, "deleteYskCard")].

Definition RegisterHandlersWithBaseURL (baseURL : string) : list (Route (Operation * list Middleware)) :=
  RegisterHandlersWithOptions (mkOptions baseURL ∅).

Definition RegisterHandlers : list (Route (Operation * list Middleware)) := RegisterHandlersWithOptions (mkOptions "" ∅).
End Register.

(** ** Serving a request *)

Section Serve.
Context (BindPath : string → string → bool → res string)
        (BindQuery : string → gmap string (list string) → res (option (list string))).
Context {Middleware A : Type} (Handler : Invocation → M A).
Context (Find : list (Route (Operation * list Middleware)) → string → string → option (Route (Operation * list Middleware))).

(** A request to a server whose operations have no middleware of their own; [None]
    when no route fits. *)
Definition serveBus (baseURL : string) (req : HttpRequest) : M (option (Answer A)) :=
  let u := arrived (rq_URL req) in
  match Find (RegisterHandlersWithBaseURL baseURL) (rq_Method req) (routedPath u) with
  | None => mret None
  | Some r =>
     answer <- wrapper BindPath BindQuery Handler (rt_Target r).1
                 (contextOf r u);;
     mret (Some answer)
  end.
End Serve.

(** ** The calls of the client *)

(** An operation of the client with its arguments; those that take a body take it as
    a value of the API, or written already with its content type. *)
Inductive Call :=
| do_SubscribeActionWS (sourceId : string) (params : option (option (list string)))
| do_TriggerActionWithBody (sourceId name contentType : string) (body : option string)
| do_TriggerAction (sourceId name : string) (body : stringMap)
| do_GetActionTypes
| do_RegisterActionTypesWithBody (contentType : string) (body : option string)
| do_RegisterActionTypes (body : goslice ActionType)
| do_GetActionTypesBySourceID (sourceId : string)
| do_GetActionType (sourceId name : string)
| do_SubscribeEventWS (sourceId : string) (params : option (option (list string)))
| do_PublishEventWithBody (sourceId name contentType : string) (body : option string)
| do_PublishEvent (sourceId name : string) (body : stringMap)
| do_GetEventTypes
| do_RegisterEventTypesWithBody (contentType : string) (body : option string)
| do_RegisterEventTypes (body : goslice EventType)
| do_GetEventTypesBySourceID (sourceId : string)
| do_GetEventType (sourceId name : string)
| do_SubscribeSIO
| do_PollSIO
| do_SubscribeSIO2
| do_PollSIO2
| do_GetYskCard
| do_DeleteYskCard (id : string).

(** The request the client builds. *)
Definition requestOf (StylePath : string → string → res string) (StyleQuery : string → list string → res string)
    (server : string) (c : Call) : res HttpRequest :=
  match c with
  | do_SubscribeActionWS sourceId params => NewSubscribeActionWSRequest StylePath StyleQuery server sourceId params
  | do_TriggerActionWithBody sourceId name contentType body => NewTriggerActionRequestWithBody StylePath server sourceId name contentType body
  | do_TriggerAction sourceId name body => NewTriggerActionRequest StylePath server sourceId name body
  | do_GetActionTypes => NewGetActionTypesRequest server
  | do_RegisterActionTypesWithBody contentType body => NewRegisterActionTypesRequestWithBody server contentType body
  | do_RegisterActionTypes body => NewRegisterActionTypesRequest server body
  | do_GetActionTypesBySourceID sourceId => NewGetActionTypesBySourceIDRequest StylePath server sourceId
  | do_GetActionType sourceId name => NewGetActionTypeRequest StylePath server sourceId name
  | do_SubscribeEventWS sourceId params => NewSubscribeEventWSRequest StylePath StyleQuery server sourceId params
  | do_PublishEventWithBody sourceId name contentType body => NewPublishEventRequestWithBody StylePath server sourceId name contentType body
  | do_PublishEvent sourceId name body => NewPublishEventRequest StylePath server sourceId name body
  | do_GetEventTypes => NewGetEventTypesRequest server
  | do_RegisterEventTypesWithBody contentType body => NewRegisterEventTypesRequestWithBody server contentType body
  | do_RegisterEventTypes body => NewRegisterEventTypesRequest server body
  | do_GetEventTypesBySourceID sourceId => NewGetEventTypesBySourceIDRequest StylePath server sourceId
  | do_GetEventType sourceId name => NewGetEventTypeRequest StylePath server sourceId name
  | do_SubscribeSIO => NewSubscribeSIORequest server
  | do_PollSIO => NewPollSIORequest server
  | do_SubscribeSIO2 => NewSubscribeSIO2Request server
  | do_PollSIO2 => NewPollSIO2Request server
  | do_GetYskCard => NewGetYskCardRequest server
  | do_DeleteYskCard id => NewDeleteYskCardRequest StylePath server id
  end.

(** The call the implementation of the server should see. *)
Definition invocationOf (c : Call) : Invocation :=
  match c with
  | do_SubscribeActionWS sourceId params => on_SubscribeActionWS sourceId (mjoin params)
  | do_TriggerActionWithBody sourceId name _ _ | do_TriggerAction sourceId name _ => on_TriggerAction sourceId name
  | do_GetActionTypes => on_GetActionTypes
  | do_RegisterActionTypesWithBody _ _ | do_RegisterActionTypes _ => on_RegisterActionTypes
  | do_GetActionTypesBySourceID sourceId => on_GetActionTypesBySourceID sourceId
  | do_GetActionType sourceId name => on_GetActionType sourceId name
  | do_SubscribeEventWS sourceId params => on_SubscribeEventWS sourceId (mjoin params)
  | do_PublishEventWithBody sourceId name _ _ | do_PublishEvent sourceId name _ => on_PublishEvent sourceId name
  | do_GetEventTypes => on_GetEventTypes
  | do_RegisterEventTypesWithBody _ _ | do_RegisterEventTypes _ => on_RegisterEventTypes
  | do_GetEventTypesBySourceID sourceId => on_GetEventTypesBySourceID sourceId
  | do_GetEventType sourceId name => on_GetEventType sourceId name
  | do_SubscribeSIO => on_SubscribeSIO
  | do_PollSIO => on_PollSIO
  | do_SubscribeSIO2 => on_SubscribeSIO2
  | do_PollSIO2 => on_PollSIO2
  | do_GetYskCard => on_GetYskCard
  | do_DeleteYskCard id => on_DeleteYskCard id
  end.

(** Its parameters in the path. *)
Definition pathArguments (c : Call) : list string :=
  match c with
  | do_SubscribeActionWS s _ | do_GetActionTypesBySourceID s | do_SubscribeEventWS s _ | do_GetEventTypesBySourceID s
  | do_DeleteYskCard s => [s]
  | do_TriggerActionWithBody s n _ _ | do_TriggerAction s n _ | do_GetActionType s n
  | do_PublishEventWithBody s n _ _ | do_PublishEvent s n _ | do_GetEventType s n => [s; n]
  | _ => []
  end.

(** Its names in the query. *)
Definition nameArguments (c : Call) : option (list string) :=
  match c with do_SubscribeActionWS _ params | do_SubscribeEventWS _ params => mjoin params | _ => None end.

(** The body that goes with it, and its content type. *)
Definition bodyOf (c : Call) : option string :=
  match c with
  | do_TriggerActionWithBody _ _ _ body | do_RegisterActionTypesWithBody _ body
  | do_PublishEventWithBody _ _ _ body | do_RegisterEventTypesWithBody _ body => body
  | do_TriggerAction _ _ body | do_PublishEvent _ _ body => Some (marshal body)
  | do_RegisterActionTypes body => Some (marshal body)
  | do_RegisterEventTypes body => Some (marshal body)
  | _ => None
  end.

Definition contentTypeOf (c : Call) : option string :=
  match c with
  | do_TriggerActionWithBody _ _ contentType _ | do_RegisterActionTypesWithBody contentType _
  | do_PublishEventWithBody _ _ contentType _ | do_RegisterEventTypesWithBody contentType _ => Some contentType
  | do_TriggerAction _ _ _ | do_PublishEvent _ _ _ | do_RegisterActionTypes _ | do_RegisterEventTypes _ => Some "application/json"
  | _ => None
  end.

(** The calls that are meant: parameters in the path are not empty and no dot
    elements, and the names, if given, are not none and not more than a query holds. *)
Record callable (c : Call) : Prop := {
  call_path : Forall (λ v, v ≠ "" ∧ isDot v = false) (pathArguments c);
  call_names names : nameArguments c = Some names → names ≠ [] ∧ (length names ≤ maxQueryParams)%nat;
}.

(** ** What is relied on of the runtime package *)

(** An array in the form style, exploded: a pair for each element. *)
Definition formQuery (name : string) (values : list string) : string :=
  join_with "&" ((λ v, name +:+ "=" +:+ QueryEscape v) <$> values).

(** Parameters in the path are written and bound as the classes of Codegen.v say; an
    array in the query is written in the form style, exploded, and bound to the values
    the query has under its name, an absent one to none. *)
Class ParameterSpec (StylePath : string → string → res string) (StyleQuery : string → list string → res string)
    (BindPath : string → string → bool → res string)
    (BindQuery : string → gmap string (list string) → res (option (list string))) : Prop := {
  #[global] styles_path :: StylesPath StylePath;
  #[global] bind_path :: BindsPath id BindPath;
  style_query name values : values ≠ [] → StyleQuery name values = Ok (formQuery name values);
  bind_query name values : values !! name ≠ Some [] → BindQuery name values = Ok (values !! name);
}.

(** ** Segments *)

Lemma split_segments (l : list string) : l ≠ [] → Forall (λ s, contains_byte "/" s = false) l → split_on "/" (join_with "/" l) = l.
Proof. intros Hne H. by apply split_join. Qed.

(** Escaping neither adds nor removes a slash. *)
Lemma count_byte_app c s t : count_byte c (s +:+ t) = (count_byte c s + count_byte c t)%nat.
Proof. induction s as [|a s IH]; [done|]. cbn [String.append count_byte]. rewrite IH. destruct (bool_decide _); lia. Qed.

Lemma count_slash_escape s : count_byte "/" (Urls.escape encodePath s) = count_byte "/" s.
Proof.
  induction s as [|a s IH]; [done|]. cbn [Urls.escape]. rewrite count_byte_app, IH. cbn [count_byte].
  by destruct a as [[] [] [] [] [] [] [] []].
Qed.

Lemma count_byte_none c s : contains_byte c s = false ↔ count_byte c s = 0%nat.
Proof.
  induction s as [|a s IH]; [done|]. cbn [contains_byte count_byte]. rewrite orb_false_iff, IH.
  destruct (bool_decide (_ = _)); naive_solver lia.
Qed.

Lemma count_join c l : count_byte c (join_with c l) = (length l - 1 + sum_list (count_byte c <$> l))%nat.
Proof.
  induction l as [|p l IH]; [done|]. destruct l as [|q l]; [simpl; lia|]. rewrite join_cons, count_byte_app.
  cbn [count_byte]. rewrite bool_decide_eq_true_2 by done. rewrite IH. simpl. lia.
Qed.

Lemma sum_zero (l : list nat) : sum_list l = 0%nat → Forall (λ n, n = 0%nat) l.
Proof. induction l as [|n l IH]; [constructor|]. simpl. intros H. constructor; [lia|]. apply IH. lia. Qed.

(** ** Names in the query *)

(** A query component reads back, and needs no further escape. *)
Lemma QueryUnescape_percent a s : QueryUnescape (percent a +:+ s) = String a <$> QueryUnescape s.
Proof. by destruct a as [[] [] [] [] [] [] [] []]. Qed.

Lemma QueryUnescape_escape s : QueryUnescape (QueryEscape s) = Some s.
Proof.
  induction s as [|a s IH]; [done|]. cbn [QueryEscape]. case_bool_decide as Hsp; [subst a|destruct (shouldEscape _ a) eqn:Ha].
  - unfold QueryUnescape in *. cbn [map_bytes String.append]. simpl. by rewrite IH.
  - by rewrite QueryUnescape_percent, IH.
  - assert (plus_space a = a) as Hplus by (unfold plus_space; by rewrite bool_decide_eq_false_2 by (by intros ->)).
    unfold QueryUnescape in *. cbn [map_bytes String.append]. rewrite Hplus. cbn [unescape]. rewrite bool_decide_eq_false_2 by (by intros ->).
    cbn [literal]. by rewrite IH.
Qed.

Definition queryPlain (a : ascii) : bool := queryByte a && negb (contains_byte a "&;").

Lemma QueryEscape_plain s : all_bytes queryPlain (QueryEscape s) = true.
Proof.
  induction s as [|a s IH]; [done|]. cbn [QueryEscape]. rewrite all_bytes_app, IH.
  by destruct a as [[] [] [] [] [] [] [] []].
Qed.

Lemma queryPlain_absent c s : contains_byte c "&;" = true → all_bytes queryPlain s = true → contains_byte c s = false.
Proof. intros Hc. apply all_bytes_no_byte. unfold queryPlain. by rewrite Hc, andb_false_r. Qed.

Section Form.
Context (name : string) (plain : all_bytes queryPlain name = true) (one : contains_byte "=" name = false)
        (literal_name : QueryUnescape name = Some name).

Lemma pair_plain v : all_bytes queryPlain (name +:+ "=" +:+ QueryEscape v) = true.
Proof using plain. by rewrite !all_bytes_app, plain, QueryEscape_plain. Qed.

Lemma addValue_pair values v : addValue values (name +:+ "=" +:+ QueryEscape v) = <[name := default [] (values !! name) ++ [v]]> values.
Proof using plain one literal_name.
  unfold addValue. rewrite (queryPlain_absent ";") by (done || apply pair_plain).
  rewrite bool_decide_eq_false_2 by (by destruct name). cbn [orb]. unfold cut_or.
  change (name +:+ "=" +:+ QueryEscape v) with (name +:+ String "=" (QueryEscape v)). rewrite cut_app by done.
  simpl default. unfold id. by rewrite literal_name, QueryUnescape_escape.
Qed.

Lemma addValues_pairs vs values : vs ≠ [] →
  foldl addValue values ((λ v, name +:+ "=" +:+ QueryEscape v) <$> vs) = <[name := default [] (values !! name) ++ vs]> values.
Proof using plain one literal_name.
  revert values. induction vs as [|v vs IH]; [done|]. intros values _. cbn [fmap list_fmap foldl]. rewrite addValue_pair.
  destruct vs as [|v' vs]; [done|]. change (list_fmap _ _ _ (v' :: vs)) with ((λ v, name +:+ "=" +:+ QueryEscape v) <$> (v' :: vs)).
  rewrite IH by done. rewrite lookup_insert_eq, insert_insert_eq. simpl default. unfold id. by rewrite <- app_assoc.
Qed.

Lemma formQuery_bytes vs : all_bytes queryByte (formQuery name vs) = true.
Proof using plain.
  unfold formQuery. induction vs as [|v vs IH]; [done|].
  assert (all_bytes queryByte (name +:+ "=" +:+ QueryEscape v) = true) as Hv
    by (apply (all_bytes_mono queryPlain); [by intros a [? _]%andb_prop|apply pair_plain]).
  rewrite fmap_cons. destruct vs as [|v' vs]; [done|]. rewrite fmap_cons, join_cons, all_bytes_app, Hv. exact IH.
Qed.

(** What is written in the form style is read back as it was. *)
Lemma Query_form vs : vs ≠ [] → (length vs ≤ maxQueryParams)%nat → Query (formQuery name vs) = {[name := vs]}.
Proof using plain one literal_name.
  intros Hne Hlen. assert (Forall (λ p, contains_byte "&" p = false) ((λ v, name +:+ "=" +:+ QueryEscape v) <$> vs)) as Hf.
  { rewrite Forall_fmap. apply Forall_true. intros v. apply queryPlain_absent; [done|apply pair_plain]. }
  unfold Query, formQuery. rewrite split_join by (done || by destruct vs). rewrite addValues_pairs by done.
  assert (sum_list (count_byte "&" <$> ((λ v, name +:+ "=" +:+ QueryEscape v) <$> vs)) = 0%nat) as H0.
  { clear -Hf. induction Hf as [|p l Hp _ IH]; [done|]. apply count_byte_none in Hp. rewrite fmap_cons. simpl. lia. }
  rewrite count_join, H0, length_fmap. destruct (Nat.ltb_spec maxQueryParams (length vs - 1 + 0 + 1)); [|done].
  destruct vs; [done|]. simpl in *. lia.
Qed.
End Form.

Section Routed.
Context (sch host prefix : string) (base : plainBase sch host prefix) (literal_prefix : unescape encodePath prefix = Some prefix).

(** Echo sees the segments as they were written, with a raw path, or what they stand
    for, without one; in that case none of them holds a slash. *)
Lemma routed_segments s segs q : Forall segment (s :: segs) →
  let u := arrived (queryURL sch host (prefix +:+ "/" +:+ join_with "/" (s :: segs).*1) (prefix +:+ "/" +:+ join_with "/" (s :: segs).*2) q) in
  RawQuery u = q ∧
  (RawPath u = "" ∧ split_on "/" (routedPath u) = split_on "/" prefix ++ (s :: segs).*2 ∨
   RawPath u ≠ "" ∧ split_on "/" (routedPath u) = split_on "/" prefix ++ (s :: segs).*1).
Proof using base literal_prefix.
  intros Hl u. destruct (segments_path s segs Hl) as [Hp Hd].
  set (ws := join_with "/" (s :: segs).*1) in *. set (vs := join_with "/" (s :: segs).*2) in *.
  assert (unescape encodePath (prefix +:+ "/" +:+ ws) = Some (prefix +:+ "/" +:+ vs)) as Hfull
    by (apply unescape_app; [done|by apply unescape_slash]).
  assert (EscapedPath (queryURL sch host (prefix +:+ "/" +:+ ws) (prefix +:+ "/" +:+ vs) q) = prefix +:+ "/" +:+ ws) as Hesc.
  { apply EscapedPath_written; [done|done|apply plainPath_join; [apply base|done]|].
    cbn [Path queryURL]. destruct (pb_prefix _ _ _ base) as [->|[t ->]%has_prefix_spec]; done. }
  unfold u, arrived. rewrite Hesc. unfold setPath. rewrite Hfull. cbn [RawQuery RawPath].
  split; [done|]. unfold routedPath. cbn [RawPath Path]. unfold rawOf.
  destruct (bool_decide_reflect (prefix +:+ "/" +:+ ws = Urls.escape encodePath (prefix +:+ "/" +:+ vs))) as [E|E].
  - left. split; [done|]. rewrite (bool_decide_eq_true_2 ("" = "")) by done. rewrite split_slash. f_equal. unfold vs.
    apply split_segments; [done|]. apply (f_equal (count_byte "/")) in E. rewrite count_slash_escape, !count_byte_app in E.
    unfold ws, vs in E. rewrite !count_join, !length_fmap in E.
    assert (sum_list (count_byte "/" <$> (s :: segs).*1) = 0%nat) as H0.
    { clear -Hl. induction Hl as [|x l (_ & Hx & _) _ IH]; [done|]. apply count_byte_none in Hx.
      rewrite !fmap_cons. change (count_byte "/" x.1 + sum_list (count_byte "/" <$> l.*1) = 0)%nat. lia. }
    assert (sum_list (count_byte "/" <$> (s :: segs).*2) = 0%nat) as H1 by lia.
    apply sum_zero in H1. rewrite Forall_fmap in H1. eapply Forall_impl; [exact H1|]. intros x Hx. by apply count_byte_none.
  - right. assert (prefix +:+ "/" +:+ ws ≠ "") as Hne by (by destruct prefix). split; [done|].
    rewrite bool_decide_eq_false_2 by done. rewrite split_slash. f_equal. unfold ws. apply split_segments; [done|].
    rewrite Forall_fmap. eapply Forall_impl; [exact Hl|]. by intros x (_ & ? & _).
Qed.
End Routed.

(** ** Client and server agree *)

(** The routes behind the base URL. *)
Definition table : list (string * string * Operation) :=
  [("GET", "event_type", op_GetEventTypes);
   ("POST", "event_type", op_RegisterEventTypes);
   ("GET", "event_type/:source_id", op_GetEventTypesBySourceID);
   ("GET", "event_type/:source_id/:name", op_GetEventType);
   ("POST", "event/:source_id/:name", op_PublishEvent);
   ("GET", "event/:source_id", op_SubscribeEventWS);
   ("GET", "action_type", op_GetActionTypes);
   ("POST", "action_type", op_RegisterActionTypes);
   ("GET", "action_type/:source_id", op_GetActionTypesBySourceID);
   ("GET", "action_type/:source_id/:name", op_GetActionType);
   ("POST", "action/:source_id/:name", op_TriggerAction);
   ("GET", "action/:source_id", op_SubscribeActionWS);
   ("GET", "socket.io", op_SubscribeSIO);
   ("POST", "socket.io", op_PollSIO);
   ("GET", "socket.io/", op_SubscribeSIO2);
   ("POST", "socket.io/", op_PollSIO2);
   ("GET", "ysk", op_GetYskCard);
   ("DELETE", "ysk/:id", op_DeleteYskCard)].

Lemma registered_table {Middleware} prefix : @RegisterHandlersWithBaseURL Middleware prefix = behind_base prefix <$> table.
Proof. done. Qed.

Section Agreement.
Context (sch host prefix : string) (base : plainBase sch host prefix) (port : trim_suffix ":" host = host).
Context (literal_prefix : unescape encodePath prefix = Some prefix)
        (no_parameters : Forall (λ s, has_prefix ":" s = false) (split_on "/" prefix)).
Context (StylePath : string → string → res string) (StyleQuery : string → list string → res string)
        (BindPath : string → string → bool → res string)
        (BindQuery : string → gmap string (list string) → res (option (list string)))
        `{!ParameterSpec StylePath StyleQuery BindPath BindQuery}.
Context {Middleware A : Type} (Handler : Invocation → M A)
        (Find : list (Route (Operation * list Middleware)) → string → string → option (Route (Operation * list Middleware)))
        `{!RouterSpec Find}.

Abbreviation url segs q := (queryURL sch host (prefix +:+ "/" +:+ join_with "/" segs.*1) (prefix +:+ "/" +:+ join_with "/" segs.*2) q).

(** The segments a wrapper may be given: as they were written, or what they stand
    for; with the values of the query [q]. *)
Definition given (ctx : EchoContext) (pattern : string) (segs : list (string * string)) (q : string) : Prop :=
  ec_QueryParams ctx = Query q ∧
  ∃ xs, (∀ name, ec_Param ctx name = lookupParam pattern xs name) ∧
    (ec_RawPath ctx = "" ∧ xs = segs.*2 ∨ ec_RawPath ctx ≠ "" ∧ xs = segs.*1).

Lemma serve_segments t s segs q header body i w : Forall segment (s :: segs) →
  only table t (s :: segs).*1 → only table t (s :: segs).*2 →
  (∀ ctx, given ctx t.1.2 (s :: segs) q → wrapper BindPath BindQuery Handler t.2 ctx = callback (Handler i)) →
  serveBus BindPath BindQuery Handler Find prefix (mkHttpRequest t.1.1 (url (s :: segs) q) header body) w =
  (let (a, w') := Handler i w in (Some (Invoked a), w')).
Proof using base literal_prefix no_parameters RouterSpec0.
  intros Hl H1 H2 Hw. unfold serveBus. cbn [rq_URL rq_Method]. cbv zeta.
  destruct (routed_segments sch host prefix base literal_prefix s segs q Hl) as [Hq Hr]. set (u := arrived _) in *. clearbody u.
  assert (∃ xs, split_on "/" (routedPath u) = split_on "/" prefix ++ xs ∧ only table t xs ∧
            (RawPath u = "" ∧ xs = (s :: segs).*2 ∨ RawPath u ≠ "" ∧ xs = (s :: segs).*1)) as (xs & Hs & (Hin & Hfit & Honly) & Hraw).
  { destruct Hr as [[Hraw Hs]|[Hraw Hs]]; eauto 10. }
  destruct (find_behind Find prefix table t u xs no_parameters Hs (conj Hin (conj Hfit Honly))) as [Hfound Hparam].
  rewrite registered_table, Hfound. cbn [rt_Target behind_base fst]. rewrite Hw.
  - unfold callback, mbind. by destruct (Handler i w).
  - split; [unfold contextOf; cbn [ec_QueryParams]; by rewrite Hq|]. by exists xs.
Qed.

Lemma bound ctx pattern segs q name (next : string → M (Answer A)) w v : v ≠ "" → unescape encodePath w = Some v → given ctx pattern segs q →
  lookupParam pattern segs.*1 name = w → lookupParam pattern segs.*2 name = v →
  bindPath BindPath ctx name next = next v.
Proof using ParameterSpec0.
  intros Hv Hd (_ & xs & Hp & Hraw) Hw Hd'. apply (bindPath_bound id BindPath _ _ _ w v Hv Hd). rewrite Hp.
  destruct Hraw as [[E ->]|[E ->]]; [by left|by right].
Qed.

(** The query that carries the names [names], and how it is bound. *)
Definition carries (names : option (list string)) (q : string) : Prop :=
  match names with
  | None => q = ""
  | Some names => q = formQuery "names" names ∧ names ≠ [] ∧ (length names ≤ maxQueryParams)%nat
  end.

Lemma named ctx pattern segs q names (next : option (list string) → M (Answer A)) : given ctx pattern segs q → carries names q →
  bindQuery BindQuery ctx "names" next = next names.
Proof using ParameterSpec0.
  intros [Hq _] Hc. unfold bindQuery, bindParameter. rewrite Hq. destruct names as [names|].
  - destruct Hc as (-> & Hne & Hlen). rewrite Query_form by done. rewrite bind_query; rewrite lookup_singleton_eq; [done|]. by intros [= ->].
  - simpl in Hc. subst q. change (Query "") with (∅ : gmap string (list string)). by rewrite bind_query; rewrite lookup_empty.
Qed.

(** The request of a call reaches the server and there the operation [i]. *)
Definition reaches (r : res HttpRequest) (contentType body : option string) (i : Invocation) : Prop :=
  ∃ req, r = Ok req ∧ rq_Header req !! "Content-Type" = contentType ∧ rq_Body req = body ∧
    Scheme (rq_URL req) = sch ∧ Host (rq_URL req) = host ∧
    ∀ w, serveBus BindPath BindQuery Handler Find prefix req w = (let (a, w') := Handler i w in (Some (Invoked a), w')).

(** The ways a request is built from a path. *)
Inductive built (method p q : string) (contentType body : option string) : res HttpRequest → Prop :=
| built_bare : q = "" → contentType = None → built method p q contentType body (newRequest method (serverAt sch host prefix) p body)
| built_body c : q = "" → contentType = Some c →
    built method p q contentType body (newRequestWithBody method (serverAt sch host prefix) p c body)
| built_names params : method = "GET" → contentType = None → body = None → carries (mjoin params) q →
    built method p q contentType body (subscribe StyleQuery (serverAt sch host prefix) p params).

Lemma carries_subscribed params q : carries (mjoin params) q → subscribedQuery StyleQuery params q.
Proof using ParameterSpec0.
  unfold subscribedQuery. destruct (mjoin params) as [names|]; [|done]. intros (-> & Hne & _).
  split; [by apply style_query|by apply formQuery_bytes].
Qed.

Lemma reaches_operation t s segs q r contentType body i : built t.1.1 ("/" +:+ join_with "/" (s :: segs).*1) q contentType body r →
  Forall segment (s :: segs) → only table t (s :: segs).*1 → only table t (s :: segs).*2 →
  (∀ ctx, given ctx t.1.2 (s :: segs) q → wrapper BindPath BindQuery Handler t.2 ctx = callback (Handler i)) →
  reaches r contentType body i.
Proof using base port literal_prefix no_parameters ParameterSpec0 RouterSpec0.
  intros Hr Hl H1 H2 Hw. destruct (segments_path s segs Hl) as [Hp Hd].
  assert (unescape encodePath (prefix +:+ "/" +:+ join_with "/" (s :: segs).*1) = Some (prefix +:+ "/" +:+ join_with "/" (s :: segs).*2)) as Hfull
    by (apply unescape_app; [done|by apply unescape_slash]).
  assert (∃ header, r = Ok (mkHttpRequest t.1.1 (url (s :: segs) q) header body) ∧ header !! "Content-Type" = contentType) as (header & -> & Hh).
  { destruct Hr as [-> ->|c -> ->|params -> -> -> Hq].
    - rewrite (newRequest_behind sch host prefix base port _ _ _ _ Hp Hfull). eexists. split; [reflexivity|done].
    - rewrite (newRequestWithBody_behind sch host prefix base port _ _ _ _ _ Hp Hfull). eexists. split; [reflexivity|apply lookup_singleton_eq].
    - rewrite (subscribe_behind sch host prefix base port _ _ _ _ q Hp Hfull) by (by apply carries_subscribed).
      eexists. split; [reflexivity|done]. }
  eexists. split_and!; [reflexivity|done..|]. intros w. by apply (serve_segments t s segs).
Qed.

End Agreement.

(** ** Properties *)

(** A route is alone: computed from the table. *)
Ltac alone_done :=
  split; [apply list_elem_of_In; repeat (first [left; reflexivity|right])|split; [reflexivity|]];
  unfold table; repeat apply Forall_cons_2; try apply Forall_nil_2;
  let H := fresh in intros H; first [reflexivity|exfalso; vm_compute in H; discriminate H].

Ltac segments_done := repeat apply Forall_cons_2; try apply Forall_nil_2; try done; by repeat split.

(** Writes the parameter [v] of a call whose arguments are [H]. *)
Ltac style_next H :=
  lazymatch type of H with
  | Forall _ (?v :: _) =>
     let Hv := fresh "Hv" in let Hdot := fresh "Hdot" in
     apply Forall_cons in H as [[Hv Hdot] H];
     lazymatch goal with |- context [?sty ?name v] =>
       let w := fresh "w" in let Hw := fresh "Hw" in let Hseg := fresh "Hseg" in
       destruct (styled sty name v Hv Hdot) as (w & Hw & Hseg); rewrite Hw; cbn [res_bind]
     end
  end.

(** The wrapper binds what was written. *)
Ltac bound_all Hctx :=
  repeat match goal with
  | Hv : ?v ≠ "", Hseg : segment (?w, ?v) |- bindPath _ _ _ _ = _ =>
     erewrite (bound _ _ _ _ _ _ _ _ _ _ w v Hv); [|apply Hseg|exact Hctx|reflexivity|reflexivity]
  end;
  try (lazymatch goal with HP : ParameterSpec ?a ?b ?c ?d, Hq : carries _ _ |- bindQuery _ _ _ _ = _ =>
    erewrite (named a b c d); [|exact Hctx|exact Hq] end);
  reflexivity.

(** The requests without their names. *)
Ltac build := unfold NewDeleteYskCardRequest, NewGetActionTypeRequest, NewGetActionTypesBySourceIDRequest,
  NewGetActionTypesRequest, NewGetEventTypeRequest, NewGetEventTypesBySourceIDRequest, NewGetEventTypesRequest,
  NewGetYskCardRequest, NewPollSIO2Request, NewPollSIORequest, NewPublishEventRequest, NewPublishEventRequestWithBody,
  NewRegisterActionTypesRequest, NewRegisterActionTypesRequestWithBody, NewRegisterEventTypesRequest,
  NewRegisterEventTypesRequestWithBody, NewSubscribeActionWSRequest, NewSubscribeEventWSRequest,
  NewSubscribeSIO2Request, NewSubscribeSIORequest, NewTriggerActionRequest, NewTriggerActionRequestWithBody.

Ltac head_of t := lazymatch t with ?f _ => head_of f | _ => t end.

(** A call whose request is of the shape [Hgo] asks for. *)
Ltac agree_at Hgo t s segs q :=
  apply (Hgo t s segs q);
    [first [by apply built_bare|by eapply built_body|by apply built_names]
    |segments_done|alone_done|alone_done
    |let ctx := fresh "ctx" in let Hctx := fresh "Hctx" in intros ctx Hctx; cbn [fst snd wrapper] in *;
     lazymatch goal with |- ?call = _ => let f := head_of call in unfold f end; bound_all Hctx].

(** C35. The generated client and the generated server of the message bus agree. For
    a server with a plain base URL, every operation of the client, the variants that
    take a body as it is written included, builds a request; it goes to the server's
    host and carries the body and its content type; and a server with the generated
    routes at that base hands it to the implementation of this very operation, through
    no other wrapper, with the very parameters: those of the path, whatever bytes they
    hold as long as they are not empty and no dot elements, and the names of a
    subscription, absent or one to ten thousand of any bytes. *)
Theorem bus_agreement (sch host prefix : string) (StylePath : string → string → res string)
    (StyleQuery : string → list string → res string) (BindPath : string → string → bool → res string)
    (BindQuery : string → gmap string (list string) → res (option (list string))) {Middleware A : Type} (Handler : Invocation → M A)
    (Find : list (Route (Operation * list Middleware)) → string → string → option (Route (Operation * list Middleware))) (c : Call) :
  plainBase sch host prefix → trim_suffix ":" host = host → unescape encodePath prefix = Some prefix →
  Forall (λ s, has_prefix ":" s = false) (split_on "/" prefix) →
  ParameterSpec StylePath StyleQuery BindPath BindQuery → RouterSpec Find → callable c →
  reaches sch host prefix BindPath BindQuery Handler Find
    (requestOf StylePath StyleQuery (serverAt sch host prefix) c) (contentTypeOf c) (bodyOf c) (invocationOf c).
Proof.
  intros Hb Hport Hlit Hcolon HP HF [Hargs Hnames].
  pose proof (reaches_operation sch host prefix Hb Hport Hlit Hcolon StylePath StyleQuery BindPath BindQuery Handler Find) as Hgo.
  assert (∀ params, nameArguments c = mjoin params → ∃ q, carries (mjoin params) q) as Hq.
  { intros params E. rewrite E in Hnames. destruct (mjoin params) as [names|]; [|by eexists].
    eexists. split; [reflexivity|]. by apply Hnames. }
  destruct c as [src params|src nm ct body|src nm body| |ct body|body|src|src nm|src params|src nm ct body|src nm body| |ct body|body|src|src nm| | | | | |id];
    cbn [pathArguments] in Hargs; cbn [requestOf bodyOf contentTypeOf invocationOf]; build.
  - style_next Hargs. destruct (Hq params eq_refl) as [q Hc].
    agree_at Hgo ("GET", "action/:source_id", op_SubscribeActionWS) (static "action") ([(w, src)] : list (string * string)) q.
  - style_next Hargs. style_next Hargs. agree_at Hgo ("POST", "action/:source_id/:name", op_TriggerAction) (static "action") ([(w, src); (w0, nm)] : list (string * string)) "".
  - style_next Hargs. style_next Hargs. agree_at Hgo ("POST", "action/:source_id/:name", op_TriggerAction) (static "action") ([(w, src); (w0, nm)] : list (string * string)) "".
  - agree_at Hgo ("GET", "action_type", op_GetActionTypes) (static "action_type") ([] : list (string * string)) "".
  - agree_at Hgo ("POST", "action_type", op_RegisterActionTypes) (static "action_type") ([] : list (string * string)) "".
  - agree_at Hgo ("POST", "action_type", op_RegisterActionTypes) (static "action_type") ([] : list (string * string)) "".
  - style_next Hargs. agree_at Hgo ("GET", "action_type/:source_id", op_GetActionTypesBySourceID) (static "action_type") ([(w, src)] : list (string * string)) "".
  - style_next Hargs. style_next Hargs. agree_at Hgo ("GET", "action_type/:source_id/:name", op_GetActionType) (static "action_type") ([(w, src); (w0, nm)] : list (string * string)) "".
  - style_next Hargs. destruct (Hq params eq_refl) as [q Hc].
    agree_at Hgo ("GET", "event/:source_id", op_SubscribeEventWS) (static "event") ([(w, src)] : list (string * string)) q.
  - style_next Hargs. style_next Hargs. agree_at Hgo ("POST", "event/:source_id/:name", op_PublishEvent) (static "event") ([(w, src); (w0, nm)] : list (string * string)) "".
  - style_next Hargs. style_next Hargs. agree_at Hgo ("POST", "event/:source_id/:name", op_PublishEvent) (static "event") ([(w, src); (w0, nm)] : list (string * string)) "".
  - agree_at Hgo ("GET", "event_type", op_GetEventTypes) (static "event_type") ([] : list (string * string)) "".
  - agree_at Hgo ("POST", "event_type", op_RegisterEventTypes) (static "event_type") ([] : list (string * string)) "".
  - agree_at Hgo ("POST", "event_type", op_RegisterEventTypes) (static "event_type") ([] : list (string * string)) "".
  - style_next Hargs. agree_at Hgo ("GET", "event_type/:source_id", op_GetEventTypesBySourceID) (static "event_type") ([(w, src)] : list (string * string)) "".
  - style_next Hargs. style_next Hargs. agree_at Hgo ("GET", "event_type/:source_id/:name", op_GetEventType) (static "event_type") ([(w, src); (w0, nm)] : list (string * string)) "".
  - agree_at Hgo ("GET", "socket.io", op_SubscribeSIO) (static "socket.io") ([] : list (string * string)) "".
  - agree_at Hgo ("POST", "socket.io", op_PollSIO) (static "socket.io") ([] : list (string * string)) "".
  - agree_at Hgo ("GET", "socket.io/", op_SubscribeSIO2) (static "socket.io") ([static ""] : list (string * string)) "".
  - agree_at Hgo ("POST", "socket.io/", op_PollSIO2) (static "socket.io") ([static ""] : list (string * string)) "".
  - agree_at Hgo ("GET", "ysk", op_GetYskCard) (static "ysk") ([] : list (string * string)) "".
  - style_next Hargs. agree_at Hgo ("DELETE", "ysk/:id", op_DeleteYskCard) (static "ysk") ([(w, id)] : list (string * string)) "".
Qed.

Definition queryBind (name : string) (values : gmap string (list string)) : res (option (list string)) := Ok (values !! name).
Definition queryStyle (name : string) (values : list string) : res string := Ok (formQuery name values).

Lemma pathParameters : ParameterSpec pathEscape queryStyle pathBind queryBind.
Proof. by split; [exact pathEscape_styles|exact pathBind_spec|..]. Qed.

Definition busHost : string := "127.0.0.1:39287".

Lemma busBase : plainBase "http" busHost "/v2/message_bus".
Proof. split; try done; [by right|]. split; [done|by eexists|by repeat constructor]. Qed.

(** The event the service publishes, an identifier that must be escaped, and a
    subscription to names that must be. *)
Definition saved (sourceId : string) : Call :=
  do_PublishEvent sourceId "zimaos:user:save_config" (Some {["system" := "{}"]}).

Definition watched : Call := do_SubscribeEventWS "CasaOS-UserService" (Some (Some ["zimaos:user:save_config"; "a&b = c"])).

Abbreviation toBus c := (reaches "http" busHost "/v2/message_bus" pathBind queryBind mret (@firstFit (Operation * list unit))
  (requestOf pathEscape queryStyle (serverAt "http" busHost "/v2/message_bus") c) (contentTypeOf c) (bodyOf c) (invocationOf c)).

Lemma saved_callable sourceId : sourceId ≠ "" → isDot sourceId = false → callable (saved sourceId).
Proof. intros Hne Hdot. split; [|done]. repeat (constructor; [by split|]). constructor. Qed.

Lemma watched_callable : callable watched.
Proof. split; [by repeat constructor|]. intros names [= <-]. split; [done|]. apply Nat.leb_le. by vm_compute. Qed.

Lemma bus_agreement_witness : toBus (saved "CasaOS-UserService") ∧ toBus (saved "a/b c%") ∧ toBus watched.
Proof.
  split_and!; apply (bus_agreement "http" busHost "/v2/message_bus" pathEscape queryStyle pathBind queryBind mret firstFit);
    try exact busBase; try exact pathParameters; try exact firstFit_spec; try exact watched_callable; try reflexivity;
    try (by apply saved_callable); by repeat constructor.
Defined.
