(* ===== verification/Commands.v ===== *)
(** * The command line (src/main.go)

    The offline commands (bootstrap-admin, reset-admin-password,
    reset-user-password) and the start of the daemon, up to the reconciled state:
    flags, the process lock, the credential files, the separation of seal and
    database, opening the database, and the service's operation on top. *)

From stdpp Require Import prelude strings gmap.
From Stdlib Require Import ZArith Lia Ascii.
From S2P Require Import Prelude GoStrings Password FileSystem Tables Store Guarantee Files Trees AuthSecurity Bootstrap FileSeal UserConfig Sessions Users Accounts Administration Resets Processlock Separation Databases.

Local Open Scope Z_scope.
Local Open Scope m_scope.

(** ** Flags *)

Inductive flagKind := StringFlag | BoolFlag.

(** [strconv.ParseBool]. *)
Definition ParseBool (s : string) : option bool :=
  if bool_decide (s ∈ ["1"; "t"; "T"; "TRUE"; "true"; "True"]) then Some true
  else if bool_decide (s ∈ ["0"; "f"; "F"; "FALSE"; "false"; "False"]) then Some false
  else None.

(** The name and the value of [name=value], split at the first "=" behind the first
    byte. *)
Fixpoint cutValue (s : string) : string * option string :=
  match s with
  | EmptyString => ("", None)
  | String a rest =>
     match rest with
     | String "=" v => (String a "", Some v)
     | _ => let '(n, v) := cutValue rest in (String a n, v)
     end
  end.

(** [flags.Parse] of the package flag, with [ContinueOnError]: the values that were
    set, the last of each, and the remaining arguments. *)
Fixpoint parseFlags (defined : list (string * flagKind)) (values : gmap string string) (args : list string)
    : res (gmap string string * list string) :=
  match args with
  | [] => Ok (values, [])
  | s :: rest =>
     match s with
     | String "-" (String b name') =>
        if bool_decide (s = "--") then Ok (values, rest)
        else
          let body := if bool_decide (b = "-"%char) then name' else String b name' in
          if bool_decide (body = "") || has_prefix "-" body || has_prefix "=" body
          then Err (NewError "bad flag syntax")
          else
            let '(name, value) := cutValue body in
            match list_find (λ d, d.1 = name) defined, value with
            | None, _ => Err (NewError (if bool_decide (name ∈ ["help"; "h"]) then "flag: help requested"
                                        else "flag provided but not defined"))
            | Some (_, (_, BoolFlag)), Some v =>
               match ParseBool v with
               | Some b => parseFlags defined (<[name := if b then "true" else "false"]> values) rest
               | None => Err (NewError "invalid boolean value")
               end
            | Some (_, (_, BoolFlag)), None => parseFlags defined (<[name := "true"]> values) rest
            | Some (_, (_, StringFlag)), Some v => parseFlags defined (<[name := v]> values) rest
            | Some (_, (_, StringFlag)), None =>
               match rest with
               | [] => Err (NewError "flag needs an argument")
               | v :: rest' => parseFlags defined (<[name := v]> values) rest'
               end
            end
     | _ => Ok (values, args)
     end
  end.

Definition defaultBootstrapSealPath : string := "/etc/casaos/recasaos-user-bootstrap.seal".
Definition defaultProcessLockPath : string := "/run/lock/recasaos-user-service.lock".

Definition resetFlags : list (string * flagKind) :=
  [("c", StringFlag); ("db", StringFlag); ("bootstrap-seal", StringFlag); ("process-lock", StringFlag)].
Definition bootstrapFlags : list (string * flagKind) := ("user-data", StringFlag) :: resetFlags.
Definition serverFlags : list (string * flagKind) :=
  resetFlags ++ [("ru", BoolFlag); ("user", StringFlag); ("v", BoolFlag)].

Definition text (values : gmap string string) (name default_ : string) : string := default default_ (values !! name).
Definition isSet (values : gmap string string) (name : string) : bool := bool_decide (values !! name = Some "true").

(** ** Credential files *)

Definition credentialsDirectoryEnvironment : string := "CREDENTIALS_DIRECTORY".
Definition usernameCredentialName : string := "recasaos.admin.username".
Definition passwordCredentialName : string := "recasaos.admin.password".
Definition newPasswordCredentialName : string := "recasaos.admin.new-password".
Definition userUsernameCredentialName : string := "recasaos.user.username".
Definition userNewPasswordCredentialName : string := "recasaos.user.new-password".
Definition maximumCredentialBytes : nat := 1024.

(** [Mode().Perm()&0o077 != 0]. *)
Definition openToOthers (info : FileInfo) : bool := negb (Z.land (fi_perm info) 63 =? 0).

(** What is accepted of the bytes of a credential file. *)
Definition parseCredential (contents : string) : res string :=
  if (maximumCredentialBytes + 2 <? String.length contents)%nat then Err (NewError "credential exceeds bytes")
  else
    let contents := trim_suffix (String byte_CR "") (trim_suffix (String byte_LF "") contents) in
    if bool_decide (contents = "") || (maximumCredentialBytes <? String.length contents)%nat ||
       contains_byte byte_NUL contents || contains_any (String byte_CR (String byte_LF "")) contents
    then Err (NewError "credential is empty or contains forbidden bytes")
    else Ok contents.

(** The part that opens and reads the checked file. *)
Definition readOpenCredential (credentialPath : path) (beforeOpen : FileInfo) : M (res string) :=
  ok file <- unix_Open_nofollow credentialPath or "open credential";;
  ok afterOpen <- file_Stat file or "inspect open credential";;
  if negb (SameFile beforeOpen afterOpen) || negb (is_regular afterOpen)
  then mret (Err (NewError "credential changed while opening"))
  else
    ok contents <- read_limited file (maximumCredentialBytes + 3) or "read credential";;
    mret (parseCredential contents).

Definition readCredential (directory name : string) (ownerUID : Z) : M (res string) :=
  if negb (IsAbs directory) then mret (Err (NewError "credentials directory must be absolute"))
  else
    ok directoryInfo <- os_Lstat (components directory) or "inspect credentials directory";;
    if is_symlink directoryInfo || negb (is_dir directoryInfo)
    then mret (Err (NewError "credentials directory must be a real directory, not a symlink"))
    else if openToOthers directoryInfo
    then mret (Err (NewError "credentials directory must not be accessible by group or other users"))
    else if negb (fi_uid directoryInfo =? ownerUID)
    then mret (Err (NewError "credentials directory has an unexpected owner"))
    else
      let credentialPath := Clean (components directory ++ [name]) in
      ok beforeOpen <- os_Lstat credentialPath or "inspect credential";;
      if is_symlink beforeOpen || negb (is_regular beforeOpen)
      then mret (Err (NewError "credential must be a regular file, not a symlink"))
      else if openToOthers beforeOpen
      then mret (Err (NewError "credential must not be accessible by group or other users"))
      else if negb (fi_uid beforeOpen =? ownerUID)
      then mret (Err (NewError "credential has an unexpected owner"))
      else
        readOpenCredential credentialPath beforeOpen.

(** ** The administrator's data directory *)

Definition secureUserDataDirectory (euid : Z) (p : path) : M (option goerr) :=
  found <- os_Lstat p;;
  ready <- match found with
           | Ok info =>
              if is_symlink info || negb (is_dir info)
              then mret (Err (NewError "administrator data path must be a real directory, not a symlink"))
              else mret (Ok tt)
           | Err e =>
              if negb (IsNotExist e) then mret (Err (Wrap "inspect administrator data path" e))
              else ok _ <- mkdirAll euid 448 [] p or "create administrator data path";; mret (Ok tt)
           end;;
  match ready with
  | Err e => mret (Some e)
  | Ok _ =>
     secured <- os_Chmod p 448;;
     match secured with
     | Err e => mret (Some (Wrap "secure administrator data path" e))
     | Ok _ => mret None
     end
  end.

(** ** The commands *)

Section Commands.
Context (IDKey : string → string → N → N → N → N → string)
        (next_audit_id : list CredentialEventDBModel → Z)
        (next_rowid : gmap Z UserDBModel → Z).
(** The process: its user, its open file description of the lock, its working
    directory as the kernel has it and as [os.Getwd] reports it, its file mode mask,
    its environment. *)
Context (euid holder : Z) (cwd : path) (getwd : option path) (umask : Z) (getenv : string → string).
(** [os.CreateTemp]'s random suffix, the embedded sample configuration, the ini
    parser and gorm. *)
Context (temp_suffix : FileSystem → string) (confSample : string) (ini_Map : string → option Config) (G : Gorm).

Abbreviation InitSetup' := (InitSetup euid cwd umask ini_Map).

Definition uint32 (n : Z) : Z := n mod 2 ^ 32.

(** [Acquire], and the deferred [Close] on every return of the function. *)
Definition locked {A} (lockPath : string) (effectiveUID : Z) (body : M (res A)) : M (res A) :=
  ok lock <- Acquire euid holder lockPath (uint32 effectiveUID);;
  r <- body;;
  _ <- Lock_Close holder (Some lock);;
  mret r.

Definition readCredentials (usernameName passwordName : string) (effectiveUID : Z) : M (res (string * string)) :=
  let credentialsDirectory := getenv credentialsDirectoryEnvironment in
  if bool_decide (credentialsDirectory = "")
  then mret (Err (NewError "CREDENTIALS_DIRECTORY is not set; use systemd LoadCredential"))
  else
    ok username <- readCredential credentialsDirectory usernameName (uint32 effectiveUID);;
    ok password <- readCredential credentialsDirectory passwordName (uint32 effectiveUID);;
    mret (Ok (username, password)).

(** The seal's check, the database, its pool; then the operation, with the pool
    closed behind it. *)
Definition onDatabase {A} (db seal : string) (open_ : M (res unit)) (operation : M (res A)) : M (res A) :=
  ok _ <- requireSealOutsideDatabase getwd db seal;;
  ok _ <- open_;;
  ok _ <- gorm_DB G or "access user database pool";;
  r <- operation;;
  _ <- gorm_Close G;;
  mret r.

Definition sealAt (sealPath : string) (effectiveUID : Z) : Seal :=
  fileSeal euid temp_suffix (NewFileSeal sealPath (uint32 effectiveUID)).

Definition runBootstrapAdmin (args : list string) (effectiveUID : Z) : M (res string) :=
  match parseFlags bootstrapFlags ∅ args with
  | Err e => mret (Err e)
  | Ok (flags, rest) =>
     if negb (bool_decide (rest = []))
     then mret (Err (NewError "bootstrap-admin accepts no username or password arguments"))
     else if negb (effectiveUID =? 0) then mret (Err (NewError "bootstrap-admin requires effective uid 0"))
     else locked (text flags "process-lock" defaultProcessLockPath) effectiveUID (
       ok credentials <- readCredentials usernameCredentialName passwordCredentialName effectiveUID;;
       let dbFlag := text flags "db" "" in
       let userDataFlag := text flags "user-data" "" in
       let sealFlag := text flags "bootstrap-seal" defaultBootstrapSealPath in
       ok places <- (if bool_decide (dbFlag = "") || bool_decide (userDataFlag = "") then
                       ok cfg <- InitSetup' (text flags "c" "") confSample;;
                       mret (Ok (if bool_decide (dbFlag = "") then DBPath (AppInfo cfg) else dbFlag,
                                 if bool_decide (userDataFlag = "") then UserDataPath (AppInfo cfg) else userDataFlag))
                     else mret (Ok (dbFlag, userDataFlag)));;
       onDatabase places.1 sealFlag (GetBootstrapDb euid cwd G places.1) (
         ok _ <- BootstrapAdmin IDKey next_audit_id next_rowid (Some (sealAt sealFlag effectiveUID))
                   credentials.1 credentials.2
                   (Some (λ userID, secureUserDataDirectory euid (Join cwd places.2 [Itoa userID])));;
         mret (Ok "administrator bootstrap completed")))
  end.

(** The common shape of the two resets: they differ in their name, their credential
    names and the service's operation. *)
Definition runReset (command usernameName passwordName : string) (reset : option Seal → string → string → M (res unit))
    (done_ : string) (args : list string) (effectiveUID : Z) : M (res string) :=
  match parseFlags resetFlags ∅ args with
  | Err e => mret (Err e)
  | Ok (flags, rest) =>
     if negb (bool_decide (rest = []))
     then mret (Err (NewError (command +:+ " accepts no username or password arguments")))
     else if negb (effectiveUID =? 0) then mret (Err (NewError (command +:+ " requires effective uid 0")))
     else locked (text flags "process-lock" defaultProcessLockPath) effectiveUID (
       ok credentials <- readCredentials usernameName passwordName effectiveUID;;
       let dbFlag := text flags "db" "" in
       let sealFlag := text flags "bootstrap-seal" defaultBootstrapSealPath in
       ok db <- (if bool_decide (dbFlag = "") then
                   ok cfg <- InitSetup' (text flags "c" "") confSample;; mret (Ok (DBPath (AppInfo cfg)))
                 else mret (Ok dbFlag));;
       onDatabase db sealFlag (GetExistingDb euid cwd G db) (
         ok _ <- reset (Some (sealAt sealFlag effectiveUID)) credentials.1 credentials.2;;
         mret (Ok done_)))
  end.

Definition runResetAdminPassword : list string → Z → M (res string) :=
  runReset "reset-admin-password" usernameCredentialName newPasswordCredentialName
    (ResetAdminPassword IDKey next_audit_id) "administrator password reset completed".

Definition runResetUserPassword : list string → Z → M (res string) :=
  runReset "reset-user-password" userUsernameCredentialName userNewPasswordCredentialName
    (ResetUserPassword IDKey next_audit_id) "user password reset completed".

(** [runServer] with the lock acquired, until the state is reconciled. *)
Definition prepareServer (flags : gmap string string) (effectiveUID : Z) : M (res (Config * State)) :=
  ok cfg <- InitSetup' (text flags "c" "") confSample;;
  let dbFlag := if bool_decide (text flags "db" "" = "") then DBPath (AppInfo cfg) else text flags "db" "" in
  let sealFlag := text flags "bootstrap-seal" defaultBootstrapSealPath in
  ok _ <- requireSealOutsideDatabase getwd dbFlag sealFlag;;
  ok _ <- GetDb euid cwd G dbFlag;;
  ok _ <- gorm_DB G or "access user database pool";;
  reconciled <- ReconcileState (Some (sealAt sealFlag effectiveUID));;
  match reconciled with
  | (_, Some e) => mret (Err e)
  | (state, None) => mret (Ok (cfg, state))
  end.
End Commands.

(** ** Credentials *)

(** [s] is what the credential file [name] of the directory holds: both belong to
    the owner alone, the file is regular, and its bytes, up to one line end, are
    [s]. *)
Record credential (fs : FileSystem) (directory name : string) (ownerUID : Z) (s : string) : Prop := {
  cr_abs : IsAbs directory = true;
  cr_directory : ∃ i, path_info false fs (components directory) = inl i ∧ is_dir i = true ∧
    openToOthers i = false ∧ fi_uid i = ownerUID;
  cr_file : ∃ stack i c, resolve maxLinks fs false [] (Clean (components directory ++ [name])) = inl (At stack) ∧
    inode_info fs (top stack) = Some i ∧ fi_kind i = KFile c ∧ openToOthers i = false ∧ fi_uid i = ownerUID ∧
    parseCredential (take_bytes (maximumCredentialBytes + 3) c) = Ok s;
}.

(** Opening by the name that was checked gives the checked file. *)
Lemma readOpenCredential_spec p stack i c w : alone w →
  resolve maxLinks (w_fs w) false [] p = inl (At stack) → inode_info (w_fs w) (top stack) = Some i → fi_kind i = KFile c →
  post (readOpenCredential p i) w (λ r w', calm w w' ∧ w_db w' = w_db w ∧
    let parsed := parseCredential (take_bytes (maximumCredentialBytes + 3) c) in
    (∀ s, r = Ok s → parsed = Ok s) ∧ (faultless w → r = parsed)).
Proof.
  intros Hw Hr Hn Hk. pose proof Hn as (n & Hino & Hi)%inode_info_Some.
  assert (i_kind n = KFile c) as Hkn by (by rewrite Hi in Hk). unfold readOpenCredential. m_step.
  f_step; [split_and!; [done|done|done|fault_absurd]|].
  unfold open_nofollow. rewrite Hr, Hino. cbn [fmap option_fmap option_map]. rewrite Hkn. cbn [res_of]. m_step.
  f_step; [split_and!; [calm_chain|congruence|done|fault_absurd]|]. rewrite (calm_fs _ _ H), Hn. cbn [res_of].
  assert (SameFile i i = true) as -> by apply Z.eqb_refl.
  assert (is_regular i = true) as -> by (unfold is_regular; by rewrite Hk). cbn [negb orb]. m_step.
  assert (calm w w0) as Hc0 by calm_chain.
  f_step; [split_and!; [calm_chain|congruence|done|fault_absurd]|]. rewrite (calm_fs _ _ Hc0).
  unfold read_file. rewrite Hino. destruct n as [k perm uid]. cbn [i_kind] in Hkn. rewrite Hkn. cbn [res_of]. m_step.
  split_and!; [calm_chain|congruence|done|done].
Qed.

(** What [readCredential] returned agrees with the file system of the start. *)
Definition credential_read (directory name : string) (ownerUID : Z) (w : World) (r : res string) (w' : World) : Prop :=
  calm w w' ∧ w_db w' = w_db w ∧
  (∀ s, r = Ok s → credential (w_fs w) directory name ownerUID s) ∧
  (faultless w → ∀ s, credential (w_fs w) directory name ownerUID s → r = Ok s).

Lemma credential_refused directory name ownerUID e w w' : calm w w' → w_db w' = w_db w →
  (faultless w → ∀ s, credential (w_fs w) directory name ownerUID s → False) →
  credential_read directory name ownerUID w (Err e) w'.
Proof. intros Hc Hd Hl. split_and!; [done|done|done|]. intros Hfl s Hs. by destruct (Hl Hfl s Hs). Qed.

Lemma readCredential_spec directory name ownerUID w : alone w →
  post (readCredential directory name ownerUID) w (credential_read directory name ownerUID w).
Proof.
  intros Hw. unfold readCredential.
  destruct (IsAbs directory) eqn:Habs; cbn [negb];
    [|m_step; apply credential_refused; [eauto with store|done|intros _ s []; congruence]].
  m_step. f_step; [apply credential_refused; [done|done|fault_absurd]|].
  destruct (path_info false (w_fs w) (components directory)) as [di|e] eqn:Hdi; cbn [res_of];
    [|apply credential_refused; [done|done|intros _ s [_ (? & ? & _) _]; congruence]].
  m_step; [m_step; apply credential_refused; [done|done|]; intros _ s [_ (i & Hi & Hd & _) _];
    rewrite Hdi in Hi; injection Hi as <-; unfold is_symlink, is_dir in *; by destruct (fi_kind di)|].
  m_step; [m_step; apply credential_refused; [done|done|intros _ s [_ (? & ? & ? & ? & _) _]; congruence]|].
  destruct (Z.eqb_spec (fi_uid di) ownerUID) as [Huid|Huid]; cbn [negb];
    [|m_step; apply credential_refused; [done|done|intros _ s [_ (? & ? & ? & ? & ?) _]; congruence]].
  cbv zeta. m_step. f_step; [apply credential_refused; [calm_chain|congruence|fault_absurd]|]. rewrite (calm_fs _ _ H).
  assert (calm w w0) as Hc0 by calm_chain.
  destruct (path_info false (w_fs w) (Clean (components directory ++ [name]))) as [i|e] eqn:Hi; cbn [res_of].
  2:{ apply credential_refused; [done|congruence|]. intros _ s [_ _ (stack & i & c & Hr & Hn & _)].
      unfold path_info in Hi. by rewrite Hr, Hn in Hi. }
  pose proof Hi as (stack & Hr & Hn)%path_info_At.
  assert (∀ s, credential (w_fs w) directory name ownerUID s → ∃ c, fi_kind i = KFile c ∧ openToOthers i = false ∧
    fi_uid i = ownerUID ∧ parseCredential (take_bytes (maximumCredentialBytes + 3) c) = Ok s) as Hcr.
  { intros s [_ _ (stack' & i' & c & Hr' & Hn' & Hrest)]. rewrite Hr in Hr'. injection Hr' as <-.
    rewrite Hn in Hn'. injection Hn' as <-. by exists c. }
  m_step; [m_step; apply credential_refused; [done|congruence|]; intros _ s (c & Hk & _)%Hcr;
    unfold is_symlink, is_regular in *; by rewrite Hk in *|].
  m_step; [m_step; apply credential_refused; [done|congruence|intros _ s (? & _ & ? & _)%Hcr; congruence]|].
  destruct (Z.eqb_spec (fi_uid i) ownerUID) as [Hu|Hu]; cbn [negb];
    [|m_step; apply credential_refused; [done|congruence|intros _ s (? & _ & _ & ? & _)%Hcr; congruence]].
  assert (∃ c, fi_kind i = KFile c) as [c Hk].
  { bool_split. unfold is_regular in *. destruct (fi_kind i); eauto; done. }
  eapply post_mono; [apply (readOpenCredential_spec _ stack i c); rewrite ?(calm_fs _ _ Hc0); eauto with store|].
  cbv beta zeta. intros r w2 (Hc2 & Hd2 & Hok & Hl). split_and!; [calm_chain|congruence|..].
  - intros s Hs%Hok. split; [done| |by exists stack, i, c]. exists di. bool_split. done.
  - intros Hfl s (c' & Hk' & _ & _ & Hp)%Hcr. simplify_eq. rewrite Hl by apply (calm_faultless _ _ Hc0 Hfl). congruence.
Qed.

(** The text of a credential: a line of its own, of bounded length. *)
Lemma parseCredential_text c s : parseCredential (take_bytes (maximumCredentialBytes + 3) c) = Ok s →
  (1 ≤ String.length s ≤ maximumCredentialBytes)%nat ∧
  contains_byte byte_NUL s = false ∧ contains_byte byte_CR s = false ∧ contains_byte byte_LF s = false ∧
  ∃ cr lf, (cr = "" ∨ cr = String byte_CR "") ∧ (lf = "" ∨ lf = String byte_LF "") ∧ c = s +:+ cr +:+ lf.
Proof.
  unfold parseCredential. set (d := take_bytes (maximumCredentialBytes + 3) c).
  destruct (Nat.ltb_spec (maximumCredentialBytes + 2) (String.length d)) as [|Hlen]; [done|].
  assert (d = c) as Hd by (apply take_bytes_short; unfold d in Hlen; lia). clearbody d. subst d.
  set (l := trim_suffix (String byte_LF "") c). set (t := trim_suffix (String byte_CR "") l).
  destruct (_ || _ || _ || _) eqn:E; [done|]. intros [= <-].
  apply orb_false_iff in E as [[[E1 E2]%orb_false_iff E3]%orb_false_iff E4].
  apply bool_decide_eq_false in E1. apply Nat.ltb_ge in E2. rewrite contains_any_bytes in E4.
  split_and!; [destruct t; [done|simpl; lia]|done|done|by apply E4|by apply E4|].
  destruct (trim_suffix_or (String byte_LF "") c) as [Hl|Hl], (trim_suffix_or (String byte_CR "") l) as [Ht|Ht];
    fold l in Hl; fold t in Ht.
  - exists "", "". rewrite Ht, Hl, !string_app_nil_r. auto.
  - exists (String byte_CR ""), "". rewrite string_app_nil_r, <- Ht, Hl. auto.
  - exists "", (String byte_LF ""). rewrite Ht, Hl. auto.
  - exists (String byte_CR ""), (String byte_LF ""). rewrite <- string_app_assoc, <- Ht. auto.
Qed.

(** ** What stands before an operation *)

Lemma resolveFrom_files probe missing : files_only (resolveFrom probe missing).
Proof. revert missing. induction probe as [|c probe IH]; intros missing; cbn [resolveFrom]; files_walk. Qed.
#[export] Hint Resolve resolveFrom_files : files.

Lemma resolveThroughExistingAncestor_files cwd s : files_only (resolveThroughExistingAncestor cwd s).
Proof. unfold resolveThroughExistingAncestor. files_walk. Qed.
#[export] Hint Resolve resolveThroughExistingAncestor_files : files.

Lemma requireSealOutsideDatabase_files cwd db seal : files_only (requireSealOutsideDatabase cwd db seal).
Proof. unfold requireSealOutsideDatabase. files_walk. Qed.

Lemma post_result {A} (m : M A) w (Q : A → World → Prop) : post m w Q → post m w (λ a w', m w = (a, w') ∧ Q a w').
Proof. intros H. split; [|done]. by destruct (m w). Qed.

Section Gate.
Context (euid holder : Z) (cwd : path) (getwd : option path) (umask : Z) (getenv : string → string).
Context (confSample : string) (ini_Map : string → option Config) (G : Gorm) `{!GormSpec G}.

Abbreviation directory := (getenv credentialsDirectoryEnvironment).

(** What a command of the super-user has established when its operation starts in
    [w1]: it acquired the lock of the inode [ino] and still holds it; the two
    credentials were in the directory the environment names; the seal was outside the
    database directory; the database is open. *)
Record admitted (lockPath usernameName passwordName : string) (db sealFlag : string) (migrate : bool) (ino : Z)
    (w w1 : World) (username password : string) : Prop := {
  ad_acquired : ∃ wl, files w wl ∧ Acquire euid holder lockPath 0 w = (Ok (mkLock (Some ino)), wl);
  ad_held : lockedBy ino holder (w_fs w1);
  ad_credentials : directory ≠ "" ∧ ∃ wc, files w wc ∧
    credential (w_fs wc) directory usernameName 0 username ∧ credential (w_fs wc) directory passwordName 0 password;
  ad_seal : ∃ ws, files w ws ∧ fst (requireSealOutsideDatabase getwd db sealFlag ws) = Ok tt;
  ad_opened : opened migrate w w1;
}.

(** The body runs with the lock held, and the lock is given up behind it. *)
Lemma locked_spec {A} lockPath (body : M (res A)) w (Q : res A → World → Prop) :
  alone w → (∀ e w1, files w w1 → Q (Err e) w1) →
  (∀ ino w1, files w w1 → Acquire euid holder lockPath 0 w = (Ok (mkLock (Some ino)), w1) → lockedBy ino holder (w_fs w1) →
     post body w1 (λ r w2, alone w2 ∧ ∀ w3, runs w2 w3 → w_db w3 = w_db w2 → ¬ lockedBy ino holder (w_fs w3) → Q r w3)) →
  post (locked euid holder lockPath 0 body) w Q.
Proof using.
  intros Hw Hfail Hbody. unfold locked. change (uint32 0) with 0. m_step.
  eapply post_mono; [apply post_result, post_and; [apply Acquire_held|by apply Acquire_files]|].
  cbv beta. intros [lock|e] w1 (Hacq & Hh & Hf); [|by apply Hfail].
  destruct (Hh lock eq_refl) as (ino & Hino & Hl). destruct lock as [fd]. simpl in Hino. subst fd.
  m_step. eapply post_mono; [by apply (Hbody ino w1)|]. cbv beta. intros r w2 [Hw2 HQ].
  m_step. eapply post_mono; [apply post_and; [by apply Lock_Close_files|apply Lock_Close_released]|].
  cbv beta. intros c w3 (Hf3 & _ & Hrel). m_step. apply HQ; [apply Hf3|apply Hf3|by apply Hrel].
Qed.

Lemma readCredentials_spec usernameName passwordName w : alone w →
  post (readCredentials getenv usernameName passwordName 0) w (λ r w', files w w' ∧
    ∀ username password, r = Ok (username, password) → directory ≠ "" ∧
      credential (w_fs w) directory usernameName 0 username ∧ credential (w_fs w) directory passwordName 0 password).
Proof using.
  intros Hw. unfold readCredentials. cbv zeta. case_bool_decide as Hd; [m_step; split; [by apply files_refl|done]|].
  change (uint32 0) with 0. m_step. m_use readCredential_spec as r w1 (Hc1 & Hd1 & Hok1 & _).
  destruct r as [u|e]; [|split; [by apply calm_files|done]].
  m_step. m_use readCredential_spec as r w2 (Hc2 & Hd2 & Hok2 & _). rewrite (calm_fs _ _ Hc1) in Hok2.
  assert (files w w2) as Hf by (apply calm_files; [calm_chain|congruence]).
  destruct r as [p|e]; [|by split]. m_step. split; [done|]. intros ? ? [= <- <-]. auto.
Qed.

Lemma readCredentials_keeping I `{!Stable I} usernameName passwordName uid :
  keeping I (readCredentials getenv usernameName passwordName uid).
Proof using. unfold readCredentials, readCredential, readOpenCredential. keeping_walk. Qed.

Lemma requireSealOutsideDatabase_keeping I `{!Stable I} db seal : keeping I (requireSealOutsideDatabase getwd db seal).
Proof using.
  assert (∀ probe missing, keeping I (resolveFrom probe missing)) as Hf.
  { induction probe as [|c probe IH]; intros missing; cbn [resolveFrom]; keeping_walk. }
  unfold requireSealOutsideDatabase, resolveThroughExistingAncestor. keeping_walk.
Qed.

Lemma onDatabase_spec {A} I `{!Stable I} db sealFlag open_ migrate (operation : M (res A)) w (Q : res A → World → Prop) :
  alone w → I (w_fs w) → keeping I open_ → (∀ w0, alone w0 → post open_ w0 (λ _ w', opened migrate w0 w')) →
  (∀ e w1, opened migrate w w1 → Q (Err e) w1) →
  (∀ w1, fst (requireSealOutsideDatabase getwd db sealFlag w) = Ok tt → opened migrate w w1 → I (w_fs w1) →
     post operation w1 (λ r w2, alone w2 ∧ ∀ w3, runs w2 w3 → w_db w3 = w_db w2 → Q r w3)) →
  post (onDatabase getwd G db sealFlag open_ operation) w Q.
Proof using GormSpec0.
  intros Hw HI Hkeep Hopen Hfail Hop. unfold onDatabase. m_step.
  eapply post_mono; [apply post_result, post_and; [by apply requireSealOutsideDatabase_files|by apply (kept_alone I);
    [apply requireSealOutsideDatabase_keeping|..]]|]. cbv beta. intros [[]|e] w1 (Hs & H1 & HI1); [|apply Hfail, opened_done; apply H1].
  m_step. eapply post_mono; [apply post_and; [apply Hopen|apply (kept_alone I)]; eauto with store|]. cbv beta. intros r w2 [H2 HI2].
  apply (opened_files _ w) in H2; [|done]. destruct r as [[]|e]; [|by apply Hfail].
  m_step. eapply post_mono; [apply post_and; [apply db_spec; by eapply opened_alone|apply (kept_alone I);
    [by apply db_keeps|by eapply opened_alone|done]]|]. cbv beta. intros r w3 [[Hr3 Hd3] HI3].
  assert (opened migrate w w3) as H3 by (by eapply opened_still). destruct r as [[]|e]; [|by apply Hfail].
  m_step. eapply post_mono; [apply Hop; [by rewrite Hs|done|done]|]. cbv beta. intros r w4 [Hw4 HQ].
  m_step. eapply post_mono; [by apply close_spec|]. cbv beta. intros c w5 [Hr5 Hd5]. m_step. by apply HQ.
Qed.

(** The two resets: either the operation ran once, admitted, from the untouched
    database, and the lock was given up behind it, or the database is as it was. *)
Lemma runReset_spec command usernameName passwordName temp_suffix reset done_ args effectiveUID w
    (Q : res string → World → Prop) : alone w →
  (∀ e w', runs w w' → w_db w' = w_db w → Q (Err e) w') →
  (∀ flags db username password ino w1, effectiveUID = 0 → parseFlags resetFlags ∅ args = Ok (flags, []) →
     let sealFlag := text flags "bootstrap-seal" defaultBootstrapSealPath in
     admitted (text flags "process-lock" defaultProcessLockPath) usernameName passwordName db sealFlag false ino w w1
       username password →
     post (reset (Some (fileSeal euid temp_suffix (NewFileSeal sealFlag 0))) username password) w1 (λ r w2,
       alone w2 ∧ ∀ w3, runs w2 w3 → w_db w3 = w_db w2 → ¬ lockedBy ino holder (w_fs w3) →
         Q (match r with Ok _ => Ok done_ | Err e => Err e end) w3)) →
  post (runReset euid holder cwd getwd umask getenv temp_suffix confSample ini_Map G
          command usernameName passwordName reset done_ args effectiveUID) w Q.
Proof using GormSpec0.
  intros Hw Hfail Hop. unfold runReset.
  destruct (parseFlags resetFlags ∅ args) as [[flags rest]|e] eqn:Hp; [|m_step; apply Hfail; eauto with store].
  case_bool_decide as Hrest; cbn [negb]; [subst rest|m_step; apply Hfail; eauto with store].
  destruct (Z.eqb_spec effectiveUID 0) as [->|]; cbn [negb]; [|m_step; apply Hfail; eauto with store].
  apply locked_spec; [done|intros; apply Hfail; apply H|]. intros ino w1 H1 Hacq Hheld1.
  assert (alone w1) as Hw1 by eauto with store.
  m_step. eapply post_mono; [apply post_and; [by apply readCredentials_spec|by apply (kept_alone (lockedBy ino holder));
    [apply readCredentials_keeping, _|..]]|]. cbv beta. intros r w2 [[H2 Hcr] Hheld2].
  assert (files w w2) as H02 by (by eapply files_trans).
  assert (∀ e w', runs w w' → w_db w' = w_db w →
    alone w' ∧ ∀ w3, runs w' w3 → w_db w3 = w_db w' → ¬ lockedBy ino holder (w_fs w3) → Q (Err e) w3) as Hend.
  { intros e w' Hr Hd. split; [by eapply runs_alone|]. intros w3 Hr3 Hd3 _. apply Hfail; [by eapply runs_trans|congruence]. }
  destruct r as [[username password]|e]; [|apply Hend; apply H02].
  destruct (Hcr username password eq_refl) as (Hdir & Hcu & Hcp). cbv zeta. m_step.
  assert (alone w2) as Hw2 by eauto with store.
  eapply (post_mono _ _ (λ _ w3, files w2 w3 ∧ lockedBy ino holder (w_fs w3))).
  { apply post_and; [apply (λ H : files_only _, H w2 Hw2); files_walk|].
    pose proof (lockedBy_stable ino holder). apply (kept_alone (lockedBy ino holder)); [keeping_walk|done|done]. }
  intros r w3 [H3 Hheld3]. assert (files w w3) as H03 by (by eapply files_trans).
  destruct r as [db|e]; [|apply Hend; apply H03].
  eapply (onDatabase_spec (lockedBy ino holder)); [eauto with store|done|by apply (openDb_keeping (lockedBy ino holder))|intros w0 Hw0; by apply openDb_opened| |].
  { intros e w4 (Hr4 & _ & Hd4). apply Hend; [eapply runs_trans; [apply H03|done]|rewrite Hd4 by done; apply H03]. }
  intros w4 Hseal H4 Hheld4. m_step. change (sealAt euid temp_suffix ?p 0) with (fileSeal euid temp_suffix (NewFileSeal p 0)).
  eapply post_mono; [apply (Hop flags db username password ino w4); [done|done|]|].
  - split; [eauto|done|eauto 10|eauto|by eapply opened_files].
  - cbv beta. intros r w5 [Hw5 HQ]. destruct r; [m_step|]; (split; [done|]; intros w6 Hr6 Hd6; split; [by eapply runs_alone|];
      intros w7 Hr7 Hd7 Hrel; apply HQ; [by eapply runs_trans|congruence|done]).
Qed.
End Gate.

(** ** The bootstrap command *)

Lemma files_within {A} (m : M A) : files_only m → within solo anyhow m.
Proof.
  intros Hm w Hw. eapply post_mono; [by apply Hm|]. cbv beta. intros a w1 [[] _ _]. by constructor.
Qed.
#[export] Hint Resolve files_within : within.

Lemma rejectFrom_files current todo : files_only (rejectFrom current todo).
Proof. revert current. induction todo as [|c rest IH]; intros current; cbn [rejectFrom]; cbv zeta; files_walk. Qed.
#[export] Hint Resolve rejectFrom_files : files.

Lemma FileSeal_Load_files seal : files_only (FileSeal_Load seal).
Proof. unfold FileSeal_Load, validateExistingSealDirectory, rejectSymlinkAncestors, readSeal. files_walk. Qed.
#[export] Hint Resolve FileSeal_Load_files : files.

Lemma FileSeal_Create_files euid temp_suffix seal id : files_only (FileSeal_Create euid temp_suffix seal id).
Proof.
  unfold FileSeal_Create, createSeal, ensureSealDirectory, rejectSymlinkAncestors, createTemp, writeTemporary, publishSeal.
  files_walk.
Qed.
#[export] Hint Resolve FileSeal_Create_files : files.

Lemma secureUserDataDirectory_files euid p : files_only (secureUserDataDirectory euid p).
Proof. unfold secureUserDataDirectory. files_walk. Qed.

(** The steps of the bootstrap on a file seal leave the process alone. *)
Lemma ReconcileState_within euid temp_suffix seal : within solo anyhow (ReconcileState (Some (fileSeal euid temp_suffix seal))).
Proof.
  assert (∀ id, within solo anyhow (Create (fileSeal euid temp_suffix seal) id)) as Hc
    by (intros; apply files_within, FileSeal_Create_files).
  assert (within solo anyhow (Load (fileSeal euid temp_suffix seal))) as Hl by apply files_within, FileSeal_Load_files.
  unfold ReconcileState, withImmediateTransaction, db_Conn, reconcileBody, newInstallationID, readState, userSummary,
    updateState, insertState. by within_solve.
Qed.
#[export] Hint Resolve ReconcileState_within : within.

Lemma BootstrapAdmin_within IDKey next next_rowid euid temp_suffix seal username plaintext p :
  within solo anyhow (BootstrapAdmin IDKey next next_rowid (Some (fileSeal euid temp_suffix seal)) username plaintext
    (Some (λ id, secureUserDataDirectory euid (p id)))).
Proof.
  assert (∀ id, within solo anyhow (Create (fileSeal euid temp_suffix seal) id)) as Hc
    by (intros; apply files_within, FileSeal_Create_files).
  assert (within solo anyhow (Load (fileSeal euid temp_suffix seal))) as Hl by apply files_within, FileSeal_Load_files.
  assert (∀ id, within solo anyhow (secureUserDataDirectory euid (p id))) as Hd
    by (intros; apply files_within, secureUserDataDirectory_files).
  unfold BootstrapAdmin, hashPassword, CreateAdmin, withImmediateTransaction, db_Conn, createAdminBody, readState,
    userSummary, insertAdmin, sealMarker, appendEvent. by within_solve.
Qed.

(** ** Starting the daemon *)

Section Server.
Context (euid holder : Z) (cwd : path) (getwd : option path) (umask : Z).
Context (temp_suffix : FileSystem → string) (confSample : string) (ini_Map : string → option Config)
        (G : Gorm) `{!GormSpec G}.

(** Preparation changes no account; when it succeeds the seal was found outside the
    database, and marker, accounts and seal agree on the state. *)
Definition prepared (flags : gmap string string) (effectiveUID : Z) (w : World) (r : res (Config * State)) (w' : World) : Prop :=
  runs w w' ∧ o_users (w_db w') = o_users (w_db w) ∧
  ∀ cfg st, r = Ok (cfg, st) →
    let db := if bool_decide (text flags "db" "" = "") then DBPath (AppInfo cfg) else text flags "db" "" in
    let sealFlag := text flags "bootstrap-seal" defaultBootstrapSealPath in
    (∃ ws, files w ws ∧ fst (requireSealOutsideDatabase getwd db sealFlag ws) = Ok tt) ∧
    healthy (abs_of (sealView (NewFileSeal sealFlag (uint32 effectiveUID))) w') st.

Lemma prepareServer_spec flags effectiveUID base w : alone w →
  sealPath (NewFileSeal (text flags "bootstrap-seal" defaultBootstrapSealPath) (uint32 effectiveUID)) base →
  post (prepareServer euid cwd getwd umask temp_suffix confSample ini_Map G flags effectiveUID) w
    (prepared flags effectiveUID w).
Proof using GormSpec0.
  intros Hw Hpath. unfold prepareServer.
  assert (∀ e w2, runs w w2 → o_users (w_db w2) = o_users (w_db w) → prepared flags effectiveUID w (Err e) w2) as Hfail
    by (intros e w2 Hr Hu; by split_and!).
  set (sealFlag := text flags "bootstrap-seal" defaultBootstrapSealPath) in *.
  m_step. eapply post_mono; [by apply InitSetup_files|]. cbv beta. intros r w2 H2.
  destruct r as [cfg|e]; [|apply Hfail; [apply H2|by rewrite (files_db _ _ H2)]]. cbv zeta.
  set (db := if bool_decide (text flags "db" "" = "") then DBPath (AppInfo cfg) else text flags "db" "").
  m_step. eapply post_mono; [apply post_result, requireSealOutsideDatabase_files; eauto with store|]. cbv beta.
  intros r w3 [Hseal H3]. assert (files w w3) as H03 by (by eapply files_trans).
  destruct r as [[]|e]; [|apply Hfail; [apply H03|by rewrite (files_db _ _ H03)]].
  m_step. eapply post_mono; [apply openDb_opened; eauto with store|]. cbv beta. intros r w4 H4.
  apply (opened_files _ w) in H4; [|done]. pose proof H4 as (Hr4 & Hm4 & _).
  destruct r as [[]|e]; [|apply Hfail; [done|apply Hm4]].
  m_step. eapply post_mono; [apply db_spec; by eapply opened_alone|]. cbv beta. intros r w5 [Hr5 Hd5].
  assert (runs w w5) as H05 by (by eapply runs_trans). rewrite <- Hd5 in Hm4.
  destruct r as [[]|e]; [|apply Hfail; [done|apply Hm4]].
  m_step. eapply post_mono; [apply (ReconcileState_healthy _ _ (SealSpec0 := fileSeal_spec euid temp_suffix
    (NewFileSeal sealFlag (uint32 effectiveUID)) base Hpath)); by eapply runs_alone|].
  cbv beta. intros [st err] w6 (Hr6 & Ho6 & Hh6). cbn [fst snd] in *.
  assert (o_users (w_db w6) = o_users (w_db w)) as Hu6 by (rewrite (only_marker_users _ _ Ho6); apply Hm4).
  assert (runs w w6) as H06 by (by eapply runs_trans).
  destruct err as [e|]; m_step; [by apply Hfail|]. split_and!; [done|done|]. intros cfg' st' [= <- <-]. cbv zeta. fold db sealFlag.
  split; [exists w2; split; [done|by rewrite Hseal]|by apply Hh6].
Qed.

(** Preparing keeps the process lock. *)
Lemma rejectSymlinkAncestors_keeping I `{!Stable I} p : keeping I (rejectSymlinkAncestors p).
Proof using.
  unfold rejectSymlinkAncestors. generalize (@nil string) as current.
  induction p as [|c rest IH]; intros current; cbn [rejectFrom]; keeping_walk.
Qed.
Hint Resolve rejectSymlinkAncestors_keeping : locks.

Lemma FileSeal_Load_keeping I `{!Stable I} seal : keeping I (FileSeal_Load seal).
Proof using. unfold FileSeal_Load, validateExistingSealDirectory, readSeal. keeping_walk. Qed.
Hint Resolve FileSeal_Load_keeping : locks.

Lemma createTemp_tame directory n : (∀ target, i_kind n ≠ KSymlink target) → tames (λ fs,
  (match create_path (directory ++ [tempPrefix +:+ temp_suffix fs]) n fs with
   | (inl ino, fs') => (inl (directory ++ [tempPrefix +:+ temp_suffix fs], ino), fs')
   | (inr e, fs') => (inr e, fs')
   end).2).
Proof using.
  intros Hn fs. pose proof (create_path_tame (directory ++ [tempPrefix +:+ temp_suffix fs]) n Hn fs) as H. simpl in H.
  by destruct (create_path _ _ _) as [[ino|e] fs'].
Qed.
Hint Resolve createTemp_tame : locks.

Lemma createSeal_keeping I `{!Stable I} seal id : keeping I (createSeal euid temp_suffix seal id).
Proof using.
  unfold createSeal, ensureSealDirectory, createTemp, writeTemporary, publishSeal. keeping_walk.
Qed.
Hint Resolve createSeal_keeping : locks.

Lemma ReconcileState_keeping I `{!Stable I} seal : keeping I (ReconcileState (Some (fileSeal euid temp_suffix seal))).
Proof using.
  unfold ReconcileState, fileSeal, FileSeal_Create, newInstallationID, withImmediateTransaction, db_Conn, reconcileBody,
    readState, userSummary, insertState, updateState. cbn [Load Create]. keeping_walk.
Qed.

Lemma prepareServer_keeping I `{!Stable I} flags effectiveUID :
  keeping I (prepareServer euid cwd getwd umask temp_suffix confSample ini_Map G flags effectiveUID).
Proof using GormSpec0.
  pose proof ReconcileState_keeping. pose proof requireSealOutsideDatabase_keeping.
  pose proof (λ I HI, openDb_keeping I (Stable0 := HI) euid cwd G). unfold prepareServer, GetDb, sealAt. keeping_walk.
Qed.
End Server.

(** The service's operations on a file seal keep the process lock. *)
Section OperationsKeep.
Context (I : FileSystem → Prop) `{!Stable I}.
Context (IDKey : string → string → N → N → N → N → string) (next_audit_id : list CredentialEventDBModel → Z)
        (next_rowid : gmap Z UserDBModel → Z) (euid : Z) (temp_suffix : FileSystem → string) (seal : FileSeal).
Abbreviation onDisk := (Some (fileSeal euid temp_suffix seal)).

Lemma spend_keeping {A} (r : A * list DeriveCall) : keeping I (spend r).
Proof using. intros w Hw Hl. done. Qed.
Hint Resolve spend_keeping : locks.

Lemma fileSeal_keeping : keeping I (Load (fileSeal euid temp_suffix seal)) ∧
  ∀ id, keeping I (Create (fileSeal euid temp_suffix seal) id).
Proof using Stable0.
  pose proof rejectSymlinkAncestors_keeping. pose proof FileSeal_Load_keeping.
  split; [by apply FileSeal_Load_keeping|]. intros id. cbn [Create fileSeal]. unfold FileSeal_Create.
  pose proof (createSeal_keeping euid temp_suffix I). keeping_walk.
Qed.

Lemma ResetPassword_keeping username plaintext :
  keeping I (ResetAdminPassword IDKey next_audit_id onDisk username plaintext) ∧
  keeping I (ResetUserPassword IDKey next_audit_id onDisk username plaintext).
Proof using Stable0.
  destruct fileSeal_keeping as [Hload Hcreate]. pose proof (ReconcileState_keeping euid temp_suffix I) as Hrec.
  unfold ResetAdminPassword, ResetUserPassword, resetPreconditions, hashPassword, logReset, appendEvent, resetAdminBody, resetUserBody,
    markerStillMatches, loadUniqueAdministrator, loadUniqueNonAdministrator, replaceVerifier, retireCredentials,
    tolerant, db_Conn, bootstrapStateTableExists, queryNamed, createStateTable, checkMarker, reconcileForReset.
  split; keeping_walk.
Qed.
End OperationsKeep.

(** ** The reset commands *)

Section ResetCommands.
Context (IDKey : string → string → N → N → N → N → string) (sized : IDKey_sized IDKey)
        (next_audit_id : list CredentialEventDBModel → Z).
Context (euid holder : Z) (cwd : path) (getwd : option path) (umask : Z) (getenv : string → string).
Context (temp_suffix : FileSystem → string) (confSample : string) (ini_Map : string → option Config)
        (G : Gorm) `{!GormSpec G}.

(** The command for the accounts that are administrators, or that are not. *)
Definition resetCommand (admin : bool) : list string → Z → M (res string) :=
  if admin
  then runResetAdminPassword IDKey next_audit_id euid holder cwd getwd umask getenv temp_suffix confSample ini_Map G
  else runResetUserPassword IDKey next_audit_id euid holder cwd getwd umask getenv temp_suffix confSample ini_Map G.

Definition resetNames (admin : bool) : string * string :=
  if admin then (usernameCredentialName, newPasswordCredentialName)
  else (userUsernameCredentialName, userNewPasswordCredentialName).

(** The service's operation behind the command. *)
Definition resetOperation (admin : bool) : option Seal → string → string → M (res unit) :=
  if admin then ResetAdminPassword IDKey next_audit_id else ResetUserPassword IDKey next_audit_id.

(** What a reset command promises: beside what it changed, that the lock was held
    from before its operation until after it, and is given up in the end. *)
Definition command_reset (admin : bool) (args : list string) (effectiveUID : Z) (w : World) (r : res string)
    (w' : World) : Prop :=
  match r with
  | Ok _ => ∃ flags db username password ino w1 w2,
      effectiveUID = 0 ∧ parseFlags resetFlags ∅ args = Ok (flags, []) ∧
      let sealFlag := text flags "bootstrap-seal" defaultBootstrapSealPath in
      admitted euid holder getwd getenv (text flags "process-lock" defaultProcessLockPath)
        (resetNames admin).1 (resetNames admin).2 db sealFlag false ino w w1 username password ∧
      resetOperation admin (Some (fileSeal euid temp_suffix (NewFileSeal sealFlag 0))) username password w1 = (Ok tt, w2) ∧
      lockedBy ino holder (w_fs w2) ∧ ¬ lockedBy ino holder (w_fs w') ∧
      w_db w1 = w_db w ∧ w_db w' = w_db w2 ∧
      reset_result IDKey (sealView (NewFileSeal sealFlag 0)) (λ row, is_admin row = admin) username password w1 w2 (Ok tt) ∧
      validResetUsername username = true ∧ ValidateNewPassword password = None
  | Err _ => only_marker (w_db w) (w_db w')
  end ∧
  ∀ k u, o_users (w_db w) !! k = Some u → is_admin u = negb admin → o_users (w_db w') !! k = Some u.

Lemma resetCommand_spec admin args effectiveUID w : alone w → keys_agree (w_db w) →
  (∀ flags, parseFlags resetFlags ∅ args = Ok (flags, []) → ∃ base,
     sealPath (NewFileSeal (text flags "bootstrap-seal" defaultBootstrapSealPath) 0) base) →
  post (resetCommand admin args effectiveUID) w (command_reset admin args effectiveUID w).
Proof using GormSpec0 sized.
  intros Hw Hk Hsp.
  assert (∀ seal view username password w1, SealSpec seal view → alone w1 → keys_agree (w_db w1) →
    post (resetOperation admin (Some seal) username password) w1 (λ r w2, alone w2 ∧
      reset_result IDKey view (λ row, is_admin row = admin) username password w1 w2 r ∧
      (r = Ok tt → validResetUsername username = true ∧ ValidateNewPassword password = None))) as Hreset.
  { intros seal view username password w1 Hs Hw1 Hk1. unfold resetOperation.
    destruct admin; [by apply ResetAdminPassword_spec|by apply ResetUserPassword_spec]. }
  assert (resetCommand admin args effectiveUID = runReset euid holder cwd getwd umask getenv temp_suffix confSample ini_Map G
    (if admin then "reset-admin-password" else "reset-user-password") (resetNames admin).1 (resetNames admin).2
    (resetOperation admin)
    (if admin then "administrator password reset completed" else "user password reset completed") args effectiveUID) as ->
    by (by destruct admin).
  apply runReset_spec; [done|done|..].
  { intros e w' _ Hd. split; [rewrite Hd; by apply only_marker_refl|by rewrite Hd]. }
  intros flags db username password ino w1 Huid Hp sealFlag Had. destruct (Hsp flags Hp) as [base Hpath].
  destruct (ad_opened _ _ _ _ _ _ _ _ _ _ _ _ _ _ _ Had) as (Hr1 & _ & Hd1). specialize (Hd1 eq_refl).
  assert (alone w1) as Hw1 by (by eapply runs_alone).
  eapply post_mono; [apply post_result, post_and; [apply (Hreset _ (sealView (NewFileSeal sealFlag 0)));
    [by apply (fileSeal_spec _ _ _ base)|done|by rewrite Hd1]|apply (kept_alone (lockedBy ino holder)); [|done|by apply Had]]|].
  { unfold resetOperation. destruct admin; apply (ResetPassword_keeping (lockedBy ino holder)). }
  cbv beta. intros r w2 (Hrun & (Hw2 & Hres & Hval) & Hheld2). split; [done|]. intros w3 _ Hd3 Hrel.
  assert (∀ k u, o_users (w_db w) !! k = Some u → is_admin u = negb admin → o_users (w_db w3) !! k = Some u) as Hother.
  { intros k u Hu Ha. rewrite Hd3. eapply reset_untouched; [exact Hres|by rewrite Hd1|]. simpl. rewrite Ha. by destruct admin. }
  destruct r as [[]|e]; (split; [|done]).
  - destruct (Hval eq_refl) as [Hv1 Hv2]. exists flags, db, username, password, ino, w1, w2.
    split; [done|]. split; [done|]. cbv zeta. split_and!; done.
  - simpl in Hres. by rewrite Hd3, <- Hd1.
Qed.
End ResetCommands.

(** ** Properties *)


(** An appliance with its database, its seal and the credentials of a reset. *)
Definition quietGorm : Gorm := mkGorm (mret (Ok tt)) (mret (Ok tt)) (mret (Ok tt)) (mret None).

#[export] Instance quietGorm_spec : GormSpec quietGorm.
Proof.
  split; try (intros; apply keeping_ret); intros w Hw; cbn [gorm_Open gorm_DB gorm_AutoMigrate gorm_Close quietGorm]; m_step;
    (split; [by apply runs_refl|done]).
Qed.

Definition applianceFiles : FileSystem := mkFS {[
  rootIno := mkInode (KDir {["run" := 2; "creds" := 3; "data" := 4; "etc" := 5]}) 493 0;
  2 := mkInode (KDir ∅) 493 0;
  3 := mkInode (KDir {[usernameCredentialName := 6; newPasswordCredentialName := 7]}) 448 0;
  4 := mkInode (KDir {["user.db" := 8]}) 448 0;
  5 := mkInode (KDir {["seal" := 9; "conf" := 10]}) 493 0;
  6 := mkInode (KFile (String.append "alice" (String byte_LF ""))) 256 0;
  7 := mkInode (KFile "a longer secret") 256 0;
  8 := mkInode (KFile "") 384 0;
  9 := mkInode (KFile (sealText "30313233-3435-4637-b839-616263646566")) 384 0;
  10 := mkInode (KFile "") 420 0]} ∅.

Definition appliance : World := w_set_fs applianceFiles (quietWorld sealedDatabase (sixteen +:+ sixteen)).

Definition applianceArgs : list string :=
  ["-db"; "/data"; "--bootstrap-seal=/etc/seal"; "-process-lock"; "/run/lock"; "-c=/etc/conf"].

Definition applianceEnv (name : string) : string := if bool_decide (name = "CREDENTIALS_DIRECTORY") then "/creds" else "".

Lemma appliance_seal_path flags uid : text flags "bootstrap-seal" defaultBootstrapSealPath = "/etc/seal" →
  ∃ base, sealPath (NewFileSeal (text flags "bootstrap-seal" defaultBootstrapSealPath) uid) base.
Proof. intros ->. exists "seal". split; [reflexivity| |reflexivity]. vm_compute. repeat constructor; discriminate. Qed.

Abbreviation applianceReset :=
  (resetCommand toyIDKey countIDs 0 1 [] (Some []) 18 applianceEnv (λ _, "42") "" (λ _, None) quietGorm true applianceArgs 0
     appliance).

Lemma applianceArgs_reset :
  match parseFlags resetFlags ∅ applianceArgs with
  | Ok (flags, []) => bool_decide (text flags "bootstrap-seal" defaultBootstrapSealPath = "/etc/seal")
  | _ => false
  end = true.
Proof. vm_compute. reflexivity. Qed.

