(* ===== verification/Provisioning.v ===== *)
(** * The first administrator, from the command line to the data directory (src/main.go)

    What bootstrap-admin achieves as a whole: the gates of the command, the lock it
    holds, the policy of the service's bootstrap, and the preparation of the
    administrator's data directory inside it. *)

From stdpp Require Import prelude strings gmap.
From Stdlib Require Import ZArith Lia Ascii.
From S2P Require Import Prelude GoStrings Password FileSystem Tables Store Guarantee Files Trees AuthSecurity Bootstrap FileSeal UserConfig Sessions Users Accounts Administration Resets Processlock Separation Databases Commands.

Local Open Scope Z_scope.
Local Open Scope m_scope.

(** ** The operation keeps the process lock *)

Lemma GetBootstrapDb_keeping I `{!Stable I} euid cwd G dbPath : GormSpec G → keeping I (GetBootstrapDb euid cwd G dbPath).
Proof. intros HG. pose proof (λ create migrate, openDb_keeping I euid cwd G dbPath create migrate HG). unfold GetBootstrapDb. keeping_walk. Qed.

Lemma BootstrapAdmin_keeping I `{!Stable I} IDKey next next_rowid euid temp_suffix seal username plaintext p :
  keeping I (BootstrapAdmin IDKey next next_rowid (Some (fileSeal euid temp_suffix seal)) username plaintext
    (Some (λ id, secureUserDataDirectory euid (p id)))).
Proof.
  destruct (fileSeal_keeping I euid temp_suffix seal) as [Hload Hcreate].
  pose proof (ReconcileState_keeping euid temp_suffix I) as Hrec.
  assert (∀ id, keeping I (secureUserDataDirectory euid (p id))) as Hdata by (intros id; unfold secureUserDataDirectory; keeping_walk).
  assert (∀ {A} (r : A * list DeriveCall), keeping I (spend r)) as Hspend by (intros A r; apply spend_keeping).
  unfold BootstrapAdmin, hashPassword, CreateAdmin, withImmediateTransaction, db_Conn, createAdminBody, readState,
    userSummary, insertAdmin, sealMarker, appendEvent. keeping_walk.
Qed.

(** ** The bootstrap command *)

Section BootstrapCommand.
Context (IDKey : string → string → N → N → N → N → string) (sized : IDKey_sized IDKey)
        (next_audit_id : list CredentialEventDBModel → Z) (next_rowid : gmap Z UserDBModel → Z).
Context (euid holder : Z) (cwd : path) (getwd : option path) (umask : Z) (getenv : string → string).
Context (temp_suffix : FileSystem → string) (confSample : string) (ini_Map : string → option Config)
        (G : Gorm) `{!GormSpec G}.

(** The service's operation as the command calls it. *)
Abbreviation bootstrap sealFlag userData username password :=
  (BootstrapAdmin IDKey next_audit_id next_rowid (Some (fileSeal euid temp_suffix (NewFileSeal sealFlag 0)))
     username password (Some (λ userID, secureUserDataDirectory euid (Join cwd userData [Itoa userID])))).

(** Either the operation ran once, admitted and with the lock held until after it,
    and enrolled an administrator within the policy or left the accounts alone; or no
    account changed. *)
Definition bootstrapped (args : list string) (effectiveUID : Z) (w : World) (r : res string) (w' : World) : Prop :=
  (∃ e, r = Err e) ∧ migrated (w_db w) (w_db w') ∨
  ∃ flags db userData username password ino w1 w2 outcome,
    effectiveUID = 0 ∧ parseFlags bootstrapFlags ∅ args = Ok (flags, []) ∧
    let sealFlag := text flags "bootstrap-seal" defaultBootstrapSealPath in
    admitted euid holder getwd getenv (text flags "process-lock" defaultProcessLockPath)
      usernameCredentialName passwordCredentialName db sealFlag true ino w w1 username password ∧
    bootstrap sealFlag userData username password w1 = (outcome, w2) ∧
    lockedBy ino holder (w_fs w2) ∧ ¬ lockedBy ino holder (w_fs w') ∧ w_db w' = w_db w2 ∧
    r = (match outcome with Ok _ => Ok "administrator bootstrap completed" | Err e => Err e end) ∧
    enrolled IDKey (sealView (NewFileSeal sealFlag 0)) username password w1 outcome w2.

Lemma runBootstrapAdmin_spec args effectiveUID w : alone w →
  (∀ flags, parseFlags bootstrapFlags ∅ args = Ok (flags, []) → ∃ base,
     sealPath (NewFileSeal (text flags "bootstrap-seal" defaultBootstrapSealPath) 0) base) →
  post (runBootstrapAdmin IDKey next_audit_id next_rowid euid holder cwd getwd umask getenv temp_suffix confSample
          ini_Map G args effectiveUID) w (bootstrapped args effectiveUID w).
Proof using GormSpec0 sized.
  intros Hw Hsp. unfold runBootstrapAdmin.
  destruct (parseFlags bootstrapFlags ∅ args) as [[flags rest]|e] eqn:Hp; [|m_step; left; split; [eauto|reflexivity]].
  case_bool_decide as Hrest; cbn [negb]; [subst rest|m_step; left; split; [eauto|reflexivity]].
  destruct (Z.eqb_spec effectiveUID 0) as [->|]; cbn [negb]; [|m_step; left; split; [eauto|reflexivity]].
  destruct (Hsp flags eq_refl) as [base Hpath].
  apply locked_spec; [done|intros e w1 H1; left; split; [eauto|by rewrite (files_db _ _ H1)]|].
  intros ino w1 H1 Hacq Hheld1. pose proof (lockedBy_stable ino holder) as Hstable.
  assert (∀ e w', runs w w' → migrated (w_db w) (w_db w') →
    alone w' ∧ ∀ w3, runs w' w3 → w_db w3 = w_db w' → ¬ lockedBy ino holder (w_fs w3) → bootstrapped args 0 w (Err e) w3) as Hend.
  { intros e w' Hr Hd. split; [by eapply runs_alone|]. intros w3 Hr3 Hd3 _. left. split; [eauto|]. by rewrite Hd3. }
  assert (alone w1) as Hw1 by eauto with store.
  m_step. eapply post_mono; [apply post_and; [by apply readCredentials_spec|by apply (kept_alone (lockedBy ino holder));
    [apply readCredentials_keeping, _|..]]|]. cbv beta. intros r w2 [[H2 Hcr] Hheld2].
  assert (files w w2) as H02 by (by eapply files_trans).
  destruct r as [[username password]|e]; [|apply Hend; [apply H02|by rewrite (files_db _ _ H02)]].
  destruct (Hcr username password eq_refl) as (Hdir & Hcu & Hcp). cbv zeta. m_step.
  assert (alone w2) as Hw2 by eauto with store.
  eapply (post_mono _ _ (λ _ w3, files w2 w3 ∧ lockedBy ino holder (w_fs w3))).
  { apply post_and; [apply (λ H : files_only _, H w2 Hw2); files_walk|].
    apply (kept_alone (lockedBy ino holder)); [keeping_walk|done|done]. }
  intros r w3 [H3 Hheld3]. assert (files w w3) as H03 by (by eapply files_trans).
  destruct r as [[db userData]|e]; [|apply Hend; [apply H03|by rewrite (files_db _ _ H03)]]. cbn [fst snd].
  eapply (onDatabase_spec _ _ (lockedBy ino holder) _ _ _ true);
    [eauto with store|done|by apply (GetBootstrapDb_keeping (lockedBy ino holder))|intros w0 Hw0; by apply GetBootstrapDb_opened| |].
  { intros e w4 (Hr4 & Hm4 & _). rewrite (files_db _ _ H03) in Hm4. apply Hend; [eapply runs_trans; [apply H03|done]|done]. }
  intros w4 Hseal H4 Hheld4. m_step. change (sealAt euid temp_suffix ?p 0) with (fileSeal euid temp_suffix (NewFileSeal p 0)).
  set (sealFlag := text flags "bootstrap-seal" defaultBootstrapSealPath) in *.
  assert (alone w4) as Hw4 by (by eapply opened_alone).
  eapply post_mono; [apply post_result, post_and; [by apply BootstrapAdmin_within|apply post_and;
    [apply (BootstrapAdmin_spec IDKey sized next_audit_id next_rowid _ (sealView (NewFileSeal sealFlag 0))
      (SealSpec0 := fileSeal_spec euid temp_suffix _ base Hpath)); [|done]|
     apply (kept_alone (lockedBy ino holder)); [apply BootstrapAdmin_keeping, _|done|done]]]|].
  { intros cb id w0 [= <-] Hw0. eapply post_mono; [by apply secureUserDataDirectory_files|].
    cbv beta. intros r w5 Hf5. split; apply Hf5. }
  cbv beta. intros outcome w5 (Hrun & [Hw5 _ _ _ _] & Hpol & Hheld5).
  assert (∀ w6, w_db w6 = w_db w5 → ¬ lockedBy ino holder (w_fs w6) → bootstrapped args 0 w
    (match outcome with Ok _ => Ok "administrator bootstrap completed" | Err e => Err e end) w6) as Hdone.
  { intros w6 Hd6 Hrel. right. exists flags, db, userData, username, password, ino, w4, w5, outcome.
    split; [done|]. split; [done|]. cbv zeta. split_and!; try done. split; [eauto|done|eauto 10|eauto|by eapply opened_files]. }
  destruct outcome; [m_step|]; (split; [done|]; intros w6 Hr6 Hd6; split; [by eapply runs_alone|];
    intros w7 Hr7 Hd7 Hrel; apply Hdone; [congruence|done]).
Qed.
End BootstrapCommand.

(** ** Properties *)


(** A new appliance: its credentials, and neither database nor seal. *)
Definition freshFiles : FileSystem := mkFS {[
  rootIno := mkInode (KDir {["run" := 2; "creds" := 3; "data" := 4; "etc" := 5]}) 493 0;
  2 := mkInode (KDir ∅) 493 0;
  3 := mkInode (KDir {[usernameCredentialName := 6; passwordCredentialName := 7]}) 448 0;
  4 := mkInode (KDir ∅) 448 0;
  5 := mkInode (KDir {["conf" := 8]}) 448 0;
  6 := mkInode (KFile (String.append "alice" (String byte_LF ""))) 256 0;
  7 := mkInode (KFile "a longer secret") 256 0;
  8 := mkInode (KFile "") 420 0]} ∅.

Definition freshAppliance : World := w_set_fs freshFiles (quietWorld emptyDatabase (sixteen +:+ sixteen +:+ sixteen +:+ sixteen)).

Definition freshArgs : list string :=
  ["-db"; "/data"; "-user-data=/home"; "--bootstrap-seal=/etc/seal"; "-process-lock"; "/run/lock"; "-c=/etc/conf"].

Abbreviation freshBootstrap :=
  (runBootstrapAdmin toyIDKey countIDs firstID 0 1 [] (Some []) 18 applianceEnv (λ _, "42") "" (λ _, None) quietGorm
     freshArgs 0 freshAppliance).

Lemma freshArgs_seal :
  match parseFlags bootstrapFlags ∅ freshArgs with
  | Ok (flags, []) => bool_decide (text flags "bootstrap-seal" defaultBootstrapSealPath = "/etc/seal")
  | _ => false
  end = true.
Proof. vm_compute. reflexivity. Qed.

