(* ===== verification/Daemon.v ===== *)
(** * The daemon (src/main.go, src/service/service.go)

    [runServer] from the lock to its return: the service container, the routers'
    start, the listener, the registration of the routes at the gateway, the address
    file, the event types at the message bus, and serving; then [run] and [main].
    What lies outside the repository (the network, the key generator, the HTTP
    server and CasaOS-Common's names) is the record [Outside]. The goroutine that listens for events is in Events.v. *)

From stdpp Require Import prelude strings gmap.
From Stdlib Require Import ZArith Lia Ascii.
From S2P Require Import Json Marshal Wire BusTypes BusClient ServiceBus Prelude GoStrings Password FileSystem Tables Store Guarantee Files Trees AuthSecurity Bootstrap FileSeal UserConfig Sessions Users Accounts Administration Resets Urls Cors Processlock Separation Databases Gateway Commands.

Local Open Scope Z_scope.
Local Open Scope m_scope.

Definition common_Version : string := "0.4.8".

(** The service container [store]; [user] is [None] for a nil service. *)
Record store := mkStore {
  gateway : Gateway.Client;
  user : option userService;
}.

(** What the routers are started with. *)
Record Handlers := mkHandlers {
  h_user : userService;
  h_cors : option CORSConfig;
  h_jwks : string;
}.

(** What [runServer] uses of code outside the repository. *)
Record Outside := mkOutside {
  o_Do : HttpRequest → M (res HttpResponse);
  o_GenerateKeyPair : M (res (PrivateKey * PublicKey));
  o_Listen : M (res string);
  o_CloseListener : M unit;
  o_GetMessageBusAddress : string → M (res string);
  o_Exchange : HttpRequestDoer;
  o_Serve : Handlers → M (option goerr);
  o_ManagementURLFilename : string;
  o_APIGatewayRoutes : string;
  o_UserServiceAddressFilename : string;
  o_JWKSPath : string;
  o_Route : Type;
  o_mkRoute : string → string → o_Route;
  o_MarshalRoute : o_Route → res string;
}.

(** [strings.TrimRight] of a single byte. *)
Fixpoint TrimRight (s : string) (c : ascii) : string :=
  match s with
  | EmptyString => ""
  | String a rest =>
     match TrimRight rest c with
     | EmptyString => if bool_decide (a = c) then "" else String a ""
     | trimmed => String a trimmed
     end
  end.

(** [V2APIPath] and [V2DocPath], set by [init] from the URL of the OpenAPI
    document's first server; [None] is the panic. *)
Definition V2Paths (serverURL : string) : option (string * string) :=
  match ParseURL serverURL with
  | None => None
  | Some u => let V2APIPath := TrimRight (Path u) "/" in Some (V2APIPath, "/doc" +:+ V2APIPath)
  end.

Section Daemon.
Context (euid : Z) (cwd : path) (umask : Z) (Out : Outside) (V2 : string * string).

(** A gateway that cannot be reached is a panic. *)
Definition NewService (RuntimePath : string) (state : State) : M (res store) :=
  ok gatewayManagement <- New cwd (o_Do Out) (o_ManagementURLFilename Out) RuntimePath or "panic";;
  generated <- o_GenerateKeyPair Out;;
  mret (Ok (mkStore gatewayManagement (NewUserService generated state))).

(** [os.WriteFile(path, data, perm)]. *)
Definition os_WriteFile (p : path) (data : string) (perm : Z) : M (res unit) :=
  ok file <- os_Create euid (Z.land perm (Z.lnot umask)) p;;
  written <- file_Write file data;;
  closed <- file_Close file;;
  mret (match written with Err e => Err e | Ok _ => closed end).

(** [SaveSetup]: the sections set from the configuration and the file written.
    [ini_Save] is the text of the file after [ReflectFrom], [None] when that fails,
    which ends the process like a failed write. *)
Definition SaveSetup (ini_Save : Config → option string) (cfg : Config) (config : string) : M (res unit) :=
  let configFilePath := if (0 <? len config)%N then config else UserServiceConfigFilePath in
  match ini_Save cfg with
  | None => mret (Err (NewError "Cfg.ReflectFrom"))
  | Some contents => ok _ <- os_WriteFile (walked cwd configFilePath) contents 438 or "Fail to save file";; mret (Ok tt)
  end.

Definition writeAddressFile (runtimePath filename address : string) : M (res path) :=
  ok _ <- mkdirAll euid (Z.land 493 (Z.lnot umask)) [] (walked cwd runtimePath);;
  let filepath := Join cwd runtimePath [filename] in
  ok _ <- os_WriteFile filepath address 384;;
  mret (Ok filepath).

Definition apiPaths : list string := ["/v1/users"; V2.1; V2.2; "/" +:+ o_JWKSPath Out].

(** [runServer] with the listener open. *)
Definition announceAndServe (RuntimePath : string) (service : store) (handlers : Handlers) (listenerAddr : string)
    : M (res string) :=
  ok _ <- registerRoutes cwd (o_Do Out) (o_ManagementURLFilename Out) (o_APIGatewayRoutes Out) (o_MarshalRoute Out)
            (gateway service) (o_mkRoute Out) listenerAddr apiPaths;;
  ok _ <- writeAddressFile RuntimePath (o_UserServiceAddressFilename Out) ("http://" +:+ listenerAddr)
            or "write user service address";;
  _ <- registerEvents (o_GetMessageBusAddress Out) (o_Exchange Out) 10 RuntimePath;;
  err <- o_Serve Out handlers;;
  match err with
  | Some e => if errors_Is e ErrServerClosed then mret (Ok "") else mret (Err (Wrap "serve user service" e))
  | None => mret (Ok "")
  end.

(** [runServer] from the reconciled state on. A list of origins that is refused is
    a panic. *)
Definition serveDaemon (cfg : Config) (state : State) : M (res string) :=
  let RuntimePath := RuntimePath (CommonInfo cfg) in
  ok service <- NewService RuntimePath state;;
  match user service with
  | None => mret (Err (NewError "initialize user service"))
  | Some userService =>
     match applyConfiguredCORS (CORSOrigins (CommonInfo cfg)) with
     | Err e => mret (Err (Wrap "panic" e))
     | Ok cors =>
        match GeneratePublicJWKS (GetKeyPair userService).2 with
        | Err e => mret (Err (Wrap "generate JWKS document" e))
        | Ok jwksJSON =>
           ok listenerAddr <- o_Listen Out or "listen for user service";;
           r <- announceAndServe RuntimePath service (mkHandlers userService cors jwksJSON) listenerAddr;;
           _ <- o_CloseListener Out;;
           mret r
        end
     end
  end.
End Daemon.

Section Main.
Context (IDKey : string → string → N → N → N → N → string)
        (next_audit_id : list CredentialEventDBModel → Z) (next_rowid : gmap Z UserDBModel → Z).
Context (euid holder : Z) (cwd : path) (getwd : option path) (umask : Z) (getenv : string → string).
Context (temp_suffix : FileSystem → string) (confSample : string) (ini_Map : string → option Config) (G : Gorm)
        (Out : Outside) (V2 : string * string).

Definition runServer (args : list string) (effectiveUID : Z) : M (res string) :=
  match parseFlags serverFlags ∅ args with
  | Err e => mret (Err e)
  | Ok (flags, rest) =>
     if negb (bool_decide (rest = [])) then mret (Err (NewError "unexpected arguments"))
     else if isSet flags "v" then mret (Ok ("v" +:+ common_Version))
     else if isSet flags "ru"
     then mret (Err (NewError "-ru is disabled because it exposed plaintext passwords"))
     else locked euid holder (text flags "process-lock" defaultProcessLockPath) effectiveUID (
       ok prepared <- prepareServer euid cwd getwd umask temp_suffix confSample ini_Map G flags effectiveUID;;
       serveDaemon euid cwd umask Out V2 prepared.1 prepared.2)
  end.

(** [run]: which function the first argument chooses. *)
Definition run (args : list string) (effectiveUID : Z) : M (res string) :=
  let bootstrapAdmin := runBootstrapAdmin IDKey next_audit_id next_rowid euid holder cwd getwd umask getenv temp_suffix
                          confSample ini_Map G in
  let resetAdminPassword := runResetAdminPassword IDKey next_audit_id euid holder cwd getwd umask getenv temp_suffix
                              confSample ini_Map G in
  let resetUserPassword := runResetUserPassword IDKey next_audit_id euid holder cwd getwd umask getenv temp_suffix
                             confSample ini_Map G in
  match args with
  | command :: rest =>
     if bool_decide (command = "bootstrap-admin") then bootstrapAdmin rest effectiveUID
     else if bool_decide (command = "reset-admin-password") then resetAdminPassword rest effectiveUID
     else if bool_decide (command = "reset-user-password") then resetUserPassword rest effectiveUID
     else runServer args effectiveUID
  | [] => runServer args effectiveUID
  end.

(** [main]: whether the exit status is zero. *)
Definition main (args : list string) : M bool := r <- run args euid;; mret (is_Ok r).
End Main.

(** ** Writing a file *)

(** Changing what a regular file holds changes no walk. *)
Lemma set_file_extends fs i c perm uid c' perm' uid' : fs_inodes fs !! i = Some (mkInode (KFile c) perm uid) →
  extends fs (set_inode i (mkInode (KFile c') perm' uid') fs).
Proof.
  intros Hi. split.
  - intros j n Hj. simpl. destruct (decide (j = i)) as [->|]; [rewrite lookup_insert_eq|rewrite lookup_insert_ne by done; eauto].
    eexists. split; [done|]. by simplify_eq.
  - intros j es Hj. exists es. split; [|done]. apply entries_inode in Hj as (p & u & Hj). apply entries_inode.
    exists p, u. simpl. rewrite lookup_insert_ne; [done|]. intros ->. congruence.
Qed.

(** What a path that is written leads to. *)
Definition holds (fs : FileSystem) (p : path) (data : string) : Prop :=
  ∃ stack, resolve maxLinks fs true [] p = inl (At stack) ∧ content fs (top stack) = Some data.

Lemma create_truncate_file euid perm p fs ino fs' : create_truncate euid perm p fs = (inl ino, fs') →
  ∃ stack, resolve maxLinks fs' true [] p = inl (At stack) ∧ top stack = ino ∧
    ∀ c perm uid, fs_inodes fs' !! ino = Some (mkInode (KFile c) perm uid) → c = "".
Proof.
  unfold create_truncate, open_rdwr. destruct (resolve maxLinks fs true [] p) as [[stack|stack name]|e] eqn:Hr; [| |done].
  - destruct (entries fs (top stack)); [done|]. intros [= <- <-]. unfold truncate.
    destruct (fs_inodes fs !! top stack) as [[k pn un]|] eqn:Hn; [|exists stack; rewrite Hn; by split_and!].
    destruct k as [|c0| |]; try (exists stack; rewrite Hn; split_and!; [exact Hr|reflexivity|by intros ? ? ? [=]]).
    exists stack. split; [|split; [reflexivity|]].
    + eapply resolve_extends; [by eapply set_file_extends|exact Hr].
    + intros c p' u. simpl. rewrite lookup_insert_eq. by intros [= <- _ _].
  - unfold create_node. destruct (entries fs (top stack)) as [es|]; [|done]. destruct (es !! name); [done|].
    intros [= <- <-]. destruct (resolve_created _ _ _ _ _ _ _ _ (mkInode (KFile "") perm euid) (new_ino_fresh fs) (λ t, ltac:(discriminate)) Hr) as [_ Hr'].
    unfold truncate. set (fs1 := set_inode _ _ _) in *.
    assert (fs_inodes fs1 !! new_ino fs = Some (mkInode (KFile "") perm euid)) as Hn by (simpl; by rewrite lookup_insert_eq).
    rewrite Hn. exists ((name, new_ino fs) :: stack). split; [|split; [reflexivity|]].
    + eapply resolve_extends; [by eapply set_file_extends|exact Hr'].
    + intros c p' u. simpl. rewrite lookup_insert_eq. by intros [= <- _ _].
Qed.

Section Announcing.
Context (euid : Z) (cwd : path) (umask : Z).

Lemma os_WriteFile_spec p data perm w : alone w →
  post (os_WriteFile euid umask p data perm) w (λ r w', files w w' ∧ (r = Ok tt → holds (w_fs w') p data)).
Proof.
  intros Hw. unfold os_WriteFile. m_step. unfold os_Create. f_step; [by split|].
  destruct (create_truncate _ _ _ _) as [[ino|e] fs1] eqn:Ho; cbn [res_of fst snd] in *; [|by split].
  apply create_truncate_file in Ho as (stack & Hr & Htop & Hempty).
  m_step. apply sys_solo; [eauto with store|..].
  - intros w2 n H2 Hs2 _. m_step. f_step; m_step; (split; [files_chain|done]).
  - intros w2 H2 Hs2. rewrite H0 in Hs2. m_step. f_step; m_step; (split; [files_chain|]); rewrite H0.
    all: rewrite (calm_fs _ _ H1); intros Hok; unfold write_file in *.
    all: destruct (fs_inodes fs1 !! ino) as [[[] pm u]|] eqn:Hn; try done.
    specialize (Hempty _ _ _ eq_refl) as ->. rewrite Hs2. exists stack. split.
    + eapply resolve_extends; [by eapply set_file_extends|done].
    + rewrite Htop. unfold content. simpl. by rewrite lookup_insert_eq.
Qed.

(** A configuration that was saved is the one the next start reads. *)
Lemma save_setup_roundtrip ini_Save ini_Map cfg config sample w : alone w →
  (∀ contents, ini_Save cfg = Some contents → ini_Map contents = Some cfg) →
  post (SaveSetup euid cwd umask ini_Save cfg config) w (λ r w1, files w w1 ∧ (r = Ok tt →
    post (InitSetup euid cwd umask ini_Map config sample) w1 (λ r' w2, files w1 w2 ∧
      match r' with Ok cfg' => cfg' = cfg | Err _ => ¬ faultless w1 end))).
Proof.
  intros Hw Hini. unfold SaveSetup. cbv zeta. set (file := walked cwd _).
  destruct (ini_Save cfg) as [contents|]; [|m_step; split; [by apply files_refl|done]].
  m_step. eapply post_mono; [by apply os_WriteFile_spec|]. cbv beta. intros r w1 (H1 & Hh).
  destruct r as [[]|e]; [|by split]. m_step. split; [done|]. intros _. destruct (Hh eq_refl) as (stack & Hr & Hc). clear Hh.
  assert (alone w1) as Hw1 by eauto with store.
  assert (read_file (top stack) (w_fs w1) = inl contents) as Hread.
  { unfold content in Hc. unfold read_file. destruct (fs_inodes (w_fs w1) !! top stack) as [[[] ? ?]|]; simpl in Hc; congruence. }
  assert (∀ w2, calm w1 w2 → w_db w2 = w_db w1 →
    post (ok contents <- os_ReadFile file or "Fail to read file";;
          match ini_Map contents with Some cfg => mret (Ok cfg) | None => mret (Err (NewError "Fail to read file")) end) w2
      (λ r' w2, files w1 w2 ∧ match r' with Ok cfg' => cfg' = cfg | Err _ => ¬ faultless w1 end)) as Hrest.
  { intros w2 Hc2 Hd2. assert (alone w2) as Hw2 by apply Hc2. m_step. unfold os_ReadFile. f_step.
    - split; [files_chain|]. intros Hf. apply H2. by apply (calm_faultless _ _ Hc2).
    - rewrite (calm_fs _ _ Hc2), Hr, Hread. cbn [res_of]. rewrite (Hini contents eq_refl). m_step. split; [files_chain|done]. }
  unfold InitSetup. cbv zeta. fold file. m_step. f_step.
  - unfold IsNotExist. cbn [goerr_of errors_Is]. apply post_try. m_step. by apply Hrest.
  - unfold path_info. rewrite Hr.
    assert (∃ info, inode_info (w_fs w1) (top stack) = Some info) as [info ->].
    { unfold content in Hc. unfold inode_info. destruct (fs_inodes (w_fs w1) !! top stack); [simpl; eauto|done]. }
    cbn [res_of]. apply post_try. m_step. by apply Hrest.
Qed.

Lemma writeAddressFile_spec runtimePath filename address w : alone w →
  post (writeAddressFile euid cwd umask runtimePath filename address) w (λ r w', files w w' ∧
    ∀ p, r = Ok p → p = Join cwd runtimePath [filename] ∧ holds (w_fs w') p address).
Proof.
  intros Hw. unfold writeAddressFile. m_step.
  eapply post_mono; [by apply mkdirAll_files|]. cbv beta. intros r w1 H1.
  destruct r as [[]|e]; [|by split]. cbv zeta. m_step.
  eapply post_mono; [apply os_WriteFile_spec; eauto with store|]. cbv beta. intros r w2 (H2 & Hh).
  assert (files w w2) as H02 by (by eapply files_trans). destruct r as [[]|e]; [|by split].
  m_step. split; [done|]. intros p [= <-]. by split; [|apply Hh].
Qed.

Lemma writeAddressFile_keeping I `{!Stable I} runtimePath filename address :
  keeping I (writeAddressFile euid cwd umask runtimePath filename address).
Proof. unfold writeAddressFile, os_WriteFile. keeping_walk. Qed.
End Announcing.

(** ** Outside the repository *)

(** The network and the key generator leave the disk and the database alone. *)
Class OutsideSpec (Out : Outside) : Prop := {
  do_quiet r : quiet (o_Do Out r);
  keys_quiet : quiet (o_GenerateKeyPair Out);
  listen_quiet : quiet (o_Listen Out);
  close_quiet : quiet (o_CloseListener Out);
  bus_quiet p : quiet (o_GetMessageBusAddress Out p);
  exchange_quiet r : quiet (o_Exchange Out r);
}.

#[export] Hint Resolve do_quiet keys_quiet listen_quiet close_quiet bus_quiet exchange_quiet : quiet.

Section Start.
Context (euid : Z) (cwd : path) (umask : Z) (Out : Outside) (V2 : string * string) `{!OutsideSpec Out}.

Lemma New_quiet p : quiet (New cwd (o_Do Out) (o_ManagementURLFilename Out) p).
Proof using OutsideSpec0.
  assert (∀ n c, quiet (awaitAddress cwd (o_ManagementURLFilename Out) n c)) as Ha.
  { induction n as [|n IH]; intros c; cbn [awaitAddress]; quiet_walk. }
  unfold New, waitForAddress, address, readBoundedFile, ping. quiet_walk.
Qed.

(** The gateway answered 201 to the authorised POST of the route of [v]. *)
Definition created (fs : FileSystem) (c : Gateway.Client) (target v : string) : Prop :=
  ∃ body req resp wa wb, o_MarshalRoute Out (o_mkRoute Out v ("http://" +:+ target)) = Ok body ∧
    requestOf cwd (o_ManagementURLFilename Out) fs c "POST" (o_APIGatewayRoutes Out) (Some body) = Some req ∧
    o_Do Out req wa = (Ok resp, wb) ∧ rp_StatusCode resp = StatusCreated.

Lemma CreateRoute_created c target v w : alone w →
  post (CreateRoute cwd (o_Do Out) (o_ManagementURLFilename Out) (o_APIGatewayRoutes Out) (o_MarshalRoute Out) c
          (Some (o_mkRoute Out v ("http://" +:+ target)))) w
    (λ r w', runs w w' ∧ w_fs w' = w_fs w ∧ w_db w' = w_db w ∧ (r = Ok tt → created (w_fs w) c target v)).
Proof using OutsideSpec0.
  intros Hw. unfold CreateRoute. destruct (o_MarshalRoute _ _) as [body|e] eqn:Hb; m_step; [|by split_and!; eauto with store].
  eapply post_mono; [by apply do_spec|]. cbv beta. intros r w2 [(req & w1 & Hq & Hc & Hd & E)|((e & -> & Hc & Hd) & _)];
    [|split_and!; [by apply calm_runs|apply Hc|done|done]].
  pose proof (do_quiet req w1 (calm_alone _ _ Hc)) as Hdo. unfold post in Hdo.
  destruct (o_Do Out req w1) as [[resp|e] w3] eqn:Hrun; injection E as -> ->; destruct Hdo as (Hr & Hf & Hdb); cbn [fst snd] in *.
  all: assert (runs w w3 ∧ w_fs w3 = w_fs w ∧ w_db w3 = w_db w) as (Hr3 & Hf3 & Hd3)
    by (split_and!; [eapply runs_trans; [by apply calm_runs|done]|rewrite Hf; apply Hc|congruence]).
  - destruct (Z.eqb_spec (rp_StatusCode resp) StatusCreated) as [Hs|]; cbn [negb]; m_step; (split_and!; [done|done|done|]); [|done].
    intros _. by exists body, req, resp, w1, w3.
  - by split_and!.
Qed.

Lemma registerRoutes_created c target paths w : alone w →
  post (registerRoutes cwd (o_Do Out) (o_ManagementURLFilename Out) (o_APIGatewayRoutes Out) (o_MarshalRoute Out) c
          (o_mkRoute Out) target paths) w
    (λ r w', runs w w' ∧ w_fs w' = w_fs w ∧ w_db w' = w_db w ∧ (r = Ok tt → Forall (created (w_fs w) c target) paths)).
Proof using OutsideSpec0.
  revert w. induction paths as [|v rest IH]; intros w Hw; cbn [registerRoutes]; [m_step; split_and!; eauto with store|].
  m_step. eapply post_mono; [by apply CreateRoute_created|]. cbv beta. intros r w1 (Hr & Hf & Hd & Hc).
  destruct r as [[]|e]; [|by split_and!]. eapply post_mono; [apply IH; by eapply runs_alone|]. cbv beta.
  intros r w2 (Hr2 & Hf2 & Hd2 & Hc2). split_and!; [by eapply runs_trans|congruence|congruence|].
  intros Hok. rewrite Hf in Hc2. constructor; auto.
Qed.

(** [target] is the address of the listener the daemon opened, on the disk and the
    database of [w]. *)
Definition listening (target : string) (w : World) : Prop :=
  ∃ wa wb, w_fs wa = w_fs w ∧ w_db wa = w_db w ∧ o_Listen Out wa = (Ok target, wb).

(** The routes lead to the daemon's own listener and the address file says where:
    the daemon is known before it serves. *)
Record announced (cfg : Config) (c : Gateway.Client) (target : string) (w wS : World) : Prop := {
  an_listener : listening target w;
  an_routes : Forall (created (w_fs w) c target) (apiPaths Out V2);
  an_address : holds (w_fs wS) (Join cwd (RuntimePath (CommonInfo cfg)) [o_UserServiceAddressFilename Out]) ("http://" +:+ target);
  an_db : w_db wS = w_db w;
}.

(** What [Serve] returned, as [runServer] reports it. *)
Definition reported (outcome : option goerr) : res string :=
  match outcome with
  | Some e => if errors_Is e ErrServerClosed then Ok "" else Err (Wrap "serve user service" e)
  | None => Ok ""
  end.

(** A start from the reconciled state in [w]: the database is left alone until the
    server runs, the disk until every route is registered, and the server runs only
    when the daemon is announced, with the reconciled state and a published key. *)
Definition started (cfg : Config) (st : State) (w : World) (r : res string) (w' : World) : Prop :=
  (∃ e, r = Err e ∧ alone w' ∧ w_db w' = w_db w ∧
     (w_fs w' = w_fs w ∨ ∃ c target, listening target w ∧ Forall (created (w_fs w) c target) (apiPaths Out V2))) ∨
  ∃ c target hs wS outcome wE,
    announced cfg c target w wS ∧ svc_initializationState (h_user hs) = st ∧
    GeneratePublicJWKS (GetKeyPair (h_user hs)).2 = Ok (h_jwks hs) ∧
    applyConfiguredCORS (CORSOrigins (CommonInfo cfg)) = Ok (h_cors hs) ∧
    (∀ ino h, lockedBy ino h (w_fs w) → lockedBy ino h (w_fs wS)) ∧
    o_Serve Out hs wS = (outcome, wE) ∧ r = reported outcome ∧ w' = snd (o_CloseListener Out wE).

Lemma announceAndServe_spec cfg service hs target w : alone w → listening target w →
  post (announceAndServe euid cwd umask Out V2 (RuntimePath (CommonInfo cfg)) service hs target) w (λ r w',
    (∃ e, r = Err e ∧ alone w' ∧ w_db w' = w_db w ∧
       (w_fs w' = w_fs w ∨ ∃ c target, listening target w ∧ Forall (created (w_fs w) c target) (apiPaths Out V2))) ∨
    ∃ wS outcome, announced cfg (gateway service) target w wS ∧
      (∀ ino h, lockedBy ino h (w_fs w) → lockedBy ino h (w_fs wS)) ∧ o_Serve Out hs wS = (outcome, w') ∧ r = reported outcome).
Proof using OutsideSpec0.
  intros Hw Hlisten. unfold announceAndServe. m_step. eapply post_mono; [by apply registerRoutes_created|]. cbv beta.
  intros r w1 (Hr1 & Hf1 & Hd1 & Hc1). pose proof (runs_alone _ _ Hr1) as Hw1.
  destruct r as [[]|e]; [|left; eauto 10]. specialize (Hc1 eq_refl).
  m_step. eapply (post_mono _ _ (λ r w2, (files w1 w2 ∧ ∀ p, r = Ok p → p = Join cwd (RuntimePath (CommonInfo cfg)) [o_UserServiceAddressFilename Out] ∧
    holds (w_fs w2) p ("http://" +:+ target)) ∧ ∀ ino h, lockedBy ino h (w_fs w1) → lockedBy ino h (w_fs w2))).
  { apply post_and; [by apply writeAddressFile_spec|]. intros ino h Hl.
    exact (kept_alone (lockedBy ino h) _ w1 (writeAddressFile_keeping _ _ _ (lockedBy ino h) _ _ _) Hw1 Hl). }
  intros r w2 [[H2 Hp] Hl]. rewrite Hf1 in Hl. destruct r as [p|e]; [|left; eexists; split_and!; [done|eauto with store|rewrite (files_db _ _ H2); congruence|eauto]].
  destruct (Hp p eq_refl) as [-> Hh]. m_step. eapply post_mono; [apply registerEvents_quiet; [apply bus_quiet|apply exchange_quiet|eauto with store]|]. cbv beta.
  intros _ w3 (Hr3 & Hf3 & Hd3). m_step. unfold post. destruct (o_Serve Out hs w3) as [outcome w4] eqn:Hs. cbn [fst snd].
  assert (announced cfg (gateway service) target w w3 ∧ ∀ ino h, lockedBy ino h (w_fs w) → lockedBy ino h (w_fs w3)) as [Ha Hl3].
  { rewrite Hf3. split; [|done]. split; [done|done|by rewrite Hf3|rewrite Hd3, (files_db _ _ H2); congruence]. }
  right. exists w3, outcome. rewrite Hs. unfold reported, mret.
  destruct outcome as [e|]; [destruct (errors_Is e ErrServerClosed)|]; by split_and!.
Qed.

Lemma serveDaemon_spec cfg st w : alone w → post (serveDaemon euid cwd umask Out V2 cfg st) w (started cfg st w).
Proof using OutsideSpec0.
  intros Hw. unfold serveDaemon. cbv zeta.
  assert (∀ e w1, alone w1 → w_fs w1 = w_fs w → w_db w1 = w_db w → started cfg st w (Err e) w1) as Hfail by (intros; left; eauto 10).
  unfold NewService. m_step. m_step. eapply post_mono; [by apply New_quiet|]. cbv beta. intros r w1 (Hr1 & Hf1 & Hd1).
  destruct r as [c|e]; [|by apply Hfail; [eapply runs_alone|..]]. m_step. eapply post_mono; [apply keys_quiet; by eapply runs_alone|]. cbv beta.
  intros generated w2 (Hr2 & Hf2 & Hd2). m_step. cbn [user gateway].
  assert (w_fs w2 = w_fs w ∧ w_db w2 = w_db w) as [Hf Hd] by (split; congruence).
  destruct (NewUserService generated st) as [us|] eqn:Hus; [|m_step; by apply Hfail; [eapply runs_alone|..]].
  assert (svc_initializationState us = st) as Hst by (unfold NewUserService in Hus; by repeat case_match; simplify_eq/=).
  destruct (applyConfiguredCORS _) as [cors|e] eqn:Hcors; [|m_step; by apply Hfail; [eapply runs_alone|..]].
  destruct (GeneratePublicJWKS _) as [jwks|e] eqn:Hj; [|m_step; by apply Hfail; [eapply runs_alone|..]].
  m_step. eapply post_mono; [apply post_result, listen_quiet; by eapply runs_alone|]. cbv beta. intros r w3 (Hlisten & Hr3 & Hf3 & Hd3).
  rewrite Hf in Hf3. rewrite Hd in Hd3. destruct r as [target|e]; [|by apply Hfail; [eapply runs_alone|..]]. m_step.
  assert (listening target w) as Hown by (by exists w2, w3).
  eapply post_mono; [apply announceAndServe_spec; [by eapply runs_alone|exists w2, w3; by rewrite Hf3, Hd3]|]. cbv beta.
  unfold listening at 1. rewrite Hf3, Hd3. fold (listening target w).
  intros r w4 [(e & -> & Hw4 & Hd4 & Hf4)|(wS & outcome & Han & Hl & Hs & ->)].
  - m_step. eapply post_mono; [by apply close_quiet, Hw4|]. cbv beta. intros u w5 (Hr5 & Hf5 & Hd5). m_step.
    left. exists e. rewrite Hf5, Hd5. split_and!; [done|by eapply runs_alone|done|done].
  - m_step. unfold post, mbind. destruct (o_CloseListener Out w4) as [u w5] eqn:Hcl. right.
    exists c, target, (mkHandlers us cors jwks), wS, outcome, w4. rewrite Hcl.
    destruct Han as [_ Hr Ha Hda]. rewrite Hf3 in Hr. rewrite Hd3 in Hda. by split_and!.
Qed.
End Start.

(** ** The life of the daemon *)

Lemma Lock_Close_inodes holder lock w : alone w →
  post (Lock_Close holder (Some lock)) w (λ _ w', files w w' ∧ fs_inodes (w_fs w') = fs_inodes (w_fs w)).
Proof.
  intros Hw. destruct lock as [[fd|]]; simpl; [|m_step; split; [by apply files_refl|done]].
  assert (∀ fs, fs_inodes (funlock holder fd fs) = fs_inodes fs) as Hf by (intros; unfold funlock; by repeat case_match).
  assert (∀ w1, files w w1 → fs_inodes (w_fs w1) = fs_inodes (w_fs w) →
    post (closeLocked holder fd) w1 (λ _ w', files w w' ∧ fs_inodes (w_fs w') = fs_inodes (w_fs w))) as Hclose.
  { intros w1 H1 Hi. apply sys_solo; [eauto with store|..]; [intros w2 n H2 Hs _|intros w2 H2 Hs];
      (split; [by eapply files_trans|]); rewrite Hs; simpl; by rewrite Hf. }
  m_step. unfold unix_Funlock. apply call_solo; [done|..]; [intros w1 H1 Hs _|intros w1 H1 Hs]; m_step;
    (eapply post_mono; [apply Hclose; [done|rewrite Hs; simpl; by rewrite ?Hf]|]); cbv beta; intros r w2 H2; by m_step.
Qed.

Section Life.
Context (euid holder : Z) (cwd : path) (getwd : option path) (umask : Z).
Context (temp_suffix : FileSystem → string) (confSample : string) (ini_Map : string → option Config)
        (G : Gorm) `{!GormSpec G} (Out : Outside) (V2 : string * string) `{!OutsideSpec Out}.

Abbreviation lockOf flags uid := (Acquire euid holder (text flags "process-lock" defaultProcessLockPath) (uint32 uid)).
Abbreviation prepare := (prepareServer euid cwd getwd umask temp_suffix confSample ini_Map G).

(** The server runs from [wS] to [wE] with everything in place. *)
Record serving (flags : gmap string string) (effectiveUID : Z) (w : World) (outcome : option goerr) : Prop := {
  sv_start : ∃ lock ino wl cfg st w1 c target hs wS wE,
    lockOf flags effectiveUID w = (Ok lock, wl) ∧ lk_file lock = Some ino ∧
    prepare flags effectiveUID wl = (Ok (cfg, st), w1) ∧ prepared getwd flags effectiveUID wl (Ok (cfg, st)) w1 ∧
    announced cwd Out V2 cfg c target w1 wS ∧ o_users (w_db wS) = o_users (w_db w) ∧
    svc_initializationState (h_user hs) = st ∧ GeneratePublicJWKS (GetKeyPair (h_user hs)).2 = Ok (h_jwks hs) ∧
    applyConfiguredCORS (CORSOrigins (CommonInfo cfg)) = Ok (h_cors hs) ∧
    lockedBy ino holder (w_fs wS) ∧ o_Serve Out hs wS = (outcome, wE);
}.

(** A start that fails before the server runs. *)
Record unserved (flags : gmap string string) (effectiveUID : Z) (w w' : World) : Prop := {
  un_users : o_users (w_db w') = o_users (w_db w);
  un_announced : ∀ lock wl cfg st w1, lockOf flags effectiveUID w = (Ok lock, wl) →
    prepare flags effectiveUID wl = (Ok (cfg, st), w1) →
    fs_inodes (w_fs w') = fs_inodes (w_fs w1) ∨
    ∃ c target, listening Out target w1 ∧ Forall (created cwd Out (w_fs w1) c target) (apiPaths Out V2);
}.

(** A run behind the lock: it ends without it. *)
Definition locked_run (flags : gmap string string) (effectiveUID : Z) (w : World) (r : res string) (w' : World) : Prop :=
  (∀ lock wl ino, lockOf flags effectiveUID w = (Ok lock, wl) → lk_file lock = Some ino →
     fs_locks (w_fs w') !! ino ≠ Some holder) ∧
  ((∃ e, r = Err e ∧ unserved flags effectiveUID w w') ∨
   ∃ outcome, serving flags effectiveUID w outcome ∧ r = reported outcome).

Definition lived (args : list string) (effectiveUID : Z) (w : World) (r : res string) (w' : World) : Prop :=
  match parseFlags serverFlags ∅ args with
  | Ok (flags, []) =>
     if isSet flags "v" then r = Ok ("v" +:+ common_Version) ∧ w' = w
     else if isSet flags "ru" then (∃ e, r = Err e) ∧ w' = w
     else locked_run flags effectiveUID w r w'
  | _ => (∃ e, r = Err e) ∧ w' = w
  end.

Lemma unserved_inodes flags effectiveUID w w2 w3 : files w2 w3 → fs_inodes (w_fs w3) = fs_inodes (w_fs w2) →
  unserved flags effectiveUID w w2 → unserved flags effectiveUID w w3.
Proof using.
  intros H3 Hi [Hu Ha]. split; [by rewrite (files_db _ _ H3)|]. intros lock wl cfg st w1 Hl Hp. rewrite Hi. by eapply Ha.
Qed.

(** The deferred [Close]. *)
Lemma close_locked flags effectiveUID w lock wl r w2 : lockOf flags effectiveUID w = (Ok lock, wl) →
  (∃ e, r = Err e ∧ alone w2 ∧ unserved flags effectiveUID w w2) ∨
  (∃ outcome, serving flags effectiveUID w outcome ∧ r = reported outcome) →
  post (_ <- Lock_Close holder (Some lock);; mret r) w2 (locked_run flags effectiveUID w).
Proof using.
  intros Hacq H. m_step.
  eapply (post_mono _ _ (λ c w3, (c.2 = Some (mkLock None) ∧ ∀ ino, lk_file lock = Some ino → fs_locks (w_fs w3) !! ino ≠ Some holder) ∧
    (alone w2 → files w2 w3 ∧ fs_inodes (w_fs w3) = fs_inodes (w_fs w2)))).
  { apply post_and; [apply Lock_Close_released|]. intros Hw. by apply Lock_Close_inodes. }
  intros c w3 [[_ Hrel] Hin]. m_step. split.
  - intros lock' wl' ino Hacq' Hino. rewrite Hacq in Hacq'. injection Hacq' as <- <-. by apply Hrel.
  - destruct H as [(e & -> & Hw & Hun)|H]; [left|by right]. destruct (Hin Hw) as [H3 Hi]. exists e. split; [done|].
    by eapply unserved_inodes.
Qed.

Lemma runServer_lived args effectiveUID w : alone w →
  (∀ flags, parseFlags serverFlags ∅ args = Ok (flags, []) → ∃ base,
     sealPath (NewFileSeal (text flags "bootstrap-seal" defaultBootstrapSealPath) (uint32 effectiveUID)) base) →
  post (runServer euid holder cwd getwd umask temp_suffix confSample ini_Map G Out V2 args effectiveUID) w
    (lived args effectiveUID w).
Proof using GormSpec0 OutsideSpec0.
  intros Hw Hsp. unfold runServer, lived.
  destruct (parseFlags serverFlags ∅ args) as [[flags rest]|e] eqn:Hp; [|m_step; eauto].
  case_bool_decide as Hrest; cbn [negb]; [subst rest|m_step; destruct rest; eauto; done].
  destruct (Hsp flags eq_refl) as [base Hpath]. destruct (isSet flags "v") eqn:Hv; [by m_step|].
  destruct (isSet flags "ru") eqn:Hru; [m_step; eauto|]. unfold locked. m_step.
  eapply post_mono; [apply post_result, post_and; [apply Acquire_held|by apply Acquire_files]|].
  cbv beta. intros [lock|e] wl (Hacq & Hh & Hl).
  2:{ split; [intros ? ? ?; by rewrite Hacq|]. left. exists e. split; [done|]. split; [by rewrite (files_db _ _ Hl)|].
      intros ? ? ? ? ?. by rewrite Hacq. }
  destruct (Hh lock eq_refl) as (ino & Hino & Hlocked). fold (lockedBy ino holder (w_fs wl)) in Hlocked.
  m_step. m_step. pose proof (files_alone _ _ Hl) as Hwl.
  eapply post_mono; [apply post_result, post_and; [by apply (prepareServer_spec _ _ _ _ _ _ _ _ _ _ base)|
    refine (kept_alone (lockedBy ino holder) _ wl _ Hwl Hlocked); apply (prepareServer_keeping _ _ _ _ _ _ _ _ (lockedBy ino holder))]|]. cbv beta.
  intros r1 w1 (Hprep & Hpd & Hl1). pose proof Hpd as (Hr1 & Hu1 & _). rewrite (files_db _ _ Hl) in Hu1.
  pose proof (runs_alone _ _ Hr1) as Hw1. destruct r1 as [[cfg st]|e].
  2:{ eapply close_locked; [done|]. left. exists e. split_and!; [done|done|]. split; [done|].
      intros ? ? ? ? ? Hacq' Hprep'. rewrite Hacq in Hacq'. injection Hacq' as <- <-. by rewrite Hprep in Hprep'. }
  cbn [fst snd]. eapply post_mono; [by apply serveDaemon_spec|]. cbv beta. intros r w2 Hst. eapply close_locked; [done|].
  destruct Hst as [(e & -> & Hw2 & Hd2 & Hf2)|(c & target & hs & wS & outcome & wE & Han & Hstate & Hj & Hc & Hkeep & Hserve & -> & _)].
  - left. exists e. split_and!; [done|done|]. split; [by rewrite Hd2|]. intros ? ? ? ? ? Hacq' Hprep'.
    rewrite Hacq in Hacq'. injection Hacq' as <- <-. rewrite Hprep in Hprep'. injection Hprep' as <- <- <-.
    destruct Hf2 as [->|Hf2]; eauto.
  - right. exists outcome. split; [|done]. split.
    exists lock, ino, wl, cfg, st, w1, c, target, hs, wS, wE. rewrite (an_db _ _ _ _ _ _ _ _ Han). split_and!; eauto.
Qed.
End Life.

(** ** Properties *)

(** C31. The life of the daemon, from the command line to its return, for a seal path
    that is absolute and clean, while no other process changes the files and the
    database. Asked for its version it answers and touches nothing;
    bad arguments and the disabled reset change nothing either. Otherwise it ends
    without the process lock however it ends, and either fails before serving, and
    then no account changed and nothing was written after the state was reconciled
    unless every route had been registered for the address of its listener, or the
    server ran: with the lock held when it began to serve, the seal outside the
    database, marker, accounts and seal agreeing on the state it serves, a published
    key, an accepted list of origins, a listener opened, all four routes accepted by
    the gateway for exactly the address of that listener, and the address file
    holding it; and what the server returned is what is reported. The message bus
    decides nothing of this. *)
Theorem daemon_lifecycle (IDKey : string → string → N → N → N → N → string)
    (next_audit_id : list CredentialEventDBModel → Z) (next_rowid : gmap Z UserDBModel → Z)
    (euid holder : Z) (cwd : path) (getwd : option path) (umask : Z)
    (getenv : string → string) (temp_suffix : FileSystem → string) (confSample : string)
    (ini_Map : string → option Config) (G : Gorm) (Out : Outside) (V2 : string * string)
    (args : list string) (effectiveUID : Z) (w : World) :
  GormSpec G → OutsideSpec Out → alone w →
  match args with
  | command :: _ => command ∉ ["bootstrap-admin"; "reset-admin-password"; "reset-user-password"]
  | [] => True
  end →
  (∀ flags, parseFlags serverFlags ∅ args = Ok (flags, []) → ∃ base,
     sealPath (NewFileSeal (text flags "bootstrap-seal" defaultBootstrapSealPath) (uint32 effectiveUID)) base) →
  let start := run IDKey next_audit_id next_rowid euid holder cwd getwd umask getenv temp_suffix confSample ini_Map G Out V2
                 args effectiveUID w in
  lived euid holder cwd getwd umask temp_suffix confSample ini_Map G Out V2 args effectiveUID w (fst start) (snd start).
Proof.
  intros HG HO Hw Hargs Hsp start.
  assert (start = runServer euid holder cwd getwd umask temp_suffix confSample ini_Map G Out V2 args effectiveUID w) as ->.
  { unfold start, run. destruct args as [|command rest]; [done|].
    rewrite !not_elem_of_cons in Hargs. destruct Hargs as (H1 & H2 & H3 & _). by rewrite !bool_decide_eq_false_2. }
  by apply runServer_lived.
Qed.

(** An appliance with a gateway that accepts every route, and a server that is
    closed. *)
Definition gatewayFiles : FileSystem := mkFS (
  <[2 := mkInode (KDir {["management.url" := 11; "gateway.token" := 12]}) 493 0]>
  (<[11 := mkInode (KFile "http://127.0.0.1:80") 420 0]>
  (<[12 := mkInode (KFile "token") 256 0]> (fs_inodes applianceFiles)))) ∅.

Definition connectedAppliance : World := w_set_fs gatewayFiles appliance.

Definition friendlyOutside : Outside := mkOutside
  (λ r, mret (Ok (mkHttpResponse (if bool_decide (rq_Method r = "GET") then StatusOK else StatusCreated) "" false)))
  (mret (Ok (toyPrivate, toyKey))) (mret (Ok "127.0.0.1:8080")) (mret tt)
  (λ _, mret (Err (NewError "no message bus"))) (λ _, mret (Err (NewError "connection refused")))
  (λ _, mret (Some (Sentinel ErrServerClosed)))
  "management.url" "/v1/gateway/routes" "user-service.url" ".well-known/jwks.json"
  (string * string) pair (λ r, Ok r.1).

#[export] Instance friendlyOutside_spec : OutsideSpec friendlyOutside.
Proof. split; intros; apply quiet_ret. Qed.

Definition applianceConfig : Config := mkConfig (mkCommon "/run" "") (mkAPP "" "" "" "/data" "/data").

Abbreviation applianceStart args :=
  (run toyIDKey countIDs firstID 0 1 [] (Some []) 18 applianceEnv (λ _, "42") "" (λ _, Some applianceConfig) quietGorm
     friendlyOutside (default ("", "") (V2Paths "/v2/users")) args 0 connectedAppliance).

Lemma applianceArgs_flags :
  match parseFlags serverFlags ∅ applianceArgs with
  | Ok (flags, []) => negb (isSet flags "v") && negb (isSet flags "ru") &&
                      bool_decide (text flags "bootstrap-seal" defaultBootstrapSealPath = "/etc/seal")
  | _ => false
  end = true.
Proof. vm_compute. reflexivity. Qed.

(** The configuration a start works with is what the parser read. *)
Lemma prepared_config flags uid wl cfg st w1 :
  prepareServer 0 [] (Some []) 18 (λ _, "42") "" (λ _, Some applianceConfig) quietGorm flags uid wl = (Ok (cfg, st), w1) →
  cfg = applianceConfig.
Proof.
  intros H. assert (post (prepareServer 0 [] (Some []) 18 (λ _, "42") "" (λ _, Some applianceConfig) quietGorm flags uid) wl
    (λ r _, ∀ c s, r = Ok (c, s) → c = applianceConfig)) as Hp; [clear|exact (post_run _ _ _ Hp _ _ H cfg st eq_refl)].
  unfold prepareServer, post, try, mbind, mret.
  destruct (InitSetup 0 [] 18 (λ _, Some applianceConfig) (text flags "c" "") "" wl) as [[c|e] w2] eqn:E; [|done].
  assert (c = applianceConfig) as ->.
  { revert E. unfold InitSetup, try, try_wrap, mbind, mret. repeat case_match; naive_solver. }
  unfold try_wrap, mbind, mret. intros c s. repeat (case_match; simplify_eq/=); naive_solver.
Qed.

Lemma daemon_lifecycle_witness :
  fst (applianceStart applianceArgs) = Ok "" ∧
  ∃ flags outcome, serving 0 1 [] (Some []) 18 (λ _, "42") "" (λ _, Some applianceConfig) quietGorm friendlyOutside
    (default ("", "") (V2Paths "/v2/users")) flags 0 connectedAppliance outcome ∧
    ∃ wS, holds (w_fs wS) (Join [] "/run" ["user-service.url"]) "http://127.0.0.1:8080".
Proof.
  assert (fst (applianceStart applianceArgs) = Ok "") as E by (vm_compute; reflexivity).
  split; [exact E|].
  pose proof (daemon_lifecycle toyIDKey countIDs firstID 0 1 [] (Some []) 18 applianceEnv (λ _, "42") ""
     (λ _, Some applianceConfig) quietGorm friendlyOutside (default ("", "") (V2Paths "/v2/users")) applianceArgs 0 connectedAppliance
     quietGorm_spec friendlyOutside_spec (λ n, conj (λ _, eq_refl) (λ _, eq_refl))) as H.
  pose proof applianceArgs_flags as Hf. unfold lived in H.
  destruct (parseFlags serverFlags ∅ applianceArgs) as [[flags [|]]|]; try discriminate Hf.
  exists flags. rewrite E in H. apply andb_true_iff in Hf as [[Hv%negb_true_iff Hr%negb_true_iff]%andb_true_iff Hseal%bool_decide_eq_true].
  rewrite Hv, Hr in H. destruct H as [_ [(e & [=] & _)|(outcome & Hs & _)]].
  - unfold applianceArgs. rewrite !not_elem_of_cons. split_and!; [discriminate..|apply not_elem_of_nil].
  - intros flags' [= <-]. by apply appliance_seal_path.
  - exists outcome. split; [exact Hs|].
    destruct Hs as [(lock & ino & wl & cfg & st & w1 & c & target & hs & wS & wE & _ & _ & Hp & _ & Han & _)].
    exists wS. destruct Han as [(wa & wb & _ & _ & Hlisten) _ Ha _].
    assert (target = "127.0.0.1:8080") as -> by (injection Hlisten; intros; by subst).
    assert (cfg = applianceConfig) as -> by (by apply prepared_config in Hp). exact Ha.
Defined.
