(* ===== verification/Utilities.v ===== *)
(** * Small parts

    The request log (src/route/logging.go), the documentation pages (src/route/v2.go),
    the random string helper (src/pkg/utils/random/random.go) and the upload of a file
    (src/service/user.go). *)

From stdpp Require Import prelude strings gmap.
From Stdlib Require Import ZArith Lia Ascii.
From S2P Require Import Prelude GoStrings FileSystem Tables Store Files Databases Handlers Daemon.

Local Open Scope string_scope.

(** ** The request log *)

Definition safeRequestLogFormat : string :=
  "time=${time_rfc3339} method=${method} route=${route} status=${status} latency=${latency_human}" +:+ String byte_LF "".

(** A template in the notation of echo's logger: text, and tags between "${" and
    "}". [None] while outside of a tag, the name read so far inside. *)
Fixpoint template (inside : option string) (s : string) : list (string + string) :=
  match s with
  | EmptyString => []
  | String a r =>
     match inside with
     | Some name => if bool_decide (a = "}"%char) then inr name :: template None r else template (Some (name +:+ String a "")) r
     | None =>
        match r with
        | String b r' => if bool_decide (a = "$"%char) && bool_decide (b = "{"%char) then template (Some "") r'
                         else inl (String a "") :: template None r
        | EmptyString => [inl (String a "")]
        end
     end
  end.

(** The line that is written of a request, given what each tag stands for. *)
Fixpoint expand (value : string → string) (t : list (string + string)) : string :=
  match t with
  | [] => ""
  | inl text :: rest => text +:+ expand value rest
  | inr tag :: rest => value tag +:+ expand value rest
  end.

Definition safeRequestLogger (value : string → string) : string := expand value (template None safeRequestLogFormat).

Definition tags (t : list (string + string)) : list string := omap (λ x, match x with inr tag => Some tag | inl _ => None end) t.

Lemma expand_tags value value' t : (∀ tag, tag ∈ tags t → value tag = value' tag) → expand value t = expand value' t.
Proof.
  induction t as [|[text|tag] t IH]; simpl; intros H; [done|by rewrite IH|].
  rewrite (H tag) by (by left). f_equal. apply IH. intros tag' Hin. apply H. by right.
Qed.

(** The log never depends on the request URI, a header or a query, where tokens and
    other secrets may be: two requests that agree in time, method, route template,
    status and latency leave the same line. *)
Lemma log_blind value value' :
  (∀ tag, tag ∈ ["time_rfc3339"; "method"; "route"; "status"; "latency_human"] → value tag = value' tag) →
  safeRequestLogger value = safeRequestLogger value'.
Proof. intros H. apply expand_tags. intros tag Hin. apply H. exact Hin. Qed.

Example log_line :
  safeRequestLogger (λ tag, if bool_decide (tag = "uri") then "/v1/users?token=secret" else if bool_decide (tag = "route") then "/v1/users" else "-") =
  "time=- method=- route=/v1/users status=- latency=-" +:+ String byte_LF "".
Proof. vm_compute. reflexivity. Qed.

(** ** The documentation pages *)

(** The handler: the status and the body; [written] is whether the response could be
    written, and the implicit status is 200. *)
Definition InitV2DocRouter (V2DocPath docHTML docYAML path : string) (written : bool) : Z * string :=
  let respond body := (if written then StatusOK else StatusInternalServerError, body) in
  if bool_decide (path = V2DocPath) then respond docHTML
  else if bool_decide (path = V2DocPath +:+ "/openapi.yaml") then respond docYAML
  else (StatusOK, "").

(** ** Random strings *)

Definition letters (onlyLetter : bool) : string :=
  if onlyLetter then "abcdefghijklmnopqrstuvwxyzABCDEFGHIJKLMNOPQRSTUVWXYZ"
  else "abcdefghijklmnopqrstuvwxyzABCDEFGHIJKLMNOPQRSTUVWXYZ0123456789".

(** [rand.Intn(n)], as the number of the draw decides. *)
Fixpoint randomFrom (Intn : nat → nat → nat) (alphabet : string) (k draw : nat) : string :=
  match k with
  | O => ""
  | S k' => take_bytes 1 (drop_bytes (Intn draw (String.length alphabet)) alphabet) +:+ randomFrom Intn alphabet k' (S draw)
  end.

(** [None] where [make] panics. *)
Definition RandomString (Intn : nat → nat → nat) (n : Z) (onlyLetter : bool) : option string :=
  if (n <? 0)%Z then None else Some (randomFrom Intn (letters onlyLetter) (Z.to_nat n) 0).

Lemma all_bytes_take p k s : all_bytes p s = true → all_bytes p (take_bytes k s) = true.
Proof. rewrite <- (take_drop_bytes k s) at 1. rewrite all_bytes_app. by intros [? _]%andb_true_iff. Qed.

Lemma all_bytes_drop p k s : all_bytes p s = true → all_bytes p (drop_bytes k s) = true.
Proof. rewrite <- (take_drop_bytes k s) at 1. rewrite all_bytes_app. by intros [_ ?]%andb_true_iff. Qed.

Lemma RandomString_spec Intn n onlyLetter : (∀ draw bound, (0 < bound)%nat → (Intn draw bound < bound)%nat) → (0 ≤ n)%Z →
  ∃ s, RandomString Intn n onlyLetter = Some s ∧ Z.of_nat (String.length s) = n ∧
    all_bytes (λ a, contains_byte a (letters onlyLetter)) s = true.
Proof.
  intros HI Hn. unfold RandomString. destruct (Z.ltb_spec n 0); [lia|]. eexists. split; [done|].
  assert (∀ alphabet k draw, (0 < String.length alphabet)%nat →
    String.length (randomFrom Intn alphabet k draw) = k ∧
    ∀ p, all_bytes p alphabet = true → all_bytes p (randomFrom Intn alphabet k draw) = true) as Hall.
  { intros alphabet k. induction k as [|k IH]; intros draw Hl; [done|]. cbn [randomFrom].
    destruct (IH (S draw) Hl) as [Hlen Hp]. specialize (HI draw _ Hl). split.
    - rewrite string_length_app, Hlen, take_bytes_length; [lia|].
      pose proof (f_equal String.length (take_drop_bytes (Intn draw (String.length alphabet)) alphabet)) as E.
      rewrite string_length_app, take_bytes_length in E by lia. lia.
    - intros p Ha. rewrite all_bytes_app, Hp, andb_true_r by done. by apply all_bytes_take, all_bytes_drop. }
  destruct (Hall (letters onlyLetter) (Z.to_nat n) 0%nat) as [Hlen Hp]; [destruct onlyLetter; simpl; lia|].
  split; [rewrite Hlen; lia|]. apply Hp. by destruct onlyLetter.
Qed.

(** ** Uploads *)

(** [UpLoadFile]: the errors of opening and of copying are dropped. [file] is what
    the multipart file holds. *)
Definition UpLoadFile (euid : Z) (cwd : path) (umask : Z) (file url : string) : M (res unit) :=
  (_ <- os_WriteFile euid umask (walked cwd url) file 420;; mret (Ok tt))%m.

(** Success is all it reports, whether or not anything was stored. *)
Lemma UpLoadFile_reports euid cwd umask file url w : fst (UpLoadFile euid cwd umask file url w) = Ok tt.
Proof. unfold UpLoadFile, mbind. by destruct (os_WriteFile _ _ _ _ _ w). Qed.
