(* ===== verification/Events.v ===== *)
(** * Events (src/service/event.go, src/route/v2/api_route_event.go,
    src/route/event_listen.go)

    The table of storage events, the three endpoints on it, and the listener that
    fills it from the message bus. *)

From stdpp Require Import prelude strings gmap.
From Stdlib Require Import ZArith Lia Ascii.
From S2P Require Import Json Marshal Prefixes Wire BusTypes Prelude GoStrings Password FileSystem Tables Store Guarantee AuthSecurity Bootstrap Sessions Issue Users Handlers.

Local Open Scope Z_scope.
Local Open Scope m_scope.

(** [time.Now().UnixMilli()]. *)
Definition UnixMilli (t : Z) : Z := t / 1000000 - unixEpoch * 1000.

Definition zeroEvent : EventModel := mkEvent "" "" "" "" 0.

(** The entry "serial" of the properties, decoded into a map: [None] when the text is
    no such object, the empty text when the key is absent. *)
Definition serialOf (properties : string) : option string :=
  match unmarshalInto (λ v, decodeMap ("", v)) (Some ∅) properties with
  | None => None
  | Some m => Some (default "" (default ∅ m !! "serial"))
  end.

(** gorm fills an empty creation time; an insert that fails is not reported. *)
Definition CreateEvemt (m : EventModel) : M EventModel :=
  now <- time_Now;;
  let m := if em_Timestamp m =? 0
           then mkEvent (em_UUID m) (em_SourceID m) (em_Name m) (em_Properties m) (UnixMilli now) else m in
  _ <- exec (λ db, match events db !! em_UUID m with
                   | Some _ => (Err (StoreError ConstraintFailed), db)
                   | None => (Ok tt, with_events <[em_UUID m := m]> db)
                   end);;
  mret m.

Definition GetEvents : M (list EventModel) :=
  list <- query (λ db, Ok (map_to_list (events db)).*2);;
  mret (match list with Ok l => l | Err _ => [] end).

Definition withUUID (uuid : string) (m : EventModel) : bool := bool_decide (em_UUID m = uuid).

Definition GetEventByUUID (uuid : string) : M EventModel :=
  found <- query (λ db, match events db !! uuid with Some m => Ok m | None => Err ErrRecordNotFound end);;
  mret (match found with Ok m => m | Err _ => zeroEvent end).

Definition DeleteEvent (uuid : string) : M unit :=
  _ <- execute (with_events (delete_where (withUUID uuid)));; mret tt.

(** The events of one disk. *)
Definition ofSerial (serial : string) (m : EventModel) : bool :=
  bool_decide (em_SourceID m = "local-storage") &&
  match serialOf (em_Properties m) with Some s => bool_decide (s = serial) | None => false end.

(** The loop over the rows read before: each deletion is a statement of its own;
    gorm refuses one without a primary key. *)
Fixpoint deleteEach (serial : string) (list : list EventModel) : M unit :=
  match list with
  | [] => mret tt
  | v :: rest =>
     if ofSerial serial v then
       _ <- (if bool_decide (em_UUID v = "") then mret (Err (Sentinel ErrMissingWhereClause))
             else execute (with_events (delete_where (withUUID (em_UUID v)))));;
       deleteEach serial rest
     else deleteEach serial rest
  end.

Definition DeleteEventBySerial (serial : string) : M unit :=
  list <- GetEvents;; deleteEach serial list.

(** ** The endpoints *)

Definition v2_DeleteEvent (uuid : string) : M (Z * EventModel) :=
  m <- GetEventByUUID uuid;;
  _ <- DeleteEvent uuid;;
  mret (StatusOK, m).

Definition v2_GetEvents : M (Z * list EventModel) := list <- GetEvents;; mret (StatusOK, list).

Definition v2_DeleteEventBySerial (serial : string) : M (Z * string) :=
  _ <- DeleteEventBySerial serial;; mret (StatusOK, serial).

(** ** The listener *)

(** [strings.ReplaceAll(s, sub, "")] of a text that is not empty; [skip] bytes of a
    match are still to be passed over. *)
Fixpoint remove_all (sub : string) (skip : nat) (s : string) : string :=
  match s, skip with
  | EmptyString, _ => ""
  | String _ rest, S skip' => remove_all sub skip' rest
  | String a rest, O =>
     if has_prefix sub s then remove_all sub (String.length sub - 1) rest else String a (remove_all sub 0 rest)
  end.

Section Listener.
(** [time.Time]'s [UnmarshalJSON] of the text of a value. *)
Context (UnmarshalTime : string → option Z).

(** The members up to the first timestamp that is no time, whose error ends the
    decoding; an error of any other member lets it go on. *)
Fixpoint untilBadTime (members : list (string * (string * json))) : list (string * (string * json)) :=
  match members with
  | [] => []
  | member :: rest =>
     if bool_decide (fold_name member.1 = "timestamp") && (decodeTime UnmarshalTime member.2 None).2 then []
     else member :: untilBadTime rest
  end.

(** The event variable after [json.Unmarshal] of the bytes, whether or not it
    reported an error; a text that is no JSON leaves it as it was. *)
Definition received (msg : string) : BusTypes.Event :=
  match unmarshal msg with
  | None => zeroBusEvent
  | Some (JObject members) => (decodeEvent UnmarshalTime (JObject (untilBadTime members)) zeroBusEvent).1
  | Some v => (decodeEvent UnmarshalTime v zeroBusEvent).1
  end.

(** One turn of the inner loop, on the bytes [ws.Read] delivered, none when it
    failed: errors are logged and the turn goes on. [None] is the panic of reading
    through the nil pointer [event.Uuid]. *)
Definition listenTurn (msg : string) : M (option unit) :=
  let event := received msg in
  match ev_Uuid event with
  | None => mret None
  | Some uuid =>
     let model := mkEvent uuid (ev_SourceID event) (ev_Name event) (marshal (ev_Properties event)) 0 in
     if bool_decide (ev_Name event = "local-storage:raid_status") then mret (Some tt)
     else _ <- CreateEvemt model;; mret (Some tt)
  end.

(** How the goroutine stands: it came back, it panicked, or it is still reading. *)
Inductive ended := Returned | Panicked | Reading.

(** [turns] turns of the inner loop, which has no exit, over what the successive
    reads deliver. *)
Fixpoint listen (turns : nat) (reads : nat → string) (k : nat) : M ended :=
  match turns with
  | O => mret Reading
  | S turns' =>
     turn <- listenTurn (reads k);;
     match turn with
     | None => mret Panicked
     | Some _ => listen turns' reads (S k)
     end
  end.

(** [external.GetMessageBusAddress] of the runtime path, and [websocket.Dial] with
    what the connection's reads will deliver. *)
Context (GetMessageBusAddress : M (res string)) (Dial : string → M (res (nat → string))).

Definition wsURL (messageBusUrl : string) : string :=
  "ws://" +:+ remove_all "http://" 0 messageBusUrl +:+ "/event/" +:+ "local-storage".

(** The outer loop; a second passes behind a dial that failed. *)
Fixpoint connect (attempts turns : nat) : M ended :=
  match attempts with
  | O => mret Returned
  | S attempts' =>
     found <- GetMessageBusAddress;;
     match found with
     | Err _ => mret Returned
     | Ok messageBusUrl =>
        ws <- Dial (wsURL messageBusUrl);;
        match ws with
        | Err _ => connect attempts' turns
        | Ok reads => listen turns reads 0
        end
     end
  end.

Definition EventListen (turns : nat) : M ended := connect 1000 turns.
End Listener.

(** ** What the table keeps *)

(** Rows are filed under their own identifier. *)
Definition events_keyed (m : gmap string EventModel) : Prop := ∀ k e, m !! k = Some e → em_UUID e = k.

(** Nothing but the events changes. *)
Definition only_events (db db' : Database) : Prop := db' = with_events (λ _, events db') db.

Lemma only_events_with f db : only_events db (with_events f db).
Proof. done. Qed.

Lemma only_events_refl db : only_events db db.
Proof. by destruct db. Qed.

Lemma only_events_trans db1 db2 db3 : only_events db1 db2 → only_events db2 db3 → only_events db1 db3.
Proof. unfold only_events. intros H1 H2. rewrite H2, H1. done. Qed.

Lemma delete_uuid m uuid : events_keyed m → delete_where (withUUID uuid) m = delete uuid m.
Proof.
  intros Hk. apply map_eq. intros k. destruct (decide (k = uuid)) as [->|Hne].
  - rewrite lookup_delete_eq. destruct (delete_where (withUUID uuid) m !! uuid) as [e|] eqn:E; [|done].
    apply lookup_delete_where in E as [E Hu]. unfold withUUID in Hu. apply bool_decide_eq_false in Hu. by apply Hk in E.
  - rewrite lookup_delete_ne by done. destruct (m !! k) as [e|] eqn:E.
    + apply lookup_delete_where. split; [done|]. unfold withUUID. apply bool_decide_eq_false. apply Hk in E. congruence.
    + destruct (delete_where (withUUID uuid) m !! k) as [e|] eqn:E'; [|done]. apply lookup_delete_where in E' as [? _]. congruence.
Qed.

Lemma keyed_delete_where p m : events_keyed m → events_keyed (delete_where p m).
Proof. intros Hk k e [H _]%lookup_delete_where. by apply Hk. Qed.

(** The rows a deletion by serial removes. *)
Definition removable (serial : string) (e : EventModel) : bool :=
  ofSerial serial e && negb (bool_decide (em_UUID e = "")).

Section Serial.
Context (serial : string).

(** The loop removes what is removable among the rows of its list; a statement that
    fails leaves its row. *)
Lemma deleteEach_spec l w : alone w → events_keyed (events (w_db w)) →
  post (deleteEach serial l) w (λ _ w', calm w w' ∧ only_events (w_db w) (w_db w') ∧
    (∀ k e, events (w_db w') !! k = Some e → events (w_db w) !! k = Some e) ∧
    (∀ k e, events (w_db w) !! k = Some e → (∀ v, v ∈ l → removable serial v = true → em_UUID v ≠ k) →
       events (w_db w') !! k = Some e) ∧
    (faultless w → ∀ v, v ∈ l → removable serial v = true → events (w_db w') !! em_UUID v = None)).
Proof.
  revert w. induction l as [|v l IH]; intros w Hw Hk; cbn [deleteEach].
  { m_step. split_and!; [eauto with store|apply only_events_refl|done|done|by intros _ v ?%elem_of_nil]. }
  assert (∀ w1, calm w w1 → w_db w1 = w_db w → removable serial v = false ∨ ¬ faultless w →
    post (deleteEach serial l) w1 (λ _ w', calm w w' ∧ only_events (w_db w) (w_db w') ∧
      (∀ k e, events (w_db w') !! k = Some e → events (w_db w) !! k = Some e) ∧
      (∀ k e, events (w_db w) !! k = Some e → (∀ v', v' ∈ v :: l → removable serial v' = true → em_UUID v' ≠ k) →
         events (w_db w') !! k = Some e) ∧
      (faultless w → ∀ v', v' ∈ v :: l → removable serial v' = true → events (w_db w') !! em_UUID v' = None))) as Hskip.
  { intros w1 Hc Hd Hv. eapply post_mono; [apply IH; [eauto with store|by rewrite Hd]|]. cbv beta. rewrite Hd.
    intros _ w2 (Hc2 & Ho & Hsub & Hkeep & Hgone).
    split_and!; [eauto using calm_trans with store|done|done|intros k e He Hn; apply Hkeep; [done|]; intros v' Hv'; apply Hn; by right|].
    intros Hfl v' [->|Hin]%elem_of_cons Hr; [destruct Hv; [congruence|done]|].
    apply Hgone; [by apply (calm_faultless _ _ Hc)|done|done]. }
  destruct (ofSerial serial v) eqn:Hs; [|apply Hskip; [eauto with store|done|left; unfold removable; by rewrite Hs]].
  case_bool_decide as Hu; m_step; [m_step; apply Hskip; [eauto with store|done|left; unfold removable; by rewrite Hs, bool_decide_eq_true_2]|].
  m_step; [apply Hskip; [done|done|by right]|].
  assert (removable serial v = true) as Hr by (unfold removable; by rewrite Hs, bool_decide_eq_false_2).
  eapply post_mono; [apply IH; [eauto with store|rewrite H0; by apply keyed_delete_where]|]. cbv beta. rewrite H0. simpl.
  rewrite (delete_uuid _ _ Hk). intros _ w2 (Hc2 & Ho & Hsub & Hkeep & Hgone). split_and!.
  - eauto using calm_trans with store.
  - eapply only_events_trans; [apply only_events_with|exact Ho].
  - intros k e He. apply Hsub, lookup_delete_Some in He. by destruct He.
  - intros k e He Hn. apply Hkeep; [|intros v' Hv'; apply Hn; by right]. rewrite lookup_delete_ne; [done|]. apply Hn; [by left|done].
  - intros Hfl v' [->|Hin]%elem_of_cons Hr'; [|apply Hgone; [by apply (calm_faultless _ _ H)|done|done]].
    destruct (events (w_db w2) !! em_UUID v) as [e|] eqn:He; [|done]. apply Hsub in He. by rewrite lookup_delete_eq in He.
Qed.
End Serial.

Lemma DeleteEventBySerial_spec serial w : alone w → events_keyed (events (w_db w)) →
  post (DeleteEventBySerial serial) w (λ _ w', only_events (w_db w) (w_db w') ∧
    (∀ k e, events (w_db w') !! k = Some e → events (w_db w) !! k = Some e) ∧
    (∀ k e, events (w_db w) !! k = Some e → removable serial e = false → events (w_db w') !! k = Some e) ∧
    (faultless w → events (w_db w') = delete_where (removable serial) (events (w_db w)))).
Proof.
  intros Hw Hk. unfold DeleteEventBySerial, GetEvents. do 3 m_step; m_step.
  { cbn [deleteEach]. m_step. rewrite H0. split_and!; [apply only_events_refl|done|done|]. intros Hfl. by destruct H1. }
  eapply post_mono; [apply deleteEach_spec; [eauto with store|by rewrite H0]|]. cbv beta. rewrite H0.
  intros _ w2 (_ & Ho & Hsub & Hkeep & Hgone).
  assert (∀ k e, events (w_db w) !! k = Some e ↔ e ∈ (map_to_list (events (w_db w))).*2 ∧ em_UUID e = k) as Hin.
  { intros k e. rewrite list_elem_of_fmap. split.
    - intros He. split; [|by apply Hk]. exists (k, e). split; [done|]. by apply elem_of_map_to_list.
    - intros [([k' e'] & -> & He%elem_of_map_to_list) <-]. simpl. by rewrite (Hk _ _ He). }
  assert (∀ k e, events (w_db w) !! k = Some e → removable serial e = false → events (w_db w2) !! k = Some e) as Hother.
  { intros k e He Hr. apply Hkeep; [done|]. intros v Hv Hrv <-.
    assert (events (w_db w) !! em_UUID v = Some v) by (by apply Hin). congruence. }
  split_and!; [done|done|done|]. intros Hfl. apply map_eq. intros k.
  destruct (events (w_db w2) !! k) as [e|] eqn:E.
  - symmetry. apply lookup_delete_where. pose proof (Hsub _ _ E) as He. split; [done|].
    destruct (removable serial e) eqn:Hr; [|done]. pose proof He as [Hl <-]%Hin.
    rewrite Hgone in E; [done|by apply (calm_faultless _ _ H)|done|done].
  - destruct (delete_where _ _ !! k) as [e|] eqn:E'; [|done]. apply lookup_delete_where in E' as [He Hr].
    by rewrite (Hother _ _ He Hr) in E.
Qed.

(** The properties of an event are read back from the row. *)
Lemma serialOf_marshal (properties : stringMap) : clean_map properties →
  serialOf (marshal properties) = Some (default "" (default ∅ properties !! "serial")).
Proof.
  intros Hc. unfold serialOf, marshal, unmarshalInto. cbn [toDoc Wire_map].
  rewrite unmarshal_print by (pose proof (map_depth properties); unfold maxNestingDepth; lia).
  destruct properties as [m|]; [|done]. pose proof (wire_read (Some m : stringMap) Hc) as Hr.
  assert (decodeMap ("", valueOf (mapDoc (Some m))) (Some ∅) = (Some m, false)) as -> by exact Hr. done.
Qed.

Lemma removable_sent m (properties : stringMap) : em_SourceID m = "local-storage" → em_UUID m ≠ "" →
  em_Properties m = marshal properties → clean_map properties →
  removable (default "" (default ∅ properties !! "serial")) m = true.
Proof.
  intros Hs Hu Hp Hc. unfold removable, ofSerial. rewrite Hs, Hp, serialOf_marshal by done.
  by rewrite (bool_decide_eq_false_2 (em_UUID m = "")), !bool_decide_eq_true_2.
Qed.

Lemma CreateEvemt_spec m w : alone w → faultless w →
  post (CreateEvemt m) w (λ r w', em_UUID r = em_UUID m ∧ em_Name r = em_Name m ∧ em_Properties r = em_Properties m ∧
    em_SourceID r = em_SourceID m ∧ calm w w' ∧
    w_db w' = if events (w_db w) !! em_UUID m then w_db w else with_events <[em_UUID m := r]> (w_db w)).
Proof.
  intros Hw Hfl. unfold CreateEvemt. do 2 m_step. cbv zeta. m_step. m_step; [done|]. m_step.
  destruct (em_Timestamp m =? 0); cbn [em_UUID em_Name em_Properties em_SourceID] in *;
    (split_and!; [done..|]); rewrite H0; by destruct (events (w_db w) !! em_UUID m).
Qed.

(** The endpoints, with faults and without. *)
Lemma v2_DeleteEvent_spec uuid w : alone w → events_keyed (events (w_db w)) →
  post (v2_DeleteEvent uuid) w (λ r w',
    (w_db w' = w_db w ∨ w_db w' = with_events (delete uuid) (w_db w)) ∧
    (faultless w → r = (StatusOK, default zeroEvent (events (w_db w) !! uuid)) ∧ w_db w' = with_events (delete uuid) (w_db w))).
Proof.
  intros Hw Hk. unfold v2_DeleteEvent, GetEventByUUID, DeleteEvent.
  assert (with_events (delete_where (withUUID uuid)) (w_db w) = with_events (delete uuid) (w_db w)) as Hdel
    by (unfold with_events; by rewrite (delete_uuid _ _ Hk)).
  do 3 m_step; do 4 m_step; do 2 m_step; store_solve; intros Hfl; try done.
  - destruct H3. by apply (calm_faultless _ _ H).
  - split; [by destruct (events (w_db w) !! uuid)|congruence].
Qed.

Lemma v2_GetEvents_spec w : alone w →
  post v2_GetEvents w (λ r w', w_db w' = w_db w ∧ (faultless w → r = (StatusOK, (map_to_list (events (w_db w))).*2))).
Proof. intros Hw. unfold v2_GetEvents, GetEvents. do 4 m_step; m_step; split; try done; congruence. Qed.

Lemma v2_DeleteEventBySerial_spec serial w : alone w → events_keyed (events (w_db w)) →
  post (v2_DeleteEventBySerial serial) w (λ r w', r = (StatusOK, serial) ∧ only_events (w_db w) (w_db w') ∧
    (∀ k e, events (w_db w') !! k = Some e → events (w_db w) !! k = Some e) ∧
    (∀ k e, events (w_db w) !! k = Some e → removable serial e = false → events (w_db w') !! k = Some e) ∧
    (faultless w → events (w_db w') = delete_where (removable serial) (events (w_db w)))).
Proof.
  intros Hw Hk. unfold v2_DeleteEventBySerial. m_step. eapply post_mono; [by apply DeleteEventBySerial_spec|]. cbv beta.
  intros _ w2 Hres. by m_step.
Qed.

(** C38. The event table. Storing an event keeps what was already filed under its
    identifier and else files it, so that it is found again; deleting one returns
    and removes exactly it; deleting by serial removes exactly the storage events
    whose properties carry that serial, and when statements fail it removes no
    other row. No other table changes. What the listener receives with a new
    identifier is filed under it as it was sent, but for the status of an array, which
    is passed over; and when it is of a disk with a serial, it is among what a deletion
    by that serial removes. *)
Theorem event_store (UnmarshalTime : string → option Z) (w : World) :
  alone w → events_keyed (events (w_db w)) →
  (∀ m, faultless w →
     let stored := CreateEvemt m w in
     let found := fst (GetEventByUUID (em_UUID m) (snd stored)) in
     found = default (fst stored) (events (w_db w) !! em_UUID m) ∧ only_events (w_db w) (w_db (snd stored)) ∧
     ∀ k, k ≠ em_UUID m → events (w_db (snd stored)) !! k = events (w_db w) !! k) ∧
  (∀ uuid, faultless w →
     let deleted := v2_DeleteEvent uuid w in
     fst deleted = (StatusOK, default zeroEvent (events (w_db w) !! uuid)) ∧
     w_db (snd deleted) = with_events (delete uuid) (w_db w)) ∧
  (∀ serial,
     let db' := w_db (snd (v2_DeleteEventBySerial serial w)) in
     only_events (w_db w) db' ∧
     (∀ k e, events db' !! k = Some e → events (w_db w) !! k = Some e) ∧
     (∀ k e, events (w_db w) !! k = Some e → removable serial e = false → events db' !! k = Some e) ∧
     (faultless w → events db' = delete_where (removable serial) (events (w_db w)))) ∧
  (∀ msg uuid, faultless w → let event := received UnmarshalTime msg in
     ev_Uuid event = Some uuid → events (w_db w) !! uuid = None →
     let turn := listenTurn UnmarshalTime msg w in
     fst turn = Some tt ∧ only_events (w_db w) (w_db (snd turn)) ∧
     if bool_decide (ev_Name event = "local-storage:raid_status") then w_db (snd turn) = w_db w
     else ∃ m, events (w_db (snd turn)) = <[uuid := m]> (events (w_db w)) ∧ em_UUID m = uuid ∧ em_SourceID m = ev_SourceID event ∧
       em_Name m = ev_Name event ∧ em_Properties m = marshal (ev_Properties event) ∧
       (clean_map (ev_Properties event) → uuid ≠ "" → ev_SourceID event = "local-storage" →
        removable (default "" (default ∅ (ev_Properties event) !! "serial")) m = true)).
Proof.
  intros Hw Hk. split_and!.
  - intros m Hfl. destruct (CreateEvemt_spec m w Hw Hfl) as (Hu & _ & _ & _ & Hc & Hd). cbv zeta.
    set (stored := CreateEvemt m w) in *.
    assert (post (GetEventByUUID (em_UUID m)) (snd stored) (λ r _,
      r = default zeroEvent (events (w_db (snd stored)) !! em_UUID m))) as Hget.
    { unfold GetEventByUUID. m_step. m_step; [by destruct H1; apply (calm_faultless _ _ Hc)|]. m_step. by destruct (events (w_db (snd stored)) !! em_UUID m). }
    unfold post in Hget. rewrite Hget, Hd. destruct (events (w_db w) !! em_UUID m) as [e|] eqn:E; simpl.
    + rewrite E. split_and!; [done|apply only_events_refl|done].
    + rewrite lookup_insert_eq. split_and!; [done|apply only_events_with|]. intros k Hne. by rewrite lookup_insert_ne.
  - intros uuid Hfl. by destruct (v2_DeleteEvent_spec uuid w Hw Hk) as [_ H]; apply H.
  - intros serial. by destruct (v2_DeleteEventBySerial_spec serial w Hw Hk) as [_ H].
  - intros msg uuid Hfl event Hu Hnew. cbv zeta. unfold listenTurn. fold event. rewrite Hu.
    destruct (bool_decide_reflect (ev_Name event = "local-storage:raid_status")) as [|Hname].
    { split_and!; [done|apply only_events_refl|done]. }
    destruct (CreateEvemt_spec (mkEvent uuid (ev_SourceID event) (ev_Name event) (marshal (ev_Properties event)) 0) w Hw Hfl)
      as (H1 & H2 & H3 & H4 & _ & Hd). cbn [em_UUID em_Name em_Properties em_SourceID] in *. unfold mbind.
    destruct (CreateEvemt _ w) as [m w1]. cbn [fst snd mret] in *. rewrite Hnew in Hd. rewrite Hd.
    split_and!; [done|apply only_events_with|]. exists m. split_and!; try done. intros Hc Hne Hsrc.
    apply removable_sent; congruence.
Qed.

(** The event of a disk, as the bus sends it and as it is filed. *)
Definition diskProperties : stringMap := Some {["serial" := "S1"]}.
Definition diskMessage (uuid : string) : string :=
  print (DObject [("name", DText "local-storage:disk:added"); ("properties", mapDoc diskProperties);
                  ("sourceID", DText "local-storage"); ("uuid", DText uuid)]).
Definition diskAdded : EventModel := mkEvent "u1" "local-storage" "local-storage:disk:added" (marshal diskProperties) 5.

Abbreviation eventWorld := (quietWorld (with_events (λ _, {["u1" := diskAdded]}) emptyDatabase) "").

Lemma diskMessage_received : received (λ _, None) (diskMessage "u2") =
  mkBusEvent "local-storage:disk:added" diskProperties "local-storage" None (Some "u2").
Proof. vm_compute. reflexivity. Qed.

Lemma event_store_witness :
  events (w_db (snd (v2_DeleteEventBySerial "S1" eventWorld))) = ∅ ∧
  fst (v2_DeleteEvent "u1" eventWorld) = (StatusOK, diskAdded) ∧
  ∃ m, events (w_db (snd (listenTurn (λ _, None) (diskMessage "u2") eventWorld))) !! "u2" = Some m ∧ removable "S1" m = true.
Proof.
  destruct (event_store (λ _, None) eventWorld (quietWorld_alone _ _)) as (_ & Hdel & Hser & Hturn).
  - intros k e H. change (({["u1" := diskAdded]} : gmap string EventModel) !! k = Some e) in H.
    apply lookup_singleton_Some in H as [<- <-]. reflexivity.
  - split_and!.
    + destruct (Hser "S1") as (_ & _ & _ & H). rewrite H; [vm_compute; reflexivity|intros n; reflexivity].
    + apply (Hdel "u1"). intros n. reflexivity.
    + specialize (Hturn (diskMessage "u2") "u2"). cbv zeta in Hturn. rewrite diskMessage_received in Hturn.
      cbn [ev_Uuid ev_Name ev_SourceID ev_Properties] in Hturn. rewrite bool_decide_eq_false_2 in Hturn by discriminate.
      destruct Hturn as (_ & _ & m & Hm & _ & _ & _ & _ & Hr); [intros n; reflexivity|reflexivity|reflexivity|].
      exists m. rewrite Hm. split; [apply lookup_insert_eq|]. apply Hr; [|discriminate|reflexivity].
      intros k v H. change (({["serial" := "S1"]} : gmap string string) !! k = Some v) in H.
      apply lookup_singleton_Some in H as [<- <-]. split; reflexivity.
Defined.

(** ** The listener's end *)

Section ListenerEnd.
Context (UnmarshalTime : string → option Z).

Definition identified (msg : string) : bool := match ev_Uuid (received UnmarshalTime msg) with Some _ => true | None => false end.

Lemma listenTurn_result msg w :
  post (listenTurn UnmarshalTime msg) w (λ r _, r = if identified msg then Some tt else None).
Proof.
  unfold listenTurn, identified. cbv zeta. destruct (ev_Uuid (received UnmarshalTime msg)) as [uuid|]; [|by m_step].
  m_step; [by m_step|]. m_step. unfold post. by destruct (CreateEvemt _ w).
Qed.

Lemma listen_result turns reads : ∀ k w,
  post (listen UnmarshalTime turns reads k) w (λ r _,
    r = if forallb (λ i, identified (reads i)) (seq k turns) then Reading else Panicked).
Proof.
  induction turns as [|turns IH]; intros k w; cbn [listen seq forallb]; [by m_step|].
  m_step. eapply post_mono; [apply listenTurn_result|]. cbv beta. intros r w1 ->.
  destruct (identified (reads k)); [apply IH|by m_step].
Qed.

Context (GetMessageBusAddress : M (res string)) (Dial : string → M (res (nat → string))).

(** [refused n w w1]: [n] attempts in a row find the message bus and cannot connect. *)
Inductive refused : nat → World → World → Prop :=
| refused_none w : refused 0 w w
| refused_more n w w1 w2 w3 url e :
    GetMessageBusAddress w = (Ok url, w1) → Dial (wsURL url) w1 = (Err e, w2) → refused n w2 w3 → refused (S n) w w3.

(** The listener gives up after [n] refused attempts: it has used them all up, or
    there is no message bus. *)
Definition gives_up (attempts : nat) (w : World) : Prop :=
  ∃ n w1, refused n w w1 ∧ (n = attempts ∨ (n < attempts)%nat ∧ ∃ e, fst (GetMessageBusAddress w1) = Err e).

(** It connects at last. *)
Definition connects (attempts : nat) (w : World) (reads : nat → string) : Prop :=
  ∃ n w1 w2 url, (n < attempts)%nat ∧ refused n w w1 ∧ GetMessageBusAddress w1 = (Ok url, w2) ∧
    fst (Dial (wsURL url) w2) = Ok reads.

Lemma connect_ends attempts : ∀ w,
  gives_up attempts w ∧ (∀ turns, fst (connect UnmarshalTime GetMessageBusAddress Dial attempts turns w) = Returned) ∨
  ∃ reads, connects attempts w reads ∧ ∀ turns, fst (connect UnmarshalTime GetMessageBusAddress Dial attempts turns w) =
    if forallb (λ i, identified (reads i)) (seq 0 turns) then Reading else Panicked.
Proof.
  induction attempts as [|attempts IH]; intros w; cbn [connect].
  { left. split; [|done]. exists 0%nat, w. split; [constructor|by left]. }
  unfold mbind at 1 3. destruct (GetMessageBusAddress w) as [[url|e] w1] eqn:Hg.
  2:{ left. split; [|done]. exists 0%nat, w. split; [constructor|]. right. rewrite Hg. split; [lia|by exists e]. }
  unfold mbind. destruct (Dial (wsURL url) w1) as [[reads|e] w2] eqn:Hd.
  { right. exists reads. split; [|intros turns; apply listen_result].
    exists 0%nat, w, w1, url. rewrite Hd. split_and!; [lia|constructor|done|done]. }
  destruct (IH w2) as [[(n & w3 & Hr & Hn) Hret]|(reads & (n & w3 & w4 & url' & Hn & Hr & Hc) & Hout)]; [left|right].
  - split; [|done]. exists (S n), w3. split; [by econstructor|]. destruct Hn as [->|[Hn He]]; [by left|right; split; [lia|done]].
  - exists reads. split; [|done]. exists (S n), w3, w4, url'. split; [lia|]. split; [by econstructor|done].
Qed.
End ListenerEnd.

(** C39. How the listener ends. Either it gives up, after at most 1000 attempts that
    were all refused or when there is no message bus address, and returns; or it
    connects, and then never returns: it goes on reading exactly as long as every
    read delivers an identified event and panics at the first that does not.
    Because a failed read is only logged and its empty message decoded like any
    other, the first read that fails, as when the message bus closes the
    connection, is such a one: the remaining attempts are never made. So is a read that
    delivers the beginning of an event and not its end, as the first read of any event
    that does not fit the buffer. *)
Theorem listener_end (UnmarshalTime : string → option Z) (GetMessageBusAddress : M (res string)) (Dial : string → M (res (nat → string))) (w : World) :
  let outcome turns := fst (EventListen UnmarshalTime GetMessageBusAddress Dial turns w) in
  (gives_up GetMessageBusAddress Dial 1000 w ∧ ∀ turns, outcome turns = Returned) ∨
  (∃ reads, connects GetMessageBusAddress Dial 1000 w reads ∧
     (∀ turns, outcome turns = Reading ↔ ∀ k, (k < turns)%nat → is_Some (ev_Uuid (received UnmarshalTime (reads k)))) ∧
     (∀ turns, outcome turns ≠ Returned) ∧
     (∀ k, reads k = "" → ∀ turns, (k < turns)%nat → outcome turns = Panicked) ∧
     ∀ k missing, is_Some (unmarshal (reads k +:+ missing)) → has_prefix "{" (reads k) = true → skip_space missing ≠ "" →
       ∀ turns, (k < turns)%nat → outcome turns = Panicked).
Proof.
  intros outcome. destruct (connect_ends UnmarshalTime GetMessageBusAddress Dial 1000 w) as [H|(reads & Hc & Hout)];
    [by left|right]. exists reads. split; [done|].
  assert (∀ turns, outcome turns = Reading ↔ ∀ k, (k < turns)%nat → is_Some (ev_Uuid (received UnmarshalTime (reads k)))) as Hread.
  { intros turns. unfold outcome, EventListen. rewrite Hout.
    assert (forallb (λ i, identified UnmarshalTime (reads i)) (seq 0 turns) = true ↔
      ∀ k, (k < turns)%nat → is_Some (ev_Uuid (received UnmarshalTime (reads k)))) as Hall.
    { rewrite forallb_forall. setoid_rewrite in_seq. unfold identified. split; intros H k Hk.
      - specialize (H k ltac:(lia)). destruct (ev_Uuid (received UnmarshalTime (reads k))); [eauto|discriminate].
      - destruct (H k ltac:(lia)) as [u Hu]. by rewrite Hu. }
    destruct (forallb _ _) eqn:E; rewrite <- Hall; [done|]. split; [|done]. discriminate. }
  assert (∀ turns, outcome turns ≠ Reading → outcome turns = Panicked) as Hpanic
    by (intros turns; unfold outcome, EventListen; rewrite Hout; by destruct (forallb _ _)).
  split_and!; [done| | |].
  - intros turns. unfold outcome, EventListen. rewrite Hout. by destruct (forallb _ _).
  - intros k Hk turns Hlt. apply Hpanic. rewrite Hread. intros H. specialize (H k Hlt). rewrite Hk in H. by destruct H.
  - intros k missing Hm Hb Hs turns Hlt. apply Hpanic. rewrite Hread. intros H. specialize (H k Hlt).
    unfold received in H. rewrite (object_cut _ _ Hm Hb Hs) in H. by destruct H.
Qed.

(** A bus that sends two events and closes the connection; one whose event does not fit
    the buffer of 1024 bytes, so that the first read delivers a part of it. *)
Definition closingReads (k : nat) : string := if (k <? 2)%nat then diskMessage ("u" +:+ Itoa (Z.of_nat k)) else "".

Fixpoint padding (n : nat) : string := match n with O => "" | S n' => String "x" (padding n') end.
Definition longMessage : string := diskMessage (padding 1000).
Definition chunkedReads (k : nat) : string := String.substring (k * 1024) 1024 longMessage.

Definition dialing (reads : nat → string) (url : string) : M (res (nat → string)) :=
  if bool_decide (url = "ws://127.0.0.1:8080/event/local-storage") then mret (Ok reads) else mret (Err (NewError "dial")).

Abbreviation listening address reads turns :=
  (fst (EventListen (λ _, None) (mret address) (dialing reads) turns eventWorld)).

Lemma listener_end_witness :
  listening (Ok "http://127.0.0.1:8080") closingReads 2 = Reading ∧ listening (Ok "http://127.0.0.1:8080") closingReads 3 = Panicked ∧
  listening (Ok "http://127.0.0.1:8080") chunkedReads 1 = Panicked ∧ listening (Err ErrNotExist) closingReads 3 = Returned.
Proof.
  split_and!; [vm_compute; reflexivity| | |].
  - destruct (listener_end (λ _, None) (mret (Ok "http://127.0.0.1:8080")) (dialing closingReads) eventWorld)
      as [[_ H]|(reads & (n & w1 & w2 & url & _ & _ & Ha & Hd) & _ & _ & H & _)].
    + specialize (H 1%nat). vm_compute in H. discriminate H.
    + injection Ha as <- <-. injection Hd as <-. apply (H 2%nat); [reflexivity|lia].
  - destruct (listener_end (λ _, None) (mret (Ok "http://127.0.0.1:8080")) (dialing chunkedReads) eventWorld)
      as [[_ H]|(reads & (n & w1 & w2 & url & _ & _ & Ha & Hd) & _ & _ & _ & H)].
    + specialize (H 1%nat). vm_compute in H. discriminate H.
    + injection Ha as <- <-. injection Hd as <-. apply (H 0%nat (chunkedReads 1)); [|vm_compute; reflexivity|vm_compute; discriminate|lia].
      eexists. vm_compute. reflexivity.
  - destruct (listener_end (λ _, None) (mret (Err ErrNotExist)) (dialing closingReads) eventWorld)
      as [[_ H]|(reads & (n & w1 & w2 & url & _ & _ & Ha & _) & _)]; [apply H|discriminate Ha].
Defined.
