(* ===== verification/UserApi.v ===== *)
(** * The v2 API (src/codegen/user_service/user_service_api.go, src/route/v2,
    src/route/v2.go)

    The generated server of the event endpoints, from the request line to the rows:
    the wrappers that bind the parameters, the routes they are registered at, the
    implementation behind them, and the whole chain of middleware, validation, router
    and wrapper. The base path is read from the embedded API document and is a
    parameter here; so are the functions of the runtime package that bind. *)

From stdpp Require Import prelude strings gmap.
From Stdlib Require Import ZArith Lia Ascii.
From S2P Require Import Prelude GoStrings Routes FileSystem Tables Store AuthSecurity Bootstrap Sessions Issue Users Middleware Router Handlers Urls UrlRefs Codegen Events.

Local Open Scope string_scope.
Local Open Scope list_scope.
Local Open Scope m_scope.

(** ** The generated server *)

(** The wrappers, as the routes name them. *)
Inductive EventOperation := to_DeleteEvent | to_GetEvents | to_DeleteEventBySerial.

(** [ServerInterface]: what the implementation of the API provides; [UUID] is
    [openapi_types.UUID], and a [GetEventsParams] is its one field. *)
Record ServerInterface (UUID A : Type) := mkServer {
  si_DeleteEventBySerial : string → M A;
  si_DeleteEvent : UUID → M A;
  si_GetEvents : option Z → M A;
}.
Arguments mkServer {UUID A}. Arguments si_DeleteEventBySerial {UUID A}. Arguments si_DeleteEvent {UUID A}. Arguments si_GetEvents {UUID A}.

Section Wrappers.
Context {UUID A : Type} (BindText : string → string → bool → res string) (BindUUID : string → string → bool → res UUID)
        (BindTime : string → gmap string (list string) → res (option Z)).
Context (Handler : ServerInterface UUID A).

Definition wrap_DeleteEventBySerial (ctx : EchoContext) : M (Answer A) :=
  bindPath BindText ctx "serial" (λ serial, callback (si_DeleteEventBySerial Handler serial)).

Definition wrap_DeleteEvent (ctx : EchoContext) : M (Answer A) :=
  bindPath BindUUID ctx "event_uuid" (λ eventUuid, callback (si_DeleteEvent Handler eventUuid)).

Definition wrap_GetEvents (ctx : EchoContext) : M (Answer A) :=
  bindQuery BindTime ctx "form" (λ form, callback (si_GetEvents Handler form)).

Definition eventWrapper (op : EventOperation) : EchoContext → M (Answer A) :=
  match op with
  | to_DeleteEvent => wrap_DeleteEvent
  | to_GetEvents => wrap_GetEvents
  | to_DeleteEventBySerial => wrap_DeleteEventBySerial
  end.
End Wrappers.

Abbreviation EventRoute Middleware := (Routes.Route (EventOperation * list Middleware)).

Definition RegisterHandlersWithOptions {Middleware} (options : RegisterHandlersOptions Middleware) : list (EventRoute Middleware) :=
  registerAt options <$>
  [("DELETE", "/event/:event_uuid", to_DeleteEvent, "deleteEvent");
   ("GET", "/events", to_GetEvents, "getEvents");
   ("DELETE", "/event/local_storage/:serial", to_DeleteEventBySerial, "deleteEventBySerial")].

Definition RegisterHandlersWithBaseURL {Middleware} (baseURL : string) : list (EventRoute Middleware) :=
  RegisterHandlersWithOptions (mkOptions baseURL ∅).

Definition RegisterHandlers {Middleware} : list (EventRoute Middleware) := RegisterHandlersWithOptions (mkOptions "" ∅).

(** ** The implementation *)

(** The payload of [ctx.JSON]. *)
Inductive Payload := of_event (m : EventModel) | of_events (list : list EventModel) | of_text (s : string).

(** [NewUserService]: the handlers of src/route/v2; the time is not used. *)
Definition NewUserService {UUID} (UUID_String : UUID → string) : ServerInterface UUID (Z * Payload) :=
  mkServer
    (λ serial, r <- v2_DeleteEventBySerial serial;; mret (r.1, of_text r.2))
    (λ eventUuid, r <- v2_DeleteEvent (UUID_String eventUuid);; mret (r.1, of_event r.2))
    (λ form, r <- v2_GetEvents;; mret (r.1, of_events r.2)).

(** ** The chain *)

Section Chain.
Context {UUID : Type} (UUID_String : UUID → string).
Context (BindText : string → string → bool → res string) (BindUUID : string → string → bool → res UUID)
        (BindTime : string → gmap string (list string) → res (option Z)).
Context (Find : list (EventRoute unit) → string → string → option (EventRoute unit)).
Context (V2APIPath : string).

(** Router and wrapper; [None] is echo's own 404. *)
Definition routeV2 (method : string) (u : URL) : M (option (Answer (Z * Payload))) :=
  match Find (RegisterHandlersWithBaseURL V2APIPath) method (routedPath u) with
  | None => mret None
  | Some r =>
     answer <- eventWrapper BindText BindUUID BindTime (NewUserService UUID_String) (rt_Target r).1 (contextOf r u);;
     mret (Some answer)
  end.

(** [InitV2Router]: a request behind the middleware and the validator. *)
Definition InitV2Router (J : JWT SessionClaims) (MyService : option userService)
    (inputsOf : option Request → option (list AuthenticationInput)) (method : string) (u : URL)
    : Context → M (Outcome (option (Answer (Z * Payload)))) :=
  serveV2 J MyService inputsOf (λ _, routeV2 method u).
End Chain.

(** ** What is relied on *)

(** The runtime package binds texts and UUIDs, and no time when the query has none. *)
Class EventParameters {UUID} (UUID_String : UUID → string) (BindText : string → string → bool → res string)
    (BindUUID : string → string → bool → res UUID) (BindTime : string → gmap string (list string) → res (option Z)) : Prop := {
  #[global] binds_text :: BindsPath id BindText;
  #[global] binds_uuid :: BindsPath UUID_String BindUUID;
  binds_no_time name : BindTime name ∅ = Ok None;
}.

(** The path of a URL as echo routes it: [segs], each as it is written and what it
    stands for, behind the base path. *)
Definition addressed (prefix : string) (u : URL) (segs : list (string * string)) : Prop :=
  RawPath u = "" ∧ split_on "/" (Path u) = split_on "/" prefix ++ segs.*2 ∨
  RawPath u ≠ "" ∧ split_on "/" (RawPath u) = split_on "/" prefix ++ segs.*1.

(** The table of routes behind the base path. *)
Definition eventTable : list (string * string * EventOperation) :=
  [("DELETE", "event/:event_uuid", to_DeleteEvent); ("GET", "events", to_GetEvents);
   ("DELETE", "event/local_storage/:serial", to_DeleteEventBySerial)].

Lemma registered_events {Middleware} prefix : @RegisterHandlersWithBaseURL Middleware prefix = behind_base prefix <$> eventTable.
Proof. done. Qed.

(** ** The handlers, behind router and wrappers *)

(** Rows are removed and nothing else changes. *)
Definition only_removes (db db' : Database) : Prop :=
  only_events db db' ∧ ∀ k e, events db' !! k = Some e → events db !! k = Some e.

Lemma only_removes_refl db : only_removes db db.
Proof. split; [apply only_events_refl|done]. Qed.

Lemma only_removes_delete uuid db : only_removes db (with_events (delete uuid) db).
Proof. split; [apply only_events_with|]. cbn [events with_events]. intros k e [_ He]%lookup_delete_Some. done. Qed.

#[export] Hint Resolve only_removes_refl only_removes_delete : store.

Lemma post_callback {A} (call : M A) w Q : post call w (λ a, Q (Invoked a)) → post (callback call) w Q.
Proof. intros H. unfold callback. m_step. eapply post_mono; [exact H|]. intros a w' Ha. by m_step. Qed.

Lemma post_bindParameter {V A} name (bound : res V) (next : V → M (Answer A)) w Q :
  (∀ e, Q (InvalidFormat name e) w) → (∀ v, post (next v) w Q) → post (bindParameter name bound next) w Q.
Proof. intros He Hv. unfold bindParameter. destruct bound; [apply Hv|m_step; apply He]. Qed.

Section Behind.
Context {UUID : Type} (UUID_String : UUID → string).
Context (BindText : string → string → bool → res string) (BindUUID : string → string → bool → res UUID)
        (BindTime : string → gmap string (list string) → res (option Z)) `{!EventParameters UUID_String BindText BindUUID BindTime}.
Context (Find : list (EventRoute unit) → string → string → option (EventRoute unit)) `{!RouterSpec Find}.
Context (V2APIPath : string) (no_parameters : Forall (λ s, has_prefix ":" s = false) (split_on "/" V2APIPath)).

Abbreviation Service := (NewUserService UUID_String).
Abbreviation route := (routeV2 UUID_String BindText BindUUID BindTime Find V2APIPath).

(** Whatever is asked, rows are at most removed. *)
Lemma routeV2_confined method u w : alone w → events_keyed (events (w_db w)) →
  post (route method u) w (λ _ w', only_removes (w_db w) (w_db w')).
Proof.
  intros Hw Hk. unfold routeV2. destruct (Find _ _ _) as [r|]; [|m_step; eauto with store]. m_step.
  eapply (post_mono _ _ (λ _ w', only_removes (w_db w) (w_db w'))); [|intros a w' H; by m_step].
  destruct (rt_Target r).1; cbn [eventWrapper]; apply post_bindParameter; eauto with store; intros v; apply post_callback; cbn; m_step.
  - eapply post_mono; [by apply v2_DeleteEvent_spec|]. cbv beta. intros a w' [[E|E] _]; m_step; rewrite E; eauto with store.
  - eapply post_mono; [by apply v2_GetEvents_spec|]. cbv beta. intros a w' [E _]. m_step. rewrite E. eauto with store.
  - eapply post_mono; [by apply v2_DeleteEventBySerial_spec|]. cbv beta. intros a w' (_ & ? & ? & _). m_step. by split.
Qed.

(** A request for one line of the table reaches its wrapper. *)
Lemma routeV2_line t u segs w : addressed V2APIPath u segs → only eventTable t segs.*1 → only eventTable t segs.*2 →
  ∃ ctx, ec_QueryParams ctx = Query (RawQuery u) ∧
    (ec_RawPath ctx = "" ∧ (∀ name, ec_Param ctx name = lookupParam t.1.2 segs.*2 name) ∨
     ec_RawPath ctx ≠ "" ∧ (∀ name, ec_Param ctx name = lookupParam t.1.2 segs.*1 name)) ∧
    route t.1.1 u w = (let (a, w') := eventWrapper BindText BindUUID BindTime Service t.2 ctx w in (Some a, w')).
Proof using no_parameters RouterSpec0.
  intros Hu H1 H2. exists (contextOf (@behind_base unit _ V2APIPath t) u). split; [done|].
  assert (∃ xs, split_on "/" (routedPath u) = split_on "/" V2APIPath ++ xs ∧ only eventTable t xs ∧
            (RawPath u = "" ∧ xs = segs.*2 ∨ RawPath u ≠ "" ∧ xs = segs.*1)) as (xs & Hs & Ho & Hraw).
  { unfold routedPath. destruct Hu as [[E Hs]|[E Hs]]; [rewrite bool_decide_eq_true_2 by done|rewrite bool_decide_eq_false_2 by done]; eauto 10. }
  destruct (find_behind Find V2APIPath eventTable t u xs no_parameters Hs Ho) as [Hf Hp]. split.
  - destruct Hraw as [[E ->]|[E ->]]; [by left|by right].
  - unfold routeV2. rewrite registered_events, Hf. cbn [rt_Target behind_base fst]. unfold mbind. by destruct (eventWrapper _ _ _ _ _ _ w).
Qed.
Ltac line_done :=
  split; [apply list_elem_of_In; repeat (first [left; reflexivity|right])|split; [reflexivity|]];
  unfold eventTable; repeat apply Forall_cons_2; try apply Forall_nil_2;
  let H1 := fresh in let H2 := fresh in
  first [reflexivity|intros [H1 H2]%andb_prop; exfalso;
    first [vm_compute in H1; discriminate H1|apply fits_length in H2; vm_compute in H2; discriminate H2]].

Ltac routed t segs w :=
  lazymatch goal with Hu : addressed _ ?u _ |- _ =>
    let ctx := fresh "ctx" in let Hq := fresh "Hq" in let Hp := fresh "Hp" in let Hr := fresh "Hr" in
    destruct (routeV2_line t u segs w Hu) as (ctx & Hq & Hp & Hr); [line_done|line_done|];
    cbn [fst snd eventWrapper] in Hr; rewrite Hr; clear Hr; cbn [fst snd] in Hp
  end.

(** The wrapper of a line with a parameter hands over its value. *)
Lemma wrapped {V A} (show : V → string) BindPath `{!BindsPath show BindPath} pattern segs ctx name (next : V → M A) seg v w :
  ec_RawPath ctx = "" ∧ (∀ name, ec_Param ctx name = lookupParam pattern segs.*2 name) ∨
  ec_RawPath ctx ≠ "" ∧ (∀ name, ec_Param ctx name = lookupParam pattern segs.*1 name) →
  show v ≠ "" → unescape encodePath seg = Some (show v) →
  lookupParam pattern segs.*2 name = show v → lookupParam pattern segs.*1 name = seg →
  (let (a, w') := bindPath BindPath ctx name (λ v, callback (next v)) w in (Some a, w')) =
  (let (a, w') := next v w in (Some (Invoked a), w')).
Proof.
  intros Hp Hne Hd H2 H1. rewrite (bindPath_bound show BindPath ctx name _ seg v Hne Hd).
  - unfold callback, mbind. by destruct (next v w).
  - destruct Hp as [[E Hp]|[E Hp]]; rewrite Hp; [by left|by right].
Qed.

Lemma route_DeleteEvent u seg id w : addressed V2APIPath u [("event", "event"); (seg, UUID_String id)] →
  UUID_String id ≠ "" → unescape encodePath seg = Some (UUID_String id) →
  route "DELETE" u w = (let (a, w') := si_DeleteEvent Service id w in (Some (Invoked a), w')).
Proof using no_parameters RouterSpec0 EventParameters0.
  intros Hu Hne Hd.
  routed ("DELETE", "event/:event_uuid", to_DeleteEvent) ([("event", "event"); (seg, UUID_String id)] : list (string * string)) w.
  by apply (wrapped UUID_String BindUUID _ _ _ _ _ seg id w Hp).
Qed.

Lemma route_DeleteEventBySerial u seg serial w :
  addressed V2APIPath u [("event", "event"); ("local_storage", "local_storage"); (seg, serial)] →
  serial ≠ "" → unescape encodePath seg = Some serial →
  route "DELETE" u w = (let (a, w') := si_DeleteEventBySerial Service serial w in (Some (Invoked a), w')).
Proof using no_parameters RouterSpec0 EventParameters0.
  intros Hu Hne Hd.
  routed ("DELETE", "event/local_storage/:serial", to_DeleteEventBySerial)
    ([("event", "event"); ("local_storage", "local_storage"); (seg, serial)] : list (string * string)) w.
  by apply (wrapped id BindText _ _ _ _ _ seg serial w Hp).
Qed.

Lemma route_GetEvents u w : addressed V2APIPath u [("events", "events")] → Query (RawQuery u) = ∅ →
  route "GET" u w = (let (a, w') := si_GetEvents Service None w in (Some (Invoked a), w')).
Proof using no_parameters RouterSpec0 EventParameters0.
  intros Hu Hno. routed ("GET", "events", to_GetEvents) ([("events", "events")] : list (string * string)) w.
  unfold wrap_GetEvents, bindQuery, bindParameter. rewrite Hq, Hno, binds_no_time. unfold callback, mbind. by destruct (si_GetEvents _ _ _).
Qed.
End Behind.

(** ** Behind the middleware *)

Section Entitled.
Context (J : JWT SessionClaims) (decode : string → option (SigningMethod * SessionClaims))
        (genuine : PublicKey → string → Prop) `{!JWTSpec J decode genuine}.
Context (inputsOf : option Request → option (list AuthenticationInput)).

(** The caller's token is accepted, by a service that is up. *)
Definition entitled (u : userService) (ctx : Context) (w : World) (request : Request) : Prop :=
  cx_Request ctx = Some request ∧ ∃ key c, svc_publicKey u = Some key ∧ usableKey (Some key) = true ∧
    admitted decode genuine key request (w_clock w) (w_db w) c.

(** The validator asks for what the document of the API says. *)
Definition valid (request : Request) : Prop :=
  ∀ v, ∃ inputs, inputsOf (Some (set_user_id v request)) = Some inputs ∧ Forall (documented request) inputs.

Context {A : Type} (handler : M A) (ctx : Context) (u : userService) (w : World).
Abbreviation run := (serveV2 J (Some u) inputsOf (λ _, handler) ctx w).

(** A request runs the handler for an entitled caller or leaves the database alone. *)
Lemma serveV2_runs : alone w → keys_agree (w_db w) → svc_db u = true →
  w_db (snd run) = w_db w ∨
  (∃ request, entitled u ctx w request) ∧ ∃ w1, calm w w1 ∧ w_db w1 = w_db w ∧ snd run = snd (handler w1).
Proof using JWTSpec0.
  intros Hw Hk Hu. destruct (guarded_spec J decode genuine (validated inputsOf (λ _, handler)) ctx w u Hw Hk Hu)
    as [[_ (_ & E & _)]|(request & key & c & w1 & Hr & [= Hkey] & Hus & Hadm & Hc & Hd & [= _ Hrun])]; [by left|].
  unfold serveV2. rewrite Hrun. unfold validated. destruct (inputsOf _) as [inputs|]; [|by left].
  destruct (forallb _ _); [|by left]. right. split; [exists request; split; [done|]; eauto 10|].
  exists w1. split_and!; [done..|]. unfold mbind. by destruct (handler w1).
Qed.

(** An entitled caller with a valid request is served. *)
Lemma serveV2_serves request : alone w → keys_agree (w_db w) → svc_db u = true → faultless w →
  entitled u ctx w request → valid request →
  ∃ w1, calm w w1 ∧ w_db w1 = w_db w ∧ run = (let (a, w') := handler w1 in (Served a, w')).
Proof using JWTSpec0.
  intros Hw Hk Hu Hfl [Hreq (key & c & Hkey & Hus & Hadm)] Hval.
  destruct (guarded_spec J decode genuine (validated inputsOf (λ _, handler)) ctx w u Hw Hk Hu)
    as [[_ (_ & _ & Hno)]|(request' & key' & c' & w1 & Hr & [= Hkey'] & Hus' & Hadm' & Hc & Hd & [= Hrun Hrun2])].
  { exfalso. rewrite Hkey in Hno. by eapply Hno. }
  exists w1. split_and!; [done..|]. unfold serveV2. rewrite (surjective_pairing (guarded _ _ _ _ _)).
  assert (request' = request) as -> by congruence. destruct (Hval (Itoa (sc_UserID c'))) as (inputs & Hin & Hdoc).
  rewrite Hrun, Hrun2. unfold validated. cbn [cx_Request authenticated]. rewrite Hin.
  replace (forallb _ inputs) with true.
  - unfold mbind. by destruct (handler w1).
  - symmetry. apply forallb_forall. intros i Hi%list_elem_of_In. rewrite Forall_forall in Hdoc.
    apply documented_passes. by rewrite (Hdoc i Hi).
Qed.
End Entitled.

(** ** Properties *)

(** C23. The v2 API end to end, for requests that are not disturbed. Whatever method
    and path a request has, and whatever statements fail, it adds and alters no row of
    any table: at most it removes events, and only when its token is accepted. Without
    faults an accepted and valid request is served, also when its path is
    percent-encoded: deleting by identifier answers with the row filed under the
    canonical text of the identifier and removes exactly that one; listing answers with
    every event and writes nothing; deleting by serial removes exactly the storage
    events whose properties carry that serial. *)
Theorem user_api {UUID : Type} (UUID_String : UUID → string)
    (BindText : string → string → bool → res string) (BindUUID : string → string → bool → res UUID)
    (BindTime : string → gmap string (list string) → res (option Z))
    (Find : list (EventRoute unit) → string → string → option (EventRoute unit)) (V2APIPath : string)
    (J : JWT SessionClaims) (decode : string → option (SigningMethod * SessionClaims)) (genuine : PublicKey → string → Prop)
    (inputsOf : option Request → option (list AuthenticationInput)) (service : userService)
    (method : string) (u : URL) (ctx : Context) (w : World) :
  EventParameters UUID_String BindText BindUUID BindTime → RouterSpec Find → JWTSpec J decode genuine →
  Forall (λ s, has_prefix ":" s = false) (split_on "/" V2APIPath) →
  alone w → keys_agree (w_db w) → events_keyed (events (w_db w)) → svc_db service = true →
  let run := InitV2Router UUID_String BindText BindUUID BindTime Find V2APIPath J (Some service) inputsOf method u ctx w in
  let answered payload db := fst run = Served (Some (Invoked (StatusOK, payload))) ∧ w_db (snd run) = db in
  only_removes (w_db w) (w_db (snd run)) ∧
  (w_db (snd run) ≠ w_db w → ∃ request, entitled decode genuine service ctx w request) ∧
  (∀ request, faultless w → entitled decode genuine service ctx w request → valid inputsOf request →
    (∀ seg id, method = "DELETE" → addressed V2APIPath u [("event", "event"); (seg, UUID_String id)] →
       UUID_String id ≠ "" → unescape encodePath seg = Some (UUID_String id) →
       answered (of_event (default zeroEvent (events (w_db w) !! UUID_String id))) (with_events (delete (UUID_String id)) (w_db w))) ∧
    (method = "GET" → addressed V2APIPath u [("events", "events")] → Query (RawQuery u) = ∅ →
       answered (of_events (map_to_list (events (w_db w))).*2) (w_db w)) ∧
    (∀ seg serial, method = "DELETE" →
       addressed V2APIPath u [("event", "event"); ("local_storage", "local_storage"); (seg, serial)] →
       serial ≠ "" → unescape encodePath seg = Some serial →
       answered (of_text serial) (with_events (delete_where (removable serial)) (w_db w)))).
Proof.
  intros HP HF HJ Hcolon Hw Hk Hev Hu run answered.
  assert (∀ w1, calm w w1 → w_db w1 = w_db w → alone w1 ∧ events_keyed (events (w_db w1))) as Hnext
    by (intros w1 Hc ->; eauto with store).
  set (handler := routeV2 UUID_String BindText BindUUID BindTime Find V2APIPath method u).
  pose proof (serveV2_runs J decode genuine inputsOf handler ctx service w Hw Hk Hu) as Hruns.
  assert (run = serveV2 J (Some service) inputsOf (λ _, handler) ctx w) as Hrun by done. split_and!.
  - rewrite Hrun. destruct Hruns as [->|(_ & w1 & Hc & Hd & ->)]; [apply only_removes_refl|].
    rewrite <- Hd. destruct (Hnext w1 Hc Hd). by apply routeV2_confined.
  - rewrite Hrun. destruct Hruns as [E|[Hent _]]; [by intros []|done].
  - intros request Hfl Hent Hval.
    destruct (serveV2_serves J decode genuine inputsOf handler ctx service w request Hw Hk Hu Hfl Hent Hval) as (w1 & Hc & Hd & E).
    destruct (Hnext w1 Hc Hd) as [Hw1 Hev1]. pose proof (calm_faultless _ _ Hc Hfl) as Hfl1.
    unfold answered. rewrite Hrun, E, <- Hd. unfold handler. split_and!.
    + intros seg id -> Hu' Hne Hseg. rewrite (route_DeleteEvent UUID_String _ _ _ _ _ Hcolon u seg id w1 Hu' Hne Hseg).
      cbn [NewUserService si_DeleteEvent]. unfold mbind. destruct (v2_DeleteEvent_spec (UUID_String id) w1 Hw1 Hev1) as [_ Hs].
      destruct (v2_DeleteEvent _ w1) as [r w2]. cbn [fst snd] in *. destruct (Hs Hfl1) as [-> Hd2]. done.
    + intros -> Hu' Hq. rewrite (route_GetEvents UUID_String _ _ _ _ _ Hcolon u w1 Hu' Hq).
      cbn [NewUserService si_GetEvents]. unfold mbind. destruct (v2_GetEvents_spec w1 Hw1) as [Hd2 Hs].
      destruct (v2_GetEvents w1) as [r w2]. cbn [fst snd] in *. rewrite (Hs Hfl1). done.
    + intros seg serial -> Hu' Hne Hseg. rewrite (route_DeleteEventBySerial UUID_String _ _ _ _ _ Hcolon u seg serial w1 Hu' Hne Hseg).
      cbn [NewUserService si_DeleteEventBySerial]. unfold mbind.
      destruct (v2_DeleteEventBySerial_spec serial w1 Hw1 Hev1) as (Hr & Ho & _ & _ & Hs).
      destruct (v2_DeleteEventBySerial serial w1) as [r w2]. cbn [fst snd] in *. rewrite Hr. split; [done|].
      change (w_db w2 = with_events (delete_where (removable serial)) (w_db w1)). rewrite Ho, (Hs Hfl1). done.
Qed.

(** ** The disk that was removed *)

Definition anyTime (_ : string) (_ : gmap string (list string)) : res (option Z) := Ok None.

Lemma plainParameters : EventParameters id pathBind pathBind anyTime.
Proof. split; [exact pathBind_spec|exact pathBind_spec|done]. Qed.

(** The validator asks for the token of the request it was given. *)
Definition askToken (r : option Request) : option (list AuthenticationInput) :=
  (λ r, [mkAuthInput (Some (Some (rq_ref r))) v2OpenAPISecuritySchemeName (Some (mkScheme "apiKey" "header" "Authorization")) []]) <$> r.

Abbreviation annEvents := (annWorld (with_events (λ _, {["u1" := diskAdded]}) annDatabase)).
Abbreviation annVisits method path token := (InitV2Router id pathBind pathBind anyTime firstFit "/v2/users"
  ToyJWT.jwt (Some liveService) askToken method (setPath path (mkURL "" "" None "" "" "" "" "" "" false false)) (annRequest token) annEvents).

Lemma annEvents_keys : keys_agree (with_events (λ _, {["u1" := diskAdded]}) annDatabase).
Proof. destruct annDatabase_keys. by split. Qed.

Lemma diskAdded_keyed : events_keyed {["u1" := diskAdded]}.
Proof. by intros k e [<- <-]%lookup_singleton_Some. Qed.

(** [ann] deletes the events of the disk with serial S1, whose path writes the digit
    as an escape; without a token nothing is deleted. *)
Lemma user_api_witness :
  events (w_db (snd (annVisits "DELETE" "/v2/users/event/local_storage/S%31" ("Bearer " +:+ toyToken)))) = ∅ ∧
  w_db (snd (annVisits "DELETE" "/v2/users/event/u1" "")) = w_db annEvents.
Proof.
  split; [|vm_compute; reflexivity].
  edestruct (user_api id pathBind pathBind anyTime firstFit "/v2/users" ToyJWT.jwt ToyJWT.decode ToyJWT.genuine askToken
    liveService "DELETE" (setPath "/v2/users/event/local_storage/S%31" (mkURL "" "" None "" "" "" "" "" "" false false))
    (annRequest ("Bearer " +:+ toyToken)) annEvents plainParameters firstFit_spec ToyJWT.jwt_spec) as (_ & Hent & Hserve).
  - repeat constructor.
  - intros n. split; intros; reflexivity.
  - exact annEvents_keys.
  - exact diskAdded_keyed.
  - reflexivity.
  - destruct Hent as [request Hent]; [vm_compute; discriminate|].
    destruct (Hserve request) as (_ & _ & H); [| exact Hent | |].
    + intros n. reflexivity.
    + intros v. eexists. split; [reflexivity|]. repeat constructor.
    + destruct (H "S%31" "S1" eq_refl) as [_ ->]; [right; split; [discriminate|reflexivity]|discriminate|reflexivity|reflexivity].
Defined.
