(* ===== verification/VulnPolicy.v ===== *)
(** * The vulnerability policy (src/scripts/govuln-policy.go)

    The gate on govulncheck's findings: the allowlist, the stream of messages, and
    the verdict that both name the same vulnerabilities. *)

From stdpp Require Import prelude strings gmap sorting.
From Stdlib Require Import ZArith Lia Ascii.
From S2P Require Import Prelude GoStrings Json.

Local Open Scope string_scope.
Local Open Scope list_scope.

(** ** The messages *)

Record scanConfig := mkScanConfig {
  ProtocolVersion : string;
  ScannerName : string;
  ScannerVersion : string;
  GoVersion : string;
  ScanLevel : string;
  ScanMode : string;
}.

Record scanSBOM := mkScanSBOM {
  sbom_GoVersion : string;
  Modules : slice_of string;
}.

Record finding := mkFinding {
  OSV : string;
  Trace : slice_of string;
}.

Definition setConfig (key : string) (v : json) (c : scanConfig) : scanConfig * bool :=
  let '(mkScanConfig pv sn sv gv sl sm) := c in
  if bool_decide (key = "protocol_version") then let '(x, e) := decodeText v pv in (mkScanConfig x sn sv gv sl sm, e)
  else if bool_decide (key = "scanner_name") then let '(x, e) := decodeText v sn in (mkScanConfig pv x sv gv sl sm, e)
  else if bool_decide (key = "scanner_version") then let '(x, e) := decodeText v sv in (mkScanConfig pv sn x gv sl sm, e)
  else if bool_decide (key = "go_version") then let '(x, e) := decodeText v gv in (mkScanConfig pv sn sv x sl sm, e)
  else if bool_decide (key = "scan_level") then let '(x, e) := decodeText v sl in (mkScanConfig pv sn sv gv x sm, e)
  else if bool_decide (key = "scan_mode") then let '(x, e) := decodeText v sm in (mkScanConfig pv sn sv gv sl x, e)
  else (c, false).

(** A struct of one text field, as the modules and the trace entries are. *)
Definition setOnly (name key : string) (v : json) (current : string) : string * bool :=
  if bool_decide (key = name) then decodeText v current else (current, false).

Definition setSBOM (key : string) (v : json) (s : scanSBOM) : scanSBOM * bool :=
  if bool_decide (key = "go_version") then
    let '(x, e) := decodeText v (sbom_GoVersion s) in (mkScanSBOM x (Modules s), e)
  else if bool_decide (key = "modules") then
    let '(x, e) := decodeSlice (decodeStruct (setOnly "path")) "" v (Modules s) in (mkScanSBOM (sbom_GoVersion s) x, e)
  else (s, false).

Definition setFinding (key : string) (v : json) (f : finding) : finding * bool :=
  if bool_decide (key = "osv") then let '(x, e) := decodeText v (OSV f) in (mkFinding x (Trace f), e)
  else if bool_decide (key = "trace") then
    let '(x, e) := decodeSlice (decodeStruct (setOnly "function")) "" v (Trace f) in (mkFinding (OSV f) x, e)
  else (f, false).

Definition unmarshalConfig : string → option scanConfig :=
  unmarshalInto (decodeStruct setConfig) (mkScanConfig "" "" "" "" "" "").
Definition unmarshalSBOM : string → option scanSBOM := unmarshalInto (decodeStruct setSBOM) (mkScanSBOM "" no_items).
Definition unmarshalProgress : string → option string := unmarshalInto (decodeStruct (setOnly "message")) "".
Definition unmarshalFinding : string → option finding := unmarshalInto (decodeStruct setFinding) (mkFinding "" no_items).

(** The variables of [readReachableFindings]. *)
Record scan := mkScan {
  configCount : N;
  sbomCount : N;
  checkingProgress : bool;
  reachable : gset string;
}.

Definition rootModule : string := "github.com/EdmundFu-233/ReCasaOS-UserService".

Definition sourceScan (config : scanConfig) : bool :=
  negb (negb (bool_decide (ProtocolVersion config = "v1.0.0")) || negb (bool_decide (ScannerName config = "govulncheck")) ||
        bool_decide (ScannerVersion config = "") || bool_decide (GoVersion config = "") ||
        negb (bool_decide (ScanLevel config = "symbol")) || negb (bool_decide (ScanMode config = "source"))).

(** The first entry of the trace names a function. *)
Definition called (f : finding) : bool :=
  match items (Trace f) with function :: _ => negb (bool_decide (function = "")) | [] => false end.

(** The body of the inner loop, on the one field of a message. *)
Definition handle (kind payload : string) (st : scan) : res scan :=
  if bool_decide (kind = "config") then
    match unmarshalConfig payload with
    | None => Err (NewError "decode govulncheck config")
    | Some config =>
       if sourceScan config
       then Ok (mkScan (configCount st + 1) (sbomCount st) (checkingProgress st) (reachable st))
       else Err (NewError "govulncheck config is not a source symbol scan")
    end
  else if bool_decide (kind = "SBOM") then
    match unmarshalSBOM payload with
    | None => Err (NewError "decode govulncheck SBOM")
    | Some sbom =>
       if bool_decide (sbom_GoVersion sbom = "") || bool_decide (items (Modules sbom) = [])
       then Err (NewError "govulncheck SBOM is empty")
       else if negb (existsb (λ path, bool_decide (path = rootModule)) (items (Modules sbom)))
       then Err (NewError "govulncheck SBOM does not contain the root module")
       else Ok (mkScan (configCount st) (sbomCount st + 1) (checkingProgress st) (reachable st))
    end
  else if bool_decide (kind = "progress") then
    match unmarshalProgress payload with
    | None => Err (NewError "decode govulncheck progress")
    | Some message =>
       Ok (mkScan (configCount st) (sbomCount st)
             (if bool_decide (message = "Checking the code against the vulnerabilities...") then true else checkingProgress st)
             (reachable st))
    end
  else if bool_decide (kind = "osv") then
    if bool_decide (payload = "") || bool_decide (payload = "null")
    then Err (NewError "govulncheck OSV message is empty") else Ok st
  else if bool_decide (kind = "finding") then
    match unmarshalFinding payload with
    | None => Err (NewError "decode govulncheck finding")
    | Some f =>
       if bool_decide (OSV f = "") then Err (NewError "govulncheck finding is missing an OSV identifier")
       else Ok (mkScan (configCount st) (sbomCount st) (checkingProgress st)
                  (if called f then {[OSV f]} ∪ reachable st else reachable st))
    end
  else Err (NewError "unknown govulncheck message type").

(** [decoder.Decode(&raw)] into a map of raw messages, the last of each key. *)
Definition rawFields (v : json) : res (gmap string string) :=
  match v with
  | JObject members => Ok (foldl (λ m member, <[member.1 := member.2.1]> m) ∅ members)
  | JNull => Ok ∅
  | _ => Err (NewError "json: cannot unmarshal into Go value of type map[string]json.RawMessage")
  end.

(** The one field of a message. *)
Definition messageOf (v : json) : res (string * string) :=
  match rawFields v with
  | Err e => Err e
  | Ok raw =>
     match map_to_list raw with
     | [field] => Ok field
     | _ => Err (NewError "govulncheck message must contain exactly one top-level field")
     end
  end.

(** The loop over the stream; [None] when the fuel runs out. *)
Fixpoint readMessages (fuel : nat) (stream : string) (st : scan) : option (res scan) :=
  match fuel with
  | O => None
  | S fuel' =>
     match decodeNext stream with
     | EOF => Some (Ok st)
     | SyntaxError => Some (Err (NewError "invalid character"))
     | Next _ v rest =>
        match messageOf v with
        | Err e => Some (Err e)
        | Ok (kind, payload) =>
           match handle kind payload st with
           | Err e => Some (Err e)
           | Ok st' => readMessages fuel' rest st'
           end
        end
     end
  end.

Definition readReachableFindings (stream : string) : option (res (gset string)) :=
  match readMessages (S (String.length stream)) stream (mkScan 0 0 false ∅) with
  | None => None
  | Some (Err e) => Some (Err e)
  | Some (Ok st) =>
     if negb (configCount st =? 1)%N || negb (sbomCount st =? 1)%N || negb (checkingProgress st)
     then Some (Err (NewError "govulncheck stream is incomplete or duplicated"))
     else Some (Ok (reachable st))
  end.

(** ** The allowlist *)

(** [strings.Fields]; [skip] bytes of a space are still to be passed over. *)
Fixpoint fieldsFrom (skip : nat) (word s : string) : list string :=
  let flush := if bool_decide (word = "") then [] else [word] in
  match s, skip with
  | EmptyString, _ => flush
  | String _ r, S skip' => fieldsFrom skip' word r
  | String a r, O =>
     match List.find (λ sp, has_prefix sp s) spaces with
     | Some sp => flush ++ fieldsFrom (String.length sp - 1) "" r
     | None => fieldsFrom 0 (word +:+ String a "") r
     end
  end.

Definition Fields (s : string) : list string := fieldsFrom 0 "" s.

(** [bufio.Scanner] with its default: lines of less than 64 KiB, without their line
    ends. *)
Definition MaxScanTokenSize : nat := 65536.

Definition rawLines (content : string) : list string :=
  let parts := split_on byte_LF content in
  match last parts with Some "" => removelast parts | _ => parts end.

(** One line of the file: invalid, blank, or an entry. *)
Definition entryOf (text : string) : option (option string) :=
  let line := TrimSpace (default text (fst <$> cut "#" text)) in
  if bool_decide (line = "") then Some None
  else match Fields line with
       | [field] => if has_prefix "GO-" field then Some (Some field) else None
       | _ => None
       end.

Fixpoint readLines (lines : list string) (allowed : gset string) : res (gset string) :=
  match lines with
  | [] => Ok allowed
  | raw :: rest =>
     if (MaxScanTokenSize <=? String.length raw)%nat then Err (NewError "bufio.Scanner: token too long")
     else match entryOf (trim_suffix (String byte_CR "") raw) with
          | None => Err (NewError "invalid allowlist line")
          | Some None => readLines rest allowed
          | Some (Some id) =>
             if bool_decide (id ∈ allowed) then Err (NewError "duplicate allowlist entry")
             else readLines rest ({[id]} ∪ allowed)
          end
  end.

(** [content] is what opening and reading the file gives. *)
Definition readAllowlist (content : res string) : res (gset string) :=
  match content with
  | Err e => Err e
  | Ok text => readLines (rawLines text) ∅
  end.

(** ** The verdict *)

Definition difference (left right : gset string) : list string := sorted (left ∖ right).

(** The exit status and what is printed. *)
Record Verdict := mkVerdict {
  exitStatus : Z;
  v_unexpected : list string;
  v_stale : list string;
}.

Section Main.
Context (readFile : string → res string).

Definition policyMain (args : list string) (stdin : string) : option Verdict :=
  match args with
  | [_; allowlist] =>
     match readAllowlist (readFile allowlist) with
     | Err _ => Some (mkVerdict 2 [] [])
     | Ok allowed =>
        match readReachableFindings stdin with
        | None => None
        | Some (Err _) => Some (mkVerdict 2 [] [])
        | Some (Ok found) =>
           let unexpected := difference found allowed in
           let stale := difference allowed found in
           if negb (bool_decide (unexpected = [])) || negb (bool_decide (stale = []))
           then Some (mkVerdict 1 unexpected stale)
           else Some (mkVerdict 0 [] [])
        end
     end
  | _ => Some (mkVerdict 2 [] [])
  end.
End Main.

(** ** What a stream says *)

Inductive message :=
| Config
| SBOM
| Progress (checking : bool)
| Advisory
| Finding (osv : string) (reached : bool).

#[export] Instance message_eq_dec : EqDecision message.
Proof. solve_decision. Defined.

(** The messages of the protocol, as far as the policy accepts them. *)
Definition classify (kind payload : string) : option message :=
  if bool_decide (kind = "config") then
    config ← unmarshalConfig payload; guard (sourceScan config = true);; Some Config
  else if bool_decide (kind = "SBOM") then
    sbom ← unmarshalSBOM payload;
    guard (sbom_GoVersion sbom ≠ "" ∧ rootModule ∈ items (Modules sbom));; Some SBOM
  else if bool_decide (kind = "progress") then
    message ← unmarshalProgress payload;
    Some (Progress (bool_decide (message = "Checking the code against the vulnerabilities...")))
  else if bool_decide (kind = "osv") then guard (payload ≠ "" ∧ payload ≠ "null");; Some Advisory
  else if bool_decide (kind = "finding") then
    f ← unmarshalFinding payload; guard (OSV f ≠ "");; Some (Finding (OSV f) (called f))
  else None.

(** The whole stream is read as these messages. *)
Inductive streamed : string → list message → Prop :=
| streamed_end s : decodeNext s = EOF → streamed s []
| streamed_next s raw v rest kind payload m ms :
    decodeNext s = Next raw v rest → messageOf v = Ok (kind, payload) → classify kind payload = Some m →
    streamed rest ms → streamed s (m :: ms).

(** The vulnerabilities with a call that is reachable. *)
Definition reached (ms : list message) : gset string :=
  list_to_set (omap (λ m, match m with Finding osv true => Some osv | _ => None end) ms).

(** One scan, complete, that found exactly [R] reachable. *)
Definition findings (stream : string) (R : gset string) : Prop :=
  ∃ ms, streamed stream ms ∧ length (filter (.= Config) ms) = 1%nat ∧ length (filter (.= SBOM) ms) = 1%nat ∧
    Progress true ∈ ms ∧ R = reached ms.

Definition apply (st : scan) (m : message) : scan :=
  let '(mkScan c b p r) := st in
  match m with
  | Config => mkScan (c + 1) b p r
  | SBOM => mkScan c (b + 1) p r
  | Progress checking => mkScan c b (checking || p) r
  | Advisory => st
  | Finding osv true => mkScan c b p ({[osv]} ∪ r)
  | Finding osv false => st
  end.

Lemma handle_classify kind payload st :
  match classify kind payload with
  | Some m => handle kind payload st = Ok (apply st m)
  | None => ∃ e, handle kind payload st = Err e
  end.
Proof.
  destruct st as [c b p r]. unfold classify, handle. case_bool_decide; [|case_bool_decide; [|case_bool_decide; [|case_bool_decide; [|case_bool_decide]]]].
  - destruct (unmarshalConfig payload) as [config|]; simpl; [|eauto]. destruct (sourceScan config); simpl; eauto.
  - destruct (unmarshalSBOM payload) as [sbom|]; simpl; [|eauto].
    assert (existsb (λ path, bool_decide (path = rootModule)) (items (Modules sbom)) = bool_decide (rootModule ∈ items (Modules sbom))) as ->.
    { apply eq_true_iff_eq. rewrite existsb_exists, bool_decide_eq_true. setoid_rewrite bool_decide_eq_true.
      setoid_rewrite <- list_elem_of_In. naive_solver. }
    case_guard as Hg; simpl.
    + destruct Hg as [Hv Hr]. rewrite (bool_decide_eq_true_2 (rootModule ∈ _)), !bool_decide_eq_false_2; [done| |done|done].
      intros Hn. rewrite Hn in Hr. by apply elem_of_nil in Hr.
    + case_bool_decide as Hv; simpl; [eauto|]. case_bool_decide; simpl; [eauto|]. case_bool_decide; simpl; [by destruct Hg|eauto].
  - destruct (unmarshalProgress payload) as [m|]; simpl; [|eauto]. by case_bool_decide.
  - case_guard as Hn; simpl.
    + destruct Hn. by rewrite !bool_decide_eq_false_2.
    + destruct (bool_decide (payload = "") || bool_decide (payload = "null")) eqn:E; [eauto|].
      apply orb_false_iff in E as [?%bool_decide_eq_false ?%bool_decide_eq_false]. by destruct Hn.
  - destruct (unmarshalFinding payload) as [f|]; simpl; [|eauto]. case_guard as E; simpl.
    + rewrite bool_decide_eq_false_2 by done. by destruct (called f).
    + case_bool_decide; [eauto|done].
  - eauto.
Qed.

(** The loop reads the stream to its end or to the first message that is refused. *)
Lemma readMessages_spec fuel : ∀ stream st, (String.length stream < fuel)%nat →
  match readMessages fuel stream st with
  | None => False
  | Some (Ok st') => ∃ ms, streamed stream ms ∧ st' = foldl apply st ms
  | Some (Err _) => ∀ ms, ¬ streamed stream ms
  end.
Proof.
  induction fuel as [|fuel IH]; intros stream st Hf; [lia|]. cbn [readMessages].
  pose proof (decodeNext_spec stream) as Hspec. destruct (decodeNext stream) as [| |raw v rest] eqn:Hn.
  - exists []. split; [by constructor|done].
  - inversion 1; congruence.
  - destruct Hspec as (Hb%behind_length & _). destruct (messageOf v) as [[kind payload]|e] eqn:Hm; [|inversion 1; congruence].
    pose proof (handle_classify kind payload st) as Hh. destruct (classify kind payload) as [m|] eqn:Hc.
    + rewrite Hh. specialize (IH rest (apply st m) ltac:(lia)).
      destruct (readMessages fuel rest (apply st m)) as [[st'|e]|]; [|intros ms Hst; inversion Hst as [|? ? ? ? ? ? ? ? Hn' _ _ Hr]; [congruence|]; rewrite Hn in Hn'; injection Hn' as <- <- <-; by eapply IH|done].
      destruct IH as (ms & Hs & ->). exists (m :: ms). split; [by econstructor|done].
    + destruct Hh as [e ->]. inversion 1; congruence.
Qed.

Lemma apply_counts ms : ∀ st,
  configCount (foldl apply st ms) = (configCount st + N.of_nat (length (filter (.= Config) ms)))%N ∧
  sbomCount (foldl apply st ms) = (sbomCount st + N.of_nat (length (filter (.= SBOM) ms)))%N ∧
  (checkingProgress (foldl apply st ms) = true ↔ checkingProgress st = true ∨ Progress true ∈ ms) ∧
  reachable (foldl apply st ms) = reached ms ∪ reachable st.
Proof.
  induction ms as [|m ms IH]; intros [c b p r]; cbn [foldl].
  { unfold reached. simpl. split_and!; [lia|lia| |set_solver]. split; [by left|intros [?|?%elem_of_nil]; done]. }
  destruct (IH (apply (mkScan c b p r) m)) as (-> & -> & -> & ->).
  split_and!.
  - rewrite filter_cons. destruct m as [| |q| |osv [|]]; try case_decide; simplify_eq/=; lia.
  - rewrite filter_cons. destruct m as [| |q| |osv [|]]; try case_decide; simplify_eq/=; lia.
  - rewrite elem_of_cons. destruct m as [| |[|]| |osv [|]]; simpl; intuition congruence.
  - unfold reached. destruct m as [| |q| |osv [|]]; simpl; try done. by rewrite (assoc_L (∪)), (comm_L (∪) _ {[osv]}).
Qed.

Lemma streamed_fun s ms ms' : streamed s ms → streamed s ms' → ms = ms'.
Proof.
  intros H. revert ms'. induction H as [s Hn|s raw v rest kind payload m ms Hn Hm Hc _ IH]; intros ms' H';
    inversion H' as [|? ? ? ? ? ? ? ? Hn' Hm' Hc' Hr]; try congruence. rewrite Hn in Hn'. injection Hn' as <- <- <-.
  rewrite Hm in Hm'. injection Hm' as <- <-. f_equal; [congruence|auto].
Qed.

(** The stream is read completely, and its answer is the set of the findings. *)
Lemma readReachableFindings_spec stream :
  match readReachableFindings stream with
  | None => False
  | Some (Ok R) => findings stream R
  | Some (Err _) => ∀ R, ¬ findings stream R
  end.
Proof.
  unfold readReachableFindings.
  pose proof (readMessages_spec (S (String.length stream)) stream (mkScan 0 0 false ∅) ltac:(lia)) as H.
  destruct (readMessages _ _ _) as [[st|e]|]; [|intros R (ms & Hs & _); by eapply H|done].
  destruct H as (ms & Hs & ->). destruct (apply_counts ms (mkScan 0 0 false ∅)) as (Hc & Hb & Hp & Hr).
  destruct (_ || _ || _) eqn:E.
  - intros R (ms' & Hs' & Hc' & Hb' & Hp' & _). rewrite (streamed_fun _ _ _ Hs' Hs) in *.
    rewrite Hc, Hb, Hc', Hb' in E. simpl in E. apply negb_true_iff, not_true_iff_false in E. apply E, Hp. by right.
  - apply orb_false_iff in E as [[E1%negb_false_iff%N.eqb_eq E2%negb_false_iff%N.eqb_eq]%orb_false_iff E3%negb_false_iff].
    exists ms. simpl in *. split_and!; [done|lia|lia|by apply Hp in E3 as [?|?]|]. rewrite Hr. set_solver.
Qed.

(** ** What the allowlist says *)

(** The entries of the lines in order, when every line is short enough and valid. *)
Fixpoint entries (lines : list string) : option (list string) :=
  match lines with
  | [] => Some []
  | raw :: rest =>
     if (MaxScanTokenSize <=? String.length raw)%nat then None
     else e ← entryOf (trim_suffix (String byte_CR "") raw);
          ids ← entries rest;
          Some (match e with Some id => id :: ids | None => ids end)
  end.

Lemma readLines_spec lines : ∀ allowed,
  match readLines lines allowed with
  | Ok A => ∃ ids, entries lines = Some ids ∧ NoDup ids ∧ Forall (.∉ allowed) ids ∧ A = list_to_set ids ∪ allowed
  | Err _ => ∀ ids, entries lines = Some ids → NoDup ids → ¬ Forall (.∉ allowed) ids
  end.
Proof.
  induction lines as [|raw rest IH]; intros allowed; cbn [readLines entries].
  { exists []. split_and!; [done|constructor|constructor|]. set_solver. }
  destruct (_ <=? _)%nat; [done|]. destruct (entryOf _) as [[id|]|]; simpl; [| |done].
  - case_bool_decide as Hin.
    + intros ids Hids _ Hall. destruct (entries rest) as [ids'|]; [|done]. injection Hids as <-.
      by apply Forall_cons in Hall as [? _].
    + specialize (IH ({[id]} ∪ allowed)). destruct (readLines rest _) as [A|e].
      * destruct IH as (ids & -> & Hnd & Hall & ->). exists (id :: ids). split_and!; [done| | |].
        -- constructor; [|done]. rewrite Forall_forall in Hall. intros Hin'. apply (Hall id Hin'). set_solver.
        -- constructor; [done|]. eapply Forall_impl; [exact Hall|]. set_solver.
        -- rewrite list_to_set_cons. set_solver.
      * intros ids Hids Hnd Hall. destruct (entries rest) as [ids'|]; [|done]. injection Hids as <-.
        apply NoDup_cons in Hnd as [Hid Hnd]. apply Forall_cons in Hall as [_ Hall]. apply (IH ids' eq_refl Hnd).
        rewrite Forall_forall in *. intros x Hx. specialize (Hall x Hx). set_solver.
  - specialize (IH allowed). destruct (readLines rest allowed) as [A|e], (entries rest) as [ids'|]; simpl; try done.
    all: destruct IH as (? & ? & _); done.
Qed.

(** The file lists exactly [A]. *)
Definition listed (readFile : string → res string) (file : string) (A : gset string) : Prop :=
  ∃ text ids, readFile file = Ok text ∧ entries (rawLines text) = Some ids ∧ NoDup ids ∧ A = list_to_set ids.

Lemma readAllowlist_spec readFile file :
  match readAllowlist (readFile file) with
  | Ok A => listed readFile file A
  | Err _ => ∀ A, ¬ listed readFile file A
  end.
Proof.
  unfold readAllowlist, listed. destruct (readFile file) as [text|e]; [|intros A (? & ? & ? & _); done].
  pose proof (readLines_spec (rawLines text) ∅) as H. destruct (readLines _ _) as [A|e].
  - destruct H as (ids & Hids & Hnd & _ & ->). exists text, ids. split_and!; [done..|]. set_solver.
  - intros A (text' & ids & [= <-] & Hids & Hnd & _). apply (H ids Hids Hnd). apply Forall_forall. set_solver.
Qed.

Lemma listed_fun readFile file A B : listed readFile file A → listed readFile file B → A = B.
Proof. intros (t & ids & Ht & Hi & _ & ->) (t' & ids' & Ht' & Hi' & _ & ->). congruence. Qed.

Lemma findings_fun stream R S : findings stream R → findings stream S → R = S.
Proof. intros (ms & Hs & _ & _ & _ & ->) (ms' & Hs' & _ & _ & _ & ->). by rewrite (streamed_fun _ _ _ Hs Hs'). Qed.

(** ** Properties *)

Lemma difference_spec left right :
  Sorted string_le (difference left right) ∧ NoDup (difference left right) ∧
  ∀ id, id ∈ difference left right ↔ id ∈ left ∧ id ∉ right.
Proof.
  destruct (sorted_spec (left ∖ right)) as (Hs & Hn & Hin). split_and!; [done|done|]. intros id. unfold difference. rewrite Hin. set_solver.
Qed.

Lemma difference_nil left right : difference left right = [] ↔ left ⊆ right.
Proof.
  destruct (difference_spec left right) as (_ & _ & H). split.
  - intros E id Hid. destruct (decide (id ∈ right)); [done|]. assert (id ∈ difference left right) as Hin by (by apply H).
    rewrite E in Hin. by apply elem_of_nil in Hin.
  - intros Hsub. destruct (difference left right) as [|id l] eqn:E; [done|].
    assert (id ∈ left ∧ id ∉ right) as [? ?] by (apply H; left). set_solver.
Qed.

(** The vulnerability gate always gives a verdict, and passes exactly when the
    allowlist names the reachable vulnerabilities of one complete source scan: no
    finding that is not held, no entry that is stale. It fails with status 1 when
    both are readable and differ, and then prints the differences, each in order
    and without repetition; anything unreadable, a message of another kind, a
    second configuration, a scan without its progress, a line that is no entry or
    repeats one, is status 2. *)
Theorem vulnerability_policy (readFile : string → res string) (program file stdin : string) :
  ∃ v, policyMain readFile [program; file] stdin = Some v ∧
    (exitStatus v = 0%Z ↔ ∃ A, listed readFile file A ∧ findings stdin A) ∧
    (exitStatus v = 1%Z ↔ ∃ A R, listed readFile file A ∧ findings stdin R ∧ A ≠ R) ∧
    (exitStatus v = 0 ∨ exitStatus v = 1 ∨ exitStatus v = 2)%Z ∧
    ∀ A R, listed readFile file A → findings stdin R →
      Sorted string_le (v_unexpected v) ∧ NoDup (v_unexpected v) ∧ (∀ id, id ∈ v_unexpected v ↔ id ∈ R ∧ id ∉ A) ∧
      Sorted string_le (v_stale v) ∧ NoDup (v_stale v) ∧ (∀ id, id ∈ v_stale v ↔ id ∈ A ∧ id ∉ R).
Proof.
  unfold policyMain. pose proof (readAllowlist_spec readFile file) as HA.
  destruct (readAllowlist _) as [A|e].
  2:{ eexists. split; [done|]. simpl. split_and!; [split; [done|intros (A & ? & _); by destruct (HA A)]|
        split; [done|intros (A & R & ? & _); by destruct (HA A)]|by auto|intros A R ?; by destruct (HA A)]. }
  pose proof (readReachableFindings_spec stdin) as HR. destruct (readReachableFindings stdin) as [[R|e]|]; [| |done].
  2:{ eexists. split; [done|]. simpl. split_and!; [split; [done|intros (B & _ & ?); by destruct (HR B)]|
        split; [done|intros (B & R & _ & ? & _); by destruct (HR R)]|by auto|intros B R _ ?; by destruct (HR R)]. }
  assert (∀ B S, listed readFile file B → findings stdin S → B = A ∧ S = R) as Hfun.
  { intros B S HB HS. by rewrite (listed_fun _ _ _ _ HA HB), (findings_fun _ _ _ HR HS). }
  cbv zeta. destruct (_ || _) eqn:E; (eexists; split; [done|]); cbn [exitStatus v_unexpected v_stale].
  - assert (A ≠ R) as Hne.
    { intros ->. apply orb_true_iff in E as [E|E]; apply negb_true_iff, bool_decide_eq_false in E; by apply E, difference_nil. }
    split_and!; [split; [done|]|split; [by exists A, R|done]|by auto|].
    + intros (B & HB & HB'). destruct (Hfun B B HB HB') as [-> ->]. done.
    + intros B S HB HS. destruct (Hfun B S HB HS) as [-> ->].
      destruct (difference_spec R A) as (? & ? & ?), (difference_spec A R) as (? & ? & ?). by split_and!.
  - apply orb_false_iff in E as [E1%negb_false_iff%bool_decide_eq_true%difference_nil E2%negb_false_iff%bool_decide_eq_true%difference_nil].
    assert (A = R) as <- by set_solver.
    split_and!; [split; [by exists A|done]|split; [done|]|by auto|].
    + intros (B & S & HB & HS & Hne). destruct (Hfun B S HB HS) as [-> ->]. done.
    + intros B S HB HS. destruct (Hfun B S HB HS) as [-> ->].
      split_and!; try (by constructor); intros id; (split; [by intros ?%elem_of_nil|tauto]).
Qed.

(** A scan that found one held vulnerability, and one that was not held. *)
Definition q (s : string) : string := String "034" (s +:+ String "034" "").

Definition field (name value : string) : string := q name +:+ ":" +:+ value.
Definition object (fields : list string) : string := "{" +:+ join_with "," fields +:+ "}".

Definition sampleScan (ids : list string) : string :=
  object [field "config" (object [field "protocol_version" (q "v1.0.0"); field "scanner_name" (q "govulncheck");
    field "scanner_version" (q "v1.1.4"); field "go_version" (q "go1.26"); field "scan_level" (q "symbol");
    field "scan_mode" (q "source")])] +:+
  object [field "SBOM" (object [field "go_version" (q "go1.26");
    field "modules" ("[" +:+ object [field "path" (q rootModule)] +:+ "]")])] +:+
  object [field "progress" (object [field "message" (q "Checking the code against the vulnerabilities...")])] +:+
  join_with " " ((λ id, object [field "finding" (object [field "osv" (q id);
    field "trace" ("[" +:+ object [field "function" (q "Parse")] +:+ "]")])]) <$> ids).

Definition sampleList : string := "# held" +:+ String byte_LF "GO-2024-0001 # no fix".

Example policy_passes : policyMain (λ _, Ok sampleList) ["policy"; "allow"] (sampleScan ["GO-2024-0001"]) = Some (mkVerdict 0 [] []).
Proof. vm_compute. reflexivity. Qed.

Example policy_fails : policyMain (λ _, Ok sampleList) ["policy"; "allow"] (sampleScan ["GO-2024-0002"]) =
  Some (mkVerdict 1 ["GO-2024-0002"] ["GO-2024-0001"]).
Proof. vm_compute. reflexivity. Qed.

(** A key that is repeated hides what it said before: the decoder's map keeps the
    last payload, so the limit of one field per message does not see the first. *)
Example policy_repeated_key :
  policyMain (λ _, Ok sampleList) ["policy"; "allow"]
    (sampleScan [] +:+ object [field "finding" (object [field "osv" (q "GO-2024-0002"); field "trace" ("[" +:+ object [field "function" (q "Parse")] +:+ "]")]);
                               field "finding" (object [field "osv" (q "GO-2024-0001"); field "trace" ("[" +:+ object [field "function" (q "Parse")] +:+ "]")])]) =
  Some (mkVerdict 0 [] []).
Proof. vm_compute. reflexivity. Qed.
