(* ===== verification/Dependencies.v ===== *)
(** * The dependency boundary (src/scripts/check-go-dependency-boundary.go)

    The gate on the graph of selected packages that `go list` prints: the records of
    the stream, the canonical import paths, and the packages that must not appear. *)

From stdpp Require Import prelude strings gmap sorting.
From Stdlib Require Import ZArith Lia Ascii.
From S2P Require Import Prelude GoStrings FileSystem Tables Store Files Json VulnPolicy.

Local Open Scope string_scope.
Local Open Scope list_scope.

Definition forbiddenOpenPGPPackage : string := "golang.org/x/crypto/openpgp".
Definition forbiddenLegacyFilePackage : string := "github.com/EdmundFu-233/ReCasaOS-UserService/pkg/utils/file".
Definition forbiddenLegacyFileSourcePath : string := "pkg/utils/file".
Definition maximumGraphBytes : N := 67108864.
Definition maximumSourceFileBytes : N := 4194304.
Definition maximumSourceFiles : N := 4096.

(** ** A package record *)

Record packageRecord := mkRecord {
  ImportPath : string;
  Incomplete : bool;
  Error : string;
  DepsErrors : string;
}.

Definition emptyRecord : packageRecord := mkRecord "" false "" "".

(** The switch on a key that is not a duplicate. *)
Definition setMember (key raw : string) (v : json) (record : packageRecord) : res packageRecord :=
  let '(mkRecord path incomplete error deps) := record in
  if bool_decide (key = "ImportPath") then
    match decodeText v path with
    | (path', false) => Ok (mkRecord path' incomplete error deps)
    | (_, true) => Err (NewError "decode package record key")
    end
  else if bool_decide (key = "Incomplete") then
    match v with
    | JBool b => Ok (mkRecord path b error deps)
    | JNull => Ok record
    | _ => Err (NewError "decode package record key")
    end
  else if bool_decide (key = "Error") then Ok (mkRecord path incomplete raw deps)
  else if bool_decide (key = "DepsErrors") then Ok (mkRecord path incomplete error raw)
  else Ok record.

(** The loop over the members. *)
Fixpoint readMembers (members : list (string * (string * json))) (seen : gset string) (record : packageRecord)
    : res packageRecord :=
  match members with
  | [] => Ok record
  | (key, (raw, v)) :: rest =>
     if bool_decide (key ∈ seen) then Err (NewError "package record contains duplicate key")
     else match setMember key raw v record with
          | Err e => Err e
          | Ok record' => readMembers rest ({[key]} ∪ seen) record'
          end
  end.

(** [UnmarshalJSON], on the text the decoder found to be one value, and that value. *)
Definition UnmarshalJSON (payload : string) (v : json) : res packageRecord :=
  if negb (utf8_Valid payload) then Err (NewError "package record is not valid UTF-8")
  else match v with
       | JObject members => readMembers members ∅ emptyRecord
       | _ => Err (NewError "package record is not a JSON object")
       end.

(** ** Import paths *)

(** [strings.Index]. *)
Fixpoint Index (s sub : string) : option nat :=
  if has_prefix sub s then Some 0%nat
  else match s with EmptyString => None | String _ r => S <$> Index r sub end.

(** [strings.Count] of a text of two different bytes. *)
Fixpoint Count (s sub : string) : nat :=
  match s with
  | EmptyString => 0
  | String _ r => (if has_prefix sub s then 1 else 0) + Count r sub
  end.

Definition tabs : string := String "009" (String byte_CR (String byte_LF "")).

Definition canonicalImportPath (importPath : string) : res string :=
  let invalid := NewError "package record has an invalid ImportPath" in
  let malformed := NewError "package record has a malformed test ImportPath" in
  if bool_decide (importPath = "") then Err (NewError "package record has an empty ImportPath")
  else if negb (utf8_Valid importPath) then Err invalid
  else if negb (all_bytes (between 32 126) importPath) then Err (NewError "package record has a non-ASCII ImportPath")
  else if contains_any tabs importPath then Err invalid
  else
    let selected :=
      match Index importPath " [" with
      | None => Ok importPath
      | Some marker =>
         if (marker =? 0)%nat || negb (has_suffix "]" importPath) || negb (Count importPath " [" =? 1)%nat then Err malformed
         else
           let testContext := slice (marker + 2) (String.length importPath - 1) importPath in
           if bool_decide (testContext = "") || negb (has_suffix ".test" testContext) || contains_any "[] " testContext
           then Err malformed
           else Ok (take_bytes marker importPath)
      end in
    match selected with
    | Err e => Err e
    | Ok path => if contains " " path then Err invalid else Ok path
    end.

Definition rawJSONIs (raw : string) (allowed : list string) : bool :=
  let trimmed := TrimSpace raw in
  bool_decide (trimmed = "") || existsb (λ value, bool_decide (trimmed = value)) allowed.

Definition isForbidden (importPath : string) : bool :=
  bool_decide (importPath = forbiddenOpenPGPPackage) || has_prefix (forbiddenOpenPGPPackage +:+ "/") importPath.

(** ** The graph *)

(** What the loop makes of one record: its canonical path. *)
Definition checkRecord (record : packageRecord) : res string :=
  match canonicalImportPath (ImportPath record) with
  | Err e => Err (Wrap "package record" e)
  | Ok importPath =>
     if Incomplete record then Err (NewError "selected package graph is incomplete")
     else if negb (rawJSONIs (Error record) ["null"]) then Err (NewError "selected package contains a load error")
     else if negb (rawJSONIs (DepsErrors record) ["null"; "[]"])
     then Err (NewError "selected package contains dependency load errors")
     else Ok importPath
  end.

(** The loop; [None] when the fuel runs out. *)
Fixpoint inspectFrom (fuel : nat) (stream : string) (seen : N) (violations : gset string) : option (res (N * gset string)) :=
  match fuel with
  | O => None
  | S fuel' =>
     match decodeNext stream with
     | EOF => Some (Ok (seen, violations))
     | SyntaxError => Some (Err (Wrap "decode package record" (NewError "invalid character")))
     | Next raw v rest =>
        match UnmarshalJSON raw v with
        | Err e => Some (Err (Wrap "decode package record" e))
        | Ok record =>
           match checkRecord record with
           | Err e => Some (Err e)
           | Ok importPath =>
              inspectFrom fuel' rest (seen + 1) (if isForbidden importPath then {[importPath]} ∪ violations else violations)
           end
        end
     end
  end.

Definition inspect (input : string) : option (res (N * list string)) :=
  match inspectFrom (S (String.length input)) input 0 ∅ with
  | None => None
  | Some (Err e) => Some (Err e)
  | Some (Ok (seen, violations)) =>
     if (seen =? 0)%N then Some (Err (NewError "selected package graph is empty"))
     else Some (Ok (seen, sorted violations))
  end.

(** [enforce]: the exit status, and the packages that are printed. *)
Definition enforce (payload : string) : option (Z * list string) :=
  match inspect payload with
  | None => None
  | Some (Err _) => Some (1%Z, [])
  | Some (Ok (_, forbidden)) => if bool_decide (forbidden = []) then Some (0%Z, []) else Some (1%Z, forbidden)
  end.

(** [io.ReadAll(io.LimitReader(input, maximumGraphBytes+1))] of what the input holds. *)
Definition readBounded (content : string) : res string :=
  if (maximumGraphBytes <? N.of_nat (String.length content))%N
  then Err (NewError "selected package graph exceeds the limit") else Ok content.

(** ** Canonical import paths *)

(** A path that stands for a package: visible ASCII. *)
Definition importable (p : string) : Prop := p ≠ "" ∧ all_bytes printable p = true.

(** The synthetic context of a package that was rebuilt for a test binary. *)
Definition testContext (ctx : string) : Prop :=
  all_bytes printable ctx = true ∧ has_suffix ".test" ctx = true ∧ contains_any "[] " ctx = false.

Lemma Index_Some s sub k : Index s sub = Some k → ∃ t, s = take_bytes k s +:+ sub +:+ t.
Proof.
  revert k. induction s as [|a s IH]; intros k; cbn [Index].
  - destruct (has_prefix sub "") eqn:E; [|done]. intros [= <-]. apply has_prefix_spec in E as [t E]. exists t. exact E.
  - destruct (has_prefix sub (String a s)) eqn:E.
    + intros [= <-]. apply has_prefix_spec in E as [t E]. by exists t.
    + destruct (Index s sub) as [k'|]; [|done]. intros [= <-]. destruct (IH k' eq_refl) as [t Ht]. exists t. simpl. by f_equal.
Qed.

Lemma Index_plain p sub c t : contains_byte c p = false → Index (p +:+ String c (sub +:+ t)) (String c sub) = Some (String.length p).
Proof.
  induction p as [|a p IH]; intros Hp.
  - cbn [String.append Index]. change (String c (sub +:+ t)) with (String c sub +:+ t). by rewrite has_prefix_app.
  - cbn [contains_byte] in Hp. apply orb_false_iff in Hp as [Ha Hp]. cbn [String.append Index has_prefix].
    apply bool_decide_eq_false in Ha. rewrite bool_decide_eq_false_2 by congruence. cbn [andb]. by rewrite IH.
Qed.

Lemma Index_None p sub c : contains_byte c p = false → Index p (String c sub) = None.
Proof.
  induction p as [|a p IH]; intros Hp; cbn [Index has_prefix]; [done|].
  cbn [contains_byte] in Hp. apply orb_false_iff in Hp as [Ha Hp]. apply bool_decide_eq_false in Ha.
  rewrite bool_decide_eq_false_2 by congruence. cbn [andb]. by rewrite IH.
Qed.

Lemma Count_plain p sub c t : contains_byte c p = false → Count (p +:+ t) (String c sub) = Count t (String c sub).
Proof.
  induction p as [|a p IH]; intros Hp; [done|]. cbn [contains_byte] in Hp. apply orb_false_iff in Hp as [Ha Hp].
  apply bool_decide_eq_false in Ha. cbn [String.append Count has_prefix]. rewrite bool_decide_eq_false_2 by congruence. by apply IH.
Qed.

Lemma visible_or_space s : all_bytes (between 32 126) s = true ↔ all_bytes (λ a, bool_decide (a = " "%char) || printable a) s = true.
Proof.
  assert (∀ a, between 32 126 a = bool_decide (a = " "%char) || printable a) as Ha by (intros a; by destruct a as [[] [] [] [] [] [] [] []]).
  induction s as [|a s IH]; [done|]. cbn [all_bytes]. by rewrite !andb_true_iff, IH, Ha.
Qed.

Lemma printable_range s : all_bytes printable s = true ↔ all_bytes (between 32 126) s = true ∧ contains_byte " " s = false.
Proof.
  rewrite visible_or_space. induction s as [|a s IH]; [done|]. cbn [all_bytes contains_byte].
  rewrite !andb_true_iff, orb_false_iff, orb_true_iff, IH, bool_decide_eq_true, bool_decide_eq_false.
  assert (printable " " = false) as Hsp by done. split.
  - intros [Ha [Hs Hn]]. split_and!; [by right|done| |done]. intros ->. congruence.
  - intros [[[->|Ha] Hs] [Hn Hn']]; [done|]. by split_and!.
Qed.

Lemma no_tabs s : all_bytes (between 32 126) s = true → contains_any tabs s = false.
Proof.
  intros Hs. apply contains_any_bytes. intros c Hc. apply (all_bytes_no_byte (between 32 126)); [|done].
  unfold tabs in Hc. simpl in Hc. rewrite !orb_true_iff, !bool_decide_eq_true in Hc. by destruct Hc as [<-|[<-|[<-|[=]]]].
Qed.

Lemma slice_context p ctx :
  slice (String.length p + 2) (String.length (p +:+ " [" +:+ ctx +:+ "]") - 1) (p +:+ " [" +:+ ctx +:+ "]") = ctx.
Proof.
  unfold slice. rewrite <- (string_app_assoc p), !string_length_app.
  replace (String.length p + 2)%nat with (String.length (p +:+ " [")) by (rewrite string_length_app; simpl; lia).
  rewrite drop_bytes_app, string_length_app.
  replace (String.length p + String.length " [" + (String.length ctx + String.length "]") - 1 -
    (String.length p + String.length " ["))%nat with (String.length ctx) by (simpl; lia).
  apply take_bytes_app.
Qed.

Lemma canonicalImportPath_sound s p : canonicalImportPath s = Ok p →
  importable p ∧ (s = p ∨ ∃ ctx, s = p +:+ " [" +:+ ctx +:+ "]" ∧ testContext ctx).
Proof.
  unfold canonicalImportPath. cbv zeta.
  case_bool_decide as Hne; [done|]. destruct (utf8_Valid s); cbn [negb]; [|done].
  destruct (all_bytes (between 32 126) s) eqn:Hs; cbn [negb]; [|done]. destruct (contains_any tabs s); [done|].
  destruct (Index s " [") as [marker|] eqn:Hi.
  + destruct (Nat.eqb_spec marker 0) as [->|Hm]; [done|]. destruct (has_suffix "]" s) eqn:Hsuf; cbn [negb orb]; [|done].
    destruct (_ =? _)%nat; cbn [negb]; [|done]. apply Index_Some in Hi as [t Ht]. set (path := take_bytes marker s) in *.
    assert (String.length path = marker) as Hlen.
    { apply take_bytes_length. destruct (Nat.le_gt_cases marker (String.length s)) as [|Hgt]; [done|]. exfalso.
      unfold path in Ht. rewrite take_bytes_all in Ht by lia. apply (f_equal String.length) in Ht.
      rewrite !string_length_app in Ht. simpl in Ht. lia. }
    apply has_suffix_spec in Hsuf as [u Hu]. destruct (string_rev_case t) as [->|(ctx & c & ->)].
    { rewrite Hu in Ht. change (path +:+ " [" +:+ "") with (path +:+ String " " "" +:+ String "[" "") in Ht.
      rewrite <- string_app_assoc in Ht. by apply string_app_last in Ht as [_ [=]]. }
    assert (c = "]"%char) as ->.
    { rewrite Hu in Ht. rewrite <- !string_app_assoc in Ht. by apply string_app_last in Ht as [_ <-]. }
    assert (slice (marker + 2) (String.length s - 1) s = ctx) as ->.
    { rewrite Ht, <- Hlen. apply slice_context. }
    destruct (_ || _ || _) eqn:E; [done|]. apply orb_false_iff in E as [[E1%bool_decide_eq_false E2%negb_false_iff]%orb_false_iff E3].
    rewrite contains_single. destruct (contains_byte " " path) eqn:Hsp; [done|]. intros [= <-].
    rewrite Ht, !all_bytes_app, !andb_true_iff in Hs. destruct Hs as (Hp & _ & Hc & _).
    split; [split; [|by apply printable_range]|].
    * intros E. rewrite E in Hlen. by destruct Hm.
    * right. exists ctx. split; [exact Ht|]. split_and!; [|done|done]. apply printable_range. split; [done|].
      by apply (proj1 (contains_any_bytes "[] " ctx) E3 " "%char).
  + rewrite contains_single. destruct (contains_byte " " s) eqn:Hsp; [done|]. intros [= <-].
    split; [split; [done|by apply printable_range]|by left].
Qed.

Lemma canonicalImportPath_complete s p :
  importable p ∧ (s = p ∨ ∃ ctx, s = p +:+ " [" +:+ ctx +:+ "]" ∧ testContext ctx) → canonicalImportPath s = Ok p.
Proof.
  unfold canonicalImportPath. cbv zeta.
  intros [[Hne Hp] H]. apply printable_range in Hp as [Hp Hsp].
  assert (s ≠ "" ∧ all_bytes (between 32 126) s = true) as [Hs Hb].
  { destruct H as [->|(ctx & -> & Hc & _)]; [done|]. split; [by destruct p|].
    rewrite !all_bytes_app, Hp. by apply printable_range in Hc as [-> _]. }
  rewrite bool_decide_eq_false_2, ascii_valid, Hb, no_tabs by done. cbn [negb].
  destruct H as [->|(ctx & -> & Hc & Hsuf & Hany)].
  + by rewrite Index_None, contains_single, Hsp.
  + pose proof (Index_plain p "[" " " (ctx +:+ "]") Hsp) as Hidx. cbn [String.append] in Hidx |- *. rewrite Hidx.
    apply printable_range in Hc as [_ Hcs].
    assert (Count (p +:+ String " " (String "[" (ctx +:+ "]"))) " [" = 1%nat) as ->.
    { rewrite Count_plain by done. cbn [Count has_prefix]. rewrite !bool_decide_eq_true_2, bool_decide_eq_false_2 by done. cbn [andb].
      by rewrite Count_plain. }
    assert (has_suffix "]" (p +:+ String " " (String "[" (ctx +:+ "]"))) = true) as ->.
    { apply has_suffix_spec. exists (p +:+ " [" +:+ ctx). by rewrite !string_app_assoc. }
    pose proof (slice_context p ctx) as Hslice. cbn [String.append] in Hslice. rewrite Hslice, Hsuf, Hany, take_bytes_app.
    destruct (Nat.eqb_spec (String.length p) 0) as [E|_]; [by destruct p|].
    rewrite bool_decide_eq_false_2 by (intros ->; done). cbn [negb orb Nat.eqb]. by rewrite contains_single, Hsp.
Qed.

(** ** Records *)

(** The value of the first member with this key. *)
Fixpoint member (key : string) (members : list (string * (string * json))) : option (string * json) :=
  match members with
  | [] => None
  | (k, x) :: rest => if bool_decide (k = key) then Some x else member key rest
  end.

(** What the members say over a record that is already there; [None] when a value
    has the wrong type. *)
Definition recordOf (members : list (string * (string * json))) (record : packageRecord) : option packageRecord :=
  path ← match member "ImportPath" members with
         | Some (_, JString s) => Some s
         | Some (_, JNull) | None => Some (ImportPath record)
         | _ => None
         end;
  incomplete ← match member "Incomplete" members with
               | Some (_, JBool b) => Some b
               | Some (_, JNull) | None => Some (Incomplete record)
               | _ => None
               end;
  Some (mkRecord path incomplete (default (Error record) (fst <$> member "Error" members))
          (default (DepsErrors record) (fst <$> member "DepsErrors" members))).

Lemma member_None key members : key ∉ members.*1 → member key members = None.
Proof.
  induction members as [|[k x] rest IH]; [done|]. cbn [fmap list_fmap fst member]. intros [Hk Hr]%not_elem_of_cons.
  rewrite bool_decide_eq_false_2 by done. by apply IH.
Qed.

(** One member is taken before the rest, when the rest does not repeat it. *)
Lemma recordOf_cons key raw v rest record : key ∉ rest.*1 →
  recordOf ((key, (raw, v)) :: rest) record =
  match setMember key raw v record with Ok record' => recordOf rest record' | Err _ => None end.
Proof.
  intros Hk%member_None. destruct record as [path incomplete error deps]. unfold setMember, recordOf. cbn [member].
  destruct (decide (key = "ImportPath")) as [->|H1].
  { rewrite (bool_decide_eq_true_2 ("ImportPath" = "ImportPath")), !bool_decide_eq_false_2 by done. rewrite Hk. by destruct v. }
  rewrite !(bool_decide_eq_false_2 (key = "ImportPath")) by done.
  destruct (decide (key = "Incomplete")) as [->|H2].
  { rewrite (bool_decide_eq_true_2 ("Incomplete" = "Incomplete")), !bool_decide_eq_false_2 by done. rewrite Hk. simpl.
    destruct (member "ImportPath" rest) as [[r [| | | | |]]|]; by destruct v. }
  rewrite !(bool_decide_eq_false_2 (key = "Incomplete")) by done.
  destruct (decide (key = "Error")) as [->|H3].
  { rewrite (bool_decide_eq_true_2 ("Error" = "Error")), !bool_decide_eq_false_2 by done. by rewrite Hk. }
  rewrite !(bool_decide_eq_false_2 (key = "Error")) by done.
  case_bool_decide as H4; [subst key; by rewrite Hk|done].
Qed.

Lemma readMembers_spec members : ∀ seen record r,
  readMembers members seen record = Ok r ↔
  NoDup members.*1 ∧ Forall (.∉ seen) members.*1 ∧ recordOf members record = Some r.
Proof.
  induction members as [|[key [raw v]] rest IH]; intros seen record r; cbn [readMembers].
  { unfold recordOf. simpl. destruct record. split; [intros [= <-]|by intros (_ & _ & [= <-])]. split_and!; by constructor. }
  cbn [fmap list_fmap fst]. rewrite NoDup_cons, Forall_cons. case_bool_decide as Hin; [split; [done|tauto]|].
  assert (key ∉ rest.*1 → Forall (.∉ {[key]} ∪ seen) rest.*1 ↔ Forall (.∉ seen) rest.*1) as Hall.
  { intros Hk. rewrite !Forall_forall. split; intros H x Hx; specialize (H x Hx); [set_solver|].
    intros [->%elem_of_singleton|?]%elem_of_union; done. }
  destruct (decide (key ∈ rest.*1)) as [Hk|Hk].
  - split; [|tauto]. destruct (setMember _ _ _ _) as [record'|e]; [|done]. intros (_ & Hf & _)%IH. rewrite Forall_forall in Hf.
    destruct (Hf key Hk). set_solver.
  - rewrite (recordOf_cons _ _ _ _ _ Hk). destruct (setMember _ _ _ _) as [record'|e]; [|by split; [|intros (_ & _ & ?)]].
    rewrite IH, Hall by done. tauto.
Qed.

(** A record that is acceptable, with the package it stands for. *)
Record acceptable (payload : string) (v : json) (path : string) : Prop := {
  ac_utf8 : utf8_Valid payload = true;
  ac_record : ∃ members record, v = JObject members ∧ NoDup members.*1 ∧ recordOf members emptyRecord = Some record ∧
    (ImportPath record = path ∨ ∃ ctx, ImportPath record = path +:+ " [" +:+ ctx +:+ "]" ∧ testContext ctx) ∧
    Incomplete record = false ∧ TrimSpace (Error record) ∈ [""; "null"] ∧ TrimSpace (DepsErrors record) ∈ [""; "null"; "[]"];
  ac_path : importable path;
}.

Lemma rawJSONIs_spec raw allowed : rawJSONIs raw allowed = true ↔ TrimSpace raw ∈ "" :: allowed.
Proof.
  unfold rawJSONIs. cbv zeta. rewrite orb_true_iff, bool_decide_eq_true, elem_of_cons, existsb_exists.
  setoid_rewrite bool_decide_eq_true. setoid_rewrite <- list_elem_of_In. naive_solver.
Qed.

Lemma checkRecord_spec payload v path :
  (∃ record, UnmarshalJSON payload v = Ok record ∧ checkRecord record = Ok path) ↔ acceptable payload v path.
Proof.
  unfold UnmarshalJSON, checkRecord. split.
  - intros (record & Hu & Hc). destruct (utf8_Valid payload) eqn:Hv; cbn [negb] in Hu; [|done].
    destruct v as [| | | | |members]; try done. apply readMembers_spec in Hu as (Hnd & _ & Hr).
    destruct (canonicalImportPath _) as [p|e] eqn:Hp; [|done]. apply canonicalImportPath_sound in Hp as [Hi Hp].
    destruct (Incomplete record) eqn:Hinc; [done|]. destruct (rawJSONIs (Error _) _) eqn:He; cbn [negb] in Hc; [|done].
    destruct (rawJSONIs (DepsErrors _) _) eqn:Hd; cbn [negb] in Hc; [|done]. injection Hc as <-.
    apply rawJSONIs_spec in He, Hd. split; [done| |done]. exists members, record. by split_and!.
  - intros [Hv (members & record & -> & Hnd & Hr & Hp & Hinc & He & Hd) Hi]. exists record. rewrite Hv. cbn [negb]. split.
    + apply readMembers_spec. split_and!; [done| |done]. apply Forall_forall. set_solver.
    + rewrite (canonicalImportPath_complete _ path) by done. rewrite Hinc.
      apply rawJSONIs_spec in He, Hd. by rewrite He, Hd.
Qed.

(** ** The graph *)

(** The whole stream is a list of acceptable records of these packages. *)
Inductive graph : string → list string → Prop :=
| graph_end s : decodeNext s = EOF → graph s []
| graph_next s raw v rest path paths :
    decodeNext s = Next raw v rest → acceptable raw v path → graph rest paths → graph s (path :: paths).

Definition forbiddenOf (paths : list string) : gset string := list_to_set (filter (λ p, isForbidden p = true) paths).

Lemma inspectFrom_spec fuel : ∀ stream seen violations, (String.length stream < fuel)%nat →
  match inspectFrom fuel stream seen violations with
  | None => False
  | Some (Ok (n, found)) => ∃ paths, graph stream paths ∧ n = (seen + N.of_nat (length paths))%N ∧
      found = forbiddenOf paths ∪ violations
  | Some (Err _) => ∀ paths, ¬ graph stream paths
  end.
Proof.
  induction fuel as [|fuel IH]; intros stream seen violations Hf; [lia|]. cbn [inspectFrom].
  pose proof (decodeNext_spec stream) as Hspec. destruct (decodeNext stream) as [| |raw v rest] eqn:Hn.
  - exists []. split_and!; [by constructor|simpl; lia|unfold forbiddenOf; set_solver].
  - inversion 1; congruence.
  - destruct Hspec as (Hb%behind_length & _).
    assert ((∀ path, ¬ acceptable raw v path) → ∀ paths, ¬ graph stream paths) as Hno.
    { intros H paths Hg. inversion Hg as [|? ? ? ? path ? Hn' Ha]; [congruence|]. rewrite Hn in Hn'. injection Hn' as <- <- <-.
      by apply (H path). }
    destruct (UnmarshalJSON raw v) as [record|e] eqn:Hu.
    2:{ apply Hno. intros path (record & Hu' & _)%checkRecord_spec. congruence. }
    destruct (checkRecord record) as [path|e] eqn:Hc.
    2:{ apply Hno. intros path (record' & Hu' & Hc')%checkRecord_spec. congruence. }
    assert (acceptable raw v path) as Ha by (apply checkRecord_spec; eauto).
    specialize (IH rest (seen + 1)%N (if isForbidden path then {[path]} ∪ violations else violations) ltac:(lia)).
    destruct (inspectFrom fuel rest _ _) as [[[n found]|e]|]; [| |done].
    + destruct IH as (paths & Hg & -> & ->). exists (path :: paths). split_and!; [by econstructor|simpl; lia|].
      unfold forbiddenOf. rewrite filter_cons. case_decide as Hd; [|by destruct (isForbidden path)].
      by rewrite Hd, list_to_set_cons, (assoc_L (∪)), (comm_L (∪) _ {[path]}).
    + intros paths Hg. inversion Hg as [|? ? ? ? path' ? Hn' _ Hr]; [congruence|]. rewrite Hn in Hn'. injection Hn' as <- <- <-.
      by eapply IH.
Qed.

Lemma graph_fun s paths paths' : graph s paths → graph s paths' → paths = paths'.
Proof.
  intros H. revert paths'. induction H as [s Hn|s raw v rest path paths Hn Ha _ IH]; intros paths' H';
    inversion H' as [|? ? ? ? path' ? Hn' Ha' Hr]; try congruence. rewrite Hn in Hn'. injection Hn' as <- <- <-.
  apply checkRecord_spec in Ha as (record & Hu & Hc), Ha' as (record' & Hu' & Hc'). f_equal; [congruence|auto].
Qed.

(** ** The verdict *)

(** The boundary on the package graph always gives a verdict. It passes exactly
    when the input is a sequence of one or more acceptable records and none of them
    is of a forbidden package: each record one JSON object in UTF-8 without a
    repeated key, with a canonical path, complete and without load errors. When all
    records are acceptable it prints the forbidden packages among them, each once
    and in order. *)
Lemma enforce_spec (payload : string) :
  ∃ status printed, enforce payload = Some (status, printed) ∧ (status = 0 ∨ status = 1)%Z ∧
    (status = 0%Z ↔ ∃ paths, graph payload paths ∧ paths ≠ [] ∧ Forall (λ p, isForbidden p = false) paths) ∧
    ∀ paths, graph payload paths → Sorted string_le printed ∧ NoDup printed ∧
      ∀ p, p ∈ printed ↔ p ∈ paths ∧ isForbidden p = true.
Proof.
  unfold enforce, inspect. pose proof (inspectFrom_spec (S (String.length payload)) payload 0 ∅ ltac:(lia)) as H.
  destruct (inspectFrom _ _ _ _) as [[[n found]|e]|]; [| |done].
  2:{ exists 1%Z, []. split_and!; [done|by right|split; [done|intros (paths & Hg & _); by destruct (H paths)]|].
      intros paths Hg. by destruct (H paths). }
  destruct H as (paths & Hg & -> & ->). rewrite (right_id_L ∅ (∪)).
  assert (∀ p, p ∈ forbiddenOf paths ↔ p ∈ paths ∧ isForbidden p = true) as Hin.
  { intros p. unfold forbiddenOf. rewrite elem_of_list_to_set, list_elem_of_filter. tauto. }
  destruct (N.eqb_spec (0 + N.of_nat (length paths)) 0) as [E|E].
  { assert (paths = []) as -> by (destruct paths; [done|simpl in E; lia]).
    exists 1%Z, []. split_and!; [done|by right|split; [done|intros (ps & Hg' & Hne & _); by rewrite (graph_fun _ _ _ Hg' Hg) in Hne]|].
    intros ps Hg'. rewrite (graph_fun _ _ _ Hg' Hg). split_and!; [constructor|constructor|]. intros p. rewrite !elem_of_nil. tauto. }
  destruct (sorted_spec (forbiddenOf paths)) as (Hs & Hnd & Hp). setoid_rewrite Hin in Hp.
  set (printed := sorted (forbiddenOf paths)) in *.
  assert (paths ≠ []) as Hne by (intros ->; by apply E).
  case_bool_decide as Hempty.
  - exists 0%Z, []. split_and!; [done|by left| |].
    + split; [|done]. intros _. exists paths. split_and!; [done|done|]. apply Forall_forall. intros p Hin'.
      destruct (isForbidden p) eqn:Hf; [|done]. assert (p ∈ printed) as Hbad by (by apply Hp).
      rewrite Hempty in Hbad. by apply elem_of_nil in Hbad.
    + intros ps Hg'. rewrite (graph_fun _ _ _ Hg' Hg), <- Hempty. by split_and!.
  - exists 1%Z, printed. split_and!; [done|by right| |].
    + split; [done|]. intros (ps & Hg' & _ & Hall). rewrite (graph_fun _ _ _ Hg' Hg) in Hall. destruct Hempty.
      destruct printed as [|p l]; [done|]. destruct (proj1 (Hp p)) as [Hin' Hf]; [left|].
      rewrite Forall_forall in Hall. by rewrite (Hall p Hin') in Hf.
    + intros ps Hg'. rewrite (graph_fun _ _ _ Hg' Hg). by split_and!.
Qed.

Example boundary_holds : enforce (object [field "ImportPath" (q "example.org/a"); field "Deps" "[1, {}]"; field "DepsErrors" "[]"]) = Some (0%Z, []).
Proof. vm_compute. reflexivity. Qed.

Example boundary_broken :
  enforce (object [field "ImportPath" (q "example.org/a")] +:+ object [field "ImportPath" (q "golang.org/x/crypto/openpgp/armor [a.test]")]) =
  Some (1%Z, ["golang.org/x/crypto/openpgp/armor"]).
Proof. vm_compute. reflexivity. Qed.

(** A test variant of a forbidden package is recognised like the package. *)
Example test_variant :
  canonicalImportPath "golang.org/x/crypto/openpgp [golang.org/x/crypto/openpgp.test]" = Ok forbiddenOpenPGPPackage.
Proof. vm_compute. reflexivity. Qed.
