(* ===== verification/Sources.v ===== *)
(** * The source import boundary (src/scripts/check-go-dependency-boundary.go)

    The second half of the dependency gate: the walk over the source tree that looks
    for forbidden imports, the reading of the package graph from a file that must not
    change meanwhile, and the command line. The Go parser is a parameter that gives
    the import literals of a file, and [strconv.Unquote] is one beside it. *)

From stdpp Require Import prelude strings gmap sorting.
From Stdlib Require Import ZArith Lia Ascii.
From S2P Require Import Prelude GoStrings FileSystem Tables Store Files Trees Databases Commands Json VulnPolicy Dependencies.

Local Open Scope string_scope.
Local Open Scope list_scope.
Local Open Scope m_scope.

Definition forbiddenSourceImports : gmap string string :=
  {[ "crypto/md5" := "weak hash"; "crypto/sha1" := "weak hash"; forbiddenLegacyFilePackage := "removed unsafe path helper" ]}.

(** [filepath.Ext] of a name. *)
Fixpoint Ext (name : string) : string :=
  match name with
  | EmptyString => ""
  | String a r => if contains_byte "." r then Ext r else if bool_decide (a = "."%char) then name else ""
  end.

(** [os.ReadDir]: the names in order, each with the type of its entry. *)
Definition listing (fs : FileSystem) (es : gmap string Z) : list (string * FileInfo) :=
  omap (λ name, ino ← es !! name; info ← inode_info fs ino; Some (name, info)) (sorted (dom es)).

Definition readDir (fs : FileSystem) (p : path) : list (string * FileInfo) + ioerr :=
  match resolve maxLinks fs true [] p with
  | inr e => inr e
  | inl (Missing _ _) => inr ENOENT
  | inl (At stack) => match FileSystem.entries fs (top stack) with Some es => inl (listing fs es) | None => inr ENOTDIR end
  end.

Definition os_ReadDir (p : path) : M (res (list (string * FileInfo))) := ask (λ fs, readDir fs p).

(** [Size()] of a regular file. *)
Definition fi_size (info : FileInfo) : N :=
  match fi_kind info with KFile c => N.of_nat (String.length c) | _ => 0 end.

(** The variables that the walk's callback shares. *)
Record inspection := mkInspection {
  in_files : N;
  in_violations : list string;
}.

Section Walk.
Context (ImportLiterals : string → res (list string)) (Unquote : string → option string) (cwd : path) (root : string).

(** The path of the entry that is [rel] below the root. *)
Definition place (rel : path) : path := match rel with [] => walked cwd root | _ => Join cwd root rel end.

Definition isGo (rel : path) : bool :=
  bool_decide (Ext (default (default "" (last (components root))) (last rel)) = ".go").

(** The loop over the imports of one file. *)
Fixpoint importViolations (relative : string) (literals : list string) : res (list string) :=
  match literals with
  | [] => Ok []
  | literal :: rest =>
     match Unquote literal with
     | None => Err (NewError "decode Go import")
     | Some importPath =>
        match importViolations relative rest with
        | Err e => Err e
        | Ok more =>
           match forbiddenSourceImports !! importPath with
           | Some reason => Ok ((relative +:+ ": " +:+ importPath +:+ " (" +:+ reason +:+ ")") :: more)
           | None => Ok more
           end
        end
     end
  end.

Definition legacyViolation (relative : string) : list string :=
  if bool_decide (relative = forbiddenLegacyFileSourcePath) || has_prefix (forbiddenLegacyFileSourcePath +:+ "/") relative
  then [relative +:+ ": removed unsafe path helper package"] else [].

(** The callback on an entry that is not a directory; [rel] is its path below the
    root. *)
Definition visitFile (rel : path) (info : FileInfo) (st : inspection) : M (res inspection) :=
  if is_symlink info then
    if isGo rel then mret (Err (NewError "Go source file is symbolic")) else mret (Ok st)
  else if negb (isGo rel) then mret (Ok st)
  else
    ok sourceInfo <- os_Lstat (place rel) or "inspect Go source file";;
    if negb (is_regular sourceInfo) then mret (Err (NewError "Go source file is not regular"))
    else if (maximumSourceFileBytes <? fi_size sourceInfo)%N then mret (Err (NewError "Go source file exceeds bytes"))
    else
      let relative := join_with "/" rel in
      let violations := in_violations st ++ legacyViolation relative in
      let files := (in_files st + 1)%N in
      if (maximumSourceFiles <? files)%N then mret (Err (NewError "source root exceeds Go files"))
      else
        ok text <- os_ReadFile (place rel) or "parse Go imports";;
        match ImportLiterals text with
        | Err e => mret (Err (Wrap "parse Go imports" e))
        | Ok literals =>
           match importViolations relative literals with
           | Err e => mret (Err e)
           | Ok found => mret (Ok (mkInspection files (violations ++ found)))
           end
        end.

(** The entries of a directory, one after the other; [None] where the fuel ran
    out. *)
Fixpoint walkEntries (walk : path → FileInfo → inspection → M (res (option inspection))) (rel : path)
    (es : list (string * FileInfo)) (st : inspection) : M (res (option inspection)) :=
  match es with
  | [] => mret (Ok (Some st))
  | (name, info) :: rest =>
     ok r <- walk (rel ++ [name]) info st;;
     match r with
     | None => mret (Ok None)
     | Some st' => walkEntries walk rel rest st'
     end
  end.

(** [filepath.WalkDir] with the callback. *)
Fixpoint walk (fuel : nat) (rel : path) (info : FileInfo) (st : inspection) : M (res (option inspection)) :=
  if is_dir info then
    if bool_decide (last rel = Some ".git") then mret (Ok (Some st))
    else match fuel with
         | O => mret (Ok None)
         | S fuel' => ok es <- os_ReadDir (place rel);; walkEntries (walk fuel') rel es st
         end
  else ok st' <- visitFile rel info st;; mret (Ok (Some st')).

Definition inspectSourceImports (fuel : nat) : M (res (option (N * list string))) :=
  ok info <- os_Lstat (place []) or "inspect source root";;
  if negb (is_dir info) || is_symlink info
  then mret (Err (NewError "source root must be a real directory, not a symlink"))
  else
    ok again <- os_Lstat (place []);;
    ok r <- walk fuel [] again (mkInspection 0 []);;
    match r with
    | None => mret (Ok None)
    | Some st =>
       if (in_files st =? 0)%N then mret (Err (NewError "source root contains no Go files"))
       else mret (Ok (Some (in_files st, merge_sort string_le (in_violations st))))
    end.

(** [enforceSourceImports]: whether the check passed, and what is printed. *)
Definition enforceSourceImports (fuel : nat) : M (option (bool * list string)) :=
  r <- inspectSourceImports fuel;;
  mret (match r with
        | Err _ => Some (false, [])
        | Ok None => None
        | Ok (Some (_, violations)) => Some (bool_decide (violations = []), violations)
        end).
End Walk.

(** ** The package graph and the command *)

(** The command's streams and files: what standard input holds, and when a file was
    last changed. *)
Section Command.
Context (ImportLiterals : string → res (list string)) (Unquote : string → option string) (cwd : path).
Context (stdin : res string) (ModTime : FileSystem → Z → Z).

(** [graph.Stat()] with the time. *)
Definition stat_time (ino : Z) : M (res (FileInfo * Z)) :=
  ask (λ fs, match inode_info fs ino with Some info => inl (info, ModTime fs ino) | None => inr EIO end).

Definition read_whole (ino : Z) : M (res string) :=
  ok content <- ask (read_file ino);; mret (readBounded content).

Definition readGraph (p : path) : M (res string) :=
  ok info <- os_Lstat p or "inspect package graph";;
  if negb (is_regular info) || is_symlink info then mret (Err (NewError "package graph is not a regular non-symbolic file"))
  else
    ok graph <- os_Open p or "open package graph";;
    ok opened <- stat_time graph or "inspect opened package graph";;
    if negb (is_regular (fst opened)) || negb (SameFile info (fst opened))
    then mret (Err (NewError "package graph identity changed while opening"))
    else
      ok payload <- read_whole graph or "read package graph";;
      ok after <- stat_time graph or "reinspect opened package graph";;
      if negb (SameFile (fst opened) (fst after)) || negb (fi_size (fst after) =? N.of_nat (String.length payload))%N ||
         negb (snd after =? snd opened)%Z
      then mret (Err (NewError "package graph metadata changed while reading"))
      else
        ok verification <- read_whole graph or "reread package graph";;
        if negb (bool_decide (payload = verification))
        then mret (Err (NewError "package graph bytes changed while reading"))
        else mret (Ok payload).

Definition boundaryFlags : list (string * flagKind) :=
  [("label", StringFlag); ("source-root", StringFlag); ("source-only", BoolFlag)].

(** What is left when the sources passed: the exit status, and what is printed. *)
Definition checkGraph (sourceRoot : string) (sourceOnly : bool) (args : list string) : M (option (Z * list string)) :=
  if sourceOnly then
    mret (Some (if bool_decide (sourceRoot = "") then 1%Z else if negb (bool_decide (args = [])) then 1%Z else 0%Z, []))
  else match args with
       | [graphPath] =>
          payload <- (if bool_decide (graphPath = "-")
                      then mret (match stdin with Err e => Err e | Ok content => readBounded content end)
                      else readGraph (walked cwd graphPath));;
          mret (match payload with Err _ => Some (1%Z, []) | Ok payload => enforce payload end)
       | _ => mret (Some (1%Z, []))
       end.

Definition boundaryMain (fuel : nat) (args : list string) : M (option (Z * list string)) :=
  match parseFlags boundaryFlags ∅ args with
  | Err e => mret (Some (if bool_decide (e = NewError "flag: help requested") then 0%Z else 2%Z, []))
  | Ok (flags, rest) =>
     let sourceRoot := text flags "source-root" "" in
     let graph := checkGraph sourceRoot (isSet flags "source-only") rest in
     if bool_decide (sourceRoot = "") then graph
     else
       checked <- enforceSourceImports ImportLiterals Unquote cwd sourceRoot fuel;;
       match checked with
       | None => mret None
       | Some (false, violations) => mret (Some (1%Z, violations))
       | Some (true, _) => graph
       end
  end.
End Command.

(** ** Runs that only read *)

(** On files at rest the run gives this value, unless a call fails; nothing is
    changed. *)
Definition yields {A} (fs : FileSystem) (m : M (res A)) (v : option A) : Prop := ∀ w, alone w → w_fs w = fs →
  post m w (λ r w', calm w w' ∧ w_db w' = w_db w ∧ match r with Ok a => v = Some a | Err _ => faultless w → v = None end).

Definition value {A} (r : res A) : option A := match r with Ok a => Some a | Err _ => None end.
Definition answer {A} (r : A + ioerr) : option A := match r with inl a => Some a | inr _ => None end.

Lemma yields_ret {A} fs (r : res A) : yields fs (mret r) (value r).
Proof. intros w Hw _. m_step. split_and!; [by apply calm_refl|done|]. by destruct r. Qed.

Lemma yields_ok {A} fs (a : A) : yields fs (mret (Ok a)) (Some a).
Proof. apply (yields_ret fs (Ok a)). Qed.

Lemma yields_err {A} fs e : yields fs (mret (Err e) : M (res A)) None.
Proof. apply (yields_ret fs (Err e)). Qed.

Lemma yields_ask {A} fs (f : FileSystem → A + ioerr) : yields fs (ask f) (answer (f fs)).
Proof.
  intros w Hw <-. apply ask_calm; [done|..].
  - intros w1 H1 Hd Hn. by split_and!.
  - intros w1 H1 Hd. split_and!; [done|done|]. by destruct (f (w_fs w)).
Qed.

Lemma yields_bind {A B} fs (m : M (res A)) (k : res A → M (res B)) v (u : A → option B) :
  yields fs m v → (∀ a, v = Some a → yields fs (k (Ok a)) (u a)) → (∀ e, yields fs (k (Err e)) None) →
  yields fs (mbind m k) (v ≫= u).
Proof.
  intros Hm Hk He w Hw Hfs. apply post_bind. eapply post_mono; [by apply Hm|]. cbv beta. intros r w1 (Hc & Hd & Hr).
  destruct r as [a|e].
  - subst v. eapply post_mono; [apply Hk; [done|by apply (calm_alone _ _ Hc)|by rewrite (calm_fs _ _ Hc)]|]. cbv beta.
    intros r' w2 (Hc2 & Hd2 & Hr2). split_and!; [by eapply calm_trans|congruence|]. destruct r'; [done|].
    intros Hf. apply Hr2. by apply (calm_faultless _ _ Hc).
  - eapply post_mono; [apply He; [by apply (calm_alone _ _ Hc)|by rewrite (calm_fs _ _ Hc)]|]. cbv beta.
    intros r' w2 (Hc2 & Hd2 & Hr2). split_and!; [by eapply calm_trans|congruence|]. destruct r' as [b|e']; [done|].
    intros Hf. by rewrite Hr.
Qed.

Lemma yields_try {A B} fs (m : M (res A)) (k : A → M (res B)) v (u : A → option B) :
  yields fs m v → (∀ a, v = Some a → yields fs (k a) (u a)) → yields fs (try m k) (v ≫= u).
Proof. intros Hm Hk. apply yields_bind; [done|done|intros e; apply yields_err]. Qed.

Lemma yields_try_wrap {A B} fs msg (m : M (res A)) (k : A → M (res B)) v (u : A → option B) :
  yields fs m v → (∀ a, v = Some a → yields fs (k a) (u a)) → yields fs (try_wrap msg m k) (v ≫= u).
Proof. intros Hm Hk. apply yields_bind; [done|done|intros e; apply yields_err]. Qed.

Lemma yields_eq {A} fs (m : M (res A)) v v' : yields fs m v → v = v' → yields fs m v'.
Proof. by intros ? ->. Qed.

(** ** The tree of sources *)

(** What [os.ReadFile] finds. *)
Definition readText (fs : FileSystem) (p : path) : string + ioerr :=
  match resolve maxLinks fs true [] p with
  | inr e => inr e
  | inl (Missing _ _) => inr ENOENT
  | inl (At stack) => read_file (top stack) fs
  end.

Section Tree.
Context (ImportLiterals : string → res (list string)) (Unquote : string → option string) (cwd : path) (root : string).
Context (fs : FileSystem).
Local Abbreviation place := (place cwd root).
Local Abbreviation isGo := (isGo root).

(** The entries that belong to the tree: no symbolic link is followed, and nothing
    below a directory .git belongs to it. *)
Inductive under (rel0 : path) (info0 : FileInfo) : path → FileInfo → Prop :=
| under_here : under rel0 info0 rel0 info0
| under_entry rel info es name info' :
    under rel0 info0 rel info → is_dir info = true → last rel ≠ Some ".git" → readDir fs (place rel) = inl es →
    (name, info') ∈ es → under rel0 info0 (rel ++ [name]) info'.

Definition reached (rel : path) (info : FileInfo) : Prop :=
  ∃ info0, path_info false fs (place []) = inl info0 ∧ under [] info0 rel info.

(** A Go file of the tree, of any type. *)
Definition source (leaf : path * FileInfo) : Prop :=
  reached leaf.1 leaf.2 ∧ is_dir leaf.2 = false ∧ isGo leaf.1 = true.

(** What is wrong with a Go file; [None] when it cannot be judged. *)
Definition fileViolations (leaf : path * FileInfo) : option (list string) :=
  let relative := join_with "/" leaf.1 in
  if is_symlink leaf.2 then None
  else
    info ← answer (path_info false fs (place leaf.1));
    if negb (is_regular info) || (maximumSourceFileBytes <? fi_size info)%N then None
    else
      text ← answer (readText fs (place leaf.1));
      literals ← value (ImportLiterals text);
      found ← value (importViolations Unquote relative literals);
      Some (legacyViolation relative ++ found).

Fixpoint gatherEntries (below : path → FileInfo → option (list (path * FileInfo))) (rel : path) (es : list (string * FileInfo))
    : option (list (path * FileInfo)) :=
  match es with
  | [] => Some []
  | (name, info) :: rest =>
     first ← below (rel ++ [name]) info; more ← gatherEntries below rel rest; Some (first ++ more)
  end.

(** The Go files below an entry, in the order of the walk; [None] when a directory
    cannot be listed. *)
Fixpoint gather (fuel : nat) (rel : path) (info : FileInfo) : option (list (path * FileInfo)) :=
  if is_dir info then
    if bool_decide (last rel = Some ".git") then Some []
    else match fuel with
         | O => None
         | S fuel' =>
            es ← answer (readDir fs (place rel)); gatherEntries (gather fuel') rel es
         end
  else Some (if isGo rel then [(rel, info)] else []).

(** One file after the other, as the callback counts them. *)
Definition checkLeaf (leaf : path * FileInfo) (st : inspection) : option inspection :=
  found ← fileViolations leaf;
  if (maximumSourceFiles <? in_files st + 1)%N then None else Some (mkInspection (in_files st + 1) (in_violations st ++ found)).

Fixpoint checks (leaves : list (path * FileInfo)) (st : inspection) : option inspection :=
  match leaves with [] => Some st | leaf :: rest => st' ← checkLeaf leaf st; checks rest st' end.

Lemma checks_app l1 l2 st : checks (l1 ++ l2) st = checks l1 st ≫= checks l2.
Proof. revert st. induction l1 as [|x l1 IH]; intros st; simpl; [done|]. destruct (checkLeaf x st); simpl; [apply IH|done]. Qed.

Lemma visitFile_yields rel info st : is_dir info = false →
  yields fs (visitFile ImportLiterals Unquote cwd root rel info st) (checks (if isGo rel then [(rel, info)] else []) st).
Proof.
  intros Hd. unfold visitFile. destruct (isGo rel) eqn:Hgo; cbn [negb].
  2:{ destruct (is_symlink info); apply yields_ok. }
  unfold checks, checkLeaf, fileViolations. cbn [fst snd]. destruct (is_symlink info); [apply yields_err|].
  set (after := λ text, literals ← value (ImportLiterals text);
    found ← value (importViolations Unquote (join_with "/" rel) literals);
    Some (mkInspection (in_files st + 1) ((in_violations st ++ legacyViolation (join_with "/" rel)) ++ found))).
  set (next := λ si, if negb (is_regular si) || (maximumSourceFileBytes <? fi_size si)%N then None else
    if (maximumSourceFiles <? in_files st + 1)%N then None else answer (readText fs (place rel)) ≫= after).
  apply (yields_eq _ _ (answer (path_info false fs (place rel)) ≫= next)).
  { apply yields_try_wrap; [apply (yields_ask fs (λ fs, path_info false fs (place rel)))|]. intros si _. unfold next.
    destruct (negb (is_regular si)); cbn [orb]; [apply yields_err|]. destruct (_ <? fi_size si)%N; [apply yields_err|].
    cbv zeta. destruct (_ <? in_files st + 1)%N; [apply yields_err|].
    apply yields_try_wrap; [apply (yields_ask fs (λ fs, readText fs (place rel)))|]. intros text _. unfold after.
    destruct (ImportLiterals text) as [literals|e]; simpl; [|apply yields_err].
    destruct (importViolations _ _ _); simpl; [apply yields_ok|apply yields_err]. }
  unfold next, after.
  destruct (answer (path_info _ _ _)) as [si|]; simpl; [|done]. destruct (_ || _); simpl; [done|].
  destruct (answer _) as [text|]; simpl; [|by destruct (_ <? _)%N].
  destruct (value (ImportLiterals text)) as [lits|]; simpl; [|by destruct (_ <? _)%N].
  destruct (value (importViolations _ _ _)) as [found|]; simpl; destruct (_ <? _)%N; simpl; try done.
  by rewrite (assoc_L (++)).
Qed.

(** No directory of the tree is deeper than the fuel. *)
Definition bounded (n : nat) : Prop := ∀ rel info, reached rel info → is_dir info = true → (length rel < n)%nat.

Lemma reached_entry rel info es name info' : reached rel info → is_dir info = true → last rel ≠ Some ".git" →
  readDir fs (place rel) = inl es → (name, info') ∈ es → reached (rel ++ [name]) info'.
Proof. intros (info0 & H0 & Hu) Hd Hg He Hin. exists info0. split; [done|]. by eapply under_entry. Qed.

Lemma walkEntries_yields walk_ below rel es : ∀ st,
  (∀ name info st, (name, info) ∈ es →
     yields fs (walk_ (rel ++ [name]) info st) (l ← below (rel ++ [name]) info; Some <$> checks l st)) →
  yields fs (walkEntries walk_ rel es st) (l ← gatherEntries below rel es; Some <$> checks l st).
Proof.
  induction es as [|[name info] rest IH]; intros st H; cbn [walkEntries gatherEntries]; [apply yields_ok|].
  eapply yields_eq; [apply yields_try; [apply H; by left|]|].
  { intros r _. instantiate (1 := λ r, match r with None => Some None | Some st' => l ← gatherEntries below rel rest; Some <$> checks l st' end).
    destruct r as [st'|]; [|apply yields_ok]. apply IH. intros n i st0 Hin. apply H. by right. }
  destruct (below (rel ++ [name]) info) as [l1|]; simpl; [|done].
  destruct (checks l1 st) as [st'|] eqn:E1; simpl; destruct (gatherEntries below rel rest) as [l2|]; simpl; try done;
    by rewrite checks_app, E1.
Qed.

Lemma walk_yields fuel : ∀ rel info st, bounded (length rel + fuel) → reached rel info →
  yields fs (walk ImportLiterals Unquote cwd root fuel rel info st) (l ← gather fuel rel info; Some <$> checks l st).
Proof.
  induction fuel as [|fuel IH]; intros rel info st Hb Hr; cbn [walk gather]; destruct (is_dir info) eqn:Hd.
  1: specialize (Hb _ _ Hr Hd); lia.
  1, 3: (eapply yields_eq; [apply yields_try; [by apply visitFile_yields|intros st' _; apply yields_ok]|];
         by destruct (isGo rel)).
  case_bool_decide as Hg; [apply yields_ok|].
  eapply yields_eq; [apply yields_try; [apply (yields_ask fs (λ fs, readDir fs (place rel)))|]|].
  { intros es Hes. apply (walkEntries_yields _ (gather fuel)). intros name info' st' Hin. apply IH.
    - rewrite length_app. simpl. by replace (length rel + 1 + fuel)%nat with (length rel + S fuel)%nat by lia.
    - destruct (readDir fs (place rel)) as [es'|] eqn:He; [|done]. injection Hes as ->. by eapply reached_entry. }
  by destruct (answer (readDir fs (place rel))).
Qed.

(** *** What the walk gathers *)

Lemma under_prefix rel0 info0 rel info : under rel0 info0 rel info → rel0 `prefix_of` rel.
Proof. induction 1; [done|]. by apply prefix_app_r. Qed.

Lemma under_trans rel0 info0 rel1 info1 rel info : under rel0 info0 rel1 info1 → under rel1 info1 rel info → under rel0 info0 rel info.
Proof. intros H. induction 1; [done|]. by eapply under_entry. Qed.

(** The first step down. *)
Lemma under_first rel0 info0 rel info : under rel0 info0 rel info ↔
  (rel = rel0 ∧ info = info0) ∨
  (is_dir info0 = true ∧ last rel0 ≠ Some ".git" ∧ ∃ es name info1, readDir fs (place rel0) = inl es ∧ (name, info1) ∈ es ∧
     under (rel0 ++ [name]) info1 rel info).
Proof.
  split.
  - induction 1 as [|rel info es name info' H IH Hd Hg He Hin]; [by left|]. right.
    destruct IH as [[-> ->]|(Hd0 & Hg0 & es0 & name0 & info1 & He0 & Hin0 & Hu)].
    + split_and!; [done|done|]. exists es, name, info'. split_and!; [done|done|constructor].
    + split_and!; [done|done|]. exists es0, name0, info1. split_and!; [done|done|]. by eapply under_entry.
  - intros [[-> ->]|(Hd & Hg & es & name & info1 & He & Hin & Hu)]; [constructor|].
    eapply under_trans; [|done]. eapply under_entry; [constructor|done..].
Qed.

(** A check of the depth. *)
Fixpoint shallow (fuel : nat) (rel : path) (info : FileInfo) : bool :=
  if is_dir info then
    match fuel with
    | O => false
    | S fuel' =>
       bool_decide (last rel = Some ".git") ||
       match readDir fs (place rel) with inr _ => true | inl es => forallb (λ e, shallow fuel' (rel ++ [e.1]) e.2) es end
    end
  else true.

Lemma shallow_under fuel : ∀ rel0 info0, shallow fuel rel0 info0 = true →
  ∀ rel info, under rel0 info0 rel info → is_dir info = true → (length rel < length rel0 + fuel)%nat.
Proof.
  induction fuel as [|fuel IH]; intros rel0 info0 Hs rel info Hu Hd; apply under_first in Hu as [[-> ->]|(Hd0 & Hg & es & name & info1 & He & Hin & Hu)];
    cbn [shallow] in Hs; [by rewrite Hd in Hs|by rewrite Hd0 in Hs|lia|].
  rewrite Hd0, He, bool_decide_eq_false_2 in Hs by done. cbn [orb] in Hs. rewrite forallb_forall in Hs.
  specialize (IH (rel0 ++ [name]) info1 (Hs (name, info1) (proj1 (list_elem_of_In _ _) Hin)) rel info Hu Hd).
  rewrite length_app in IH. simpl in IH. lia.
Qed.

Lemma shallow_bounded fuel :
  match path_info false fs (place []) with inl info => shallow fuel [] info = true | inr _ => True end → bounded fuel.
Proof.
  intros H rel info (info0 & Hp & Hu) Hd. rewrite Hp in H. by apply (shallow_under fuel [] info0 H rel info).
Qed.

Lemma under_leaf rel0 info0 rel info : is_dir info0 = false → under rel0 info0 rel info ↔ rel = rel0 ∧ info = info0.
Proof. intros Hd. rewrite under_first. rewrite Hd. naive_solver. Qed.

Lemma under_git rel0 info0 rel info : last rel0 = Some ".git" → under rel0 info0 rel info ↔ rel = rel0 ∧ info = info0.
Proof. intros Hg. rewrite under_first. naive_solver. Qed.

Lemma listing_names es : NoDup (listing fs es).*1.
Proof.
  unfold listing. destruct (sorted_spec (dom es)) as (_ & Hnd & _). induction (sorted (dom es)) as [|n l IH]; simpl; [constructor|].
  apply NoDup_cons in Hnd as [Hn Hnd]. specialize (IH Hnd).
  destruct (es !! n ≫= _) as [[n' i]|] eqn:E; [|done]. destruct (es !! n) as [ino|]; [|done]. simpl in E.
  destruct (inode_info fs ino); [|done]. injection E as <- <-. cbn [fmap list_fmap fst]. constructor; [|done].
  intros ([n' i'] & -> & Hin)%list_elem_of_fmap. apply list_elem_of_omap in Hin as (m & Hm & Hx). simpl in *.
  destruct (es !! m) as [inom|]; [|done]. simpl in Hx. destruct (inode_info fs inom); [|done]. injection Hx as <- <-. done.
Qed.

Lemma readDir_names p es : readDir fs p = inl es → NoDup es.*1.
Proof.
  unfold readDir. destruct (resolve _ _ _ _ _) as [[stack|]|]; [|done..]. destruct (FileSystem.entries _ _) as [es'|]; [|done].
  intros [= <-]. apply listing_names.
Qed.

(** [o] is the list of the Go files among the entries [U], all of whose directories
    can be listed. *)
Definition listable (U : path → FileInfo → Prop) : Prop :=
  ∀ rel info, U rel info → is_dir info = true → last rel ≠ Some ".git" → ∃ es, readDir fs (place rel) = inl es.

Definition collects (U : path → FileInfo → Prop) (o : option (list (path * FileInfo))) : Prop :=
  match o with
  | Some l => NoDup l.*1 ∧ (∀ leaf, leaf ∈ l ↔ U leaf.1 leaf.2 ∧ is_dir leaf.2 = false ∧ isGo leaf.1 = true) ∧ listable U
  | None => ¬ listable U
  end.

Lemma collects_ext U V o : (∀ rel info, U rel info ↔ V rel info) → collects U o → collects V o.
Proof.
  intros Hext. assert (listable U ↔ listable V) as Hl by (unfold listable; by setoid_rewrite Hext).
  destruct o as [l|]; simpl; [|by rewrite Hl]. rewrite Hl. by setoid_rewrite Hext.
Qed.

Lemma collects_union U V o1 o2 : collects U o1 → collects V o2 →
  (∀ rel info info', U rel info → V rel info' → False) →
  collects (λ rel info, U rel info ∨ V rel info) (l1 ← o1; l2 ← o2; Some (l1 ++ l2)).
Proof.
  assert (∀ W, (∀ rel info, W rel info → U rel info ∨ V rel info) → listable (λ rel info, U rel info ∨ V rel info) → listable W) as Hsub.
  { intros W HW H rel info Hw. apply (H rel info). by apply HW. }
  intros HU HV Hdis. destruct o1 as [l1|]; simpl in *; [|intros H; apply HU; apply (Hsub U); auto].
  destruct o2 as [l2|]; simpl in *; [|intros H; apply HV; apply (Hsub V); auto].
  destruct HU as (Hn1 & Hin1 & Hl1), HV as (Hn2 & Hin2 & Hl2). split_and!.
  - rewrite fmap_app. apply NoDup_app. split_and!; [done| |done]. intros rel H1 H2.
    apply list_elem_of_fmap in H1 as ([? info] & -> & [Hu _]%Hin1), H2 as ([? info'] & E & [Hv _]%Hin2). simpl in *. subst. by eapply Hdis.
  - intros leaf. rewrite elem_of_app, Hin1, Hin2. tauto.
  - intros rel info [Hu|Hv]; [by apply Hl1|by apply Hl2].
Qed.

Lemma gatherEntries_collects below rel es : NoDup es.*1 →
  (∀ name info, (name, info) ∈ es → collects (under (rel ++ [name]) info) (below (rel ++ [name]) info)) →
  collects (λ rel' info', ∃ name info, (name, info) ∈ es ∧ under (rel ++ [name]) info rel' info') (gatherEntries below rel es).
Proof.
  induction es as [|[name info] rest IH]; cbn [gatherEntries fmap list_fmap fst]; intros Hnd H.
  { simpl. split_and!; [constructor| |].
    - intros leaf. rewrite elem_of_nil. split; [done|]. intros [(? & ? & []%elem_of_nil & _) _].
    - intros ? ? (? & ? & []%elem_of_nil & _). }
  apply NoDup_cons in Hnd as [Hn Hnd]. eapply collects_ext; [|apply collects_union; [apply H; by left|apply IH; [done|]|]].
  - intros rel' info'. cbv beta. setoid_rewrite elem_of_cons. naive_solver.
  - intros n i Hin. apply H. by right.
  - intros rel' i i' [k1 E1]%under_prefix (n & i1 & Hin & [k2 E2]%under_prefix). subst rel'.
    rewrite <- !(assoc_L (++)) in E2. apply app_inv_head in E2. injection E2 as <- _. destruct Hn.
    apply list_elem_of_fmap. by exists (name, i1).
Qed.

Lemma gather_collects fuel : ∀ rel info, bounded (length rel + fuel) → reached rel info →
  collects (under rel info) (gather fuel rel info).
Proof.
  assert (∀ rel info, is_dir info = false → collects (under rel info) (Some (if isGo rel then [(rel, info)] else []))) as Hleaf.
  { intros rel info Hd. split_and!.
    - destruct (isGo rel); repeat constructor. by intros ?%elem_of_nil.
    - intros [r i]. rewrite under_leaf by done. simpl. destruct (isGo rel) eqn:Hgo.
      + rewrite list_elem_of_singleton. naive_solver.
      + rewrite elem_of_nil. split; [done|]. intros ([-> ->] & _ & ?). congruence.
    - intros r i [-> ->]%under_leaf; congruence. }
  induction fuel as [|fuel IH]; intros rel info Hb Hr; cbn [gather]; destruct (is_dir info) eqn:Hd; try by apply Hleaf.
  { specialize (Hb _ _ Hr Hd). lia. }
  case_bool_decide as Hg.
  { split_and!; [constructor| |].
    - intros [r i]. rewrite under_git by done. rewrite elem_of_nil. simpl. split; [done|]. intros ([-> ->] & ? & _). congruence.
    - intros r i [-> ->]%under_git; done. }
  destruct (readDir fs (place rel)) as [es|e] eqn:He; simpl.
  2:{ intros H. destruct (H rel info (under_here _ _) Hd Hg) as [es Hes]. congruence. }
  assert (collects (λ rel' info', ∃ name info1, (name, info1) ∈ es ∧ under (rel ++ [name]) info1 rel' info')
    (gatherEntries (gather fuel) rel es)) as Hes.
  { apply gatherEntries_collects; [by eapply readDir_names|]. intros name info' Hin. apply IH.
    - rewrite length_app. simpl. by replace (length rel + 1 + fuel)%nat with (length rel + S fuel)%nat by lia.
    - by eapply reached_entry. }
  assert (∀ r i, under rel info r i ↔ (r = rel ∧ i = info) ∨ ∃ name info1, (name, info1) ∈ es ∧ under (rel ++ [name]) info1 r i) as Hext.
  { intros r i. rewrite under_first, He. naive_solver. }
  destruct (gatherEntries _ _ _) as [l|]; simpl in *.
  - destruct Hes as (Hnd & Hin & Hl). split_and!; [done| |].
    + intros [r i]. rewrite Hin, Hext. simpl. split; [tauto|]. intros ([[-> ->]|H] & Hd' & ?); [congruence|tauto].
    + intros r i [[-> ->]|H]%Hext Hd' Hg'; [eauto|by apply (Hl r i)].
  - intros H. apply Hes. intros r i Hu. apply H. apply Hext. by right.
Qed.

Lemma checks_spec l : ∀ st st', checks l st = Some st' ↔
  ∃ vs, Forall2 (λ leaf v, fileViolations leaf = Some v) l vs ∧ (l = [] ∨ in_files st + N.of_nat (length l) ≤ maximumSourceFiles)%N ∧
    st' = mkInspection (in_files st + N.of_nat (length l)) (in_violations st ++ concat vs).
Proof.
  induction l as [|leaf l IH]; intros st st'; cbn [checks].
  { split.
    - intros [= <-]. exists []. split_and!; [constructor|by left|]. destruct st. simpl. by rewrite N.add_0_r, (right_id_L [] (++)).
    - intros (vs & ->%Forall2_nil_inv_l & _ & ->). destruct st. simpl. by rewrite N.add_0_r, (right_id_L [] (++)). }
  unfold checkLeaf. destruct (fileViolations leaf) as [found|] eqn:Hf; simpl.
  2:{ split; [done|]. intros (vs & (v & ? & Hv & _)%Forall2_cons_inv_l & _). congruence. }
  destruct (N.ltb_spec maximumSourceFiles (in_files st + 1)) as [Hlt|Hle]; simpl.
  { split; [done|]. intros (vs & _ & [?|?] & _); [done|lia]. }
  rewrite IH. cbn [in_files in_violations]. split.
  - intros (vs & Hvs & Hc & ->). exists (found :: vs). split_and!; [by constructor|right|].
    + destruct Hc as [->|?]; simpl; lia.
    + simpl. f_equal; [lia|by rewrite (assoc_L (++))].
  - intros (vs & (v & vs' & Hv & Hvs & ->)%Forall2_cons_inv_l & Hc & ->). exists vs'. rewrite Hf in Hv. injection Hv as <-. split_and!; [done| |].
    + right. destruct Hc as [?|?]; [done|lia].
    + simpl. f_equal; [lia|by rewrite (assoc_L (++))].
Qed.

(** The source tree passes with this number of Go files and these violations. *)
Record verified (n : N) (violations : list string) : Prop := {
  vf_root : ∃ info, path_info false fs (place []) = inl info ∧ is_dir info = true;
  vf_listable : listable reached;
  vf_files : ∃ leaves vs, NoDup leaves.*1 ∧ (∀ leaf, leaf ∈ leaves ↔ source leaf) ∧
    Forall2 (λ leaf v, fileViolations leaf = Some v) leaves vs ∧ n = N.of_nat (length leaves) ∧ violations ≡ₚ concat vs;
  vf_count : (1 ≤ n ≤ maximumSourceFiles)%N;
  vf_sorted : Sorted string_le violations;
}.

Lemma source_perm l l' : NoDup l.*1 → NoDup l'.*1 → (∀ leaf, leaf ∈ l ↔ source leaf) → (∀ leaf, leaf ∈ l' ↔ source leaf) → l ≡ₚ l'.
Proof. intros Hn Hn' H H'. apply NoDup_Permutation; [by eapply NoDup_fmap_1..|]. intros leaf. by rewrite H, H'. Qed.

(** Whatever else is counted, a tree without violations has none. *)
Lemma verified_clean n n' violations : verified n [] → verified n' violations → violations = [].
Proof.
  intros [_ _ (l & vs & Hn & Hl & Hvs & _ & Hp) _ _] [_ _ (l' & vs' & Hn' & Hl' & Hvs' & _ & Hp') _ _].
  assert (∀ s, s ∉ violations) as Hno.
  { intros s Hs. rewrite Hp', list_elem_of_In, in_concat in Hs. destruct Hs as (v & Hv%list_elem_of_In & Hs).
    apply list_elem_of_lookup in Hv as [i Hi]. destruct (Forall2_lookup_r _ _ _ _ _ Hvs' Hi) as (leaf & Hleaf & Hf).
    apply list_elem_of_lookup_2, Hl', Hl, list_elem_of_lookup in Hleaf as [j Hj].
    destruct (Forall2_lookup_l _ _ _ _ _ Hvs Hj) as (v' & Hv' & Hf'). rewrite Hf in Hf'. injection Hf' as <-.
    apply Permutation_nil_l in Hp. assert (s ∈ concat vs) as Hbad.
    { apply list_elem_of_In, in_concat. exists v. split; [|done]. apply list_elem_of_In. by eapply list_elem_of_lookup_2. }
    rewrite <- Hp in Hbad. by apply elem_of_nil in Hbad. }
  destruct violations as [|s rest]; [done|]. destruct (Hno s). by left.
Qed.

Lemma symlink_dir info : is_dir info = true → is_symlink info = false.
Proof. unfold is_dir, is_symlink. by destruct (fi_kind info). Qed.

(** The result of the walk, without the walk. *)
Definition inspectP (fuel : nat) : option (option (N * list string)) :=
  info ← answer (path_info false fs (place []));
  if negb (is_dir info) then None
  else
    st ← gather fuel [] info ≫= λ l, checks l (mkInspection 0 []);
    if (in_files st =? 0)%N then None else Some (Some (in_files st, merge_sort string_le (in_violations st))).

Lemma inspect_yields fuel : bounded fuel →
  yields fs (inspectSourceImports ImportLiterals Unquote cwd root fuel) (inspectP fuel).
Proof.
  intros Hb. unfold inspectSourceImports, inspectP.
  apply yields_try_wrap; [apply (yields_ask fs (λ fs, path_info false fs (place [])))|]. intros info Hi.
  destruct (is_dir info) eqn:Hd; cbn [negb orb]; [|apply yields_err]. rewrite (symlink_dir _ Hd).
  destruct (path_info false fs (place [])) as [info'|] eqn:Hp; [|done]. injection Hi as ->.
  set (next := λ i, st ← gather fuel [] i ≫= λ l, checks l (mkInspection 0 []);
    if (in_files st =? 0)%N then None else Some (Some (in_files st, merge_sort string_le (in_violations st)))).
  apply (yields_eq _ _ (answer (path_info false fs (place [])) ≫= next)); [|by rewrite Hp].
  apply yields_try; [apply (yields_ask fs (λ fs, path_info false fs (place [])))|]. unfold next. intros again Ha. rewrite Hp in Ha. injection Ha as <-.
  eapply yields_eq; [apply yields_try; [apply walk_yields; [done|exists info; split; [done|constructor]]|]|].
  { intros r _. instantiate (1 := λ r, match r with None => Some None | Some st =>
      if (in_files st =? 0)%N then None else Some (Some (in_files st, merge_sort string_le (in_violations st))) end).
    destruct r as [st|]; [|apply yields_ok]. destruct (_ =? 0)%N; [apply yields_err|apply yields_ok]. }
  destruct (gather fuel [] info) as [l|]; simpl; [|done]. by destruct (checks l _).
Qed.

Lemma inspectP_spec fuel : bounded fuel →
  match inspectP fuel with
  | Some (Some (n, violations)) => verified n violations
  | Some None => False
  | None => ∀ n violations, ¬ verified n violations
  end.
Proof.
  intros Hb. unfold inspectP. destruct (path_info false fs (place [])) as [info|e] eqn:Hp; simpl.
  2:{ intros n v [(? & ? & _) _ _ _ _]. congruence. }
  destruct (is_dir info) eqn:Hd; cbn [negb].
  2:{ intros n v [(? & ? & ?) _ _ _ _]. congruence. }
  assert (reached [] info) as Hr by (exists info; split; [done|constructor]).
  assert (∀ rel i, reached rel i ↔ under [] info rel i) as Hreach.
  { intros rel i. split; [intros (info0 & E & H)|intros H; exists info; by split]. rewrite Hp in E. by injection E as <-. }
  pose proof (gather_collects fuel [] info Hb Hr) as Hg.
  eapply collects_ext in Hg; [|intros rel i; symmetry; apply Hreach].
  destruct (gather fuel [] info) as [l|]; simpl in *.
  2:{ intros n v [_ Hl _ _ _]. done. }
  destruct Hg as (Hnd & Hin & Hl).
  assert ((∀ st, checks l (mkInspection 0 []) = Some st → in_files st = 0%N) → ∀ n v, ¬ verified n v) as Hno.
  { intros Hst n v [_ _ (l' & vs' & Hn' & Hin' & Hvs' & -> & Hperm) Hc _].
    pose proof (source_perm l l' Hnd Hn' Hin Hin') as Hll. symmetry in Hll.
    destruct (Permutation_Forall2 Hll Hvs') as (vs & Hpv & Hvs).
    pose proof (Permutation_length Hll) as Hlen.
    assert (checks l (mkInspection 0 []) = Some (mkInspection (0 + N.of_nat (length l)) ([] ++ concat vs))) as Hck.
    { apply checks_spec. exists vs. split_and!; [done|right; simpl; lia|done]. }
    specialize (Hst _ Hck). simpl in Hst. lia. }
  destruct (checks l (mkInspection 0 [])) as [st|] eqn:Hck; simpl; [|by apply Hno].
  destruct (N.eqb_spec (in_files st) 0) as [Hz|Hz]; [apply Hno; by intros ? [= <-]|].
  apply checks_spec in Hck as (vs & Hvs & Hc & ->). simpl in *. split; [eauto|done| | |].
  - exists l, vs. split_and!; [done|done|done|done|]. by rewrite merge_sort_Permutation.
  - destruct Hc as [->|Hc]; simpl in *; lia.
  - apply Sorted_merge_sort, _.
Qed.
End Tree.

(** ** The graph file *)

(** The text of a graph that may be checked. *)
Definition graphText (fs : FileSystem) (p : path) : option string :=
  info ← answer (path_info false fs p);
  match fi_kind info with KFile c => value (readBounded c) | _ => None end.

Lemma readBounded_Some c s : value (readBounded c) = Some s → s = c.
Proof. unfold readBounded. destruct (_ <? _)%N; [done|]. by intros [= <-]. Qed.

Lemma readGraph_yields ModTime fs p : yields fs (readGraph ModTime p) (graphText fs p).
Proof.
  unfold readGraph, graphText. apply yields_try_wrap; [apply (yields_ask fs (λ fs, path_info false fs p))|].
  intros info Hi. unfold is_regular at 1, is_symlink. destruct (fi_kind info) as [|c|target|] eqn:Hk; cbn [negb orb]; try apply yields_err.
  destruct (path_info false fs p) as [info'|] eqn:Hp; [|done]. injection Hi as ->.
  apply path_info_At in Hp as (stack & Hr & Hs). apply inode_info_Some in Hs as Hs'. destruct Hs' as (n & Hn & ->). simpl in Hk.
  apply resolve_settled in Hr; [|intros target; rewrite Hn; simpl; by rewrite Hk].
  set (info := mkFileInfo _ _ _ _ _) in *.
  assert (read_file (top stack) fs = inl c) as Hc by (unfold read_file; rewrite Hn; destruct n as [k ? ?]; simpl in *; by rewrite Hk).
  assert (∀ A (k : FileInfo * Z → M (res A)) msg v, yields fs (k (info, ModTime fs (top stack))) v →
    yields fs (ok x <- stat_time ModTime (top stack) or msg;; k x) v) as Hstat.
  { intros A k msg v Hv. unfold stat_time.
    apply (yields_eq _ _ (answer (inl (info, ModTime fs (top stack))) ≫= λ _, v)); [|done].
    apply yields_try_wrap; [|by intros a [= <-]].
    eapply yields_eq; [apply yields_ask|]. cbv beta. by rewrite Hs. }
  assert (∀ A (k : string → M (res A)) msg v, (value (readBounded c) = Some c → yields fs (k c) v) →
    yields fs (ok x <- read_whole (top stack) or msg;; k x) (value (readBounded c) ≫= λ _, v)) as Hread.
  { intros A k msg v Hv. apply yields_try_wrap.
    - unfold read_whole. apply (yields_eq _ _ (answer (read_file (top stack) fs) ≫= λ c, value (readBounded c))); [|by rewrite Hc].
      apply yields_try; [apply (yields_ask fs (read_file (top stack)))|]. intros; apply yields_ret.
    - intros s Hs0. pose proof (readBounded_Some _ _ Hs0) as ->. by apply Hv. }
  apply (yields_eq _ _ (answer (inl (top stack)) ≫= λ _ : Z, value (readBounded c) ≫= λ _, value (readBounded c))).
  2:{ simpl. unfold readBounded. by destruct (_ <? _)%N. }
  apply yields_try_wrap; [unfold os_Open; eapply yields_eq; [apply yields_ask|cbv beta; by rewrite Hr]|]. intros ino [= <-].
  apply Hstat. cbn [fst snd]. unfold is_regular, SameFile. simpl. rewrite Hk, Z.eqb_refl. cbn [negb orb].
  apply Hread. intros Hsome. apply Hstat. cbn [fst snd].
  assert (fi_size info = N.of_nat (String.length c)) as -> by (unfold fi_size, info; simpl; by rewrite Hk).
  rewrite N.eqb_refl, !Z.eqb_refl. cbn [negb orb].
  apply (yields_eq _ _ (value (readBounded c) ≫= λ _, Some c)); [|by rewrite Hsome].
  apply Hread. intros _. rewrite bool_decide_eq_true_2 by done. apply yields_ok.
Qed.

(** ** Properties *)

Section Boundary.
Context (ImportLiterals : string → res (list string)) (Unquote : string → option string) (cwd : path).
Context (stdin : res string) (ModTime : FileSystem → Z → Z).
Local Abbreviation clean fs root := (∃ n, verified ImportLiterals Unquote cwd root fs n []).

Lemma enforceSourceImports_spec root fuel w : alone w → bounded cwd root (w_fs w) fuel →
  post (enforceSourceImports ImportLiterals Unquote cwd root fuel) w (λ r w', calm w w' ∧
    ∃ b violations, r = Some (b, violations) ∧ (b = true → clean (w_fs w) root) ∧ (faultless w → clean (w_fs w) root → b = true)).
Proof.
  intros Hw Hb. unfold enforceSourceImports. apply post_bind.
  eapply post_mono; [by apply (inspect_yields _ _ _ _ _ fuel Hb)|]. cbv beta. intros r w1 (Hc & _ & Hr). m_step. split; [done|].
  pose proof (inspectP_spec ImportLiterals Unquote cwd root (w_fs w) fuel Hb) as Hs.
  destruct r as [[[n violations]|]|e].
  - rewrite Hr in Hs. do 2 eexists. split_and!; [done| |].
    + intros ->%bool_decide_eq_true. eauto.
    + intros _ [n' Hv]. apply bool_decide_eq_true. by eapply verified_clean.
  - by rewrite Hr in Hs.
  - do 2 eexists. split_and!; [done|done|]. intros Hf [n Hv]. rewrite (Hr Hf) in Hs. by destruct (Hs n []).
Qed.

(** The package graph that is named, or read from standard input, has only
    acceptable records and no forbidden package. *)
Definition graphPasses (fs : FileSystem) (sourceRoot : string) (sourceOnly : bool) (args : list string) : Prop :=
  if sourceOnly then sourceRoot ≠ "" ∧ args = []
  else ∃ graphPath payload paths, args = [graphPath] ∧
    (if bool_decide (graphPath = "-") then stdin = Ok payload ∧ readBounded payload = Ok payload
     else graphText fs (walked cwd graphPath) = Some payload) ∧
    graph payload paths ∧ paths ≠ [] ∧ Forall (λ p, isForbidden p = false) paths.

Lemma checkGraph_spec sourceRoot sourceOnly args w : alone w →
  post (checkGraph cwd stdin ModTime sourceRoot sourceOnly args) w (λ r w', calm w w' ∧
    ∃ status printed, r = Some (status, printed) ∧ (status = 0%Z → graphPasses (w_fs w) sourceRoot sourceOnly args) ∧
      (faultless w → graphPasses (w_fs w) sourceRoot sourceOnly args → status = 0%Z)).
Proof.
  intros Hw. unfold checkGraph, graphPasses. destruct sourceOnly.
  { m_step. split; [by apply calm_refl|]. do 2 eexists. split; [done|]. repeat case_bool_decide; naive_solver. }
  destruct args as [|graphPath [|other rest]].
  1, 3: m_step; split; [by apply calm_refl|]; do 2 eexists; split; [done|]; split; [done|];
    intros _ (? & ? & ? & [=] & _).
  apply post_bind.
  set (text := if bool_decide (graphPath = "-") then match stdin with Ok content => value (readBounded content) | Err _ => None end
               else graphText (w_fs w) (walked cwd graphPath)).
  assert (yields (w_fs w) (if bool_decide (graphPath = "-")
    then mret (match stdin with Err e => Err e | Ok content => readBounded content end)
    else readGraph ModTime (walked cwd graphPath)) text) as Hy.
  { unfold text. case_bool_decide; [|apply readGraph_yields]. eapply yields_eq; [apply yields_ret|]. by destruct stdin. }
  assert (∀ payload, text = Some payload ↔ if bool_decide (graphPath = "-") then stdin = Ok payload ∧ readBounded payload = Ok payload
     else graphText (w_fs w) (walked cwd graphPath) = Some payload) as Htext.
  { intros payload. unfold text. case_bool_decide; [|done]. destruct stdin as [content|e]; [|naive_solver].
    unfold readBounded. destruct (_ <? _)%N eqn:E; simpl.
    - split; [done|]. intros [[= <-] H']. by rewrite E in H'.
    - split; [intros [= <-]; by rewrite E|by intros [[= <-] _]]. }
  eapply post_mono; [by apply Hy|]. cbv beta. intros r w1 (Hc & _ & Hr). m_step. split; [done|].
  destruct r as [payload|e].
  - destruct (enforce_spec payload) as (status & printed & -> & _ & Hs & _). do 2 eexists. split_and!; [done| |].
    + intros H0. apply Hs in H0 as (paths & Hg). exists graphPath, payload, paths. by rewrite <- Htext.
    + intros _ (g & payload' & paths & [= <-] & Ht%Htext & Hg). apply Hs. exists paths. congruence.
  - do 2 eexists. split_and!; [done|done|]. intros Hf (g & payload' & paths & [= <-] & Ht%Htext & _). rewrite Hr in Ht; done.
Qed.

(** The command is satisfied: help was asked for, or the sources are clean where a
    root is given and the graph passes. *)
Definition satisfied (fs : FileSystem) (args : list string) : Prop :=
  match parseFlags boundaryFlags ∅ args with
  | Err e => e = NewError "flag: help requested"
  | Ok (flags, rest) =>
     let sourceRoot := text flags "source-root" "" in
     (sourceRoot = "" ∨ clean fs sourceRoot) ∧ graphPasses fs sourceRoot (isSet flags "source-only") rest
  end.

(** C40. The dependency gate, as a whole and on files at rest, always ends with a
    verdict once the fuel is deeper than the source tree, and changes nothing. It
    exits with zero only if every Go file of the tree, symbolic links not followed
    and .git left out, is a regular file within the limits that parses, lies outside
    the removed package and imports nothing forbidden, there are between one and
    4096 of them and all directories can be listed; and the graph, from standard
    input or from a regular file, is a sequence of acceptable records, each one JSON
    object in UTF-8 without a repeated key, with a canonical path, complete and
    without load errors, and none of a forbidden package or of its test variant.
    When no call fails, it exits with zero in all these cases. *)
Theorem boundary_command (fuel : nat) (args : list string) (w : World) : alone w →
  (∀ flags rest, parseFlags boundaryFlags ∅ args = Ok (flags, rest) → text flags "source-root" "" ≠ "" →
     bounded cwd (text flags "source-root" "") (w_fs w) fuel) →
  post (boundaryMain ImportLiterals Unquote cwd stdin ModTime fuel args) w (λ r w', calm w w' ∧
    ∃ status printed, r = Some (status, printed) ∧
      (status = 0%Z → satisfied (w_fs w) args) ∧ (faultless w → satisfied (w_fs w) args → status = 0%Z)).
Proof.
  intros Hw Hb. unfold boundaryMain, satisfied. destruct (parseFlags boundaryFlags ∅ args) as [[flags rest]|e].
  2:{ m_step. split; [by apply calm_refl|]. do 2 eexists. split; [done|]. by case_bool_decide. }
  cbv zeta. specialize (Hb _ _ eq_refl). set (sourceRoot := text flags "source-root" "") in *.
  case_bool_decide as Hroot.
  { eapply post_mono; [by apply checkGraph_spec|]. cbv beta. intros r w1 (Hc & status & printed & -> & H1 & H2).
    split; [done|]. do 2 eexists. split; [done|]. naive_solver. }
  apply post_bind. eapply post_mono; [apply enforceSourceImports_spec; [done|by apply Hb]|]. cbv beta.
  intros r w1 (Hc & b & violations & -> & H1 & H2). destruct b.
  - eapply post_mono; [by apply checkGraph_spec, (calm_alone _ _ Hc)|]. cbv beta. rewrite (calm_fs _ _ Hc).
    intros r w2 (Hc2 & status & printed & -> & H3 & H4). split; [by eapply calm_trans|]. do 2 eexists. split; [done|].
    pose proof (calm_faultless _ _ Hc). naive_solver.
  - m_step. split; [done|]. do 2 eexists. split; [done|]. split; [done|]. intros Hf [[?|Hcl] _]; [done|]. by specialize (H2 Hf Hcl).
Qed.
End Boundary.

(** A checkout with two Go files, a directory that is left out and a graph beside it;
    a file's text is its only import. *)
Definition checkout : FileSystem := mkFS (
  <[1%Z := mkInode (KDir (<["src" := 2%Z]> (<["graph" := 3%Z]> ∅))) 493 0]> (
  <[2%Z := mkInode (KDir (<["main.go" := 4%Z]> (<["pkg" := 5%Z]> (<[".git" := 6%Z]> (<["README" := 8%Z]> ∅))))) 493 0]> (
  <[3%Z := mkInode (KFile (object [field "ImportPath" (q "example.org/a")])) 420 0]> (
  <[4%Z := mkInode (KFile "fmt") 420 0]> (
  <[5%Z := mkInode (KDir (<["b.go" := 7%Z]> ∅)) 493 0]> (
  <[6%Z := mkInode (KDir (<["hook.go" := 9%Z]> ∅)) 493 0]> (
  <[7%Z := mkInode (KFile "os") 420 0]> (
  <[8%Z := mkInode (KSymlink "main.go") 420 0]> (
  <[9%Z := mkInode (KFile "crypto/md5") 420 0]> ∅))))))))) ∅.

Definition checkoutWorld (fs : FileSystem) : World := mkWorld emptyDatabase fs 0 (λ _, quietEvent) false "" [].

Definition runBoundary (fs : FileSystem) (args : list string) : option (Z * list string) :=
  fst (boundaryMain (λ text, Ok [text]) Some [] (Ok "") (λ _ _, 0%Z) 3 args (checkoutWorld fs)).

(** The same with a weak hash in a package below. *)
Example boundary_violation :
  runBoundary (set_inode 7 (mkInode (KFile "crypto/md5") 420 0) checkout) ["-source-root=/src"; "/graph"] =
  Some (1%Z, ["pkg/b.go: crypto/md5 (weak hash)"]).
Proof. vm_compute. reflexivity. Qed.

Definition checkoutArgs : list string := ["-source-root=/src"; "/graph"].

Lemma checkoutArgs_root : match parseFlags boundaryFlags ∅ checkoutArgs with
  | Ok (flags, _) => bool_decide (text flags "source-root" "" = "/src") | Err _ => false end = true.
Proof. vm_compute. reflexivity. Qed.

Lemma boundary_command_witness :
  runBoundary checkout checkoutArgs = Some (0%Z, []) ∧
  satisfied (λ text, Ok [text]) Some [] (Ok "") checkout checkoutArgs.
Proof.
  assert (runBoundary checkout checkoutArgs = Some (0%Z, [])) as Hrun by (vm_compute; reflexivity).
  split; [exact Hrun|].
  assert (∀ flags rest, parseFlags boundaryFlags ∅ checkoutArgs = Ok (flags, rest) → text flags "source-root" "" ≠ "" →
    bounded [] (text flags "source-root" "") checkout 3) as Hb.
  { intros flags rest Hp _. pose proof checkoutArgs_root as Hroot. rewrite Hp in Hroot. apply bool_decide_eq_true in Hroot.
    rewrite Hroot. apply shallow_bounded. vm_compute. reflexivity. }
  destruct (post_run _ _ _ (boundary_command (λ text, Ok [text]) Some [] (Ok "") (λ _ _, 0%Z) 3 checkoutArgs (checkoutWorld checkout)
    (λ n, conj (λ _, eq_refl) (λ _, eq_refl)) Hb) _ _ (run_pair _ _ Hrun)) as (_ & status & printed & E & Hs & _).
  injection E as <- <-. apply Hs. reflexivity.
Defined.
