(* ===== verification/Migration.v ===== *)
(** * The migration tool (src/cmd/migration-tool)

    The command that looks for a migration of the user service and runs it: its
    logger, the checks before anything is touched, the choice of a tool and the
    order of its phases. The interface [MigrationTool] is of CasaOS-Common; the
    tools act on a world of any type. *)

From stdpp Require Import prelude strings gmap.
From Stdlib Require Import ZArith Lia.
From S2P Require Import Prelude GoStrings Commands Daemon.

Local Open Scope string_scope.
Local Open Scope list_scope.

(** ** Output and the logger *)

Inductive stream := Stdout | Stderr.

Definition line : Type := stream * string.

(** A [log.Logger]: the stream it writes to and the prefix of its lines. *)
Definition logger : Type := stream * string.

Definition Printf (l : logger) (text : string) : line := (fst l, snd l +:+ text).

Record Logger := mkLogger {
  DebugMode : bool;
  _debug : logger;
  _info : logger;
  _error : logger;
}.

Definition NewLogger : Logger := mkLogger false (Stdout, "DEBUG: ") (Stdout, "") (Stderr, "ERROR: ").

Definition Debug (l : Logger) (text : string) : list line := if DebugMode l then [Printf (_debug l) text] else [].
Definition Info (l : Logger) (text : string) : list line := [Printf (_info l) text].
Definition Error (l : Logger) (text : string) : list line := [Printf (_error l) text].

(** ** The interface of the tools *)

Record MigrationTool (W : Type) := mkTool {
  IsMigrationNeeded : W → res bool * W;
  PreMigrate : W → res unit * W;
  Migrate : W → res unit * W;
  PostMigrate : W → res unit * W;
}.
Arguments mkTool {W} _ _ _ _.
Arguments IsMigrationNeeded {W} _ _.
Arguments PreMigrate {W} _ _.
Arguments Migrate {W} _ _.
Arguments PostMigrate {W} _ _.

(** The only tool of the program. *)
Definition NewMigrationDummy (W : Type) : MigrationTool W :=
  mkTool (λ w, (Ok false, w)) (λ w, (Ok tt, w)) (λ w, (Ok tt, w)) (λ w, (Ok tt, w)).

(** ** The command *)

(** How the program ends. *)
Inductive ending := Returned | Exited (code : Z) | Panicked (e : goerr).

Definition userServiceName : string := "casaos-user-service.service".
Definition migrationFlags : list (string * flagKind) := [("v", BoolFlag); ("d", BoolFlag); ("f", BoolFlag)].

Section Main.
Context {W : Type} (commit date : string) (error_text : goerr → string).
(** [systemctl.IsServiceRunning]. *)
Context (IsServiceRunning : string → W → res bool * W).

(** The loop that looks for the tool. *)
Fixpoint selectTool (tools : list (MigrationTool W)) (w : W) : res (option (MigrationTool W)) * W :=
  match tools with
  | [] => (Ok None, w)
  | tool :: rest =>
     match IsMigrationNeeded tool w with
     | (Err e, w') => (Err e, w')
     | (Ok true, w') => (Ok (Some tool), w')
     | (Ok false, w') => selectTool rest w'
     end
  end.

(** The phases of the tool that was chosen. *)
Definition runTool (log : Logger) (tool : MigrationTool W) (w : W) : ending * list line * W :=
  match PreMigrate tool w with
  | (Err e, w1) => (Panicked e, [], w1)
  | (Ok _, w1) =>
     match Migrate tool w1 with
     | (Err e, w2) => (Panicked e, [], w2)
     | (Ok _, w2) =>
        match PostMigrate tool w2 with
        | (Err e, w3) => (Returned, Error log ("Migration succeeded, but post-migration failed: " +:+ error_text e), w3)
        | (Ok _, w3) => (Returned, [], w3)
        end
     end
  end.

Definition migrate (log : Logger) (tools : list (MigrationTool W)) (w : W) : ending * list line * W :=
  match selectTool tools w with
  | (Err e, w') => (Panicked e, [], w')
  | (Ok None, w') => (Returned, Info log "No migration to proceed.", w')
  | (Ok (Some tool), w') => runTool log tool w'
  end.

(** The check that the service is stopped, unless -f is given. *)
Definition serviceStopped (log : Logger) (force : bool) (w : W) : option (ending * list line) * W :=
  if force then (None, w)
  else match IsServiceRunning userServiceName w with
       | (Err e, w') => (Some (Panicked e, Error log ("Failed to check if " +:+ userServiceName +:+ " is running")), w')
       | (Ok true, w') =>
          (Some (Exited 1, Info log (userServiceName +:+ " is running. If migration is still needed, try with -f.")), w')
       | (Ok false, w') => (None, w')
       end.

Definition migrationMain (tools : list (MigrationTool W)) (args : list string) (uid : Z) (w : W) : ending * list line * W :=
  match parseFlags migrationFlags ∅ args with
  | Err e => (Exited (if bool_decide (e = NewError "flag: help requested") then 0 else 2), [], w)
  | Ok (flags, _) =>
     if isSet flags "v" then (Exited 0, [(Stdout, "v" +:+ common_Version)], w)
     else
       let banner := [(Stderr, "git commit: " +:+ commit); (Stderr, "build date: " +:+ date)] in
       if negb (uid =? 0)%Z
       then (Exited 1, banner ++ Info NewLogger "Root privileges are required to run this program.", w)
       else
         let debug := bool_decide (text flags "d" "true" = "true") in
         let log := mkLogger debug (_debug NewLogger) (_info NewLogger) (_error NewLogger) in
         match serviceStopped log (isSet flags "f") w with
         | (Some (r, lines), w') => (r, banner ++ lines, w')
         | (None, w') => let '(r, lines, w'') := migrate log tools w' in (r, banner ++ lines, w'')
         end
  end.
End Main.

(** ** The calls of the tools *)

Inductive phase := Needed | Pre | Main | Post.

#[export] Instance phase_eq_dec : EqDecision phase.
Proof. solve_decision. Defined.

(** A call of one of the tools: its place in the list, the phase and the answer,
    [Some true] where the migration is needed or the phase succeeded. *)
Record invocation := mkCall {
  in_tool : nat;
  in_phase : phase;
  in_answer : res bool;
}.

(** A tool that keeps a record of its calls beside what it does. *)
Section Recorded.
Context {W : Type}.

Definition recording {A} (i : nat) (p : phase) (answer : A → bool) (f : W → res A * W) (s : W * list invocation)
    : res A * (W * list invocation) :=
  let '(r, w') := f (fst s) in
  (r, (w', snd s ++ [mkCall i p (match r with Ok a => Ok (answer a) | Err e => Err e end)])).

Definition recorded (i : nat) (tool : MigrationTool W) : MigrationTool (W * list invocation) :=
  mkTool (recording i Needed id (IsMigrationNeeded tool)) (recording i Pre (λ _, true) (PreMigrate tool))
    (recording i Main (λ _, true) (Migrate tool)) (recording i Post (λ _, true) (PostMigrate tool)).

Definition observing (running : string → W → res bool * W) (name : string) (s : W * list invocation)
    : res bool * (W * list invocation) :=
  let '(r, w') := running name (fst s) in (r, (w', snd s)).
End Recorded.

Abbreviation success := (Ok true : res bool).

(** The calls that may be made, from the tool at this place on, and how the program
    ends after them. *)
Inductive course : nat → list invocation → ending → Prop :=
| course_none i : course i [] Returned
| course_skip i l r : course (S i) l r → course i (mkCall i Needed (Ok false) :: l) r
| course_unknown i e : course i [mkCall i Needed (Err e)] (Panicked e)
| course_pre i e : course i [mkCall i Needed success; mkCall i Pre (Err e)] (Panicked e)
| course_main i e : course i [mkCall i Needed success; mkCall i Pre success; mkCall i Main (Err e)] (Panicked e)
| course_post i a : course i [mkCall i Needed success; mkCall i Pre success; mkCall i Main success; mkCall i Post a] Returned.

Section Course.
Context {W : Type} (commit date : string) (error_text : goerr → string) (IsServiceRunning : string → W → res bool * W).

Lemma runTool_course log i (tool : MigrationTool W) w l :
  ∃ r lines w' more, runTool error_text log (recorded i tool) (w, l) = (r, lines, (w', l ++ more)) ∧
    course i (mkCall i Needed success :: more) r.
Proof.
  unfold runTool, recorded, recording. cbn [PreMigrate Migrate PostMigrate fst snd].
  destruct (PreMigrate tool w) as [[u|e] w1]; cbn [fst snd].
  2:{ do 4 eexists. split; [done|apply course_pre]. }
  destruct (Migrate tool w1) as [[u'|e] w2]; cbn [fst snd].
  2:{ do 4 eexists. rewrite <- (assoc_L (++)). split; [done|apply course_main]. }
  destruct (PostMigrate tool w2) as [[u''|e] w3]; cbn [fst snd]; do 4 eexists; rewrite <- !(assoc_L (++)); (split; [done|apply course_post]).
Qed.

Lemma migrate_course log (tools : list (MigrationTool W)) : ∀ i w l,
  ∃ r lines w' more, migrate error_text log (imap (λ k, recorded (i + k)) tools) (w, l) = (r, lines, (w', l ++ more)) ∧
    course i more r.
Proof.
  unfold migrate. induction tools as [|tool rest IH]; intros i w l; simpl.
  { do 4 eexists. split; [by rewrite (right_id_L [] (++))|constructor]. }
  rewrite Nat.add_0_r. unfold recording. cbn [fst snd]. destruct (IsMigrationNeeded tool w) as [[b|e] w1]; cbn [fst snd].
  2:{ do 4 eexists. split; [done|constructor]. }
  destruct b; unfold id; cbv beta iota.
  - destruct (runTool_course log i tool w1 (l ++ [mkCall i Needed success])) as (r & lines & w' & more & -> & Hc).
    do 4 eexists. rewrite <- (assoc_L (++)). by split.
  - destruct (IH (S i) w1 (l ++ [mkCall i Needed (Ok false)])) as (r & lines & w' & more & Hm & Hc).
    replace (imap ((λ k, recorded (i + k)) ∘ S) rest) with (imap (λ k, recorded (W:=W) (S i + k)) rest).
    + rewrite Hm. do 4 eexists. rewrite <- (assoc_L (++)). split; [done|]. by constructor.
    + apply imap_ext. intros k t _. simpl. f_equal. lia.
Qed.

(** Keeping the record changes nothing else. *)
Lemma runTool_recorded log i (tool : MigrationTool W) w l :
  let '(r, lines, s) := runTool error_text log (recorded i tool) (w, l) in
  runTool error_text log tool w = (r, lines, fst s).
Proof.
  unfold runTool, recorded, recording. cbn [PreMigrate Migrate PostMigrate fst snd].
  destruct (PreMigrate tool w) as [[u|e] w1]; cbn [fst snd]; [|done].
  destruct (Migrate tool w1) as [[u'|e] w2]; cbn [fst snd]; [|done].
  by destruct (PostMigrate tool w2) as [[u''|e] w3].
Qed.

Lemma migrate_recorded log (tools : list (MigrationTool W)) : ∀ f w l,
  let '(r, lines, s) := migrate error_text log (imap (λ k, recorded (f k)) tools) (w, l) in
  migrate error_text log tools w = (r, lines, fst s).
Proof.
  unfold migrate. induction tools as [|tool rest IH]; intros f w l; simpl; [done|]. unfold recording. cbn [fst snd].
  destruct (IsMigrationNeeded tool w) as [[[]|e] w1]; cbn [fst snd]; [|apply (IH (f ∘ S))|done].
  apply (runTool_recorded log (f 0%nat)).
Qed.

(** The migration may go ahead: asked for by root, not only for the version, and
    with the service stopped unless it is forced. *)
Definition admits (args : list string) (uid : Z) (w : W) : Prop :=
  uid = 0%Z ∧ ∃ flags rest, parseFlags migrationFlags ∅ args = Ok (flags, rest) ∧ isSet flags "v" = false ∧
    (isSet flags "f" = true ∨ fst (IsServiceRunning userServiceName w) = Ok false).

(** What the run of the tools and of the dummy alone have in common, as the theorem
    below needs it. *)
Definition ordered (args : list string) (uid : Z) (w : W) (recordedRun : ending * list line * (W * list invocation))
    (run dummyRun : ending * list line * W) : Prop :=
  (∃ r lines w' calls, recordedRun = (r, lines, (w', calls)) ∧ run = (r, lines, w') ∧
     ((admits args uid w ∧ course 0 calls r) ∨ (¬ admits args uid w ∧ calls = [] ∧ r ≠ Returned))) ∧
  (let '(r, lines, w') := dummyRun in
   (r = Returned ↔ admits args uid w) ∧ (w' = w ∨ w' = snd (IsServiceRunning userServiceName w))).

Lemma refused args uid w r lines w' : ¬ admits args uid w → r ≠ Returned →
  w' = w ∨ w' = snd (IsServiceRunning userServiceName w) →
  ordered args uid w (r, lines, (w', [])) (r, lines, w') (r, lines, w').
Proof. intros Ha Hr Hw. split; [exists r, lines, w', []; auto 10|split; [by split|done]]. Qed.

Lemma admitted_run args uid w w1 log banner (tools : list (MigrationTool W)) : admits args uid w →
  w1 = w ∨ w1 = snd (IsServiceRunning userServiceName w) →
  ordered args uid w
    (let '(r, lines, s) := migrate error_text log (imap recorded tools) (w1, []) in (r, banner ++ lines, s))
    (let '(r, lines, s) := migrate error_text log tools w1 in (r, banner ++ lines, s))
    (let '(r, lines, s) := migrate error_text log [NewMigrationDummy W] w1 in (r, banner ++ lines, s)).
Proof.
  intros Ha Hw. destruct (migrate_course log tools 0 w1 []) as (r & lines & w' & more & Hm & Hc).
  pose proof (migrate_recorded log tools id w1 []) as Hr. cbn [Nat.add] in Hm.
  change (λ k, recorded (id k)) with (λ k, recorded (W:=W) k) in Hr. rewrite Hm in Hr. cbn [fst] in Hr. split.
  - exists r, (banner ++ lines), w', more. change (imap recorded tools) with (imap (λ k, recorded k) tools). rewrite Hm, Hr. auto 10.
  - simpl. by split.
Qed.

(** The migration command. It calls a migration tool only when it runs as root
    and the user service is stopped or -f is given; otherwise it exits or panics
    without a call. The tools are asked in order, the first that is needed is the
    only one that runs, its phases run one after the other, each only if the one
    before succeeded, and a failed phase ends the program with a panic, except that
    a failure after the migration is only reported. With the tool the program has,
    nothing but the service manager's answer can change the world. *)
Theorem migration_order (tools : list (MigrationTool W)) (args : list string) (uid : Z) (w : W) :
  (∃ r lines w' calls,
     migrationMain commit date error_text (observing IsServiceRunning) (imap recorded tools) args uid (w, []) =
       (r, lines, (w', calls)) ∧
     migrationMain commit date error_text IsServiceRunning tools args uid w = (r, lines, w') ∧
     ((admits args uid w ∧ course 0 calls r) ∨ (¬ admits args uid w ∧ calls = [] ∧ r ≠ Returned))) ∧
  (let '(r, lines, w') := migrationMain commit date error_text IsServiceRunning [NewMigrationDummy W] args uid w in
   (r = Returned ↔ admits args uid w) ∧ (w' = w ∨ w' = snd (IsServiceRunning userServiceName w))).
Proof.
  change (ordered args uid w
    (migrationMain commit date error_text (observing IsServiceRunning) (imap recorded tools) args uid (w, []))
    (migrationMain commit date error_text IsServiceRunning tools args uid w)
    (migrationMain commit date error_text IsServiceRunning [NewMigrationDummy W] args uid w)).
  unfold migrationMain. destruct (parseFlags migrationFlags ∅ args) as [[flags rest]|e] eqn:Hp.
  2:{ apply refused; [intros (_ & flags & rest & Hp' & _); congruence|done|by left]. }
  destruct (isSet flags "v") eqn:Hv.
  { apply refused; [intros (_ & flags' & rest' & Hp' & Hv' & _); congruence|done|by left]. }
  destruct (Z.eqb_spec uid 0) as [->|Hu]; cbn [negb].
  2:{ apply refused; [by intros [Hu' _]|done|by left]. }
  cbv zeta. set (log := mkLogger _ _ _ _). unfold serviceStopped, observing. cbn [fst snd].
  destruct (isSet flags "f") eqn:Hf.
  { apply admitted_run; [split; eauto 10|by left]. }
  destruct (IsServiceRunning userServiceName w) as [[[]|e] w1] eqn:Hs; cbn [fst snd].
  1, 3: apply refused; [intros (_ & flags' & rest' & Hp' & _ & [Hf'|Hs']); [congruence|by rewrite Hs in Hs']|done|right; by rewrite Hs].
  apply admitted_run; [split; [done|]; exists flags, rest; rewrite Hs; auto|right; by rewrite Hs].
Qed.
End Course.

(** A tool whose migration fails half way, behind one that is not needed. *)
Example migration_fails :
  let broken := mkTool (λ n, (Ok true, n)) (λ n, (Ok tt, S n)) (λ n, (Err (NewError "disk full"), S n)) (λ n, (Ok tt, S n)) in
  migrationMain "c" "d" (λ _, "") (λ _ n, (Ok false, n)) [NewMigrationDummy nat; broken] [] 0 0%nat =
  (Panicked (NewError "disk full"), [(Stderr, "git commit: c"); (Stderr, "build date: d")], 2%nat).
Proof. reflexivity. Qed.
